(* ===== verification/_CoqProject ===== *)
-Q . S2P
Prelude.v
Rust.v
Datos.v
Efectos.v
Valor.v
ComandoInfo.v
Parser.v
HttpParser.v
Cliente.v
Canal.v
BaseDeDatos.v
Refinamiento.v
ComandoString.v
ComandoList.v
ComandoSet.v
ComandoKey.v
ComandoSort.v
PubSub.v
Configuracion.v
Persistencia.v
Log.v
Comando.v
Especificacion.v
Servicio.v
ServicioHttp.v
Concurrencia.v
Redis.v
Vida.v
Apagado.v
Reinicio.v
Pruebas.v
PruebasString.v
PruebasList.v
PruebasSet.v
PruebasKey.v
PruebasBase.v
PruebasProtocolo.v
