(* ===== verification/Prelude.v ===== *)
(** * Verification of the Rusticos2 Redis server

    Rusticos2 is a key-value server with the protocol of Redis, written in Rust
    (src/src).  A thread per connection reads commands, runs each against a table
    behind one mutex, and writes the answer; a second mutex holds the configuration;
    a log thread and a persistence thread receive messages through channels.

    ** How the program is modelled

    - [Rust.v]: machine integers at their width, decimal parsing, UTF-8, splitting,
      lines, slices.  A [String] is its UTF-8 bytes.  An operation that can panic
      answers an [option], [None] being the panic.
    - [Datos.v]: the structs and enums, the shared world [Mundo] (both mutexes with
      their poison flag, the clocks, the queues of the two threads, the connections)
      and [Entorno], what the repository does not define: the regex crate, the
      Unicode tables, the build profile, the iteration order of the hash tables.
    - [Efectos.v]: [M], code inside a critical section, which may panic and then
      poisons its mutex; [Prog], a handler, a tree of atomic actions, one for each
      critical section or system call; [correr], which runs a program alone;
      [paso], a step of a pool of threads, of a new thread, of a thread that rests at
      its result and goes on, or of the environment; [da], what a program can answer.
    - [Valor.v] (valor.rs) and [BaseDeDatos.v] (base_de_datos.rs, observer.rs): the
      table and its expirations.  [vista] is the abstract store, the live keys.
      The classes [Interior] and [Invariante] say what an invariant of the world must
      tolerate; every handler is shown to preserve each of their instances.
    - [ComandoInfo.v], [Parser.v], [HttpParser.v] (with comando_http.rs),
      [Cliente.v] (cliente.rs, cliente_redis.rs, cliente_http.rs), [Canal.v]: the
      words of a command, the two protocols, the two kinds of client and channels.
    - [Refinamiento.v]: a specification is a function on the abstract store that
      ends in [Responde], [Aborta] (a panic outside the mutex) or [Envenena] (a panic
      that poisons it); [refina] and its variants say that a handler meets one.
    - [ComandoString.v], [ComandoList.v], [ComandoSet.v], [ComandoKey.v],
      [PubSub.v], [Configuracion.v] (config.rs, comando_server_handler.rs): the
      handlers, one definition each, under the names of the source.
    - [ComandoSort.v]: the specification of SORT and its refinement.
    - [Persistencia.v], [Log.v]: the two service threads, each the loop over the
      messages it receives, and the formats of their files.
    - [Comando.v] (comando.rs, comando_nulo_handler.rs, redis.rs): the choice of the
      handler and the thread of a client.  Its loop has no end of its own, so it is cut
      at the calls that may wait for the peer: a thread rests at a [Punto] (before a
      [peek], before the read of a request, or out of the loop) and [tramo] is what it
      does from one to the next.  [manejar_cliente] joins the turns of a thread that
      runs alone; at the end of its inputs the thread is in its loop, not out of it.
    - [Especificacion.v]: one specification for the commands whose answer the abstract
      store determines ([cubierto]; the others depend on hashers, clocks, patterns or
      the configuration), and the types of their answers.
    - [Servicio.v], [ServicioHttp.v]: what a Redis client and a browser get over their
      connection, as compositions of parser, dispatch, handler, printer and socket.
    - [Concurrencia.v]: commands of several clients at once.
    - [Redis.v] (redis.rs, main.rs): start-up and the acceptance of a connection;
      [Vida.v]: the whole server as a step relation, with the start of [iniciar], its
      endless accept loop, a thread per client, the log and persistence threads on
      their queues, the file system and the phases of [Drop].  [accion] is what the
      server does by itself; [evento] what needs a peer (a connection, its first bytes,
      the return of a [peek] or a read a client thread waits at, [espera]).  The main
      thread leaves [iniciar] only when it cannot start or when a thread cannot be
      created, whose panic unwinds through [Drop].  [Apagado.v]: the shut-down;
      [Reinicio.v]: what a restart keeps and what it does not.
    - [Pruebas.v], [PruebasString.v], [PruebasList.v], [PruebasSet.v], [PruebasKey.v],
      [PruebasBase.v], [PruebasProtocolo.v]: the unit tests of the source as programs
      of the model, all of which pass.

    ** What the theorems show

    - The service, end to end: C1 and C27 (a Redis client that is alone gets the answers
      of the specification, and the log its lines, until its peer hangs up), C9 and C28
      (a browser gets the answer of its form, and the page), C4 (every answer is of the
      kind of its command and can be decoded), C17 (a subscriber receives what is
      published).
    - The whole server, in every interleaving: C2 (the table stays well formed and the
      clients numbered), C6 (the shut-down can only hang on a silent peer), C7 (it ends
      once the peers have hung up), C8 (the log file is complete), C10 (the table again,
      for any pool of clients), C11 (a poisoned database is frozen), C18 (and its
      commands answer errors).
    - Concurrency: C3 (commands with one critical section are linearizable), C19 and C20
      (a push with two sections, and MONITOR, are not: an update is lost, the wrong
      client is subscribed).
    - Refinement of the abstract store, every branch, errors and panics included:
      C12 strings, C13 lists, C14 sets, C15 copies, renames and deletions, C32 SORT with
      all its options, C16 and C40 subscriptions and publications.
    - Behaviour of single commands: C21, C22, C29 (strings, with the 32-bit bounds of
      INCRBY), C30 (lists), C31 (SORT), C33 and C34 (expirations), and in each file
      others that are not listed here.
    - Formats: C23, C24 and C26 (requests and answers of the protocol, and the words the
      parser cannot read), C25 (the persistence file), C35 (the configuration file).
    - Persistence: C5 (a write that was saved survives a restart), C36 (a FLUSHDB does
      not), C38 (the word EX in a list prevents the restart), C37 (what is not saved).
      C39: the log thread alone.

    Several theorems state what the code does where that is not what its comments
    say: C19 to C21, C31 to C34, C36 to C38.

    ** Bounds and fuel

    [drenar] takes more fuel than parameters are left ([parametros_visitados]) and the
    handlers use its closed form [parametros_restantes].  [leer_respuesta], the reader
    of C1 and C24, needs the depth of the result as fuel, which [decodificable] checks.
    [manejar_cliente] consumes one entry of its list of inputs per turn, and its
    theorems hold for every list.  The pools of C10 and C11 and the server of C2, C6, C7
    and C8 have no such list: their clients go round their loops as often as their peers
    make them.  The 32-bit arithmetic of the indices of lists is checked for overflow in
    the handlers; [listas_cortas] bounds the
    lists by [i32::MAX], where the casts of the list handlers are exact,
    [sort_medible] the elements LIMIT measures, and [estado_ok] the sizes a machine can
    have.  The tokens of clients are not wrapped at 2^63.

    ** What is not modelled

    What the operating system does behind [bind], [accept], [peek], [read] and
    [write]: their answers are data of the model.  The exhaustion of memory (a request
    may announce a very large vector), [Debug] output, the assets and the integration
    tests, which use a third-party client.  An atomic action reads one instant. A write
    to an open file does not fail, and a [write] to a socket takes some first bytes or
    fails.  The read of a whole request is one call that may wait.  A queue keeps what is
    sent to a thread that has ended; the code ignores such a failed [send]. *)
From Stdlib Require Export ZArith Lia Sorted Ascii.
From stdpp Require Export base tactics list gmap strings numbers pretty option.

(** The hint databases of the development: [redis] for [auto], and the rewrite
    database [correr] that executes programs symbolically. *)
Create HintDb redis.
Create Rewrite HintDb correr.
Create Rewrite HintDb redis_vista.

(** ** Options and lists *)

(** [find] of the first position, as [Iterator::position]. *)
Fixpoint posicion {A} (f : A → bool) (l : list A) : option nat :=
  match l with
  | [] => None
  | x :: l' => if f x then Some 0 else S <$> posicion f l'
  end.

Lemma posicion_Some {A} (f : A → bool) (l : list A) i :
  posicion f l = Some i →
  ∃ x, l !! i = Some x ∧ f x = true ∧ ∀ j y, j < i → l !! j = Some y → f y = false.
Proof.
  revert i. induction l as [|a l IH]; intros i; simpl; [done|].
  destruct (f a) eqn:Hf; intros Hi; simplify_eq.
  - exists a. split_and!; [done..|]. intros j y Hj; lia.
  - apply fmap_Some in Hi as (i' & Hi' & ->).
    destruct (IH _ Hi') as (x & Hx & Hfx & Hmin).
    exists x. split_and!; [done..|]. intros [|j] y Hj Hy; simplify_eq/=; [done|].
    eapply Hmin; [|done]. lia.
Qed.

(** Removal of one position, as [Vec::remove] on an index in range. *)
Definition quitar {A} (i : nat) (l : list A) : list A := take i l ++ drop (S i) l.

Lemma length_quitar {A} i (l : list A) :
  i < length l → length (quitar i l) = pred (length l).
Proof. intros. unfold quitar. rewrite length_app, length_take, length_drop. lia. Qed.

(** Insertion at one position, as [Vec::insert] on an index in range. *)
Definition insertar {A} (i : nat) (x : A) (l : list A) : list A :=
  take i l ++ x :: drop i l.

Lemma length_insertar {A} i (x : A) l : length (insertar i x l) = S (length l).
Proof.
  unfold insertar. rewrite length_app, length_take. simpl. rewrite length_drop. lia.
Qed.

(** ** Stable insertion sort over a boolean order

    [slice::sort] and [slice::sort_by] are stable; the order is given by the
    comparison the code uses. *)
Section ordenar.
Context {A : Type} (leb : A → A → bool).

Fixpoint insertar_ordenado (x : A) (l : list A) : list A :=
  match l with
  | [] => [x]
  | y :: l' => if leb x y then x :: l else y :: insertar_ordenado x l'
  end.

Definition ordenar (l : list A) : list A := foldr insertar_ordenado [] l.

Lemma insertar_ordenado_perm x l : insertar_ordenado x l ≡ₚ x :: l.
Proof.
  induction l as [|y l IH]; simpl; [done|].
  destruct (leb x y); [done|]. rewrite IH. apply Permutation_swap.
Qed.

Lemma ordenar_perm l : ordenar l ≡ₚ l.
Proof. induction l; simpl; [done|]. by rewrite insertar_ordenado_perm, IHl. Qed.

Context (leb_total : ∀ x y, leb x y = false → leb y x = true).
Context (leb_trans : ∀ x y z, leb x y = true → leb y z = true → leb x z = true).

Lemma insertar_ordenado_sorted x l :
  StronglySorted (λ a b, leb a b = true) l →
  StronglySorted (λ a b, leb a b = true) (insertar_ordenado x l).
Proof.
  induction 1 as [|y l Hl IH Hy]; simpl; [repeat constructor|].
  destruct (leb x y) eqn:Hxy.
  - constructor; [by constructor|]. constructor; [done|].
    eapply Forall_impl; [|exact Hy]. intros z Hz. by apply (leb_trans x y z).
  - constructor; [done|]. rewrite insertar_ordenado_perm. constructor; auto.
Qed.

Lemma ordenar_sorted l : StronglySorted (λ a b, leb a b = true) (ordenar l).
Proof.
  induction l; simpl; [constructor|]. by apply insertar_ordenado_sorted.
Qed.
End ordenar.

(** [Ord for String]: bytewise lexicographic order. *)
Fixpoint string_leb (s1 s2 : string) : bool :=
  match s1, s2 with
  | EmptyString, _ => true
  | String _ _, EmptyString => false
  | String a s1', String b s2' =>
      let x := Ascii.N_of_ascii a in
      let y := Ascii.N_of_ascii b in
      N.ltb x y || N.eqb x y && string_leb s1' s2'
  end.

Lemma string_leb_total s1 s2 : string_leb s1 s2 = false → string_leb s2 s1 = true.
Proof.
  revert s2. induction s1 as [|a s1 IH]; intros [|b s2]; simpl; [done..|].
  rewrite orb_false_iff, andb_false_iff, orb_true_iff, andb_true_iff, N.ltb_ge, N.ltb_lt,
    N.eqb_neq, N.eqb_eq.
  intros [Hle [Hne|Hs]]; [left; lia|].
  destruct (N.eq_dec (Ascii.N_of_ascii a) (Ascii.N_of_ascii b)) as [He|]; [|left; lia].
  right. split; [by symmetry|by apply IH].
Qed.

Lemma string_leb_trans s1 s2 s3 :
  string_leb s1 s2 = true → string_leb s2 s3 = true → string_leb s1 s3 = true.
Proof.
  revert s2 s3. induction s1 as [|a s1 IH]; intros [|b s2] [|c s3]; simpl; [done..|].
  rewrite !orb_true_iff, !andb_true_iff, !N.ltb_lt, !N.eqb_eq.
  intros [Hab|[Hab Hs]] [Hbc|[Hbc Ht]]; [left; lia..|right].
  split; [congruence|by eapply IH].
Qed.

(** ** The last element *)

Lemma posicion_app_last {A} (f : A → bool) l x :
  Forall (λ y, f y = false) l → f x = true → posicion f (l ++ [x]) = Some (length l).
Proof.
  induction 1 as [|y l Hy _ IH]; intros Hx; cbn [app posicion length]; [by rewrite Hx|].
  by rewrite Hy, IH.
Qed.

Lemma quitar_app_last {A} (l : list A) x : quitar (length l) (l ++ [x]) = l.
Proof.
  unfold quitar. rewrite take_app_length. rewrite drop_ge; [by rewrite app_nil_r|].
  rewrite length_app. cbn. lia.
Qed.

Lemma Forall_sublist {A} (P : A → Prop) l' l : l' `sublist_of` l → Forall P l → Forall P l'.
Proof.
  induction 1 as [|x l1 l2 _ IH|x l1 l2 _ IH]; [done|..]; intros [Hx Hf]%Forall_cons_iff; auto.
Qed.

(** ** Prefixes *)

Lemma prefix_take {A} n n' (l l' : list A) :
  (n <= n')%nat → l `prefix_of` l' → take n l `prefix_of` take n' l'.
Proof.
  intros Hn [k ->]. rewrite take_app. apply prefix_app_r.
  exists (drop n (take n' l)). rewrite <-(take_drop n (take n' l)) at 1. by rewrite take_take, Nat.min_l.
Qed.

Lemma take_prefix_eq {A} n (l l' : list A) :
  (n <= length l)%nat → l `prefix_of` l' → take n l' = take n l.
Proof. intros Hn [k ->]. by rewrite take_app_le. Qed.
