(* ===== verification/Rust.v ===== *)
(** * The part of Rust's language and standard library the server uses

    Machine integers with their width, decimal parsing and printing, UTF-8,
    string splitting, lines of a [BufRead], and slices.  A [String] is its UTF-8
    bytes ([string]), so [len] is [String.length]; a [Vec] is a [list].  An
    operation that can panic returns [option], [None] being the panic. *)
From S2P Require Import Prelude.

#[local] Open Scope Z_scope.

(** ** Machine integers *)

Definition i32_min : Z := -2147483648.
Definition i32_max : Z := 2147483647.
Definition u32_max : Z := 4294967295.
Definition u64_max : Z := 18446744073709551615.
Definition i64_max : Z := 9223372036854775807.
Definition i64_min : Z := -9223372036854775808.

Definition en_rango (lo hi z : Z) : bool := (lo <=? z) && (z <=? hi).
#[global] Arguments en_rango : simpl never.
Definition es_i32 : Z → bool := en_rango i32_min i32_max.

(** [as i32], [as isize] and [as usize]: two's complement truncation (the target
    is a 64-bit platform). *)
Definition como_i32 (z : Z) : Z := (z + 2147483648) mod 4294967296 - 2147483648.
Definition como_isize (z : Z) : Z :=
  (z + 9223372036854775808) mod 18446744073709551616 - 9223372036854775808.
Definition como_usize (z : Z) : Z := z mod 18446744073709551616.

Lemma en_rango_spec lo hi z : en_rango lo hi z = true ↔ lo ≤ z ≤ hi.
Proof. unfold en_rango. lia. Qed.

Lemma es_i32_spec z : es_i32 z = true ↔ i32_min ≤ z ≤ i32_max.
Proof. apply en_rango_spec. Qed.

Lemma como_i32_id z : es_i32 z = true → como_i32 z = z.
Proof.
  rewrite es_i32_spec. unfold como_i32, i32_min, i32_max. intros.
  rewrite Z.mod_small; lia.
Qed.

Lemma como_i32_rango z : es_i32 (como_i32 z) = true.
Proof.
  rewrite es_i32_spec. unfold como_i32, i32_min, i32_max.
  pose proof (Z.mod_pos_bound (z + 2147483648) 4294967296). lia.
Qed.

Lemma como_isize_id z : i64_min ≤ z ≤ i64_max → como_isize z = z.
Proof. unfold como_isize, i64_min, i64_max. intros. rewrite Z.mod_small; lia. Qed.

Lemma como_isize_rango z : en_rango i64_min i64_max (como_isize z) = true.
Proof.
  rewrite en_rango_spec. unfold como_isize, i64_min, i64_max.
  pose proof (Z.mod_pos_bound (z + 9223372036854775808) 18446744073709551616). lia.
Qed.

Lemma como_usize_id z : 0 ≤ z ≤ u64_max → como_usize z = z.
Proof. unfold como_usize, u64_max. intros. rewrite Z.mod_small; lia. Qed.

(** An addition, subtraction or negation whose mathematical result is [z]: in a
    build with overflow checks (the debug profile of [cargo run]) it panics when
    [z] does not fit, otherwise it wraps. *)
Definition aritmetica_i32 (comprobar : bool) (z : Z) : option Z :=
  if es_i32 z then Some z else if comprobar then None else Some (como_i32 z).
Definition aritmetica_usize (comprobar : bool) (z : Z) : option Z :=
  if en_rango 0 u64_max z then Some z
  else if comprobar then None else Some (como_usize z).

Lemma aritmetica_i32_ok c z : es_i32 z = true → aritmetica_i32 c z = Some z.
Proof. unfold aritmetica_i32. by intros ->. Qed.

Lemma aritmetica_usize_ok c z : 0 ≤ z ≤ u64_max → aritmetica_usize c z = Some z.
Proof. intros. unfold aritmetica_usize. by rewrite (proj2 (en_rango_spec 0 u64_max z)). Qed.

(** ** Decimal integers: [str::parse] and [to_string] *)

Definition valor_digito (a : ascii) : option Z :=
  let n := Z.of_N (Ascii.N_of_ascii a) in
  if (48 <=? n) && (n <=? 57) then Some (n - 48) else None.

Fixpoint parse_digitos (acc : Z) (s : string) : option Z :=
  match s with
  | EmptyString => Some acc
  | String a s' =>
      match valor_digito a with
      | Some d => parse_digitos (acc * 10 + d) s'
      | None => None
      end
  end.

(** One or more digits. *)
Definition parse_natural (s : string) : option Z :=
  match s with EmptyString => None | _ => parse_digitos 0 s end.

(** [from_str_radix(_, 10)]: an optional [+] (or [-] when the type is signed),
    then at least one digit, and the value in range. *)
Definition parse_entero (con_signo : bool) (lo hi : Z) (s : string) : option Z :=
  z ← match s with
      | String "+" s' => parse_natural s'
      | String "-" s' => if con_signo then Z.opp <$> parse_natural s' else None
      | _ => parse_natural s
      end;
  if en_rango lo hi z then Some z else None.

Definition parse_i32 : string → option Z := parse_entero true i32_min i32_max.
Definition parse_u32 : string → option Z := parse_entero false 0 u32_max.
Definition parse_u64 : string → option Z := parse_entero false 0 u64_max.
Definition parse_usize : string → option Z := parse_entero false 0 u64_max.

(** [to_string] of an integer. *)
Definition mostrar (z : Z) : string := pretty z.

Lemma parse_entero_rango cs lo hi s z :
  parse_entero cs lo hi s = Some z → lo ≤ z ≤ hi.
Proof.
  unfold parse_entero. intros (z' & _ & H)%bind_Some.
  case_match; simplify_eq. by apply en_rango_spec.
Qed.

Lemma parse_i32_rango s z : parse_i32 s = Some z → es_i32 z = true.
Proof. intros ?%parse_entero_rango. by apply es_i32_spec. Qed.
#[export] Hint Resolve parse_i32_rango : redis.

Lemma valor_digito_pretty x :
  (x < 10)%N → valor_digito (pretty_N_char x) = Some (Z.of_N x).
Proof.
  intros. assert (x = 0 ∨ x = 1 ∨ x = 2 ∨ x = 3 ∨ x = 4 ∨ x = 5 ∨ x = 6 ∨ x = 7
    ∨ x = 8 ∨ x = 9)%N as Hx by lia.
  destruct_or!; subst; reflexivity.
Qed.

Lemma parse_digitos_pretty_go x s :
  (0 < x)%N → parse_digitos 0 (pretty_N_go x s) = parse_digitos (Z.of_N x) s.
Proof.
  revert s. induction (N.lt_wf_0 x) as [x _ IH]; intros s Hx.
  rewrite pretty_N_go_step by done.
  assert (parse_digitos (Z.of_N (x `div` 10)) (String (pretty_N_char (x `mod` 10)) s)
    = parse_digitos (Z.of_N x) s) as Hpaso.
  { simpl. rewrite valor_digito_pretty by (by apply N.mod_lt).
    f_equal. rewrite N2Z.inj_div, N2Z.inj_mod. pose proof (Z.div_mod (Z.of_N x) 10). lia. }
  destruct (decide (x `div` 10 = 0)%N) as [H0|H0].
  - rewrite H0, pretty_N_go_0, <-Hpaso, H0. done.
  - rewrite IH; [done|apply N.div_lt; lia|by apply N.neq_0_lt_0].
Qed.

Lemma pretty_N_digitos (x : N) :
  parse_natural (pretty x) = Some (Z.of_N x).
Proof.
  unfold pretty, pretty_N. case_decide as Hx; [by subst|].
  assert (parse_digitos 0 (pretty_N_go x "") = Some (Z.of_N x)) as Hd
    by (rewrite parse_digitos_pretty_go by lia; done).
  unfold parse_natural. destruct (pretty_N_go x "") as [|a s] eqn:Hs; [|done].
  simpl in Hd. simplify_eq. lia.
Qed.

Lemma pretty_N_no_signo (x : N) (a : ascii) s :
  pretty x = String a s → a ≠ "+"%char ∧ a ≠ "-"%char.
Proof.
  intros Hs. pose proof (pretty_N_digitos x) as Hd. rewrite Hs in Hd. simpl in Hd.
  split; intros ->; done.
Qed.

(** Parsing what [to_string] prints gives the number back. *)
Lemma parse_mostrar cs lo hi z :
  lo ≤ z ≤ hi → (cs = false → 0 ≤ z) → parse_entero cs lo hi (mostrar z) = Some z.
Proof.
  intros Hz Hs.
  assert (en_rango lo hi z = true) as Hr by by apply en_rango_spec.
  assert ((Some z ≫= λ z, if en_rango lo hi z then Some z else None) = Some z) as Hb
    by (simpl; by rewrite Hr).
  unfold parse_entero, mostrar. destruct z as [|p|p].
  - exact Hb.
  - change (pretty (Z.pos p)) with (pretty (N.pos p)).
    pose proof (pretty_N_digitos (N.pos p)) as Hd.
    destruct (pretty (N.pos p)) as [|a s] eqn:Hp; [done|].
    apply pretty_N_no_signo in Hp as [? ?].
    replace (match String a s with String "+" s' => parse_natural s'
      | String "-" s' => if cs then Z.opp <$> parse_natural s' else None
      | _ => parse_natural (String a s) end) with (parse_natural (String a s)).
    + rewrite Hd. exact Hb.
    + destruct a as [[] [] [] [] [] [] [] []]; done.
  - change (pretty (Z.neg p)) with ("-" +:+ pretty (N.pos p)).
    pose proof (pretty_N_digitos (N.pos p)) as Hd.
    change ("-" +:+ pretty (N.pos p)) with (String "-" (pretty (N.pos p))).
    destruct cs; [|specialize (Hs eq_refl); lia].
    rewrite Hd. exact Hb.
Qed.

Lemma parse_mostrar_i32 z : es_i32 z = true → parse_i32 (mostrar z) = Some z.
Proof. intros ?%es_i32_spec. by apply parse_mostrar. Qed.

(** A number below [10^k] has at most [k] digits. *)
Lemma pretty_N_go_largo k x s :
  (x < 10 ^ N.of_nat k)%N → (String.length (pretty_N_go x s) <= k + String.length s)%nat.
Proof.
  revert x s. induction k as [|k IH]; intros x s Hx.
  - replace x with 0%N by (cbn in Hx; lia). by rewrite pretty_N_go_0.
  - destruct (decide (x = 0)%N) as [->|Hne]; [rewrite pretty_N_go_0; lia|].
    rewrite pretty_N_go_step by lia. etrans; [apply IH|cbn; lia].
    rewrite Nat2N.inj_succ, N.pow_succ_r in Hx by lia. by apply N.Div0.div_lt_upper_bound.
Qed.

Lemma mostrar_largo z : es_i32 z = true → (String.length (mostrar z) <= 11)%nat.
Proof.
  rewrite es_i32_spec. unfold i32_min, i32_max. intros Hz.
  assert (∀ n, (n < 10 ^ 10)%N → (String.length (pretty n) <= 10)%nat) as Hn.
  { intros n Hn. unfold pretty, pretty_N. case_decide; [cbn; lia|].
    etrans; [by apply (pretty_N_go_largo 10)|]. cbn. lia. }
  unfold mostrar. destruct z as [|p|p]; [cbn; lia| |].
  - change (pretty (Z.pos p)) with (pretty (N.pos p)). etrans; [apply Hn; lia|lia].
  - change (pretty (Z.neg p)) with ("-" +:+ pretty (N.pos p)). cbn. apply le_n_S, Hn. lia.
Qed.

(** ** Bytes and UTF-8 *)

Definition byte (a : ascii) : Z := Z.of_N (Ascii.N_of_ascii a).

(** The ranges of the continuation bytes that must follow a leading byte, [None]
    when the byte cannot start a character. *)
Definition continuaciones (b : Z) : option (list (Z * Z)) :=
  let c := (128, 191) in
  if b <=? 127 then Some []
  else if en_rango 194 223 b then Some [c]
  else if b =? 224 then Some [(160, 191); c]
  else if b =? 237 then Some [(128, 159); c]
  else if en_rango 225 239 b then Some [c; c]
  else if b =? 240 then Some [(144, 191); c; c]
  else if en_rango 241 243 b then Some [c; c; c]
  else if b =? 244 then Some [(128, 143); c; c]
  else None.

Fixpoint utf8_desde (pendientes : list (Z * Z)) (s : string) : bool :=
  match s with
  | EmptyString => match pendientes with [] => true | _ => false end
  | String a s' =>
      match pendientes with
      | (lo, hi) :: ps => en_rango lo hi (byte a) && utf8_desde ps s'
      | [] => match continuaciones (byte a) with
              | Some ps => utf8_desde ps s'
              | None => false
              end
      end
  end.

(** [String::from_utf8(bytes).is_ok()]. *)
Definition utf8_valido (s : string) : bool := utf8_desde [] s.

Fixpoint descartar (n : nat) (s : string) : string :=
  match n, s with
  | O, _ => s
  | S n', String _ s' => descartar n' s'
  | S _, EmptyString => EmptyString
  end.

(** [chars.next(); chars.as_str()]: what is left after the first character. *)
Definition sin_primer_char (s : string) : string :=
  match s with
  | EmptyString => EmptyString
  | String a s' =>
      descartar (match continuaciones (byte a) with Some ps => length ps | None => 0%nat end) s'
  end.

Fixpoint todos_los_bytes (p : ascii → bool) (s : string) : bool :=
  match s with EmptyString => true | String a s' => p a && todos_los_bytes p s' end.

Definition es_ascii : string → bool := todos_los_bytes (λ a, byte a <=? 127).

Definition mayuscula_ascii (a : ascii) : ascii :=
  let b := Ascii.N_of_ascii a in
  if ((97 <=? b) && (b <=? 122))%N then Ascii.ascii_of_N (b - 32) else a.

Fixpoint mapear_bytes (f : ascii → ascii) (s : string) : string :=
  match s with EmptyString => EmptyString | String a s' => String (f a) (mapear_bytes f s') end.

(** ** Splitting *)

Fixpoint es_prefijo (p s : string) : bool :=
  match p, s with
  | EmptyString, _ => true
  | String a p', String b s' => bool_decide (a = b) && es_prefijo p' s'
  | _, _ => false
  end.

(** [str::contains] of a string. *)
Fixpoint contiene (p s : string) : bool :=
  es_prefijo p s || match s with EmptyString => false | String _ s' => contiene p s' end.

Definition agregar_al_primero (a : ascii) (l : list string) : list string :=
  match l with [] => [String a EmptyString] | x :: l' => String a x :: l' end.

(** [str::split] by a non-empty separator; [saltar] bytes of a separator already
    matched are skipped. *)
Fixpoint split_desde (sep : string) (saltar : nat) (s : string) : list string :=
  match s with
  | EmptyString => [EmptyString]
  | String a s' =>
      match saltar with
      | S k => split_desde sep k s'
      | O => if es_prefijo sep s
             then EmptyString :: split_desde sep (pred (String.length sep)) s'
             else agregar_al_primero a (split_desde sep 0 s')
      end
  end.
Definition split_str (sep s : string) : list string := split_desde sep 0 s.

(** [s.rsplit(c).next()]: the text after the last separator. *)
Definition ultimo_segmento (sep s : string) : string := List.last (split_str sep s) s.

(** [v.rsplit(p).next()] on a slice: the elements after the last one satisfying
    [p], or the whole slice. *)
Fixpoint segmento_final {A} (p : A → bool) (l : list A) : list A :=
  match l with
  | [] => []
  | x :: l' => if existsb p l' then segmento_final p l' else if p x then l' else l
  end.

Definition LF : ascii := "010"%char.
Definition CR : ascii := "013"%char.
Definition CRLF : string := String CR (String LF EmptyString).

(** One line of [BufRead::lines], its terminator [\n] or [\r\n] removed; the line
    is an error when it is not UTF-8. *)
Fixpoint quitar_cr_final (s : string) : string :=
  match s with
  | EmptyString => EmptyString
  | String a EmptyString => if bool_decide (a = CR) then EmptyString else s
  | String a s' => String a (quitar_cr_final s')
  end.

Definition linea_leida (s : string) : option string :=
  if utf8_valido s then Some s else None.

Fixpoint lineas_desde (actual : string) (s : string) : list (option string) :=
  match s with
  | EmptyString => match actual with EmptyString => [] | _ => [linea_leida actual] end
  | String a s' =>
      if bool_decide (a = LF)
      then linea_leida (quitar_cr_final actual) :: lineas_desde EmptyString s'
      else lineas_desde (actual +:+ String a EmptyString) s'
  end.
Definition lineas (s : string) : list (option string) := lineas_desde EmptyString s.

(** ** Slices *)

(** [l[i]] on a [Vec]. *)
Definition indexar {A} (l : list A) (i : Z) : option A :=
  if i <? 0 then None else l !! Z.to_nat i.

(** [l[a..b]]: panics unless [a <= b <= len]. *)
Definition rebanada {A} (a b : Z) (l : list A) : option (list A) :=
  if (0 <=? a) && (a <=? b) && (b <=? Z.of_nat (length l))
  then Some (take (Z.to_nat (b - a)) (drop (Z.to_nat a) l))
  else None.

(** ** Lemmas on strings *)

Lemma string_app_assoc (s1 s2 s3 : string) : (s1 +:+ s2) +:+ s3 = s1 +:+ (s2 +:+ s3).
Proof. induction s1 as [|a s1 IH]; [done|]. unfold String.append; fold String.append. by f_equal. Qed.

Lemma string_app_nil_r (s : string) : s +:+ "" = s.
Proof. induction s as [|a s IH]; [done|]. unfold String.append; fold String.append. by f_equal. Qed.

Lemma string_app_cons a (s1 s2 : string) : String a s1 +:+ s2 = String a (s1 +:+ s2).
Proof. done. Qed.

Lemma string_length_app (s1 s2 : string) :
  String.length (s1 +:+ s2) = (String.length s1 + String.length s2)%nat.
Proof. induction s1 as [|a s1 IH]; [done|]. rewrite string_app_cons. simpl. by rewrite IH. Qed.

Lemma utf8_desde_app ps s1 s2 :
  utf8_desde ps s1 = true → utf8_desde ps (s1 +:+ s2) = utf8_valido s2.
Proof.
  revert ps. induction s1 as [|a s1 IH]; intros ps; [by destruct ps|].
  rewrite string_app_cons. simpl. destruct ps as [|[lo hi] ps].
  - destruct (continuaciones (byte a)); [apply IH|done].
  - destruct (en_rango lo hi (byte a)); simpl; [apply IH|done].
Qed.

Lemma utf8_app s1 s2 :
  utf8_valido s1 = true → utf8_valido s2 = true → utf8_valido (s1 +:+ s2) = true.
Proof. intros. unfold utf8_valido. by rewrite utf8_desde_app. Qed.

Lemma split_desde_sin (c : ascii) (s : string) :
  todos_los_bytes (λ a, negb (bool_decide (a = c))) s = true →
  split_str (String c "") s = [s].
Proof.
  unfold split_str. induction s as [|a s IH]; [done|]. simpl.
  intros [Ha Hs]%andb_true_iff. rewrite IH by done.
  rewrite negb_true_iff, bool_decide_eq_false in Ha.
  rewrite bool_decide_eq_false_2 by congruence. done.
Qed.

Lemma split_str_app (c : ascii) (s t : string) :
  todos_los_bytes (λ a, negb (bool_decide (a = c))) s = true →
  split_str (String c "") (s +:+ String c t) = s :: split_str (String c "") t.
Proof.
  unfold split_str. induction s as [|a s IH].
  - intros _. change ("" +:+ String c t) with (String c t). simpl.
    by rewrite bool_decide_eq_true_2.
  - rewrite string_app_cons. simpl. intros [Ha Hs]%andb_true_iff.
    rewrite negb_true_iff, bool_decide_eq_false in Ha.
    rewrite bool_decide_eq_false_2 by congruence. simpl. by rewrite IH.
Qed.

Lemma quitar_cr_final_app s : quitar_cr_final (s +:+ String CR "") = s.
Proof.
  induction s as [|a s IH]; [done|]. rewrite string_app_cons.
  destruct s as [|b s]; [done|]. simpl in *. by rewrite IH.
Qed.

(** A line followed by [\r\n] is read back exactly, whatever follows, provided it
    holds no [\n]. *)
Lemma lineas_desde_crlf acc s t :
  todos_los_bytes (λ a, negb (bool_decide (a = LF))) s = true →
  lineas_desde acc (s +:+ CRLF +:+ t) = linea_leida (acc +:+ s) :: lineas t.
Proof.
  revert acc. induction s as [|a s IH]; intros acc.
  - intros _. rewrite string_app_nil_r. change ("" +:+ CRLF +:+ t) with (String CR (String LF t)).
    simpl. by rewrite quitar_cr_final_app.
  - rewrite string_app_cons. simpl. intros [Ha Hs]%andb_true_iff.
    rewrite negb_true_iff, bool_decide_eq_false in Ha.
    rewrite bool_decide_eq_false_2 by done. rewrite IH by done.
    by rewrite string_app_assoc.
Qed.

Lemma lineas_crlf s t :
  todos_los_bytes (λ a, negb (bool_decide (a = LF))) s = true → utf8_valido s = true →
  lineas (s +:+ CRLF +:+ t) = Some s :: lineas t.
Proof.
  intros Hs Hu. unfold lineas at 1. rewrite lineas_desde_crlf by done.
  unfold linea_leida. change ("" +:+ s) with s. by rewrite Hu.
Qed.

Lemma segmento_final_sin {A} (p : A → bool) l :
  existsb p l = false → segmento_final p l = l.
Proof.
  destruct l as [|x l]; [done|]. simpl. intros [Hx Hl]%orb_false_iff. by rewrite Hl, Hx.
Qed.

Lemma segmento_final_app {A} (p : A → bool) l x l' :
  p x = true → existsb p l' = false → segmento_final p (l ++ x :: l') = l'.
Proof.
  intros Hx Hl'. induction l as [|y l IH]; simpl.
  - by rewrite Hl', Hx.
  - rewrite existsb_app. simpl. rewrite Hx, orb_true_r. done.
Qed.

Lemma indexar_ok {A} (l : list A) i :
  0 ≤ i < Z.of_nat (length l) → ∃ x, indexar l i = Some x ∧ l !! Z.to_nat i = Some x.
Proof.
  intros Hi. unfold indexar. destruct (Z.ltb_spec i 0); [lia|].
  destruct (lookup_lt_is_Some_2 l (Z.to_nat i)) as [x Hx]; [lia|]. eauto.
Qed.

Lemma rebanada_ok {A} a b (l : list A) :
  0 ≤ a ≤ b → b ≤ Z.of_nat (length l) →
  rebanada a b l = Some (take (Z.to_nat (b - a)) (drop (Z.to_nat a) l)).
Proof.
  intros. unfold rebanada.
  rewrite (proj2 (Z.leb_le 0 a)), (proj2 (Z.leb_le a b)), (proj2 (Z.leb_le b _)) by lia.
  done.
Qed.

(** ** Bytes of strings and of printed integers *)

Lemma todos_los_bytes_impl (p q : ascii → bool) s :
  (∀ a, p a = true → q a = true) → todos_los_bytes p s = true → todos_los_bytes q s = true.
Proof.
  intros Hpq. induction s as [|a s IH]; simpl; [done|]. intros [Ha Hs]%andb_true_iff.
  by rewrite Hpq, IH.
Qed.

Lemma todos_los_bytes_app p s1 s2 :
  todos_los_bytes p (s1 +:+ s2) = todos_los_bytes p s1 && todos_los_bytes p s2.
Proof.
  induction s1 as [|a s1 IH]; [done|]. rewrite string_app_cons. simpl. by rewrite IH, andb_assoc.
Qed.

(** The bytes of a printed integer. *)
Definition bytes_de_entero : list ascii :=
  ["0"; "1"; "2"; "3"; "4"; "5"; "6"; "7"; "8"; "9"; "-"]%char.

Section mostrar.
Context (p : ascii → bool) (Hp : forallb p bytes_de_entero = true).

Lemma byte_de_entero a : a ∈ bytes_de_entero → p a = true.
Proof. intros Ha. rewrite forallb_forall in Hp. by apply Hp, list_elem_of_In. Qed.

Lemma pretty_N_char_bytes x : p (pretty_N_char x) = true.
Proof.
  apply byte_de_entero, (bool_decide_unpack (_ ∈ _)).
  by destruct x as [|[[[[]|[]|]|[[]|[]|]|]|[[[]|[]|]|[[]|[]|]|]|]].
Qed.

Lemma pretty_N_go_bytes x s :
  todos_los_bytes p s = true → todos_los_bytes p (pretty_N_go x s) = true.
Proof.
  revert s. induction (N.lt_wf_0 x) as [x _ IH]; intros s Hs.
  destruct (decide (0 < x)%N) as [Hx|Hx].
  - rewrite pretty_N_go_step by done. apply IH; [apply N.div_lt; lia|].
    cbn [todos_los_bytes]. by rewrite pretty_N_char_bytes.
  - replace x with 0%N by lia. by rewrite pretty_N_go_0.
Qed.

Lemma pretty_N_bytes (x : N) : todos_los_bytes p (pretty x) = true.
Proof.
  unfold pretty, pretty_N. case_decide; [|by apply pretty_N_go_bytes].
  change (p (pretty_N_char 0) && true = true). by rewrite pretty_N_char_bytes.
Qed.

Lemma mostrar_bytes z : todos_los_bytes p (mostrar z) = true.
Proof.
  unfold mostrar.
  destruct z as [|q|q]; [exact (pretty_N_bytes 0%N)|exact (pretty_N_bytes (N.pos q))|].
  change (p "-"%char && todos_los_bytes p (pretty (N.pos q)) = true).
  rewrite pretty_N_bytes, andb_true_r. apply byte_de_entero. unfold bytes_de_entero. set_solver.
Qed.
End mostrar.

Lemma es_ascii_utf8 s : es_ascii s = true → utf8_valido s = true.
Proof.
  unfold es_ascii, utf8_valido. induction s as [|a s IH]; [done|]. simpl.
  intros [Ha Hs]%andb_true_iff. unfold continuaciones. rewrite Ha. by apply IH.
Qed.

Lemma mostrar_utf8 z : utf8_valido (mostrar z) = true.
Proof. by apply es_ascii_utf8, mostrar_bytes. Qed.

(** ** Writing lines and reading them back *)

(** What the calls to [writeln!] write. *)
Definition texto (ls : list string) : string := foldr (λ l s, l +:+ String LF s) "" ls.

Definition sin (c : ascii) (s : string) : bool :=
  todos_los_bytes (λ a, negb (bool_decide (a = c))) s.

Definition linea_limpia (s : string) : bool := sin LF s && sin CR s && utf8_valido s.

Lemma quitar_cr_final_sin s : sin CR s = true → quitar_cr_final s = s.
Proof.
  unfold sin. induction s as [|a s IH]; [done|].
  change (quitar_cr_final (String a s)) with
    (match s with
     | EmptyString => if bool_decide (a = CR) then EmptyString else String a s
     | _ => String a (quitar_cr_final s)
     end).
  cbn [todos_los_bytes]. intros [Ha Hs]%andb_true_iff.
  rewrite negb_true_iff, bool_decide_eq_false in Ha.
  destruct s as [|b s]; [by rewrite bool_decide_eq_false_2|]. by rewrite IH.
Qed.

Lemma lineas_desde_lf acc s t :
  sin LF s = true →
  lineas_desde acc (s +:+ String LF t) = linea_leida (quitar_cr_final (acc +:+ s)) :: lineas t.
Proof.
  unfold sin. revert acc. induction s as [|a s IH]; intros acc.
  - intros _. rewrite string_app_nil_r. done.
  - rewrite string_app_cons. cbn [todos_los_bytes lineas_desde]. intros [Ha Hs]%andb_true_iff.
    rewrite negb_true_iff, bool_decide_eq_false in Ha.
    rewrite bool_decide_eq_false_2 by done. rewrite IH by done. by rewrite string_app_assoc.
Qed.

Lemma lineas_texto ls :
  Forall (λ s, linea_limpia s = true) ls → lineas (texto ls) = Some <$> ls.
Proof.
  induction 1 as [|s ls Hs _ IH]; [done|]. unfold linea_limpia in Hs.
  apply andb_true_iff in Hs as [[Hlf Hcr]%andb_true_iff Hu].
  cbn [texto foldr fmap list_fmap]. fold (texto ls). unfold lineas.
  rewrite lineas_desde_lf by done. change ("" +:+ s) with s.
  rewrite quitar_cr_final_sin by done. unfold linea_leida. rewrite Hu. f_equal. exact IH.
Qed.

(** A separator of one or more bytes splits after a text without its first byte. *)
Lemma split_desde_saltar sep s t :
  split_desde sep (String.length s) (s +:+ t) = split_desde sep 0 t.
Proof. induction s as [|a s IH]; [done|]. rewrite string_app_cons. exact IH. Qed.

Lemma es_prefijo_app p t : es_prefijo p (p +:+ t) = true.
Proof.
  induction p as [|a p IH]; [done|]. rewrite string_app_cons. cbn [es_prefijo].
  by rewrite bool_decide_eq_true_2, IH.
Qed.

Lemma split_str_sin (c : ascii) sep s : sin c s = true → split_str (String c sep) s = [s].
Proof.
  unfold split_str, sin. induction s as [|a s IH]; [done|]. cbn [todos_los_bytes split_desde es_prefijo].
  intros [Ha Hs]%andb_true_iff. rewrite negb_true_iff, bool_decide_eq_false in Ha.
  rewrite bool_decide_eq_false_2 by congruence. cbn [andb]. by rewrite IH.
Qed.

Lemma split_str_sep (c : ascii) sep s t :
  sin c s = true →
  split_str (String c sep) (s +:+ String c sep +:+ t) = s :: split_str (String c sep) t.
Proof.
  unfold split_str, sin. induction s as [|a s IH].
  - intros _. change ("" +:+ ?x) with x. rewrite string_app_cons. cbn [split_desde].
    rewrite <-string_app_cons, es_prefijo_app. cbn [String.length Nat.pred]. f_equal.
    apply split_desde_saltar.
  - rewrite !string_app_cons. cbn [todos_los_bytes split_desde es_prefijo].
    intros [Ha Hs]%andb_true_iff. rewrite negb_true_iff, bool_decide_eq_false in Ha.
    rewrite bool_decide_eq_false_2 by congruence. cbn [andb].
    rewrite <-string_app_cons, IH by done. done.
Qed.
