(* ===== verification/Datos.v ===== *)
(** * The data of the server

    The structs and enums of the source, and [Mundo]: everything the threads of
    the server share (the two mutexes, the clocks, the channels to the log and
    persistence threads and the sockets).  [Entorno] collects what is not code of
    the repository: the [regex] crate, the Unicode tables, the build profile and
    the iteration order of the hash tables. *)
From S2P Require Import Prelude Rust.

#[local] Open Scope Z_scope.

(** ** Parameters that are not code of the repository *)

Class Entorno := {
  (** [Regex::new(re)], and [is_match] of the compiled expression. *)
  regex_new : string → option (string → bool);
  (** [str::to_uppercase] on a string that is not ASCII. *)
  mayusculas_unicode : string → string;
  (** Whether the build checks integer overflow (debug profile). *)
  comprobar_desborde : bool;
  (** The order a hash table yields its elements in, for a state of its hasher:
      some permutation of the content. *)
  orden_iteracion : Z → ∀ A : Type, list A → list A;
  orden_perm : ∀ s A (l : list A), orden_iteracion s A l ≡ₚ l;
  (** [HashMap::capacity] of a table with that many keys. *)
  capacidad_hashmap : nat → Z;
}.
Arguments orden_iteracion {_} _ {_} _.
#[export] Hint Resolve orden_perm : redis.

(** A concrete environment, used by the witnesses: literal patterns, the debug
    profile and the identity order. *)
#[export] Instance entorno_prueba : Entorno := {|
  regex_new := λ re, Some (contiene re);
  mayusculas_unicode := λ s, s;
  comprobar_desborde := true;
  orden_iteracion := λ _ _ l, l;
  orden_perm := λ _ A l, Permutation_refl l;
  capacidad_hashmap := Z.of_nat;
|}.
#[export] Remove Hints entorno_prueba : typeclass_instances.

(** [str::to_uppercase]. *)
Definition to_uppercase `{Entorno} (s : string) : string :=
  if es_ascii s then mapear_bytes mayuscula_ascii s else mayusculas_unicode s.

(** ** Results (base_de_datos.rs) *)

Inductive ResultadoRedis :=
  | StrSimple (s : string)
  | BulkStr (s : string)
  | Int (i : Z)
  | Vector (v : list ResultadoRedis)
  | Nil
  | Error (s : string)
  | Vacio.

Inductive RedisError := Server | Coneccion | Inicializacion.
#[export] Instance redis_error_eq_dec : EqDecision RedisError.
Proof. solve_decision. Defined.

(** ** Clients (cliente.rs, cliente_redis.rs, cliente_http.rs)

    A [TcpStream] is a handle; what the peer sees is in the connection table of
    [Mundo], so that clones of a client share their socket. Durations and
    instants are nanoseconds. *)
Definition Token := Z.
Definition TcpStream := Z.

Record ClienteRedis := MkClienteRedis {
  cr_id : Token;
  cr_canales : Z;
  cr_timeout : option Z;
  cr_ultimo_mensaje : Z;
  cr_socket : option TcpStream;
}.

Record ClienteHttp := MkClienteHttp {
  ch_id : Token;
  ch_socket : option TcpStream;
  ch_mando : bool;
  ch_pag_index : string;
  ch_icono : string;
}.

(** [Box<dyn TipoCliente + Send>]. *)
Inductive Cliente :=
  | CRedis (c : ClienteRedis)
  | CHttp (c : ClienteHttp).

Definition obtener_token (c : Cliente) : Token :=
  match c with CRedis c => cr_id c | CHttp c => ch_id c end.

(** [PartialEq for Cliente]. *)
Definition cliente_eq (c1 c2 : Cliente) : bool := obtener_token c1 =? obtener_token c2.

(** ** Values (canal.rs, valor.rs, base_de_datos.rs) *)

Record Canal := MkCanal { nombre_canal : string; suscriptores : list Cliente }.

Inductive TipoRedis :=
  | Str (s : string)
  | Lista (l : list string)
  | Conjunto (s : gset string)
  | TCanal (c : Canal).

Record Valor := MkValor {
  valor : TipoRedis;
  momento_de_creacion : Z;
  ultimo_acceso : Z;
  vida_util : option Z;
}.

(** A [Persistidor] is a sender to the persistence thread; it is the only
    observer of the repository. *)
Inductive Persistidor := MkPersistidor.

Record BaseDeDatos := MkBaseDeDatos {
  hashmap : gmap string Valor;
  observadores : list Persistidor;
}.

(** ** Commands and configuration (comando_info.rs, config.rs) *)

Record ComandoInfo := MkComandoInfo {
  nombre : string;
  parametros : list string;
  index : nat;
}.

Record Config := MkConfig {
  mapa_config : gmap string string;
  persistidor : option Persistidor;
  monitorear_ultimo_cliente : bool;
}.

(** ** Messages between threads (persistencia.rs, log_handler.rs) *)

Inductive MensajePersistencia :=
  | Info (tabla : gmap string Valor)
  | ArchivoAPersistir (ruta : string)
  | CerrarPersistencia.

Inductive Mensaje :=
  | InfoComando (addr : string) (comando : ComandoInfo)
  | InfoError (addr : string) (error : RedisError)
  | InfoConeccion (addr mensaje : string)
  | SetVerbose (b : bool)
  | Monitor (c : Cliente)
  | ArchivoALogear (ruta : string)
  | CerrarLog.

(** ** The shared world *)

(** [std::sync::Mutex]: poisoned when a thread panicked while holding it. *)
Record Mutex (A : Type) := MkMutex { dato : A; envenenado : bool }.
Arguments MkMutex {_} _ _.
Arguments dato {_} _.
Arguments envenenado {_} _.

(** A connection as the operating system sees it: whether the descriptor can be
    duplicated, how many bytes a [write] takes ([None]: it fails), what [peek]
    answers, and the chunks written so far. *)
Record Conexion := MkConexion {
  clonable : bool;
  acepta : option nat;
  asomado : option nat;
  direccion_local : option string;
  enviado : list string;
}.

Record Mundo := MkMundo {
  base : Mutex BaseDeDatos;
  conf : Mutex Config;
  (** [Instant::now()] and [SystemTime::now()] since the epoch, in nanoseconds. *)
  ahora : Z;
  sistema : Z;
  (** The state of the hashers. *)
  semilla : Z;
  (** What was sent to the persistence and log threads. *)
  cola_pers : list MensajePersistencia;
  cola_log : list Mensaje;
  conexiones : gmap TcpStream Conexion;
}.

Definition con_base (b : Mutex BaseDeDatos) (w : Mundo) : Mundo :=
  MkMundo b (conf w) (ahora w) (sistema w) (semilla w) (cola_pers w) (cola_log w) (conexiones w).
Definition con_conf (c : Mutex Config) (w : Mundo) : Mundo :=
  MkMundo (base w) c (ahora w) (sistema w) (semilla w) (cola_pers w) (cola_log w) (conexiones w).
Definition con_pers (l : list MensajePersistencia) (w : Mundo) : Mundo :=
  MkMundo (base w) (conf w) (ahora w) (sistema w) (semilla w) l (cola_log w) (conexiones w).
Definition con_log (l : list Mensaje) (w : Mundo) : Mundo :=
  MkMundo (base w) (conf w) (ahora w) (sistema w) (semilla w) (cola_pers w) l (conexiones w).
Definition con_conexiones (m : gmap TcpStream Conexion) (w : Mundo) : Mundo :=
  MkMundo (base w) (conf w) (ahora w) (sistema w) (semilla w) (cola_pers w) (cola_log w) m.

(** The table the database mutex protects. *)
Definition tabla (w : Mundo) : gmap string Valor := hashmap (dato (base w)).
Definition con_tabla (h : gmap string Valor) (w : Mundo) : Mundo :=
  con_base (MkMutex (MkBaseDeDatos h (observadores (dato (base w)))) (envenenado (base w))) w.

(** An initial world for the witnesses: an empty database watched by the
    persistence thread, a configuration, and time 0. *)
Definition mundo_vacio : Mundo :=
  MkMundo (MkMutex (MkBaseDeDatos ∅ [MkPersistidor]) false)
    (MkMutex (MkConfig ∅ (Some MkPersistidor) false) false) 0 0 0 [] [] ∅.
