(* ===== verification/Efectos.v ===== *)
(** * Effects: critical sections, threads and their interleavings

    Code that runs while it holds a mutex is a computation of [M]: it transforms
    the shared [Mundo] and may panic.  A request handler is a [Prog]: a tree of
    atomic actions, one per critical section or system call, between which other
    threads run.  [correr] runs a program alone; [paso] interleaves a pool of
    threads with each other and with the environment.

    An atomic action reads one instant: time passes between actions, not inside
    one. *)
From S2P Require Import Prelude Rust Datos.

(** ** Computations over the shared world that may panic *)

Definition M (A : Type) : Type := Mundo → option A * Mundo.

#[export] Instance m_ret : MRet M := λ _ a w, (Some a, w).
#[export] Instance m_bind : MBind M := λ _ _ f m w,
  match m w with
  | (Some a, w') => f a w'
  | (None, w') => (None, w')
  end.

Definition consultar {A} (f : Mundo → A) : M A := λ w, (Some (f w), w).
Definition modificar (f : Mundo → Mundo) : M () := λ w, (Some (), f w).
Definition panico {A} : M A := λ w, (None, w).
(** An operation of [Rust.v] that panics on [None]. *)
Definition o_panico {A} (o : option A) : M A := λ w, (o, w).

(** ** Mutexes *)

(** Runs [m] under the database mutex: [Some None] is the [Err] of a poisoned
    lock; a panic inside poisons it. *)
Definition con_cerrojo_base {A} (m : M A) : M (option A) := λ w,
  if envenenado (base w) then (Some None, w)
  else match m w with
       | (Some a, w') => (Some (Some a), w')
       | (None, w') => (None, con_base (MkMutex (dato (base w')) true) w')
       end.

Definition con_cerrojo_conf {A} (m : M A) : M (option A) := λ w,
  if envenenado (conf w) then (Some None, w)
  else match m w with
       | (Some a, w') => (Some (Some a), w')
       | (None, w') => (None, con_conf (MkMutex (dato (conf w')) true) w')
       end.

(** [match (config.lock(), bdd.lock())]: both guards are held. *)
Definition con_cerrojos {A} (m : M A) : M (option A) := λ w,
  if envenenado (conf w) || envenenado (base w) then (Some None, w)
  else match m w with
       | (Some a, w') => (Some (Some a), w')
       | (None, w') => (None, con_conf (MkMutex (dato (conf w')) true)
                                (con_base (MkMutex (dato (base w')) true) w'))
       end.

(** ** Programs *)

Inductive Prog (A : Type) : Type :=
  | Ret (a : A)
  | Atomico (R : Type) (op : M R) (k : R → Prog A).
Arguments Ret {_} _.
Arguments Atomico {_ _} _ _.

#[export] Instance prog_ret : MRet Prog := @Ret.
#[export] Instance prog_bind : MBind Prog := λ A B f,
  fix go (p : Prog A) : Prog B :=
    match p with
    | Ret a => f a
    | Atomico op k => Atomico op (λ r, go (k r))
    end.

Definition atomico {A} (m : M A) : Prog A := Atomico m Ret.
Definition lock_base {A} (m : M A) : Prog (option A) := atomico (con_cerrojo_base m).
Definition lock_conf {A} (m : M A) : Prog (option A) := atomico (con_cerrojo_conf m).
Definition lock_ambos {A} (m : M A) : Prog (option A) := atomico (con_cerrojos m).
(** A computation outside any lock that panics on [None]. *)
Definition o_panico_hilo {A} (o : option A) : Prog A :=
  match o with Some a => Ret a | None => atomico panico end.

(** ** Running a program alone *)

(** The first component is [None] when the thread panicked. *)
Fixpoint correr {A} (p : Prog A) (w : Mundo) : option A * Mundo :=
  match p with
  | Ret a => (Some a, w)
  | Atomico op k =>
      match op w with
      | (Some r, w') => correr (k r) w'
      | (None, w') => (None, w')
      end
  end.

Lemma correr_ret {A} (a : A) w : correr (mret a) w = (Some a, w).
Proof. done. Qed.

Lemma correr_bind {A B} (p : Prog A) (f : A → Prog B) w :
  correr (p ≫= f) w =
    match correr p w with
    | (Some a, w') => correr (f a) w'
    | (None, w') => (None, w')
    end.
Proof.
  revert w. induction p as [a|R op k IH]; intros w; [done|]. simpl.
  destruct (op w) as [[r|] w']; [apply IH|done].
Qed.

Lemma correr_atomico {A} (m : M A) w : correr (atomico m) w = m w.
Proof. simpl. by destruct (m w) as [[a|] w']. Qed.

Lemma correr_lock {A} (m : M A) w :
  envenenado (base w) = false →
  correr (lock_base m) w =
    match m w with
    | (Some a, w') => (Some (Some a), w')
    | (None, w') => (None, con_base (MkMutex (dato (base w')) true) w')
    end.
Proof. intros H. unfold lock_base. rewrite correr_atomico. unfold con_cerrojo_base. by rewrite H. Qed.

Lemma correr_lock_envenenado {A} (m : M A) w :
  envenenado (base w) = true → correr (lock_base m) w = (Some None, w).
Proof. intros H. unfold lock_base. rewrite correr_atomico. unfold con_cerrojo_base. by rewrite H. Qed.

Lemma correr_panico {A} (o : option A) w : correr (o_panico_hilo o) w = (o, w).
Proof. by destruct o. Qed.

Lemma m_bind_eq {A B} (m : M A) (f : A → M B) w :
  (m ≫= f) w = match m w with (Some a, w') => f a w' | (None, w') => (None, w') end.
Proof. done. Qed.
Lemma m_ret_eq {A} (a : A) w : (mret a : M A) w = (Some a, w).
Proof. done. Qed.
Lemma consultar_eq {A} (f : Mundo → A) w : consultar f w = (Some (f w), w).
Proof. done. Qed.
Lemma o_panico_eq {A} (o : option A) w : o_panico o w = (o, w).
Proof. done. Qed.

#[export] Hint Rewrite @correr_ret @correr_bind @correr_panico @m_bind_eq @m_ret_eq
  @consultar_eq @o_panico_eq : correr.
#[export] Hint Rewrite @correr_lock @correr_lock_envenenado using assumption : correr.

(** Executes a program symbolically, as far as the goal determines it. *)
Ltac ejecutar := repeat (progress autorewrite with correr; cbv beta iota).

(** ** Threads and interleavings *)

Inductive Hilo (R : Type) := Vivo (p : Prog R) | Muerto.
Arguments Vivo {_} _.
Arguments Muerto {_}.

Record Sistema (R : Type) := MkSistema { hilos : list (Hilo R); mundo : Mundo }.
Arguments MkSistema {_} _ _.
Arguments hilos {_} _.
Arguments mundo {_} _.

(** The next atomic action of a thread, [None] when it has finished. *)
Definition avanzar {R} (p : Prog R) (w : Mundo) : option (Hilo R * Mundo) :=
  match p with
  | Ret _ => None
  | Atomico op k =>
      Some (match op w with
            | (Some r, w') => (Vivo (k r), w')
            | (None, w') => (Muerto, w')
            end)
  end.

(** What changes without the server: time passes, the wall clock may be set, the
    hashers are unpredictable and the peers read, write or leave. *)
Record ambiente (w w' : Mundo) : Prop := {
  amb_base : base w' = base w;
  amb_conf : conf w' = conf w;
  amb_ahora : (ahora w ≤ ahora w')%Z;
  amb_pers : cola_pers w' = cola_pers w;
  amb_log : cola_log w' = cola_log w;
}.

(** One step: a thread runs its next action, a thread that satisfies [nuevos] starts,
    one that rests at [r] goes on with what [reanuda] allows, or the environment
    moves. *)
Inductive paso {R} (nuevos : Prog R → Prop) (reanuda : R → Prog R → Prop) : Sistema R → Sistema R → Prop :=
  | paso_hilo hs w i p h w' :
      hs !! i = Some (Vivo p) → avanzar p w = Some (h, w') →
      paso nuevos reanuda (MkSistema hs w) (MkSistema (<[i := h]> hs) w')
  | paso_llega hs w p :
      nuevos p → paso nuevos reanuda (MkSistema hs w) (MkSistema (hs ++ [Vivo p]) w)
  | paso_reanuda hs w i r p :
      hs !! i = Some (Vivo (Ret r)) → reanuda r p →
      paso nuevos reanuda (MkSistema hs w) (MkSistema (<[i := Vivo p]> hs) w)
  | paso_ambiente hs w w' :
      ambiente w w' → paso nuevos reanuda (MkSistema hs w) (MkSistema hs w').

(** Threads that end at their result, and threads with a loop. *)
Abbreviation pasos nuevos := (rtc (paso nuevos (λ _ _, False))).
Abbreviation pasos_bucle nuevos reanuda := (rtc (paso nuevos reanuda)).

(** A scheduler: the threads advance in the given order. *)
Fixpoint planificar {R} (orden : list nat) (s : Sistema R) : option (Sistema R) :=
  match orden with
  | [] => Some s
  | i :: orden' =>
      match hilos s !! i with
      | Some (Vivo p) =>
          '(h, w') ← avanzar p (mundo s); planificar orden' (MkSistema (<[i := h]> (hilos s)) w')
      | _ => None
      end
  end.

Lemma planificar_pasos {R} (nuevos : Prog R → Prop) reanuda orden s s' :
  planificar orden s = Some s' → pasos_bucle nuevos reanuda s s'.
Proof.
  revert s. induction orden as [|i orden IH]; intros [hs w] Hp; cbn [planificar hilos mundo] in Hp;
    [by simplify_eq|].
  destruct (hs !! i) as [[p|]|] eqn:Hi; [|done..].
  apply bind_Some in Hp as ([h w'] & Hav & Hp). eapply rtc_l; [by eapply paso_hilo|]. by apply IH.
Qed.

(** One step of a schedule. *)
Lemma siguiente_hilo {R} (orden : list nat) i (hs : list (Hilo R)) w p h w' :
  hs !! i = Some (Vivo p) → avanzar p w = Some (h, w') →
  planificar (i :: orden) (MkSistema hs w) = planificar orden (MkSistema (<[i := h]> hs) w').
Proof. intros Hi Ha. cbn [planificar hilos mundo]. by rewrite Hi, Ha. Qed.

Lemma avanzar_atomico {A B} (m : M A) (k : A → Prog B) w a w' :
  m w = (Some a, w') → avanzar (atomico m ≫= k) w = Some (Vivo (k a), w').
Proof. intros Hm. cbn. by rewrite Hm. Qed.

Lemma correr_avanzar {A} (p : Prog A) w q w' : avanzar p w = Some (Vivo q, w') → correr p w = correr q w'.
Proof.
  destruct p as [a|R op k]; [done|]. cbn. destruct (op w) as [[r|] w1]; intros [= <- <-]; done.
Qed.

Lemma avanzar_lock_conf {A B} (m : M A) (k : option A → Prog B) w a w' :
  envenenado (conf w) = false → m w = (Some a, w') →
  avanzar (lock_conf m ≫= k) w = Some (Vivo (k (Some a)), w').
Proof. intros Hw Hm. apply avanzar_atomico. unfold con_cerrojo_conf. by rewrite Hw, Hm. Qed.

(** ** Invariants of programs *)

Definition preserva {A} (I : Mundo → Prop) (m : M A) : Prop := ∀ w, I w → I (snd (m w)).

Fixpoint siempre {A} (I : Mundo → Prop) (p : Prog A) : Prop :=
  match p with
  | Ret _ => True
  | Atomico op k => preserva I op ∧ ∀ r, siempre I (k r)
  end.

Lemma preserva_ret {A} I (a : A) : preserva I (mret a).
Proof. by intros w Hw. Qed.
Lemma preserva_consultar {A} I (f : Mundo → A) : preserva I (consultar f).
Proof. by intros w Hw. Qed.
Lemma preserva_o_panico {A} I (o : option A) : preserva I (o_panico o).
Proof. by intros w Hw. Qed.
Lemma preserva_panico {A} I : preserva (A := A) I panico.
Proof. by intros w Hw. Qed.
Lemma preserva_bind {A B} I (m : M A) (f : A → M B) :
  preserva I m → (∀ a, preserva I (f a)) → preserva I (m ≫= f).
Proof.
  intros Hm Hf w Hw. unfold mbind, m_bind. specialize (Hm w Hw).
  destruct (m w) as [[a|] w']; [by apply Hf|done].
Qed.

Lemma siempre_ret {A} I (a : A) : siempre I (mret a).
Proof. done. Qed.
Lemma siempre_bind {A B} I (p : Prog A) (f : A → Prog B) :
  siempre I p → (∀ a, siempre I (f a)) → siempre I (p ≫= f).
Proof.
  intros Hp Hf. induction p as [a|R op k IH]; [by apply Hf|].
  destruct Hp as [Hop Hk]. split; [done|]. intros r. by apply IH.
Qed.
Lemma siempre_atomico {A} I (m : M A) : preserva I m → siempre I (atomico m).
Proof. by split. Qed.
Lemma siempre_panico {A} I (o : option A) : siempre I (o_panico_hilo o).
Proof. destruct o; [done|]. apply siempre_atomico, preserva_panico. Qed.

#[export] Hint Resolve preserva_ret preserva_consultar preserva_o_panico preserva_panico
  preserva_bind siempre_ret siempre_bind siempre_atomico siempre_panico : redis.

Lemma siempre_correr {A} I (p : Prog A) w : siempre I p → I w → I (snd (correr p w)).
Proof.
  revert w. induction p as [a|R op k IH]; intros w Hp Hw; [done|].
  destruct Hp as [Hop Hk]. specialize (Hop w Hw). simpl.
  destruct (op w) as [[r|] w']; [by apply IH|done].
Qed.

(** What one action of a thread keeps. *)
Lemma avanzar_siempre {A} I (p : Prog A) w h w' :
  avanzar p w = Some (h, w') → siempre I p → (I w → I w') ∧ ∀ q, h = Vivo q → siempre I q.
Proof.
  intros Hav Hp. destruct p as [a|R op k]; [done|]. destruct Hp as [Hop Hk]. specialize (Hop w).
  cbn in Hav. destruct (op w) as [[r|] w1]; simplify_eq/=; (split; [done|]); intros q Hq; simplify_eq.
  apply Hk.
Qed.

Lemma hilos_siempre {A} I (hs : list (Hilo A)) i p w h w' :
  hs !! i = Some (Vivo p) → avanzar p w = Some (h, w') → (∀ q, Vivo q ∈ hs → siempre I q) →
  (I w → I w') ∧ ∀ q, Vivo q ∈ <[i := h]> hs → siempre I q.
Proof.
  intros Hi Hav Hs.
  destruct (avanzar_siempre I p w h w' Hav) as [Hw' Hh]; [by eapply Hs, list_elem_of_lookup_2|].
  split; [done|]. intros q Hq. apply list_elem_of_lookup in Hq as [j Hj].
  apply list_lookup_insert_Some in Hj as [(_ & Hq & _)|[_ Hj]]; [by apply Hh|].
  by eapply Hs, list_elem_of_lookup_2.
Qed.

(** Every reachable world satisfies an invariant that the handlers preserve and
    the environment cannot break. *)
Lemma siempre_alcanzable {R} I (nuevos : Prog R → Prop) reanuda s s' :
  (∀ p, nuevos p → siempre I p) → (∀ r p, reanuda r p → siempre I p) →
  (∀ w w', ambiente w w' → I w → I w') →
  (∀ p, Vivo p ∈ hilos s → siempre I p) → I (mundo s) → pasos_bucle nuevos reanuda s s' →
  I (mundo s') ∧ ∀ p, Vivo p ∈ hilos s' → siempre I p.
Proof.
  intros Hn Hre Ha Hs HI Hpasos. induction Hpasos as [s|s1 s2 s3 Hp _ IH]; [done|].
  destruct Hp as [hs w i p h w' Hi Hav|hs w p Hp|hs w i r p Hi Hp|hs w w' Hw]; simpl in *.
  - destruct (hilos_siempre I hs i p w h w' Hi Hav Hs) as [Hw Hh]. by apply IH; [|apply Hw].
  - apply IH; [|done]. intros q [Hq|Hq]%elem_of_app; [auto|].
    apply list_elem_of_singleton in Hq. simplify_eq. auto.
  - apply IH; [|done]. intros q [j Hj]%list_elem_of_lookup.
    apply list_lookup_insert_Some in Hj as [(_ & [= <-] & _)|[_ Hj]]; [by eapply Hre|].
    by eapply Hs, list_elem_of_lookup_2.
  - apply IH; [done|]. by eapply Ha.
Qed.

(** ** What a program answers

    The answers a program can give when every action finds a world with [I]. *)
Fixpoint da {A} (I : Mundo → Prop) (Q : A → Prop) (p : Prog A) : Prop :=
  match p with
  | Ret a => Q a
  | Atomico op k => ∀ w, I w → match fst (op w) with Some r => da I Q (k r) | None => True end
  end.

Lemma da_todo {A} I (Q : A → Prop) p : (∀ a, Q a) → da I Q p.
Proof.
  intros HQ. induction p as [a|R op k IH]; [apply HQ|]. intros w _. destruct (fst (op w)); [apply IH|done].
Qed.
Lemma da_mono {A} I (Q Q' : A → Prop) p : da I Q p → (∀ a, Q a → Q' a) → da I Q' p.
Proof.
  intros Hp HQ. induction p as [a|R op k IH]; [by apply HQ|].
  intros w Hw. specialize (Hp w Hw). destruct (fst (op w)); [by apply IH|done].
Qed.
Lemma da_bind {A B} I (Q : A → Prop) (Q' : B → Prop) p (f : A → Prog B) :
  da I Q p → (∀ a, Q a → da I Q' (f a)) → da I Q' (p ≫= f).
Proof.
  intros Hp Hf. induction p as [a|R op k IH]; [by apply Hf|].
  intros w Hw. specialize (Hp w Hw). destruct (fst (op w)); [by apply IH|done].
Qed.
Lemma da_sigue {A B} I (Q : B → Prop) (p : Prog A) (f : A → Prog B) :
  (∀ a, da I Q (f a)) → da I Q (p ≫= f).
Proof. intros Hf. eapply (da_bind _ (λ _, True)); [by apply da_todo|auto]. Qed.
Lemma da_atomico {A} I (Q : A → Prop) (m : M A) :
  (∀ w, I w → match fst (m w) with Some a => Q a | None => True end) → da I Q (atomico m).
Proof. intros Hm w Hw. exact (Hm w Hw). Qed.

(** One action does not change what will be answered. *)
Lemma da_avanzar {A} I (Q : A → Prop) p w h w' :
  I w → da I Q p → avanzar p w = Some (h, w') → ∀ q, h = Vivo q → da I Q q.
Proof.
  intros Hw Hp Hav q ->. destruct p as [a|R op k]; [done|]. specialize (Hp w Hw). cbn in Hav.
  destruct (op w) as [[r|] w1]; by simplify_eq.
Qed.
