(* ===== verification/Valor.v ===== *)
(** * Stored values and their expiration (valor.rs)

    The constructors and methods of [Valor], each with the instant [t] that
    [Instant::now()] answers. *)
From S2P Require Import Prelude Rust Datos.

#[local] Open Scope Z_scope.

(** ** [Duration] *)

Definition nanos : Z := 1000000000.
Definition from_secs (s : Z) : Z := s * nanos.
Definition as_secs (d : Z) : Z := d / nanos.

Lemma as_secs_from_secs s : as_secs (from_secs s) = s.
Proof. unfold as_secs, from_secs, nanos. apply Z.div_mul. lia. Qed.

(** [Instant::elapsed], which saturates at zero. *)
Definition elapsed (t momento : Z) : Z := Z.max 0 (t - momento).

(** ** Operations *)

Definition expirable (t : Z) (v : TipoRedis) (vida : Z) : Valor :=
  MkValor v t t (Some (from_secs vida)).

Definition no_expirable (t : Z) (v : TipoRedis) : Valor := MkValor v t t None.

Definition expiro (t : Z) (v : Valor) : bool :=
  match vida_util v with
  | Some vida => vida <=? elapsed t (momento_de_creacion v)
  | None => false
  end.

Definition get (t : Z) (v : Valor) : option TipoRedis :=
  if negb (expiro t v) then Some (valor v) else None.

Definition get_tiempo (v : Valor) : option Z := vida_util v.

Definition obtener_expiracion (v : Valor) : Z :=
  match vida_util v with Some d => como_isize (as_secs d) | None => -1 end.

Definition actualizar_expiracion (t nueva : Z) (v : Valor) : Valor :=
  MkValor (valor v) t (ultimo_acceso v) (Some (from_secs nueva)).

Definition hacer_persistente (v : Valor) : Valor :=
  MkValor (valor v) (momento_de_creacion v) (ultimo_acceso v) None.

Definition actualizar_ultimo_acceso (t : Z) (v : Valor) : Valor :=
  MkValor (valor v) (momento_de_creacion v) t (vida_util v).

(** ** Well-formed values

    A value was created and last read in the past, and its lifetime is a whole,
    non-negative number of seconds: no [elapsed] of the table saturates. *)
Definition valor_ok (t : Z) (v : Valor) : Prop :=
  momento_de_creacion v ≤ t ∧ ultimo_acceso v ≤ t ∧
  match vida_util v with
  | Some d => ∃ s, d = from_secs s ∧ 0 ≤ s
  | None => True
  end.

(** ** Lemmas *)

Lemma get_no_expirable t t0 v : get t (no_expirable t0 v) = Some v.
Proof. done. Qed.

Lemma expiro_expirable t t0 v s :
  t0 ≤ t → expiro t (expirable t0 v s) = (from_secs s <=? t - t0).
Proof. intros. unfold expiro, elapsed; simpl. by rewrite Z.max_r by lia. Qed.

Lemma get_actualizar_ultimo_acceso t t' v :
  get t (actualizar_ultimo_acceso t' v) = get t v.
Proof. done. Qed.

Lemma get_hacer_persistente t v : get t (hacer_persistente v) = Some (valor v).
Proof. done. Qed.

(** Expiration is monotone: an expired value stays expired. *)
Lemma expiro_monotono t t' v : t ≤ t' → expiro t v = true → expiro t' v = true.
Proof.
  unfold expiro, elapsed. destruct (vida_util v); [|done].
  rewrite !Z.leb_le. lia.
Qed.

Lemma expirable_ok t v s : 0 ≤ s → valor_ok t (expirable t v s).
Proof. intros. split_and!; simpl; [lia..|]. by exists s. Qed.
Lemma no_expirable_ok t v : valor_ok t (no_expirable t v).
Proof. split_and!; simpl; [lia..|done]. Qed.
Lemma actualizar_expiracion_ok t s v :
  valor_ok t v → 0 ≤ s → valor_ok t (actualizar_expiracion t s v).
Proof. intros (? & ? & ?) ?. split_and!; simpl; [lia..|]. by exists s. Qed.
Lemma hacer_persistente_ok t v : valor_ok t v → valor_ok t (hacer_persistente v).
Proof. by intros (? & ? & ?). Qed.
Lemma actualizar_ultimo_acceso_ok t v :
  valor_ok t v → valor_ok t (actualizar_ultimo_acceso t v).
Proof. intros (? & ? & ?). split_and!; simpl; [lia..|done]. Qed.
Lemma valor_ok_monotono t t' v : t ≤ t' → valor_ok t v → valor_ok t' v.
Proof. intros ? (? & ? & ?). split_and!; [lia..|done]. Qed.

#[export] Hint Resolve expirable_ok no_expirable_ok actualizar_expiracion_ok
  hacer_persistente_ok actualizar_ultimo_acceso_ok valor_ok_monotono : redis.

(** A world whose only key holds a value without expiration, for the witnesses. *)
Definition mundo_con (k : string) (v : TipoRedis) : Mundo :=
  con_tabla {[k := no_expirable 0 v]} mundo_vacio.

(** One whose only key expired four seconds ago. *)
Definition mundo_vencido : Mundo :=
  con_tabla {["k" := expirable (-5000000000) (Str "v") 1]} mundo_vacio.
