(* ===== verification/ComandoInfo.v ===== *)
(** * Parsed commands (comando_info.rs)

    [ComandoInfo] is mutated through [&mut]: an operation that moves its cursor
    returns the new command next to its result. *)
From S2P Require Import Prelude Rust Datos.

Section comando_info.
Context `{Entorno}.

(** [ComandoInfo::new]; indexing an empty vector panics. *)
Definition new (comando_parseado : list string) : option ComandoInfo :=
  match comando_parseado with
  | [] => None
  | [x] => Some (MkComandoInfo (to_uppercase x) [] 0)
  | x :: resto => Some (MkComandoInfo (to_uppercase x) resto 0)
  end.
End comando_info.

Definition get_nombre (c : ComandoInfo) : string := nombre c.

Definition get_clave (c : ComandoInfo) : option string * ComandoInfo :=
  (head (parametros c), MkComandoInfo (nombre c) (parametros c) 1).

Definition get_parametros (c : ComandoInfo) : option (list string) :=
  match parametros c with [] => None | ps => Some ps end.

Definition get_parametro (c : ComandoInfo) : option string * ComandoInfo :=
  match parametros c !! index c with
  | Some p => (Some p, MkComandoInfo (nombre c) (parametros c) (S (index c)))
  | None => (None, c)
  end.

Definition descripcion (c : ComandoInfo) : string :=
  foldl (λ d p, d +:+ " " +:+ p) (nombre c) (parametros c).

(** The parameters [while let Some(p) = comando.get_parametro()] visits, in
    order, and the command it leaves. *)
Definition parametros_restantes (c : ComandoInfo) : list string :=
  drop (index c) (parametros c).
Definition agotado (c : ComandoInfo) : ComandoInfo :=
  MkComandoInfo (nombre c) (parametros c) (Nat.max (index c) (length (parametros c))).

(** ** Lemmas *)

(** One turn of that loop. *)
Lemma get_parametro_restantes c :
  match get_parametro c with
  | (Some p, c') => parametros_restantes c = p :: parametros_restantes c' ∧ agotado c' = agotado c
  | (None, c') => parametros_restantes c = [] ∧ c' = c
  end.
Proof.
  unfold get_parametro, parametros_restantes, agotado.
  destruct (parametros c !! index c) as [p|] eqn:Hp; simpl.
  - split; [by apply drop_S|]. f_equal. apply lookup_lt_Some in Hp. lia.
  - split; [|done]. apply lookup_ge_None in Hp. by apply drop_ge.
Qed.

Lemma get_clave_cons n p ps i :
  get_clave (MkComandoInfo n (p :: ps) i) = (Some p, MkComandoInfo n (p :: ps) 1).
Proof. done. Qed.
Lemma get_clave_nil n i : get_clave (MkComandoInfo n [] i) = (None, MkComandoInfo n [] 1).
Proof. done. Qed.

Lemma restantes_tras_clave c :
  parametros_restantes (snd (get_clave c)) = tail (parametros c).
Proof. unfold parametros_restantes. simpl. by destruct (parametros c). Qed.

(** The loop [while let Some(p) = comando.get_parametro()] itself, with fuel. *)
Fixpoint drenar (fuel : nat) (c : ComandoInfo) : option (list string * ComandoInfo) :=
  match fuel with
  | O => None
  | S fuel' =>
      match get_parametro c with
      | (Some p, c') => '(ps, c'') ← drenar fuel' c'; Some (p :: ps, c'')
      | (None, c') => Some ([], c')
      end
  end.

(** The handlers that loop over [get_parametro] are modelled as a recursion on
    [parametros_restantes]: the loop visits exactly those, and it ends. *)
Lemma drenar_restantes fuel c :
  length (parametros_restantes c) < fuel →
  ∃ c', drenar fuel c = Some (parametros_restantes c, c') ∧ fst (get_parametro c') = None.
Proof.
  revert c. induction fuel as [|fuel IH]; intros c Hlen; [lia|]. simpl.
  pose proof (get_parametro_restantes c) as Hc.
  destruct (get_parametro c) as [[p|] c'] eqn:Hg.
  - destruct Hc as [Hc _]. rewrite Hc in *. simpl in Hlen.
    destruct (IH c') as (c'' & -> & Hfin); [lia|]. by exists c''.
  - destruct Hc as [-> ->]. exists c. by rewrite Hg.
Qed.

(** Evaluates the reading of a command whose parameters are known. *)
Ltac leer_comando :=
  cbn [get_clave get_parametro get_parametros get_nombre parametros nombre index head fst snd
       lookup list_lookup].

(** ** Properties *)

(** The loop [while let Some(p) = comando.get_parametro()]
    ends, and visits exactly the parameters from the cursor on, in order, each
    once. *)
Theorem parametros_visitados fuel c (Hf : length (parametros_restantes c) < fuel) :
  ∃ c', drenar fuel c = Some (parametros_restantes c, c') ∧ fst (get_parametro c') = None.
Proof. by apply drenar_restantes. Qed.

Lemma parametros_visitados_witness :
  ∃ c', drenar 3 (MkComandoInfo "DEL" ["a"; "b"; "c"] 1) = Some (["b"; "c"], c').
Proof.
  destruct (parametros_visitados 3 (MkComandoInfo "DEL" ["a"; "b"; "c"] 1) ltac:(cbn; lia))
    as (c' & Hd & _).
  exists c'. exact Hd.
Defined.
