(* ===== verification/Parser.v ===== *)
(** * The Redis protocol (parser.rs)

    [parsear_stream] reads a request from the bytes of the stream,
    [parsear_respuesta] prints a result. [peticion] is the encoding a client
    sends and [leer_respuesta] the reader a client applies: they are the
    specification the round trips are stated with. *)
From S2P Require Import Prelude Rust Datos ComandoInfo.

#[local] Open Scope Z_scope.

(** ** The parser *)

Inductive ParserError := RedisSyntaxError | MensajeVacioError.
#[export] Instance parser_error_eq_dec : EqDecision ParserError.
Proof. solve_decision. Defined.

Definition parsear_int (cadena : string) : option Z := parse_u32 (sin_primer_char cadena).

Section parser.
Context `{Entorno}.

(** The [while] loop of [parsear_stream]. [ls] is what is left of [lines()], an
    unreadable line being [None]; the outer [None] of the result is the panic of
    [ComandoInfo::new] on an empty command. *)
Fixpoint parsear_argumentos (capacidad : Z) (ls : list (option string))
    (comando : list string) : option (ParserError + ComandoInfo) :=
  match ls with
  | Some longitud_str :: Some argumento :: resto =>
      match parsear_int longitud_str with
      | None => Some (inl RedisSyntaxError)
      | Some longitud =>
          if negb (longitud =? Z.of_nat (String.length argumento))
          then Some (inl RedisSyntaxError)
          else
            let comando' := comando ++ [argumento] in
            if Z.of_nat (length comando') =? capacidad
            then inr <$> new comando'
            else parsear_argumentos capacidad resto comando'
      end
  | Some _ :: None :: resto => parsear_argumentos capacidad resto comando
  | _ => inr <$> new comando
  end.

Definition parsear_stream (entrada : string) : option (ParserError + ComandoInfo) :=
  match lineas entrada with
  | Some primer_valor :: resto =>
      match parsear_int primer_valor with
      | Some capacidad => parsear_argumentos capacidad resto []
      | None => Some (inl RedisSyntaxError)
      end
  | _ => Some (inl MensajeVacioError)
  end.
End parser.

(** ** The printer *)

Definition largo (s : string) : Z := Z.of_nat (String.length s).

Fixpoint parsear_respuesta (res : ResultadoRedis) : string :=
  match res with
  | StrSimple cad => "+" +:+ cad +:+ CRLF
  | BulkStr cad => "$" +:+ mostrar (largo cad) +:+ CRLF +:+ cad +:+ CRLF
  | Int ent => ":" +:+ mostrar ent +:+ CRLF
  | Vector vec => "*" +:+ mostrar (Z.of_nat (length vec)) +:+ CRLF
                   +:+ String.concat "" (map parsear_respuesta vec)
  | Nil => "$-1" +:+ CRLF
  | Error e => "-" +:+ e +:+ CRLF
  | Vacio => ""
  end.

(** ** The encoding a client sends *)

Definition bulk (s : string) : string :=
  "$" +:+ mostrar (largo s) +:+ CRLF +:+ s +:+ CRLF.
Definition peticion (args : list string) : string :=
  "*" +:+ mostrar (Z.of_nat (length args)) +:+ CRLF +:+ String.concat "" (map bulk args).

(** What can be sent as an argument: UTF-8 without line feeds, of a length that
    fits [u32]. *)
Definition sin_lf (s : string) : bool := todos_los_bytes (λ a, negb (bool_decide (a = LF))) s.
Definition argumento_ok (s : string) : Prop :=
  sin_lf s = true ∧ utf8_valido s = true ∧ largo s ≤ u32_max.

(** ** Lemmas *)

(** A one-byte prefix and a number: what [parsear_int] reads, and a legal line. *)
Lemma parsear_int_prefijo (c : ascii) z :
  (byte c <=? 127) = true → 0 ≤ z ≤ u32_max → parsear_int (String c (mostrar z)) = Some z.
Proof.
  intros Hc Hz. unfold parsear_int, sin_primer_char, continuaciones. rewrite Hc. simpl.
  unfold parse_u32. apply parse_mostrar; lia.
Qed.

Lemma linea_numero (c : ascii) z :
  (byte c <=? 127) = true → c ≠ LF → 0 ≤ z →
  sin_lf (String c (mostrar z)) = true ∧ utf8_valido (String c (mostrar z)) = true.
Proof.
  intros Hc Hlf Hz. split.
  - unfold sin_lf. simpl. rewrite bool_decide_eq_false_2 by done. simpl.
    by apply mostrar_bytes.
  - apply es_ascii_utf8. unfold es_ascii. simpl. rewrite Hc. by apply mostrar_bytes.
Qed.

Lemma concat_cons (x : string) l : String.concat "" (x :: l) = x +:+ String.concat "" l.
Proof. destruct l; simpl; [by rewrite string_app_nil_r|done]. Qed.

(** The two lines of a bulk string. *)
Lemma lineas_bulk s t :
  argumento_ok s →
  lineas (bulk s +:+ t) = Some (String "$" (mostrar (largo s))) :: Some s :: lineas t.
Proof.
  intros (Hlf & Hu & Hl). unfold bulk.
  destruct (linea_numero "$" (largo s)) as [Hn1 Hn2]; [done|done|unfold largo; lia|].
  rewrite <-lineas_crlf by done.
  rewrite <-lineas_crlf by done.
  f_equal. rewrite !string_app_assoc. done.
Qed.

(** The first line of a request. *)
Lemma lineas_peticion args t :
  lineas (peticion args +:+ t) =
    Some (String "*" (mostrar (Z.of_nat (length args)))) ::
    lineas (String.concat "" (map bulk args) +:+ t).
Proof.
  unfold peticion. set (n := Z.of_nat (length args)).
  destruct (linea_numero "*" n) as [Hn1 Hn2]; [done|done|lia|].
  rewrite <-lineas_crlf by done. f_equal. rewrite !string_app_assoc. done.
Qed.

Section roundtrip.
Context `{Entorno}.

Lemma parsear_argumentos_bulks args previos t :
  args ≠ [] → Forall argumento_ok args →
  parsear_argumentos (Z.of_nat (length (previos ++ args)))
    (lineas (String.concat "" (map bulk args) +:+ t)) previos = inr <$> new (previos ++ args).
Proof.
  revert previos. induction args as [|a args IH]; intros previos Hne Hargs; [done|].
  apply Forall_cons_iff in Hargs as [Ha Hargs].
  cbn [map]. rewrite concat_cons, string_app_assoc, lineas_bulk by done. cbn [parsear_argumentos].
  rewrite parsear_int_prefijo by (try done; destruct Ha as (_ & _ & ?); unfold largo in *; lia).
  unfold largo. rewrite Z.eqb_refl. cbn [negb].
  destruct args as [|b args].
  - by rewrite Z.eqb_refl.
  - rewrite (proj2 (Z.eqb_neq _ _)) by (rewrite !length_app; simpl; lia).
    replace (previos ++ a :: b :: args) with ((previos ++ [a]) ++ b :: args)
      by by rewrite <-app_assoc.
    by apply IH.
Qed.

Lemma parsear_stream_peticion args t :
  args ≠ [] → Z.of_nat (length args) ≤ u32_max → Forall argumento_ok args →
  parsear_stream (peticion args +:+ t) = inr <$> new args.
Proof.
  intros Hne Hlen Hargs. unfold parsear_stream. rewrite lineas_peticion.
  rewrite parsear_int_prefijo by (done || lia).
  by apply (parsear_argumentos_bulks args []).
Qed.



(** C23: A request of words that are UTF-8, hold no line feed and have at
    most 2^32-1 bytes, encoded as the protocol says, is read back as the command with
    those words, whatever follows it in the stream. *)
Theorem peticion_leida args t
    (Hne : args ≠ []) (Hlen : Z.of_nat (length args) ≤ u32_max)
    (Hargs : Forall argumento_ok args) :
  parsear_stream (peticion args +:+ t) = inr <$> new args.
Proof. by apply parsear_stream_peticion. Qed.

End roundtrip.

Lemma peticion_leida_witness :
  @parsear_stream entorno_prueba (peticion ["set"; "k"; "un valor"] +:+ "basura") =
    Some (inr (MkComandoInfo "SET" ["k"; "un valor"] 0)).
Proof.
  refine (@peticion_leida entorno_prueba ["set"; "k"; "un valor"] "basura" _ _ _).
  - discriminate.
  - discriminate.
  - repeat constructor; discriminate.
Defined.


(** ** Decoding an answer

    The reader a client of the protocol applies to what [parsear_respuesta]
    prints. *)

(** The text before the first line terminator and what follows it. *)
Fixpoint hasta_crlf (s : string) : option (string * string) :=
  match s with
  | EmptyString => None
  | String a s' =>
      if es_prefijo CRLF s then Some ("", descartar 2 s)
      else '(l, r) ← hasta_crlf s'; Some (String a l, r)
  end.

Fixpoint tomar (n : nat) (s : string) : option (string * string) :=
  match n, s with
  | O, _ => Some ("", s)
  | S n', String a s' => '(l, r) ← tomar n' s'; Some (String a l, r)
  | S _, EmptyString => None
  end.

Definition quitar_crlf (s : string) : option string :=
  '(l, r) ← hasta_crlf s; if bool_decide (l = "") then Some r else None.

Fixpoint leer_varios (leer : string → option (ResultadoRedis * string)) (n : nat) (s : string)
    : option (list ResultadoRedis * string) :=
  match n with
  | O => Some ([], s)
  | S n' => '(x, s') ← leer s; '(xs, s'') ← leer_varios leer n' s'; Some (x :: xs, s'')
  end.

Definition parse_i64 : string → option Z := parse_entero true i64_min i64_max.

(** The fuel bounds the nesting of the vectors. *)
Fixpoint leer_respuesta (fuel : nat) (s : string) : option (ResultadoRedis * string) :=
  match fuel, s with
  | S fuel', String t s' =>
      '(l, r) ← hasta_crlf s';
      match t with
      | "+"%char => Some (StrSimple l, r)
      | "-"%char => Some (Error l, r)
      | ":"%char => i ← parse_i64 l; Some (Int i, r)
      | "$"%char => n ← parse_i64 l;
               if n =? -1 then Some (Nil, r)
               else '(x, r') ← tomar (Z.to_nat n) r; r'' ← quitar_crlf r'; Some (BulkStr x, r'')
      | "*"%char => n ← parse_i64 l;
               '(xs, r') ← leer_varios (leer_respuesta fuel') (Z.to_nat n) r;
               Some (Vector xs, r')
      | _ => None
      end
  | _, _ => None
  end.

(** The results that can be decoded: a simple string holds no line feed, sizes fit
    in 64 bits and no part of a vector is empty. *)
Fixpoint decodificable (fuel : nat) (r : ResultadoRedis) : bool :=
  match fuel, r with
  | S fuel', Vector v => (Z.of_nat (length v) <=? i64_max) && forallb (decodificable fuel') v
  | S _, (StrSimple s | Error s) => sin_lf s
  | S _, BulkStr s => largo s <=? i64_max
  | S _, Int i => en_rango i64_min i64_max i
  | S _, Nil => true
  | _, _ => false
  end.

Lemma hasta_crlf_app l t : sin_lf l = true → hasta_crlf (l +:+ CRLF +:+ t) = Some (l, t).
Proof.
  unfold sin_lf. induction l as [|a l IH]; [done|]. rewrite string_app_cons.
  cbn [todos_los_bytes hasta_crlf]. intros [Ha Hl]%andb_true_iff.
  assert (es_prefijo CRLF (String a (l +:+ CRLF +:+ t)) = false) as ->.
  { unfold CRLF. destruct l as [|b l]; [by cbn; rewrite andb_false_r|].
    rewrite string_app_cons. cbn [es_prefijo]. cbn [todos_los_bytes] in Hl.
    apply andb_true_iff in Hl as [Hb _]. rewrite negb_true_iff, bool_decide_eq_false in Hb.
    by rewrite (bool_decide_eq_false_2 (LF = b)), andb_false_r by congruence. }
  by rewrite IH.
Qed.

Lemma tomar_app s t : tomar (String.length s) (s +:+ t) = Some (s, t).
Proof.
  induction s as [|a s IH]; [by destruct t|]. rewrite string_app_cons.
  cbn [String.length tomar]. by rewrite IH.
Qed.

Lemma mostrar_sin_lf z : sin_lf (mostrar z) = true.
Proof. by apply mostrar_bytes. Qed.

Lemma parse_i64_mostrar z : i64_min ≤ z ≤ i64_max → parse_i64 (mostrar z) = Some z.
Proof. intros. by apply parse_mostrar. Qed.

Lemma leer_varios_app leer v t :
  Forall (λ r, ∀ t, leer (parsear_respuesta r +:+ t) = Some (r, t)) v →
  leer_varios leer (length v) (String.concat "" (map parsear_respuesta v) +:+ t) = Some (v, t).
Proof.
  intros Hv. revert t. induction Hv as [|r v Hr _ IH]; intros t; [done|].
  cbn [map length leer_varios]. rewrite concat_cons, string_app_assoc, Hr.
  cbn [mbind option_bind]. by rewrite IH.
Qed.

Lemma leer_respuesta_parsear fuel r t :
  decodificable fuel r = true → leer_respuesta fuel (parsear_respuesta r +:+ t) = Some (r, t).
Proof.
  revert r t. induction fuel as [|fuel IH]; intros r t; [by destruct r|].
  destruct r as [s|s|i|v| |s|]; cbn [decodificable parsear_respuesta]; intros Hd;
    rewrite ?string_app_assoc; try done.
  - change ("+" +:+ ?x) with (String "+" x). cbn [leer_respuesta].
    by rewrite hasta_crlf_app.
  - change ("$" +:+ ?x) with (String "$" x). cbn [leer_respuesta].
    rewrite hasta_crlf_app by apply mostrar_sin_lf. cbn [mbind option_bind].
    apply Z.leb_le in Hd.
    rewrite parse_i64_mostrar by (unfold largo, i64_min in *; lia). cbn [mbind option_bind].
    rewrite (proj2 (Z.eqb_neq _ _)) by (unfold largo; lia).
    unfold largo. rewrite Nat2Z.id, tomar_app. cbn [mbind option_bind].
    change (CRLF +:+ t) with ("" +:+ CRLF +:+ t). unfold quitar_crlf. by rewrite hasta_crlf_app.
  - change (":" +:+ ?x) with (String ":" x). cbn [leer_respuesta].
    rewrite hasta_crlf_app by apply mostrar_sin_lf. cbn [mbind option_bind].
    rewrite parse_i64_mostrar by by apply en_rango_spec. done.
  - change ("*" +:+ ?x) with (String "*" x). cbn [leer_respuesta].
    rewrite hasta_crlf_app by apply mostrar_sin_lf. cbn [mbind option_bind].
    apply andb_true_iff in Hd as [Hn%Z.leb_le Hd].
    rewrite parse_i64_mostrar by (unfold i64_min; lia). cbn [mbind option_bind].
    rewrite Nat2Z.id, leer_varios_app; [done|].
    apply Forall_forall. intros r Hr u. apply IH. by eapply forallb_forall in Hd.
  - change ("-" +:+ ?x) with (String "-" x). cbn [leer_respuesta].
    by rewrite hasta_crlf_app.
Qed.

(** C24: A client that decodes what the server prints for a result recovers
    the result and leaves what follows it, when the result is one the protocol can
    carry ([decodificable]): not [Vacio], which prints nothing, simple strings and
    errors without a line feed, integers and sizes of 64 bits, and vectors nested less
    deep than the fuel of the decoder. *)
Theorem respuesta_leida fuel r t (Hr : decodificable fuel r = true) :
  leer_respuesta fuel (parsear_respuesta r +:+ t) = Some (r, t).
Proof. by apply leer_respuesta_parsear. Qed.

Lemma respuesta_leida_witness :
  leer_respuesta 3 (parsear_respuesta (Vector [BulkStr "a"; Nil; Vector [Int (-3)]]) +:+ "+OK") =
    Some (Vector [BulkStr "a"; Nil; Vector [Int (-3)]], "+OK").
Proof.
  exact (respuesta_leida 3 (Vector [BulkStr "a"; Nil; Vector [Int (-3)]]) "+OK" eq_refl).
Defined.
