(* ===== verification/HttpParser.v ===== *)
(** * The HTTP protocol (http_parser.rs, comando_http.rs)

    [parsear_stream] reads one request out of the bytes of a single [read],
    [parsear_respuesta] prints a result for the page. *)
From S2P Require Import Prelude Rust Datos ComandoInfo Parser.

#[local] Open Scope Z_scope.

(** ** ComandoHttp *)

Record ComandoHttp := MkComandoHttp {
  metodo : string;
  args : list string;
  headers : list string;
  comando_redis : option ComandoInfo;
}.

Section comando_http.
Context `{Entorno}.

(** [metodo.remove(0)] panics on an empty vector. *)
Definition new_http (linea : list string) (hs comando : list string) : option ComandoHttp :=
  match linea with
  | [] => None
  | m :: resto =>
      match comando with
      | [] => Some (MkComandoHttp m resto hs None)
      | _ => c ← ComandoInfo.new comando; Some (MkComandoHttp m resto hs (Some c))
      end
  end.
End comando_http.

Definition get_metodo (c : ComandoHttp) : string := metodo c.
Definition get_comando (c : ComandoHttp) : option ComandoInfo := comando_redis c.
Definition get_argumento (c : ComandoHttp) : option string := head (args c).

(** ** The parser *)

Definition obtener_metodo (linea : string) : ParserError + list string :=
  let m := split_str " " linea in
  if bool_decide (length m = 3%nat) then inr m else inl MensajeVacioError.

(** The loop over the lines: the headers up to the first empty line, and how many
    there were. *)
Fixpoint leer_headers (ls : list string) : ParserError + (list string * nat) :=
  match ls with
  | [] => inr ([], 0%nat)
  | linea :: resto =>
      if bool_decide (linea = "") then inr ([], 0%nat)
      else
        match split_str ": " linea with
        | [k; v] =>
            match leer_headers resto with
            | inr (hs, n) => inr (k :: v :: hs, S n)
            | inl e => inl e
            end
        | _ => inl MensajeVacioError
        end
  end.

(** [lineas.drain(0..index + 1)] panics when there are fewer lines. *)
Definition obtener_headers (ls : list string)
    : option (ParserError + (list string * list string)) :=
  match leer_headers ls with
  | inl e => Some (inl e)
  | inr (hs, n) =>
      if bool_decide (S n ≤ length ls)%nat then Some (inr (hs, drop (S n) ls)) else None
  end.

Fixpoint quitar_nulos (s : string) : string :=
  match s with
  | EmptyString => EmptyString
  | String a s' => if bool_decide (a = "000"%char) then quitar_nulos s' else String a (quitar_nulos s')
  end.

(** [lineas[0]] panics without a body, [comando[1]] without a [=]. *)
Definition obtener_comando_redis (ls : list string) (m : string)
    : option (ParserError + list string) :=
  if negb (bool_decide (m = "POST")) then Some (inr [])
  else
    match ls with
    | [] => None
    | l :: _ =>
        match split_str "=" (quitar_nulos l) with
        | c :: resto =>
            if negb (bool_decide (c = "comando")) then Some (inl RedisSyntaxError)
            else match resto with
                 | c1 :: _ => Some (inr (split_str "+" c1))
                 | [] => None
                 end
        | [] => None
        end
    end.

Fixpoint nulos (n : nat) : string :=
  match n with O => EmptyString | S n' => String "000"%char (nulos n') end.

Fixpoint primeros_bytes (n : nat) (s : string) : string :=
  match n, s with
  | S n', String a s' => String a (primeros_bytes n' s')
  | _, _ => EmptyString
  end.

(** The buffer of [n] zeros after a [read] of the bytes [s]. *)
Definition buffer (n : nat) (s : string) : string :=
  primeros_bytes n s +:+ nulos (n - String.length s).

Section http_parser.
Context `{Entorno}.

(** [leido] is what the [read] returned, [None] when it failed. *)
Definition parsear_stream (leido : option string) : option (ParserError + ComandoHttp) :=
  match leido with
  | None => Some (inl MensajeVacioError)
  | Some bytes =>
      let mensaje := buffer (Z.to_nat 5000) bytes in
      if negb (utf8_valido mensaje) then Some (inl MensajeVacioError)
      else
        match split_str CRLF (mensaje +:+ CRLF) with
        | [] => None
        | primera :: ls =>
            match obtener_metodo primera with
            | inl e => Some (inl e)
            | inr m =>
                hs ← obtener_headers ls;
                match hs with
                | inl e => Some (inl e)
                | inr (hs, ls') =>
                    c ← obtener_comando_redis ls' (default "" (head m));
                    match c with
                    | inl e => Some (inl e)
                    | inr c => inr <$> new_http m hs c
                    end
                end
            end
        end
  end.
End http_parser.

(** ** The printer *)

Fixpoint parsear_respuesta (res : ResultadoRedis) : string :=
  match res with
  | StrSimple cad => cad
  | BulkStr cad => "'" +:+ cad +:+ "'"
  | Int ent => "(integer) " +:+ mostrar ent
  | Vector vec => "(vector) " +:+ String.concat "" (map (λ r, " " +:+ parsear_respuesta r) vec)
  | Nil => "(nil)"
  | Error e => "(error) " +:+ e
  | Vacio => ""
  end.

(** ** The form the page sends *)

(** The body of a POST with a command. *)
Definition cuerpo (args : list string) : string := "comando=" +:+ String.concat "+" args.

(** A word the form can carry. *)
Definition palabra_ok (s : string) : bool :=
  todos_los_bytes (λ a, negb (bool_decide (a ∈ ["+"; "="; "000"]%char))) s.

Lemma split_concat (c : ascii) xs :
  xs ≠ [] → Forall (λ s, todos_los_bytes (λ a, negb (bool_decide (a = c))) s = true) xs →
  split_str (String c "") (String.concat (String c "") xs) = xs.
Proof.
  induction xs as [|x xs IH]; [done|]. intros _ [Hx Hxs]%Forall_cons_iff.
  destruct xs as [|y xs]; [by apply split_desde_sin|].
  change (String.concat (String c "") (x :: y :: xs)) with
    (x +:+ String c (String.concat (String c "") (y :: xs))).
  by rewrite split_str_app, IH.
Qed.

Lemma quitar_nulos_app s n :
  todos_los_bytes (λ a, negb (bool_decide (a = "000"%char))) s = true →
  quitar_nulos (s +:+ nulos n) = s.
Proof.
  induction s as [|a s IH]; [intros _; by induction n|].
  rewrite string_app_cons. cbn [todos_los_bytes quitar_nulos]. intros [Ha Hs]%andb_true_iff.
  rewrite negb_true_iff in Ha. by rewrite Ha, IH.
Qed.

Lemma todos_los_bytes_concat p sep xs :
  todos_los_bytes p sep = true → Forall (λ s, todos_los_bytes p s = true) xs →
  todos_los_bytes p (String.concat sep xs) = true.
Proof.
  intros Hsep. induction 1 as [|x xs Hx Hxs IH]; [done|]. destruct xs as [|y xs]; [done|].
  change (String.concat sep (x :: y :: xs)) with (x +:+ sep +:+ String.concat sep (y :: xs)).
  by rewrite !todos_los_bytes_app, Hx, Hsep, IH.
Qed.

(** The words of a command sent by the form of the page are read
    back, in order, from the body of the POST, whatever fills the buffer after it. *)
Lemma formulario_leido args n resto
    (Hne : args ≠ []) (Hargs : Forall (λ s, palabra_ok s = true) args) :
  obtener_comando_redis ((cuerpo args +:+ nulos n) :: resto) "POST" = Some (inr args).
Proof.
  assert (∀ c, c ∈ ["+"; "="; "000"]%char →
    Forall (λ s, todos_los_bytes (λ a, negb (bool_decide (a = c))) s = true) args) as Hsin.
  { intros c Hc. eapply Forall_impl; [|exact Hargs]. intros s. apply todos_los_bytes_impl.
    intros a. rewrite !negb_true_iff, !bool_decide_eq_false. congruence. }
  unfold obtener_comando_redis, cuerpo. rewrite bool_decide_eq_true_2 by done. cbn [negb].
  rewrite quitar_nulos_app.
  2:{ rewrite todos_los_bytes_app, todos_los_bytes_concat; [done..|apply Hsin; set_solver]. }
  change ("comando=" +:+ ?s) with ("comando" +:+ String "=" s).
  rewrite split_str_app by done. rewrite split_desde_sin
    by (apply todos_los_bytes_concat; [done|apply Hsin; set_solver]).
  rewrite bool_decide_eq_true_2 by done. cbn [negb].
  rewrite split_concat; [done..|apply Hsin; set_solver].
Qed.

(** ** The request a browser sends *)

Definition encabezado (kv : string * string) : string := kv.1 +:+ ": " +:+ kv.2.
Definition peticion_http (metodo ruta : string) (hs : list (string * string)) (cuerpo : string) : string :=
  metodo +:+ " " +:+ ruta +:+ " HTTP/1.1" +:+ CRLF
    +:+ foldr (λ kv s, encabezado kv +:+ CRLF +:+ s) (CRLF +:+ cuerpo) hs.

(** A header: a name without colon, and a value without another [": "]. *)
Definition encabezado_ok (kv : string * string) : bool :=
  sin ":" kv.1 && negb (contiene ": " kv.2) && sin CR kv.1 && sin CR kv.2.

Lemma split_str_ninguno sep s : contiene sep s = false → split_str sep s = [s].
Proof.
  unfold split_str. induction s as [|a s IH]; [done|]. cbn [contiene split_desde].
  intros [Hp Hc]%orb_false_iff. rewrite Hp. by rewrite (IH Hc).
Qed.

Lemma split_crlf s t :
  sin CR s = true → split_str CRLF (s +:+ CRLF +:+ t) = s :: split_str CRLF t.
Proof. apply split_str_sep. Qed.

Lemma leer_headers_ok hs resto :
  forallb encabezado_ok hs = true →
  leer_headers ((encabezado <$> hs) ++ "" :: resto) = inr (concat ((λ kv, [kv.1; kv.2]) <$> hs), length hs).
Proof.
  induction hs as [|[k v] hs IH]; cbn [forallb]; [done|]. intros [Hkv Hhs]%andb_true_iff.
  unfold encabezado_ok in Hkv. cbn [fst snd] in Hkv. rewrite !andb_true_iff, negb_true_iff in Hkv.
  destruct Hkv as [[[Hk Hv] _] _].
  cbn [fmap list_fmap app leer_headers]. rewrite bool_decide_eq_false_2.
  2:{ unfold encabezado. cbn. destruct k; [|done]. done. }
  unfold encabezado at 1. cbn [fst snd]. change ": " with (String ":" " ").
  rewrite split_str_sep by done. change (String ":" " ") with ": ".
  rewrite split_str_ninguno by done. by rewrite (IH Hhs).
Qed.

Lemma lineas_http hs c t :
  forallb encabezado_ok hs = true → sin CR c = true →
  split_str CRLF (foldr (λ kv s, encabezado kv +:+ CRLF +:+ s) (CRLF +:+ c) hs +:+ t) =
    (encabezado <$> hs) ++ "" :: split_str CRLF (c +:+ t).
Proof.
  induction hs as [|kv hs IH]; cbn [forallb]; intros Hh Hc.
  - cbn [foldr]. rewrite string_app_assoc. by apply (split_crlf "").
  - apply andb_true_iff in Hh as [Hkv Hh]. cbn [foldr fmap list_fmap app].
    rewrite !string_app_assoc, split_crlf; [by rewrite IH|].
    unfold encabezado_ok in Hkv. rewrite !andb_true_iff in Hkv. destruct Hkv as [[_ Hk] Hv].
    unfold encabezado, sin in *. by rewrite !todos_los_bytes_app, Hk, Hv.
Qed.

Lemma primeros_bytes_todos n s : (String.length s <= n)%nat → primeros_bytes n s = s.
Proof.
  revert n. induction s as [|a s IH]; intros [|n] Hn; cbn in *; [done..|lia|].
  by rewrite IH by lia.
Qed.

Lemma nulos_utf8 n : utf8_valido (nulos n) = true.
Proof. induction n as [|n IH]; [done|exact IH]. Qed.

Lemma nulos_bytes p n : p "000"%char = true → todos_los_bytes p (nulos n) = true.
Proof. intros Hp. induction n as [|n IH]; [done|]. cbn. by rewrite Hp. Qed.

Section peticion.
Context `{Entorno}.

(** What is left to do for a well-formed request, whatever fills the buffer. *)
Lemma parsear_peticion m ruta hs c :
  sin CR m = true → sin " " m = true → sin CR ruta = true → sin " " ruta = true →
  forallb encabezado_ok hs = true → sin CR c = true → utf8_valido (peticion_http m ruta hs c) = true →
  (String.length (peticion_http m ruta hs c) <= Z.to_nat 5000)%nat →
  ∃ n, parsear_stream (Some (peticion_http m ruta hs c)) =
    (c' ← obtener_comando_redis [c +:+ nulos n; ""] m;
     match c' with
     | inl e => Some (inl e)
     | inr c' => inr <$> new_http [m; ruta; "HTTP/1.1"] (concat ((λ kv, [kv.1; kv.2]) <$> hs)) c'
     end).
Proof.
  intros Hmcr Hmsp Hcr Hsp Hhs Hc Hu Hlen. unfold parsear_stream, buffer.
  rewrite primeros_bytes_todos by done. set (n := (Z.to_nat 5000 - _)%nat). exists n.
  rewrite utf8_app by (done || apply nulos_utf8). cbn [negb].
  assert (split_str CRLF ((peticion_http m ruta hs c +:+ nulos n) +:+ CRLF) =
    (m +:+ " " +:+ ruta +:+ " HTTP/1.1") :: (encabezado <$> hs) ++ [""; c +:+ nulos n; ""]) as ->.
  { unfold peticion_http. rewrite !string_app_assoc.
    rewrite <-(string_app_assoc ruta " HTTP/1.1"), <-(string_app_assoc " " (ruta +:+ _)),
      <-(string_app_assoc m).
    rewrite split_crlf by (unfold sin in *; by rewrite !todos_los_bytes_app, Hmcr, Hcr).
    f_equal. rewrite lineas_http by done. rewrite <-(string_app_assoc c).
    pose proof (split_crlf (c +:+ nulos n) "") as Hs. rewrite string_app_nil_r in Hs.
    rewrite Hs; [done|]. unfold sin in *. by rewrite todos_los_bytes_app, Hc, nulos_bytes. }
  assert (obtener_metodo (m +:+ " " +:+ ruta +:+ " HTTP/1.1") = inr [m; ruta; "HTTP/1.1"]) as ->.
  { unfold obtener_metodo. change (" " +:+ ?x) with (String " " x).
    rewrite split_str_app by done. change (ruta +:+ " HTTP/1.1") with (ruta +:+ String " " "HTTP/1.1").
    by rewrite split_str_app, bool_decide_eq_true_2. }
  unfold obtener_headers. rewrite leer_headers_ok by done.
  rewrite bool_decide_eq_true_2 by (rewrite length_app, length_fmap; cbn; lia).
  cbn [mbind option_bind]. rewrite drop_app_ge by (rewrite length_fmap; lia).
  rewrite length_fmap. by replace (S (length hs) - length hs)%nat with 1%nat by lia.
Qed.

(** A POST of the form of the page gives its command. *)
Lemma parsear_stream_post ruta hs args c :
  sin CR ruta = true → sin " " ruta = true → forallb encabezado_ok hs = true →
  Forall (λ s, palabra_ok s = true ∧ sin CR s = true) args → ComandoInfo.new args = Some c →
  utf8_valido (peticion_http "POST" ruta hs (cuerpo args)) = true →
  (String.length (peticion_http "POST" ruta hs (cuerpo args)) <= Z.to_nat 5000)%nat →
  parsear_stream (Some (peticion_http "POST" ruta hs (cuerpo args))) =
    Some (inr (MkComandoHttp "POST" [ruta; "HTTP/1.1"] (concat ((λ kv, [kv.1; kv.2]) <$> hs)) (Some c))).
Proof.
  intros Hcr Hsp Hhs Hargs Hnew Hu Hlen. assert (args ≠ []) as Hne by by intros ->.
  destruct (parsear_peticion "POST" ruta hs (cuerpo args)) as [n ->]; try done.
  { unfold sin, cuerpo. rewrite todos_los_bytes_app, todos_los_bytes_concat; [done..|].
    eapply Forall_impl; [|exact Hargs]. by intros s [_ Hs]. }
  rewrite formulario_leido; [|done|].
  2:{ eapply Forall_impl; [|exact Hargs]. by intros s [Hs _]. }
  cbn [mbind option_bind]. unfold new_http. destruct args as [|a args]; [done|]. by rewrite Hnew.
Qed.
End peticion.
