(* ===== verification/Cliente.v ===== *)
(** * Clients and their sockets (cliente.rs, cliente_redis.rs, cliente_http.rs)

    The two implementations of [TipoCliente]. What depends on the socket reads
    the connection table of [Mundo]; [&mut self] methods return the new client. *)
From S2P Require Import Prelude Rust Datos Efectos Valor ComandoInfo.
From S2P Require Parser HttpParser.

#[local] Open Scope Z_scope.

(** ** Sockets *)

(** [TcpStream::try_clone]. *)
Definition try_clone (w : Mundo) (s : TcpStream) : option TcpStream :=
  c ← conexiones w !! s; if clonable c then Some s else None.

(** [socket.write(bytes)]: the connection takes the first bytes, or fails. *)
Definition escribir_socket (s : TcpStream) (mensaje : string) : M bool := λ w,
  match conexiones w !! s with
  | Some (MkConexion cl (Some n) a d env) =>
      (Some true,
       con_conexiones (<[s := MkConexion cl (Some n) a d
                                (env ++ [HttpParser.primeros_bytes n mensaje])]> (conexiones w)) w)
  | _ => (Some false, w)
  end.

(** [socket.peek(..)]. *)
Definition asomar (w : Mundo) (s : TcpStream) : option nat :=
  c ← conexiones w !! s; asomado c.

(** [Clone]: the descriptor is duplicated, [None] when that fails. *)
Definition clonar_cliente (w : Mundo) (c : Cliente) : Cliente :=
  match c with
  | CRedis c => CRedis (MkClienteRedis (cr_id c) (cr_canales c) (cr_timeout c)
                  (cr_ultimo_mensaje c) (s ← cr_socket c; try_clone w s))
  | CHttp c => CHttp (MkClienteHttp (ch_id c) (s ← ch_socket c; try_clone w s) (ch_mando c)
                  (ch_pag_index c) (ch_icono c))
  end.

(** ** ClienteRedis *)

Definition new_redis (id timeout : Z) (t : Z) (stream : TcpStream) : ClienteRedis :=
  MkClienteRedis id 0 (if timeout =? 0 then None else Some (from_secs timeout)) t (Some stream).

Definition enviar_mensaje_redis (c : ClienteRedis) (mensaje : string)
    : M ((RedisError + ()) * ClienteRedis) :=
  t ← consultar ahora;
  let c' := MkClienteRedis (cr_id c) (cr_canales c) (cr_timeout c) t (cr_socket c) in
  match cr_socket c with
  | None => mret (inl Coneccion, c')
  | Some s => ok ← escribir_socket s mensaje;
              mret (if ok : bool then inr () else inl Coneccion, c')
  end.

Definition envio_informacion_redis (w : Mundo) (c : ClienteRedis) : bool :=
  match s ← cr_socket c; asomar w s with Some n => bool_decide (0 < n)%nat | None => false end.

Definition esta_conectado_redis (w : Mundo) (c : ClienteRedis) : bool :=
  match cr_socket c with
  | None => false
  | Some s =>
      let conectado := match asomar w s with Some n => bool_decide (n ≠ 0%nat) | None => false end in
      let paso_el_timeout := match cr_timeout c with
                             | Some d => d <? elapsed (ahora w) (cr_ultimo_mensaje c)
                             | None => false
                             end in
      conectado && negb paso_el_timeout
  end.

Definition addr (w : Mundo) (id : Token) (socket : option TcpStream) : string :=
  match socket with
  | None => "Token: " +:+ mostrar id
  | Some s => match c ← conexiones w !! s; direccion_local c with
              | Some a => "Token: " +:+ mostrar id +:+ " IP: " +:+ a
              | None => "Token: " +:+ mostrar id
              end
  end.

(** ** ClienteHttp *)

Definition enviar_bytes (c : ClienteHttp) (bytes : string) : M (RedisError + ()) :=
  match ch_socket c with
  | None => mret (inl Coneccion)
  | Some s => ok ← escribir_socket s bytes; mret (if ok : bool then inr () else inl Coneccion)
  end.

Definition comandos_http : list string :=
  ["COPY"; "DEL"; "EXISTS"; "RENAME"; "EXPIRE"; "EXPIREAT"; "PERSIST"; "TTL"; "TOUCH"; "KEYS";
   "SORT"; "TYPE"; "LINDEX"; "LPOP"; "RPOP"; "LPUSH"; "LPUSHX"; "RPUSH"; "RPUSHX"; "LRANGE";
   "LREM"; "LSET"; "LLEN"; "SADD"; "SCARD"; "SISMEMBER"; "SMEMBERS"; "SREM"; "GET"; "SET";
   "APPEND"; "STRLEN"; "INCRBY"; "DECRBY"; "MGET"; "MSET"; "GETSET"; "GETDEL"; "FLUSHDB";
   "DBSIZE"; "CONFIG"; "INFO"; "PING"].

Definition con_mando (c : ClienteHttp) : ClienteHttp :=
  MkClienteHttp (ch_id c) (ch_socket c) true (ch_pag_index c) (ch_icono c).

(** ** The trait [TipoCliente] *)

Definition obtener_addr (w : Mundo) (c : Cliente) : string :=
  match c with
  | CRedis c => addr w (cr_id c) (cr_socket c)
  | CHttp c => addr w (ch_id c) (ch_socket c)
  end.

Definition envio_informacion (w : Mundo) (c : Cliente) : bool :=
  match c with CRedis c => envio_informacion_redis w c | CHttp c => negb (ch_mando c) end.

Definition esta_conectado (w : Mundo) (c : Cliente) : bool :=
  match c with CRedis c => esta_conectado_redis w c | CHttp c => negb (ch_mando c) end.

Definition enviar_mensaje (c : Cliente) (mensaje : string) : M ((RedisError + ()) * Cliente) :=
  match c with
  | CRedis c => '(r, c') ← enviar_mensaje_redis c mensaje; mret (r, CRedis c')
  | CHttp c => r ← enviar_bytes c mensaje; mret (r, CHttp c)
  end.

Definition enviar_resultado (c : Cliente) (res : ResultadoRedis) : M ((RedisError + ()) * Cliente) :=
  match c with
  | CRedis _ => enviar_mensaje c (Parser.parsear_respuesta res)
  | CHttp h => enviar_mensaje (CHttp (con_mando h))
      ("HTTP/1.1 200 OK" +:+ CRLF +:+ CRLF +:+ HttpParser.parsear_respuesta res)
  end.

Definition soporta_comando (c : Cliente) (comando : string) : bool :=
  match c with CRedis _ => true | CHttp _ => bool_decide (comando ∈ comandos_http) end.

(** ** Requests

    [entrada] is what the reader of the socket finds, [None] when reading fails. *)

(** [ClienteHttp::new]: the page and the icon are read from the resources, [None]
    when they cannot be. *)
Definition new_http (id : Token) (socket : TcpStream) (pagina icono : option string) : ClienteHttp :=
  MkClienteHttp id (Some socket) false
    (default "<html><body>Error al levantar la pagina</body></html>" pagina) (default "" icono).

(** [crear_cliente]: [asomados] is what [peek] leaves in the buffer. *)
Definition crear_cliente (id timeout t : Z) (stream : TcpStream) (pagina icono : option string)
    (asomados : option string) : Cliente :=
  match asomados with
  | None => CRedis (new_redis id timeout t stream)
  | Some bytes =>
      let b := HttpParser.buffer (Z.to_nat 1024) bytes in
      if contiene "HTTP" (if utf8_valido b then b else "")
      then CHttp (new_http id stream pagina icono)
      else CRedis (new_redis id timeout t stream)
  end.

Definition o_server (r : RedisError + ()) : RedisError + option ComandoInfo :=
  match r with inl _ => inl Server | inr _ => inr None end.

Definition manejar_get (c : ClienteHttp) (comando : HttpParser.ComandoHttp)
    : M (RedisError + option ComandoInfo) :=
  if bool_decide (HttpParser.get_argumento comando = Some "/favicon.ico") then
    r ← enviar_bytes c ("HTTP/1.1 200 OK" +:+ CRLF +:+ "Content-Type: image/gif" +:+ CRLF +:+
          "Content-Length: " +:+ mostrar (Z.of_nat (String.length (ch_icono c))) +:+ CRLF +:+ CRLF);
    match r with
    | inl _ => mret (inl Server)
    | inr _ => r ← enviar_bytes c (ch_icono c); mret (o_server r)
    end
  else
    r ← enviar_bytes c ("HTTP/1.1 200 OK" +:+ CRLF +:+ "Content-Type: text/html; charset=UTF-8" +:+
          CRLF +:+ CRLF +:+ ch_pag_index c);
    mret (o_server r).

Definition obtener_comando_de_post (comando : HttpParser.ComandoHttp)
    : RedisError + option ComandoInfo :=
  match HttpParser.get_comando comando with Some c => inr (Some c) | None => inl Server end.

Definition manejar_error_http (c : ClienteHttp) : M (RedisError + option ComandoInfo) :=
  r ← enviar_bytes c ("HTTP/1.1 400 BAD REQUEST" +:+ CRLF +:+ CRLF); mret (o_server r).

Section con_entorno.
Context `{Entorno}.

Definition obtener_comando_redis (c : ClienteRedis) (entrada : option string)
    : M (RedisError + option ComandoInfo) :=
  clon ← consultar (λ w, s ← cr_socket c; try_clone w s);
  match clon with
  | None => mret (inl Coneccion)
  | Some _ =>
      r ← o_panico (Parser.parsear_stream (default "" entrada));
      mret (match r with inr orden => inr (Some orden) | inl _ => inl Server end)
  end.

Definition obtener_comando_http (c : ClienteHttp) (entrada : option string)
    : M (RedisError + option ComandoInfo) :=
  clon ← consultar (λ w, s ← ch_socket c; try_clone w s);
  match clon with
  | None => mret (inl Coneccion)
  | Some _ =>
      r ← o_panico (HttpParser.parsear_stream entrada);
      match r with
      | inl _ => mret (inl Server)
      | inr comando =>
          match HttpParser.get_metodo comando with
          | "GET" => manejar_get c comando
          | "POST" => mret (obtener_comando_de_post comando)
          | _ => manejar_error_http c
          end
      end
  end.

(** [obtener_comando] of the trait; an HTTP client is marked as served as soon as
    its socket could be cloned. *)
Definition obtener_comando (c : Cliente) (entrada : option string)
    : M ((RedisError + option ComandoInfo) * Cliente) :=
  match c with
  | CRedis c => r ← obtener_comando_redis c entrada; mret (r, CRedis c)
  | CHttp c =>
      clon ← consultar (λ w, s ← ch_socket c; try_clone w s);
      r ← obtener_comando_http c entrada;
      mret (r, CHttp (match clon with Some _ => con_mando c | None => c end))
  end.
End con_entorno.

(** ** Effects of a send

    A send changes only what the connections have sent. *)

Definition mismos_datos (w w' : Mundo) : Prop :=
  w' = con_conexiones (conexiones w') w ∧
  ∀ s, (λ c, (clonable c, acepta c)) <$> conexiones w' !! s =
       (λ c, (clonable c, acepta c)) <$> conexiones w !! s.

Lemma mismos_datos_refl w : mismos_datos w w.
Proof. by destruct w. Qed.
Lemma mismos_datos_trans w1 w2 w3 :
  mismos_datos w1 w2 → mismos_datos w2 w3 → mismos_datos w1 w3.
Proof. intros [H1 He1] [H2 He2]. split; [by rewrite H2, H1|]. intros s. by rewrite He2. Qed.
#[export] Hint Resolve mismos_datos_refl mismos_datos_trans : redis.

Definition socket_de (c : Cliente) : option TcpStream :=
  match c with CRedis c => cr_socket c | CHttp c => ch_socket c end.

(** Whether a write to the socket, and to the client, succeeds. *)
Definition escribible (w : Mundo) (s : TcpStream) : bool :=
  match c ← conexiones w !! s; acepta c with Some _ => true | None => false end.
Definition recibe (w : Mundo) (c : Cliente) : bool :=
  match socket_de c with Some s => escribible w s | None => false end.

Lemma escribible_mismos w w' s : mismos_datos w w' → escribible w' s = escribible w s.
Proof.
  intros [_ He]. unfold escribible. specialize (He s).
  destruct (conexiones w !! s) as [[]|], (conexiones w' !! s) as [[]|]; by simplify_eq/=.
Qed.
Lemma recibe_mismos w w' c : mismos_datos w w' → recibe w' c = recibe w c.
Proof. intros Hm. unfold recibe. destruct (socket_de c); [by apply escribible_mismos|done]. Qed.
Lemma try_clone_mismos w w' s : mismos_datos w w' → try_clone w' s = try_clone w s.
Proof.
  intros [_ He]. unfold try_clone. specialize (He s).
  destruct (conexiones w !! s) as [[]|], (conexiones w' !! s) as [[]|]; by simplify_eq/=.
Qed.
Lemma clonar_cliente_mismos w w' c : mismos_datos w w' → clonar_cliente w' c = clonar_cliente w c.
Proof.
  intros Hm. destruct c as [c|c]; unfold clonar_cliente; [destruct (cr_socket c)|destruct (ch_socket c)];
    cbn [mbind option_bind]; by rewrite ?(try_clone_mismos w w').
Qed.

Lemma clonar_cliente_idem w c : clonar_cliente w (clonar_cliente w c) = clonar_cliente w c.
Proof.
  assert (∀ o : option TcpStream, (s ← (s ← o; try_clone w s); try_clone w s) = (s ← o; try_clone w s)) as Hi.
  { intros [s|]; [|done]. cbn [mbind option_bind].
    destruct (try_clone w s) as [t|] eqn:Ht; [|done]. cbn [mbind option_bind].
    enough (t = s) as -> by done. unfold try_clone in Ht.
    destruct (conexiones w !! s) as [x|]; [|done]. cbn [mbind option_bind] in Ht.
    destruct (clonable x); congruence. }
  destruct c as [c|c]; cbn [clonar_cliente cr_socket ch_socket]; by rewrite Hi.
Qed.

Lemma escribir_socket_eq s m w :
  ∃ w', escribir_socket s m w = (Some (escribible w s), w') ∧ mismos_datos w w'.
Proof.
  unfold escribir_socket, escribible.
  destruct (conexiones w !! s) as [[? [n|] ? ? ?]|] eqn:Hs; cbn [mbind option_bind acepta];
    (eexists; split; [done|]); try apply mismos_datos_refl.
  split; [done|]. intros s'. cbn [con_conexiones conexiones]. rewrite lookup_insert.
  case_decide; simplify_eq; [by rewrite Hs|done].
Qed.

(** A send never panics, touches nothing but the socket, and answers whether the
    client received it. *)
Lemma enviar_resultado_datos c res w :
  ∃ c' w', enviar_resultado c res w =
      (Some (if recibe w c then inr () else inl Coneccion, c'), w') ∧ mismos_datos w w'
    ∧ obtener_token c' = obtener_token c ∧ socket_de c' = socket_de c.
Proof.
  pose proof mismos_datos_refl.
  destruct c as [c|c]; unfold enviar_resultado, enviar_mensaje, enviar_mensaje_redis,
    enviar_bytes, consultar, mbind, m_bind, mret, m_ret, recibe;
    cbn [con_mando ch_socket socket_de].
  - destruct (cr_socket c) as [s|] eqn:Hs; [|by eauto 10].
    destruct (escribir_socket_eq s (Parser.parsear_respuesta res) w) as (w' & -> & Hd).
    by eauto 10.
  - destruct (ch_socket c) as [s|] eqn:Hs; [|by eauto 10].
    set (m := "HTTP/1.1 200 OK" +:+ _).
    destruct (escribir_socket_eq s m w) as (w' & -> & Hd). by eauto 10.
Qed.

(** What has been written to a socket, and what sending a result to a client adds to
    it: the bytes its protocol prints, as many as the connection takes. *)
Definition recibido (w : Mundo) (s : TcpStream) : list string :=
  match conexiones w !! s with Some c => enviado c | None => [] end.

Definition codificado (c : Cliente) (res : ResultadoRedis) : string :=
  match c with
  | CRedis _ => Parser.parsear_respuesta res
  | CHttp _ => "HTTP/1.1 200 OK" +:+ CRLF +:+ CRLF +:+ HttpParser.parsear_respuesta res
  end.

Definition entrega (w : Mundo) (s : TcpStream) (res : ResultadoRedis) (c : Cliente) : list string :=
  if bool_decide (socket_de c = Some s) then
    match x ← conexiones w !! s; acepta x with
    | Some n => [HttpParser.primeros_bytes n (codificado c res)]
    | None => []
    end
  else [].

Lemma escribir_socket_recibido t m w s :
  recibido (snd (escribir_socket t m w)) s = recibido w s ++
    (if bool_decide (t = s) then
       match x ← conexiones w !! s; acepta x with
       | Some n => [HttpParser.primeros_bytes n m]
       | None => []
       end
     else []).
Proof.
  unfold escribir_socket, recibido.
  destruct (decide (t = s)) as [->|Hne].
  - rewrite bool_decide_eq_true_2 by done. destruct (conexiones w !! s) as [[? [n|] ? ? ?]|] eqn:Hs; cbn [mbind option_bind acepta snd];
      [|by rewrite Hs, app_nil_r..].
    cbn [con_conexiones conexiones]. by rewrite lookup_insert_eq.
  - rewrite bool_decide_eq_false_2, app_nil_r by done. destruct (conexiones w !! t) as [[? [n|] ? ? ?]|]; [|done..].
    cbn [snd con_conexiones conexiones]. by rewrite lookup_insert_ne.
Qed.

Lemma enviar_mensaje_recibido c m w s :
  recibido (snd (enviar_mensaje c m w)) s = recibido w s ++
    (if bool_decide (socket_de c = Some s) then
       match x ← conexiones w !! s; acepta x with
       | Some n => [HttpParser.primeros_bytes n m]
       | None => []
       end
     else []).
Proof.
  destruct (socket_de c) as [t|] eqn:Ht.
  - assert (snd (enviar_mensaje c m w) = snd (escribir_socket t m w)) as ->.
    { destruct c as [c|c]; cbn [socket_de] in Ht; unfold enviar_mensaje, enviar_mensaje_redis,
        enviar_bytes; rewrite Ht; ejecutar; by destruct (escribir_socket t m w) as [[?|] ?]. }
    rewrite escribir_socket_recibido. f_equal.
    destruct (decide (t = s)) as [->|Hne];
      [by rewrite !bool_decide_eq_true_2 by done|by rewrite !bool_decide_eq_false_2 by congruence].
  - rewrite bool_decide_eq_false_2, app_nil_r by done.
    destruct c as [c|c]; cbn [socket_de] in Ht; unfold enviar_mensaje, enviar_mensaje_redis,
      enviar_bytes; by rewrite Ht.
Qed.

Lemma enviar_resultado_recibido c res w s :
  recibido (snd (enviar_resultado c res w)) s = recibido w s ++ entrega w s res c.
Proof. destruct c; apply enviar_mensaje_recibido. Qed.

Lemma entrega_mismos w w' s res c : mismos_datos w w' → entrega w' s res c = entrega w s res c.
Proof.
  intros [_ He]. unfold entrega. specialize (He s).
  destruct (conexiones w !! s) as [[]|], (conexiones w' !! s) as [[]|]; by simplify_eq/=.
Qed.

(** ** Effects of reading a request *)

Lemma enviar_bytes_datos c bytes w :
  ∃ r w', enviar_bytes c bytes w = (Some r, w') ∧ mismos_datos w w'.
Proof.
  unfold enviar_bytes. destruct (ch_socket c) as [s|]; [|by eauto using mismos_datos_refl].
  destruct (escribir_socket_eq s bytes w) as (w' & He & Hd).
  rewrite m_bind_eq, He. eauto.
Qed.

Lemma manejar_get_datos c comando w : mismos_datos w (snd (manejar_get c comando w)).
Proof.
  unfold manejar_get. destruct (bool_decide _); rewrite m_bind_eq.
  - match goal with |- context [enviar_bytes c ?m w] =>
      destruct (enviar_bytes_datos c m w) as ([e|] & w1 & -> & Hd) end; [done|].
    rewrite m_bind_eq. destruct (enviar_bytes_datos c (ch_icono c) w1) as (r & w2 & -> & Hd2).
    cbn. by eapply mismos_datos_trans.
  - match goal with |- context [enviar_bytes c ?m w] =>
      destruct (enviar_bytes_datos c m w) as (r & w1 & -> & Hd) end. done.
Qed.

Lemma manejar_error_http_datos c w : mismos_datos w (snd (manejar_error_http c w)).
Proof.
  unfold manejar_error_http. rewrite m_bind_eq.
  match goal with |- context [enviar_bytes c ?m w] =>
    destruct (enviar_bytes_datos c m w) as (r & w1 & -> & Hd) end. done.
Qed.

Lemma obtener_comando_datos `{Entorno} c entrada w :
  mismos_datos w (snd (obtener_comando c entrada w)).
Proof.
  pose proof mismos_datos_refl. destruct c as [c|c]; cbn [obtener_comando].
  - rewrite m_bind_eq. unfold obtener_comando_redis. rewrite m_bind_eq, consultar_eq.
    destruct (s ← cr_socket c; try_clone w s); [|done].
    rewrite m_bind_eq, o_panico_eq. by destruct (Parser.parsear_stream _).
  - rewrite m_bind_eq, consultar_eq, m_bind_eq. unfold obtener_comando_http.
    rewrite m_bind_eq, consultar_eq. destruct (s ← ch_socket c; try_clone w s); [|done].
    rewrite m_bind_eq, o_panico_eq. destruct (HttpParser.parsear_stream entrada) as [[|comando]|]; [done| |done].
    pose proof (manejar_get_datos c comando w) as Hg.
    pose proof (manejar_error_http_datos c w) as He.
    repeat match goal with |- context [(match ?x with EmptyString => _ | String _ _ => _ end) w] => destruct x
      | |- context [(match ?x with Ascii _ _ _ _ _ _ _ _ => _ end) w] => destruct x
      | |- context [(if ?x then _ else _) w] => destruct x end;
      first [ done | destruct (manejar_error_http c w) as [[] ?]; exact He
            | destruct (manejar_get c comando w) as [[] ?]; exact Hg ].
Qed.
