(* ===== verification/Canal.v ===== *)
(** * Channels (canal.rs)

    A channel holds clones of its subscribers; the methods send through them. *)
From S2P Require Import Prelude Rust Datos Efectos Cliente.

#[local] Open Scope Z_scope.

Definition new_canal (nombre : string) : Canal := MkCanal nombre [].

(** [Clone for Canal], which clones every subscriber. *)
Definition clonar_canal (w : Mundo) (c : Canal) : Canal :=
  MkCanal (nombre_canal c) (clonar_cliente w <$> suscriptores c).

Definition len (c : Canal) : Z := Z.of_nat (length (suscriptores c)).

Definition es_activo (c : Canal) : bool := bool_decide (1 < length (suscriptores c))%nat.

Definition mensaje_suscripcion (c : Canal) : ResultadoRedis :=
  Vector [BulkStr "subscribe"; BulkStr (nombre_canal c); Int (como_isize (len c + 1))].
Definition mensaje_desuscripcion (c : Canal) : ResultadoRedis :=
  Vector [BulkStr "unsubscribe"; BulkStr (nombre_canal c); Int (como_isize (len c))].
Definition mensaje_publicado (c : Canal) (mensaje : string) : ResultadoRedis :=
  Vector [BulkStr "message"; BulkStr (nombre_canal c); BulkStr mensaje].

(** The notification takes the client by value: its update is lost. *)
Definition notificar (s : Cliente) (res : ResultadoRedis) : M bool :=
  '(r, _) ← enviar_resultado s res; mret (match r with inr _ => true | inl _ => false end).

Definition suscribirse (c : Canal) (suscriptor : Cliente) : M Canal :=
  copia ← consultar (λ w, clonar_cliente w suscriptor);
  ok ← notificar copia (mensaje_suscripcion c);
  mret (if ok : bool then MkCanal (nombre_canal c) (suscriptores c ++ [suscriptor]) else c).

Definition desuscribirse (c : Canal) (suscriptor : Cliente) : M Canal :=
  match posicion (λ x, cliente_eq x suscriptor) (suscriptores c) with
  | None => mret c
  | Some i =>
      let c' := MkCanal (nombre_canal c) (quitar i (suscriptores c)) in
      _ ← notificar suscriptor (mensaje_desuscripcion c');
      mret c'
  end.

(** The loop of [publicar]: the subscribers with their new state, and how many
    sends succeeded. *)
Fixpoint publicar_a (res : ResultadoRedis) (ss : list Cliente) : M (list Cliente * Z) :=
  match ss with
  | [] => mret ([], 0)
  | s :: ss' =>
      '(r, s') ← enviar_resultado s res;
      '(ss'', n) ← publicar_a res ss';
      mret (s' :: ss'', match r with inr _ => n + 1 | inl _ => n end)
  end.

Definition publicar (c : Canal) (mensaje : string) : M (Z * Canal) :=
  '(ss, n) ← publicar_a (mensaje_publicado c mensaje) (suscriptores c);
  mret (n, MkCanal (nombre_canal c) ss).

(** ** Lemmas *)

Lemma notificar_datos s res w :
  ∃ w', notificar s res w = (Some (recibe w s), w') ∧ mismos_datos w w'.
Proof.
  destruct (enviar_resultado_datos s res w) as (c' & w' & He & Hd & _).
  unfold notificar, mbind, m_bind. rewrite He. exists w'. split; [|done].
  by destruct (recibe w s).
Qed.

(** A client is subscribed when its notification could be sent. *)
Lemma suscribirse_datos c s w :
  ∃ w', suscribirse c s w =
      (Some (if recibe w (clonar_cliente w s)
             then MkCanal (nombre_canal c) (suscriptores c ++ [s]) else c), w') ∧
    mismos_datos w w'.
Proof.
  unfold suscribirse, mbind at 1, m_bind at 1, consultar.
  destruct (notificar_datos (clonar_cliente w s) (mensaje_suscripcion c) w) as (w' & Hn & Hd).
  unfold mbind, m_bind. rewrite Hn. eauto.
Qed.

(** Unsubscribing removes the first subscriber with the token of the client. *)
Lemma desuscribirse_datos c s w :
  ∃ w', desuscribirse c s w =
      (Some (match posicion (λ x, cliente_eq x s) (suscriptores c) with
             | Some i => MkCanal (nombre_canal c) (quitar i (suscriptores c))
             | None => c
             end), w') ∧ mismos_datos w w'.
Proof.
  unfold desuscribirse. destruct (posicion _ _) as [i|].
  - destruct (notificar_datos s (mensaje_desuscripcion
      (MkCanal (nombre_canal c) (quitar i (suscriptores c)))) w) as (w' & Hn & Hd).
    unfold mbind, m_bind. rewrite Hn. eauto.
  - exists w. split; [done|apply mismos_datos_refl].
Qed.

Lemma clonar_canal_mismos w w' c : mismos_datos w w' → clonar_canal w' c = clonar_canal w c.
Proof.
  intros Hm. unfold clonar_canal. f_equal. apply list_fmap_ext. intros _ x _.
  by apply clonar_cliente_mismos.
Qed.

(** Publishing counts the subscribers that received the message. *)
Definition alcanzados (w : Mundo) (ss : list Cliente) : Z :=
  Z.of_nat (length (base.filter (λ s, recibe w s = true) ss)).

Lemma publicar_a_datos res ss w :
  ∃ ss' w', publicar_a res ss w = (Some (ss', alcanzados w ss), w') ∧ mismos_datos w w' ∧
    obtener_token <$> ss' = obtener_token <$> ss.
Proof.
  unfold alcanzados. revert w. induction ss as [|s ss IH]; intros w; cbn [publicar_a].
  { exists [], w. split_and!; [done|apply mismos_datos_refl|done]. }
  destruct (enviar_resultado_datos s res w) as (c' & w1 & He & Hd1 & Ht & _).
  destruct (IH w1) as (ss' & w2 & Hp & Hd2 & Hl).
  unfold mbind, m_bind. rewrite He, Hp.
  exists (c' :: ss'), w2. split_and!; [|by eapply mismos_datos_trans|by rewrite !fmap_cons, Ht, Hl].
  rewrite filter_cons.
  rewrite (list_filter_iff (λ s, recibe w1 s = true) (λ s, recibe w s = true))
    by (intros x; by rewrite (recibe_mismos w w1)).
  destruct (recibe w s); cbn [decide_rel]; [|done]. cbv beta iota. unfold mret, m_ret.
  rewrite decide_True by done. cbn [length]. do 3 f_equal. lia.
Qed.

Lemma publicar_datos c m w :
  ∃ c' w', publicar c m w = (Some (alcanzados w (suscriptores c), c'), w') ∧ mismos_datos w w'.
Proof.
  destruct (publicar_a_datos (mensaje_publicado c m) (suscriptores c) w)
    as (ss' & w' & Hp & Hd & _).
  unfold publicar, mbind, m_bind. rewrite Hp. eauto 10.
Qed.

Lemma alcanzados_app w l1 l2 : alcanzados w (l1 ++ l2) = alcanzados w l1 + alcanzados w l2.
Proof. unfold alcanzados. rewrite list.filter_app, length_app. lia. Qed.
Lemma alcanzados_uno w c : recibe w c = true → alcanzados w [c] = 1.
Proof. intros Hc. unfold alcanzados. by rewrite filter_cons_True. Qed.

Lemma clonar_canal_idem w c : clonar_canal w (clonar_canal w c) = clonar_canal w c.
Proof.
  unfold clonar_canal. cbn [nombre_canal suscriptores]. f_equal. rewrite <-list_fmap_compose.
  apply list_fmap_ext. intros ? x _. apply clonar_cliente_idem.
Qed.

(** *** What the methods write to the sockets *)

Lemma notificar_recibido c res w s :
  recibido (snd (notificar c res w)) s = recibido w s ++ entrega w s res c.
Proof.
  rewrite <-enviar_resultado_recibido. unfold notificar. rewrite m_bind_eq.
  by destruct (enviar_resultado c res w) as [[[? ?]|] w'].
Qed.

Lemma suscribirse_recibido c x w s :
  recibido (snd (suscribirse c x w)) s =
    recibido w s ++ entrega w s (mensaje_suscripcion c) (clonar_cliente w x).
Proof.
  rewrite <-notificar_recibido. unfold suscribirse. rewrite m_bind_eq, consultar_eq, m_bind_eq.
  by destruct (notificar _ _ w) as [[ok|] w'].
Qed.

Lemma publicar_a_recibido res ss w s :
  recibido (snd (publicar_a res ss w)) s = recibido w s ++ (ss ≫= entrega w s res).
Proof.
  revert w. induction ss as [|c ss IH]; intros w; cbn [publicar_a]; [by rewrite app_nil_r|].
  rewrite m_bind_eq. pose proof (enviar_resultado_recibido c res w s) as He.
  destruct (enviar_resultado_datos c res w) as (c' & w1 & Hc & Hd & _).
  rewrite Hc in He |- *. cbn [snd] in He. cbv beta iota. rewrite m_bind_eq.
  specialize (IH w1). destruct (publicar_a_datos res ss w1) as (ss' & w2 & Hp & _).
  rewrite Hp in IH |- *. etransitivity; [exact IH|]. rewrite He, <-app_assoc. cbn [mbind list_bind].
  do 2 f_equal. apply list_bind_ext; [|done]. intros x. by apply entrega_mismos.
Qed.

Lemma publicar_recibido c m w s :
  recibido (snd (publicar c m w)) s =
    recibido w s ++ (suscriptores c ≫= entrega w s (mensaje_publicado c m)).
Proof.
  rewrite <-publicar_a_recibido. unfold publicar. rewrite m_bind_eq.
  by destruct (publicar_a _ _ w) as [[[? ?]|] w'].
Qed.

(** ** Properties *)

(** Subscribing a reachable client whose token is not in the
    channel and then unsubscribing it gives the channel back. *)
Theorem canal_desuscrito c s w
    (Hs : recibe w (clonar_cliente w s) = true)
    (Ht : Forall (λ x, cliente_eq x s = false) (suscriptores c)) :
  let '(c1, w1) := suscribirse c s w in
  ∃ c1' w2, c1 = Some c1' ∧ suscriptores c1' = suscriptores c ++ [s] ∧
    desuscribirse c1' s w1 = (Some c, w2).
Proof.
  destruct (suscribirse_datos c s w) as (w1 & -> & Hd1). rewrite Hs.
  set (c1 := MkCanal (nombre_canal c) (suscriptores c ++ [s])).
  destruct (desuscribirse_datos c1 s w1) as (w2 & Hu & _).
  exists c1, w2. split_and!; [done..|]. rewrite Hu.
  change (suscriptores c1) with (suscriptores c ++ [s]).
  rewrite (posicion_app_last _ _ s); [|done|].
  - rewrite quitar_app_last. change (nombre_canal c1) with (nombre_canal c). by destruct c.
  - unfold cliente_eq. apply Z.eqb_refl.
Qed.

Lemma canal_desuscrito_witness :
  let w := con_conexiones {[1 := MkConexion true (Some 100%nat) None None []]} mundo_vacio in
  let s := CRedis (MkClienteRedis 7 0 None 0 (Some 1)) in
  ∃ c1', fst (suscribirse (new_canal "c") s w) = Some c1' ∧ suscriptores c1' = [s].
Proof.
  pose proof (canal_desuscrito (new_canal "c") (CRedis (MkClienteRedis 7 0 None 0 (Some 1)))
    (con_conexiones {[1 := MkConexion true (Some 100%nat) None None []]} mundo_vacio)
    eq_refl (List.Forall_nil _)) as H.
  cbv beta zeta. destruct (suscribirse _ _ _) as [c1 w1].
  destruct H as (c1' & w2 & Hc & Hs & _). exists c1'. split; [exact Hc|exact Hs].
Defined.
