(* ===== verification/BaseDeDatos.v ===== *)
(** * The key-value store (base_de_datos.rs, observer.rs)

    The methods of [BaseDeDatos]; those that take [&mut self] are computations of
    [M] and run inside the critical section of their caller.  [vista] is the
    abstract store a client observes: the live keys with their values. *)
From S2P Require Import Prelude Rust Datos Efectos Valor Cliente.
From S2P Require Canal.

#[local] Open Scope Z_scope.

(** ** Observers *)

(** [Persistidor::actualizar], which forwards to [Persistidor::persistir]. *)
Definition persistidor_actualizar (p : Persistidor) (bdd : gmap string Valor)
    : MensajePersistencia := Info bdd.

(** Each observer receives a clone of the table.  The clone of a channel clones its
    subscribers; the persistence thread does not look inside a channel, so the
    message holds the table itself. *)
Definition notificado (w : Mundo) : Mundo :=
  con_pers (cola_pers w ++
    ((λ o, persistidor_actualizar o (tabla w)) <$> observadores (dato (base w)))) w.
Definition notificar_observadores : M () := modificar notificado.

Definition agregar_observador (o : Persistidor) (b : BaseDeDatos) : BaseDeDatos :=
  MkBaseDeDatos (hashmap b) (observadores b ++ [o]).

(** ** Reads *)

Definition leer_valor (t : Z) (h : gmap string Valor) (clave : string) : option TipoRedis :=
  match h !! clave with Some v => get t v | None => None end.

Definition obtener_valor (clave : string) : M (option TipoRedis) :=
  consultar (λ w, leer_valor (ahora w) (tabla w) clave).

Definition obtener_expiracion (clave : string) : M Z := consultar (λ w,
  match tabla w !! clave with
  | Some v => Valor.obtener_expiracion v
  | None => -2
  end).

Definition existe_clave (clave : string) : M bool := consultar (λ w,
  match tabla w !! clave with
  | Some v => negb (expiro (ahora w) v)
  | None => false
  end).

Definition cantidad_claves : M Z := consultar (λ w, Z.of_nat (size (tabla w))).

(** The keys of the table, in the order its iterator yields them. *)
Definition claves_en_orden `{Entorno} (w : Mundo) : list string :=
  orden_iteracion (semilla w) (map_to_list (tabla w)).*1.

Definition claves `{Entorno} (re : string) : M (list string) := consultar (λ w,
  match regex_new re with
  | Some is_match => base.filter (λ c, is_match c = true) (claves_en_orden w)
  | None => []
  end).

Definition info `{Entorno} : M (list string) := consultar (λ w,
  ["# Database"; ""] ++ ["cantidad de claves:" +:+ mostrar (Z.of_nat (size (tabla w)))]
   ++ ["capacidad:" +:+ mostrar (capacidad_hashmap (size (tabla w)))]).

Definition canales_activos `{Entorno} (re : string) : M (list string) :=
  cs ← claves re;
  consultar (λ w, base.filter (λ c,
    match leer_valor (ahora w) (tabla w) c with
    | Some (TCanal canal) => Canal.es_activo canal
    | _ => false
    end = true) cs).

(** ** Writes *)

Definition insertar_valor (clave : string) (f : Z → Valor) : M () :=
  modificar (λ w, con_tabla (<[clave := f (ahora w)]> (tabla w)) w).

Definition guardar_valor_con_expiracion (clave : string) (expiracion : Z) (v : TipoRedis) : M () :=
  insertar_valor clave (λ t, expirable t v expiracion);; notificar_observadores.

Definition guardar_valor (clave : string) (v : TipoRedis) : M () :=
  insertar_valor clave (λ t, no_expirable t v);; notificar_observadores.

(** [match self.hashmap.get_mut(&clave) { Some(v) => { f(v); 1 } None => 0 }]. *)
Definition mutar_valor (clave : string) (f : Z → Valor → Valor) : M Z := λ w,
  match tabla w !! clave with
  | Some v => (Some 1, con_tabla (<[clave := f (ahora w) v]> (tabla w)) w)
  | None => (Some 0, w)
  end.

Definition actualizar_valor_con_expiracion (clave : string) (expiracion : Z) : M Z :=
  mutar_valor clave (λ t, actualizar_expiracion t expiracion).

Definition actualizar_valor_sin_expiracion (clave : string) : M Z :=
  mutar_valor clave (λ _, hacer_persistente).

Definition actualizar_ultimo_acceso (clave : string) : M Z :=
  mutar_valor clave Valor.actualizar_ultimo_acceso.

(** The loop of [guardar_valores]: it moves one parameter at a time and stores
    each parameter under the one before it. *)
Fixpoint guardar_pares (t : Z) (ps : list string) (h : gmap string Valor) : gmap string Valor :=
  match ps with
  | a :: ((b :: _) as ps') => guardar_pares t ps' (<[a := no_expirable t (Str b)]> h)
  | _ => h
  end.

(** On no parameters [parametros.len() - 1] overflows, or indexing does: either
    way the call panics. *)
Definition guardar_valores (ps : list string) : M () :=
  match ps with
  | [] => panico
  | _ => modificar (λ w, con_tabla (guardar_pares (ahora w) ps (tabla w)) w);;
         notificar_observadores
  end.

Definition eliminar_clave (clave : string) : M Z :=
  eliminada ← consultar (λ w, match tabla w !! clave with Some _ => 1 | None => 0 end);
  modificar (λ w, con_tabla (delete clave (tabla w)) w);;
  notificar_observadores;;
  mret eliminada.

(** [TipoRedis::clone]: a channel clones its subscribers. *)
Definition clonar_tipo (w : Mundo) (v : TipoRedis) : TipoRedis :=
  match v with TCanal c => TCanal (Canal.clonar_canal w c) | _ => v end.

Definition copiar_valor (clave_actual clave_nueva : string) : M (option ()) :=
  v ← obtener_valor clave_actual;
  match v with
  | None => mret None
  | Some v => copia ← consultar (λ w, clonar_tipo w v);
              guardar_valor clave_nueva copia;; mret (Some ())
  end.

Definition intercambiar_valor (clave : string) (nuevo : TipoRedis) : M (option TipoRedis) :=
  actual ← obtener_valor clave;
  match actual with
  | Some (Lista _) => mret (Some (Lista []))
  | Some (Conjunto _) => mret (Some (Conjunto ∅))
  | Some (Str v) => insertar_valor clave (λ t, no_expirable t nuevo);; mret (Some (Str v))
  | Some (TCanal _) | None => insertar_valor clave (λ t, no_expirable t nuevo);; mret None
  end.

Definition borrar_claves : M () :=
  modificar (con_tabla ∅);; notificar_observadores.

(** ** The abstract store *)

(** What a client can observe: each live key with its value. *)
Definition vista (w : Mundo) : gmap string TipoRedis := omap (get (ahora w)) (tabla w).

Lemma vista_lookup w k : vista w !! k = leer_valor (ahora w) (tabla w) k.
Proof. unfold vista, leer_valor. rewrite lookup_omap. by destruct (tabla w !! k). Qed.

Lemma vista_con_tabla_lookup h w j : vista (con_tabla h w) !! j = leer_valor (ahora w) h j.
Proof. apply vista_lookup. Qed.

Lemma leer_valor_insert t h k v j :
  leer_valor t (<[k := v]> h) j = if decide (k = j) then get t v else leer_valor t h j.
Proof. unfold leer_valor. rewrite lookup_insert. by case_decide. Qed.

Lemma leer_valor_delete t h k j :
  leer_valor t (delete k h) j = if decide (k = j) then None else leer_valor t h j.
Proof. unfold leer_valor. rewrite lookup_delete. by case_decide. Qed.

Lemma vista_con_tabla_insert w k v :
  vista (con_tabla (<[k := v]> (tabla w)) w) =
    match get (ahora w) v with
    | Some x => <[k := x]> (vista w)
    | None => delete k (vista w)
    end.
Proof.
  apply map_eq. intros j. rewrite vista_con_tabla_lookup, leer_valor_insert.
  destruct (get (ahora w) v); rewrite ?lookup_insert, ?lookup_delete, vista_lookup;
    by case_decide.
Qed.

Lemma vista_con_tabla_delete w k :
  vista (con_tabla (delete k (tabla w)) w) = delete k (vista w).
Proof.
  apply map_eq. intros j. rewrite vista_con_tabla_lookup, leer_valor_delete.
  by rewrite lookup_delete, vista_lookup.
Qed.

Lemma vista_con_tabla_vacia w : vista (con_tabla ∅ w) = ∅.
Proof. apply map_eq. intros j. by rewrite vista_con_tabla_lookup. Qed.
Lemma vista_notificado w : vista (notificado w) = vista w.
Proof. done. Qed.
Lemma tabla_con_tabla h w : tabla (con_tabla h w) = h.
Proof. done. Qed.

(** ** The methods as functions on worlds *)

Definition guardado (k : string) (v : Valor) (w : Mundo) : Mundo :=
  notificado (con_tabla (<[k := v]> (tabla w)) w).
Definition borrado (k : string) (w : Mundo) : Mundo :=
  notificado (con_tabla (delete k (tabla w)) w).

Lemma obtener_valor_eq k w : obtener_valor k w = (Some (vista w !! k), w).
Proof. unfold obtener_valor, consultar. by rewrite vista_lookup. Qed.
Lemma existe_clave_eq k w :
  existe_clave k w = (Some (match vista w !! k with Some _ => true | None => false end), w).
Proof.
  unfold existe_clave, consultar. do 2 f_equal. rewrite vista_lookup. unfold leer_valor, get.
  destruct (tabla w !! k) as [v|]; [|done]. by destruct (expiro (ahora w) v).
Qed.
Lemma insertar_valor_eq k f w :
  insertar_valor k f w = (Some (), con_tabla (<[k := f (ahora w)]> (tabla w)) w).
Proof. done. Qed.
Lemma guardar_valor_eq k v w :
  guardar_valor k v w = (Some (), guardado k (no_expirable (ahora w) v) w).
Proof. done. Qed.
Lemma guardar_valor_con_expiracion_eq k s v w :
  guardar_valor_con_expiracion k s v w = (Some (), guardado k (expirable (ahora w) v s) w).
Proof. done. Qed.
Lemma eliminar_clave_eq k w :
  eliminar_clave k w =
    (Some (if decide (is_Some (tabla w !! k)) then 1 else 0), borrado k w).
Proof.
  unfold eliminar_clave, mbind, m_bind, consultar, modificar, notificar_observadores. simpl.
  by destruct (tabla w !! k).
Qed.
Lemma mutar_valor_eq k f w :
  mutar_valor k f w =
    match tabla w !! k with
    | Some v => (Some 1, con_tabla (<[k := f (ahora w) v]> (tabla w)) w)
    | None => (Some 0, w)
    end.
Proof. done. Qed.
Lemma copiar_valor_eq k1 k2 w :
  copiar_valor k1 k2 w =
    match vista w !! k1 with
    | Some v => (Some (Some ()), guardado k2 (no_expirable (ahora w) (clonar_tipo w v)) w)
    | None => (Some None, w)
    end.
Proof.
  unfold copiar_valor, mbind, m_bind. rewrite obtener_valor_eq.
  by destruct (vista w !! k1).
Qed.

Lemma vista_guardado k v w :
  vista (guardado k v w) =
    match get (ahora w) v with
    | Some x => <[k := x]> (vista w)
    | None => delete k (vista w)
    end.
Proof. unfold guardado. by rewrite vista_notificado, vista_con_tabla_insert. Qed.
Lemma vista_guardado_no_expirable k v w :
  vista (guardado k (no_expirable (ahora w) v) w) = <[k := v]> (vista w).
Proof. apply vista_guardado. Qed.
Lemma vista_borrado k w : vista (borrado k w) = delete k (vista w).
Proof. apply vista_con_tabla_delete. Qed.

(** The part of the world a method of the store cannot change. *)
Lemma guardado_cerrojo k v w : envenenado (base (guardado k v w)) = envenenado (base w).
Proof. done. Qed.
Lemma borrado_cerrojo k w : envenenado (base (borrado k w)) = envenenado (base w).
Proof. done. Qed.

#[global] Arguments obtener_valor : simpl never.
#[global] Arguments existe_clave : simpl never.
#[global] Arguments insertar_valor : simpl never.
#[global] Arguments guardar_valor : simpl never.
#[global] Arguments guardar_valor_con_expiracion : simpl never.
#[global] Arguments eliminar_clave : simpl never.
#[global] Arguments copiar_valor : simpl never.
#[global] Arguments guardado : simpl never.
#[global] Arguments borrado : simpl never.
#[global] Arguments vista : simpl never.
#[export] Hint Rewrite obtener_valor_eq existe_clave_eq insertar_valor_eq guardar_valor_eq
  guardar_valor_con_expiracion_eq eliminar_clave_eq copiar_valor_eq : correr.
#[export] Hint Rewrite vista_guardado_no_expirable vista_borrado : redis_vista.

(** ** Invariants

    What the store promises to any invariant of the shared world. [Interior] is the
    interface inside a critical section: a predicate closed under the elementary
    changes is preserved by every method. Between critical sections [I] holds, inside
    one also the database is not poisoned: [InvarianteBase] is the interface of the
    handlers that only use the database, [Invariante] that of all of them. *)
Class Interior (J : Mundo → Prop) := {
  int_insertar : ∀ w k v, J w → valor_ok (ahora w) v → J (con_tabla (<[k := v]> (tabla w)) w);
  int_mutar : ∀ w k v v', J w → tabla w !! k = Some v →
    (valor_ok (ahora w) v → valor_ok (ahora w) v') → J (con_tabla (<[k := v']> (tabla w)) w);
  int_borrar : ∀ w k, J w → J (con_tabla (delete k (tabla w)) w);
  int_vaciar : ∀ w, J w → J (con_tabla ∅ w);
  int_pers : ∀ w l, J w → J (con_pers (cola_pers w ++ l) w);
}.

Definition dentro (I : Mundo → Prop) (w : Mundo) : Prop := I w ∧ envenenado (base w) = false.

Class InvarianteBase (I : Mundo → Prop) := {
  inv_dentro :: Interior (dentro I);
  inv_veneno : ∀ w, dentro I w → I (con_base (MkMutex (dato (base w)) true) w);
}.

Class Invariante (I : Mundo → Prop) := {
  inv_base :: InvarianteBase I;
  inv_pers : ∀ w l, I w → I (con_pers (cola_pers w ++ l) w);
  inv_conf : ∀ w c, I w → I (con_conf c w);
  inv_log : ∀ w l, I w → I (con_log (cola_log w ++ l) w);
  inv_conexiones : ∀ w c, I w → I (con_conexiones c w);
}.

#[export] Hint Mode Interior ! : typeclass_instances.
#[export] Hint Mode InvarianteBase ! : typeclass_instances.
#[export] Hint Mode Invariante ! : typeclass_instances.
#[export] Hint Resolve inv_dentro inv_base : redis.

Lemma preserva_lock_base {I : Mundo → Prop} `{!InvarianteBase I} {A} (m : M A) :
  preserva (dentro I) m → siempre I (lock_base m).
Proof.
  intros Hm. apply siempre_atomico. intros w Hw. unfold con_cerrojo_base.
  destruct (envenenado (base w)) eqn:Hp; [done|]. specialize (Hm w (conj Hw Hp)).
  destruct (m w) as [[a|] w']; [apply Hm|by apply inv_veneno].
Qed.

Section invariantes.
Context {I : Mundo → Prop} `{!Interior I}.

Lemma preserva_obtener_valor k : preserva I (obtener_valor k).
Proof. apply preserva_consultar. Qed.
Lemma preserva_existe_clave k : preserva I (existe_clave k).
Proof. apply preserva_consultar. Qed.
Lemma preserva_notificar : preserva I notificar_observadores.
Proof. intros w Hw. by apply int_pers. Qed.
Lemma preserva_guardar_valor k v : preserva I (guardar_valor k v).
Proof. intros w Hw. rewrite guardar_valor_eq. apply int_pers, int_insertar; auto with redis. Qed.
Lemma preserva_guardar_valor_con_expiracion k s v :
  0 ≤ s → preserva I (guardar_valor_con_expiracion k s v).
Proof.
  intros Hs w Hw. rewrite guardar_valor_con_expiracion_eq.
  apply int_pers, int_insertar; auto with redis.
Qed.
Lemma preserva_mutar_valor k f :
  (∀ t v, valor_ok t v → valor_ok t (f t v)) → preserva I (mutar_valor k f).
Proof.
  intros Hf w Hw. rewrite mutar_valor_eq. destruct (tabla w !! k) as [v|] eqn:Hk; [|done].
  eapply int_mutar; eauto.
Qed.
Lemma preserva_eliminar_clave k : preserva I (eliminar_clave k).
Proof. intros w Hw. rewrite eliminar_clave_eq. by apply int_pers, int_borrar. Qed.
Lemma preserva_copiar_valor k1 k2 : preserva I (copiar_valor k1 k2).
Proof.
  intros w Hw. rewrite copiar_valor_eq. destruct (vista w !! k1); [|done].
  apply int_pers, int_insertar; auto with redis.
Qed.
Lemma preserva_borrar_claves : preserva I borrar_claves.
Proof. intros w Hw. by apply int_pers, int_vaciar. Qed.
Lemma preserva_intercambiar_valor k v : preserva I (intercambiar_valor k v).
Proof.
  intros w Hw. unfold intercambiar_valor, mbind, m_bind. rewrite obtener_valor_eq.
  assert (I (con_tabla (<[k := no_expirable (ahora w) v]> (tabla w)) w)) as Hi
    by (apply int_insertar; auto with redis).
  destruct (vista w !! k) as [[]|]; done.
Qed.
Lemma preserva_guardar_pares ps w :
  I w → I (con_tabla (guardar_pares (ahora w) ps (tabla w)) w).
Proof.
  intros Hw. set (t := ahora w).
  assert (∀ h, I (con_tabla h w) → I (con_tabla (guardar_pares t ps h) w)) as Hg.
  { induction ps as [|a [|b ps] IH]; simpl; [auto..|]. intros h Hh. apply IH.
    exact (int_insertar (con_tabla h w) a (no_expirable t (Str b)) Hh (no_expirable_ok t (Str b))). }
  apply Hg. by destruct w as [[[] ]].
Qed.
Lemma preserva_guardar_valores ps : preserva I (guardar_valores ps).
Proof.
  intros w Hw. destruct ps as [|a ps]; [done|]. by apply int_pers, preserva_guardar_pares.
Qed.
End invariantes.

#[export] Hint Resolve preserva_lock_base preserva_obtener_valor preserva_existe_clave
  preserva_guardar_valor preserva_guardar_valor_con_expiracion preserva_mutar_valor
  preserva_eliminar_clave preserva_copiar_valor preserva_borrar_claves
  preserva_intercambiar_valor preserva_guardar_valores : redis.

(** Walks through a handler down to the methods of the store. *)
Ltac invariante := repeat (cbv beta zeta; match goal with
  | |- forall _, _ => intro
  | |- siempre _ (mret _) => exact Logic.I
  | |- siempre _ (Ret _) => exact Logic.I
  | |- siempre _ (_ ≫= _) => apply siempre_bind
  | |- siempre _ (lock_base _) => apply preserva_lock_base
  | |- siempre _ (atomico _) => apply siempre_atomico
  | |- preserva _ (_ ≫= _) => apply preserva_bind
  | |- siempre _ (match ?x with _ => _ end) => destruct x
  | |- preserva _ (match ?x with _ => _ end) => destruct x
  | |- _ => solve [eauto with redis]
  end).

(** The table is well formed: all its values are. *)
Definition tabla_ok (w : Mundo) : Prop := map_Forall (λ _ v, valor_ok (ahora w) v) (tabla w).

#[export] Instance tabla_ok_interior : Interior (dentro tabla_ok).
Proof.
  split; unfold tabla_ok, dentro.
  - intros w k v [Hw Hp] Hv. split; [by apply map_Forall_insert_2|done].
  - intros w k v v' [Hw Hp] Hk Hv. split; [|done].
    apply map_Forall_insert_2; [|done]. by apply Hv, (Hw k v).
  - intros w k [Hw Hp]. split; [by apply map_Forall_delete|done].
  - intros w [Hw Hp]. split; [|done]. apply map_Forall_empty.
  - done.
Qed.
#[export] Instance tabla_ok_invariante : Invariante tabla_ok.
Proof. split; [split; [apply _|by intros w [Hw _]]|done..]. Qed.

Lemma tabla_ok_ambiente w w' : ambiente w w' → tabla_ok w → tabla_ok w'.
Proof.
  intros [Hb _ Ht _ _] Hw k v. unfold tabla. rewrite Hb. intros Hk.
  eapply valor_ok_monotono; [done|]. by apply (Hw k v).
Qed.

(** The database is poisoned and its content is [b]. *)
Definition congelada (b : BaseDeDatos) (w : Mundo) : Prop := base w = MkMutex b true.

#[export] Instance congelada_invariante b : Invariante (congelada b).
Proof.
  assert (∀ w, dentro (congelada b) w → False) as Hno.
  { intros w [Hw Hp]. unfold congelada in Hw. by rewrite Hw in Hp. }
  split; [split; [split|]|..]; try (intros; exfalso; by eapply Hno); done.
Qed.
