(* ===== verification/Refinamiento.v ===== *)
(** * Refinement of the abstract store

    The specification of a command is a function on the abstract store, the map
    of the live keys. [refina p f] says that the handler [p], run on any world
    whose database is not poisoned, does what [f] says on the abstract store: the
    same answer, or the same kind of panic, and the same store afterwards. *)
From S2P Require Import Prelude Rust Datos Efectos Valor ComandoInfo BaseDeDatos.

(** ** Error messages shared by the handlers *)

Definition err_bdd : ResultadoRedis := Error "ERR when accessing the database".
Definition err_tipo : ResultadoRedis :=
  Error "WRONGTYPE Operation against a key holding the wrong kind of value".
Definition err_entero : ResultadoRedis := Error "ERR value is not an integer or out of range".
Definition err_args (c : string) : ResultadoRedis :=
  Error ("ERR wrong number of arguments for '" +:+ c +:+ "' command").

(** ** Specifications *)

(** The abstract store. *)
Abbreviation Estado := (gmap string TipoRedis).

(** How a command ends: with an answer, with a panic of its thread outside any
    critical section, or with a panic that poisons the database. *)
Inductive Desenlace :=
  | Responde (r : ResultadoRedis) (m : Estado)
  | Aborta (m : Estado)
  | Envenena (m : Estado).

Definition cumple (w : Mundo) (sal : option ResultadoRedis * Mundo) (d : Desenlace) : Prop :=
  ahora (snd sal) = ahora w ∧
  match d with
  | Responde r m => fst sal = Some r ∧ vista (snd sal) = m ∧ envenenado (base (snd sal)) = false
  | Aborta m => fst sal = None ∧ vista (snd sal) = m ∧ envenenado (base (snd sal)) = false
  | Envenena m => fst sal = None ∧ vista (snd sal) = m ∧ envenenado (base (snd sal)) = true
  end.

Definition refina (p : Prog ResultadoRedis) (f : Estado → Desenlace) : Prop :=
  ∀ w, envenenado (base w) = false → cumple w (correr p w) (f (vista w)).

(** The same, on the stores that satisfy [P]. *)
Definition refina_si (P : Estado → Prop) (p : Prog ResultadoRedis) (f : Estado → Desenlace) : Prop :=
  ∀ w, envenenado (base w) = false → P (vista w) → cumple w (correr p w) (f (vista w)).

(** The same for a command whose answer also depends on what is not in the store:
    the clock, the hashers or the sockets. *)
Definition refina_en (p : Prog ResultadoRedis) (f : Mundo → Estado → Desenlace) : Prop :=
  ∀ w, envenenado (base w) = false → cumple w (correr p w) (f w (vista w)).

(** ** How the elementary worlds end a run *)

Lemma cumple_igual w r : envenenado (base w) = false → cumple w (Some r, w) (Responde r (vista w)).
Proof. done. Qed.
Lemma cumple_aborta w : envenenado (base w) = false → cumple w (None, w) (Aborta (vista w)).
Proof. done. Qed.
Lemma cumple_envenena w :
  cumple w (None, con_base (MkMutex (dato (base w)) true) w) (Envenena (vista w)).
Proof. done. Qed.
Lemma cumple_guardado w k v r :
  envenenado (base w) = false →
  cumple w (Some r, guardado k (no_expirable (ahora w) v) w) (Responde r (<[k := v]> (vista w))).
Proof. intros. split_and!; [done..|apply vista_guardado_no_expirable|done]. Qed.
Lemma cumple_guardado_expirable w k v s r :
  envenenado (base w) = false → (0 ≤ s)%Z →
  cumple w (Some r, guardado k (expirable (ahora w) v s) w)
    (Responde r (if (s =? 0)%Z then delete k (vista w) else <[k := v]> (vista w))).
Proof.
  intros. split_and!; [done..| |done]. cbn [snd]. rewrite vista_guardado. unfold Valor.get.
  rewrite expiro_expirable by lia. rewrite Z.sub_diag. unfold from_secs, nanos.
  destruct (Z.eqb_spec s 0) as [->|]; [done|].
  by rewrite (proj2 (Z.leb_gt _ _)) by lia.
Qed.
Lemma cumple_borrado w k r :
  envenenado (base w) = false →
  cumple w (Some r, borrado k w) (Responde r (delete k (vista w))).
Proof. intros. split_and!; [done..|apply vista_borrado|done]. Qed.
Lemma cumple_con_tabla w h r m :
  envenenado (base w) = false → (∀ k, leer_valor (ahora w) h k = m !! k) →
  cumple w (Some r, con_tabla h w) (Responde r m).
Proof.
  intros ? Hm. split_and!; [done..| |done]. cbn [snd]. apply map_eq. intros k.
  by rewrite vista_con_tabla_lookup.
Qed.
Lemma cumple_insertado w k v r :
  envenenado (base w) = false →
  cumple w (Some r, con_tabla (<[k := no_expirable (ahora w) v]> (tabla w)) w)
    (Responde r (<[k := v]> (vista w))).
Proof. apply cumple_guardado. Qed.
Lemma cumple_notificado w w' r d :
  cumple w (Some r, w') d → cumple w (Some r, notificado w') d.
Proof. by destruct d. Qed.

#[export] Hint Resolve cumple_igual cumple_aborta cumple_envenena cumple_guardado
  cumple_guardado_expirable cumple_borrado cumple_insertado : redis.

(** Closes a branch that ends in an elementary world. *)
Ltac cerrar := first
  [ by apply cumple_igual | by apply cumple_aborta | by apply cumple_envenena
  | by apply cumple_guardado | by apply cumple_insertado | by apply cumple_borrado
  | by apply cumple_guardado_expirable ].

(** Proves the refinement of a handler that dispatches on the name of the command,
    [tac] closing the case of each name. *)
Ltac por_nombre tac :=
  repeat match goal with |- _ (match ?x with _ => _ end) _ => destruct x end; tac.

(** ** Commands that fail on a poisoned database *)

Definition falla (p : Prog ResultadoRedis) (w : Mundo) : Prop :=
  ∃ e, correr p w = (Some (Error e), w).

Lemma falla_error e w : falla (mret (Error e)) w.
Proof. by exists e. Qed.

(** Runs a handler on a poisoned database. *)
Ltac envenenado :=
  unfold falla;
  repeat first
    [ progress ejecutar
    | progress leer_comando
    | progress (unfold err_bdd; cbv beta iota)
    | match goal with |- context [correr (match (match ?x with _ => _ end) with _ => _ end)] =>
        destruct x end
    | match goal with |- context [correr (match ?x with _ => _ end)] => destruct x end ];
  eexists; reflexivity.
