(* ===== verification/ComandoString.v ===== *)
(** * String commands (comando_string_handler.rs)

    One definition per handler, its specification on the abstract store
    ([esp_...]) and the proof that the handler refines it. *)
From S2P Require Import Prelude Rust Datos Efectos Valor ComandoInfo BaseDeDatos Refinamiento.

#[local] Open Scope Z_scope.

Definition contiene_param (s : string) (ps : list string) : bool := bool_decide (s ∈ ps).

(** ** Handlers *)

Definition es_comando_string (comando : string) : bool := bool_decide (comando ∈
  ["GET"; "SET"; "APPEND"; "STRLEN"; "INCRBY"; "DECRBY"; "MGET"; "MSET"; "GETSET"; "GETDEL"]).

Definition get (comando : ComandoInfo) : Prog ResultadoRedis :=
  match get_clave comando with
  | (None, _) => mret (err_args "get")
  | (Some clave, _) =>
      r ← lock_base (obtener_valor clave);
      mret (match r with
            | Some (Some (Str valor)) => BulkStr valor
            | Some None => Nil
            | Some _ => err_tipo
            | None => err_bdd
            end)
  end.

(** [c[0]] panics when [support] is the last parameter. *)
Definition obtener_tiempo_expiracion (parametros : list string) (support : string)
    : option (option Z) :=
  c0 ← indexar (segmento_final (λ p, bool_decide (p = support)) parametros) 0;
  Some (parse_u64 c0).

(** The branch of [set] for a lifetime option. *)
Definition set_con_vida (opcion : string) (a_segundos : Z → Z) (clave : string) (ps : list string)
    : M (ResultadoRedis + ()) :=
  e ← o_panico (obtener_tiempo_expiracion ps opcion);
  match e with
  | None => mret (inl err_entero)
  | Some expiracion =>
      v ← o_panico (indexar ps 1);
      guardar_valor_con_expiracion clave (a_segundos expiracion) (Str v);; mret (inr ())
  end.

(** The critical section of [set]: it answers [inl] on an early return. *)
Definition set_seccion (clave : string) (ps : list string) : M (ResultadoRedis + ()) :=
  if contiene_param "EX" ps then set_con_vida "EX" (λ s, s) clave ps
  else if contiene_param "PX" ps then set_con_vida "PX" (λ ms, ms / 1000) clave ps
  else
    v ← o_panico (indexar ps 1);
    guardar_valor clave (Str v);; mret (inr ()).

Definition set (comando : ComandoInfo) : Prog ResultadoRedis :=
  match get_clave comando with
  | (None, _) => mret (err_args "set")
  | (Some clave, comando) =>
      match get_parametros comando with
      | None => mret (err_args "set")
      | Some ps =>
          if bool_decide (length ps = 1%nat) then mret (err_args "set")
          else
            r ← lock_base (set_seccion clave ps);
            mret (match r with
                  | None => err_bdd
                  | Some (inl e) => e
                  | Some (inr _) => StrSimple "OK"
                  end)
      end
  end.

Definition getset (comando : ComandoInfo) : Prog ResultadoRedis :=
  match get_clave comando with
  | (None, _) => mret (err_args "getset")
  | (Some clave, comando) =>
      match get_parametro comando with
      | (None, _) => mret (err_args "getset")
      | (Some parametro, _) =>
          r ← lock_base (intercambiar_valor clave (Str parametro));
          mret (match r with
                | Some (Some (Str valor_anterior)) => StrSimple valor_anterior
                | Some None => Nil
                | Some _ => err_tipo
                | None => err_bdd
                end)
      end
  end.

Definition append_seccion (clave v0 : string) : M ResultadoRedis :=
  existe ← existe_clave clave;
  nuevo ← (if existe : bool then
             actual ← obtener_valor clave;
             mret (match actual with Some (Str v) => Some (v +:+ v0) | _ => None end)
           else mret (Some v0));
  match nuevo with
  | None => mret err_tipo
  | Some v => guardar_valor clave (Str v);; mret (Int (como_isize (Z.of_nat (String.length v))))
  end.

Definition append (comando : ComandoInfo) : Prog ResultadoRedis :=
  match get_clave comando with
  | (None, _) => mret (err_args "append")
  | (Some clave, comando) =>
      match get_parametro comando with
      | (None, _) => mret (err_args "append")
      | (Some v, _) =>
          r ← lock_base (append_seccion clave v);
          mret (default err_bdd r)
      end
  end.

Definition getdel (comando : ComandoInfo) : Prog ResultadoRedis :=
  match get_clave comando with
  | (None, _) => mret (err_args "getdel")
  | (Some clave, comando) =>
      g ← get comando;
      match g with
      | Error s => mret (Error s)
      | BulkStr v =>
          r ← lock_base (eliminar_clave clave);
          mret (match r with Some _ => BulkStr v | None => err_bdd end)
      | _ => mret Nil
      end
  end.

Definition strlen (comando : ComandoInfo) : Prog ResultadoRedis :=
  match get_clave comando with
  | (None, _) => mret (Int 0)
  | (Some clave, _) =>
      r ← lock_base (obtener_valor clave);
      mret (match r with
            | Some (Some (Str v)) => Int (como_isize (Z.of_nat (String.length v)))
            | Some _ => err_tipo
            | None => err_bdd
            end)
  end.

(** [f] is an [i32] operation that may overflow. *)
Definition operar_sobre_int (comando : ComandoInfo) (f : Z → Z → option Z) : Prog ResultadoRedis :=
  match get_clave comando with
  | (None, _) => mret (Error "ERR wrong number of arguments")
  | (Some clave, comando) =>
      r ← lock_base (obtener_valor clave);
      match r with
      | None => mret err_bdd
      | Some (Some (Lista _ | Conjunto _ | TCanal _)) => mret err_tipo
      | Some o =>
          match parse_i32 (match o with Some (Str v) => v | _ => "0" end) with
          | None => mret err_entero
          | Some num =>
              match parse_i32 (default (mostrar 0) (fst (get_parametro comando))) with
              | None => mret err_entero
              | Some param =>
                  num ← o_panico_hilo (f num param);
                  r ← lock_base (guardar_valor clave (Str (mostrar num)));
                  mret (match r with
                        | Some _ => BulkStr (mostrar num)
                        | None => err_bdd
                        end)
              end
          end
      end
  end.

Section con_entorno.
Context `{Entorno}.

Definition decrby (comando : ComandoInfo) : Prog ResultadoRedis :=
  operar_sobre_int comando (λ a b, aritmetica_i32 comprobar_desborde (a - b)).
Definition incrby (comando : ComandoInfo) : Prog ResultadoRedis :=
  operar_sobre_int comando (λ a b, aritmetica_i32 comprobar_desborde (a + b)).
End con_entorno.

(** The loop of [mget] over the remaining parameters. *)
Fixpoint mget_valores (ps : list string) (valores : list ResultadoRedis)
    : Prog (ResultadoRedis + list ResultadoRedis) :=
  match ps with
  | [] => mret (inr valores)
  | p :: ps' =>
      r ← lock_base (obtener_valor p);
      match r with
      | None => mret (inl err_bdd)
      | Some (Some (Str v)) => mget_valores ps' (valores ++ [BulkStr v])
      | Some _ => mget_valores ps' (valores ++ [Nil])
      end
  end.

Definition mget (comando : ComandoInfo) : Prog ResultadoRedis :=
  r ← mget_valores (parametros_restantes comando) [];
  mret (match r with
        | inl e => e
        | inr [] => Error "ERR wrong number of arguments for mget command"
        | inr valores => Vector valores
        end).

Definition mset (comando : ComandoInfo) : Prog ResultadoRedis :=
  match get_parametros comando with
  | None => mret (Error "ERR wrong number of arguments for mset command")
  | Some ps =>
      if negb (Nat.even (length ps))
      then mret (Error "ERR wrong number of arguments for mset command")
      else
        r ← lock_base (guardar_valores ps);
        mret (match r with Some _ => StrSimple "OK" | None => err_bdd end)
  end.

(** [ComandoStringHandler::new] and [ejecutar]: the handler of a command name. *)
Definition ejecutar `{Entorno} (comando : ComandoInfo) : Prog ResultadoRedis :=
  match get_nombre comando with
  | "GET" => get comando
  | "APPEND" => append comando
  | "GETDEL" => getdel comando
  | "STRLEN" => strlen comando
  | "DECRBY" => decrby comando
  | "INCRBY" => incrby comando
  | "MGET" => mget comando
  | "MSET" => mset comando
  | "GETSET" => getset comando
  | _ => set comando
  end.

(** ** Specifications *)

Definition esp_get (ps : list string) (m : Estado) : Desenlace :=
  match ps with
  | [] => Responde (err_args "get") m
  | k :: _ => Responde (match m !! k with
                        | Some (Str v) => BulkStr v
                        | None => Nil
                        | _ => err_tipo
                        end) m
  end.

(** A lifetime option of SET: the last parameter must not be its name, since the
    handler then panics while it holds the database. A lifetime of zero seconds
    leaves no live key. *)
Definition esp_set_con_vida (opcion : string) (a_segundos : Z → Z) (k v : string)
    (ps : list string) (m : Estado) : Desenlace :=
  match segmento_final (λ p, bool_decide (p = opcion)) ps with
  | [] => Envenena m
  | n :: _ =>
      match parse_u64 n with
      | None => Responde err_entero m
      | Some e => Responde (StrSimple "OK")
                    (if a_segundos e =? 0 then delete k m else <[k := Str v]> m)
      end
  end.

Definition esp_set (ps : list string) (m : Estado) : Desenlace :=
  match ps with
  | k :: v :: _ =>
      if bool_decide ("EX" ∈ ps) then esp_set_con_vida "EX" (λ s, s) k v ps m
      else if bool_decide ("PX" ∈ ps) then esp_set_con_vida "PX" (λ ms, ms / 1000) k v ps m
      else Responde (StrSimple "OK") (<[k := Str v]> m)
  | _ => Responde (err_args "set") m
  end.

Definition esp_getset (ps : list string) (m : Estado) : Desenlace :=
  match ps with
  | k :: v :: _ =>
      match m !! k with
      | Some (Str v0) => Responde (StrSimple v0) (<[k := Str v]> m)
      | Some (TCanal _) | None => Responde Nil (<[k := Str v]> m)
      | Some (Lista _ | Conjunto _) => Responde err_tipo m
      end
  | _ => Responde (err_args "getset") m
  end.

Definition esp_append (ps : list string) (m : Estado) : Desenlace :=
  match ps with
  | k :: v :: _ =>
      let guardar s := Responde (Int (como_isize (Z.of_nat (String.length s)))) (<[k := Str s]> m) in
      match m !! k with
      | None => guardar v
      | Some (Str v0) => guardar (v0 +:+ v)
      | Some _ => Responde err_tipo m
      end
  | _ => Responde (err_args "append") m
  end.

Definition esp_getdel (ps : list string) (m : Estado) : Desenlace :=
  match ps with
  | [] => Responde (err_args "getdel") m
  | k :: _ =>
      match m !! k with
      | Some (Str v) => Responde (BulkStr v) (delete k m)
      | None => Responde Nil m
      | Some _ => Responde err_tipo m
      end
  end.

Definition esp_strlen (ps : list string) (m : Estado) : Desenlace :=
  match ps with
  | [] => Responde (Int 0) m
  | k :: _ => Responde (match m !! k with
                        | Some (Str v) => Int (como_isize (Z.of_nat (String.length v)))
                        | _ => err_tipo
                        end) m
  end.

(** The arithmetic of INCRBY and DECRBY is the mathematical one [op]; it panics or
    wraps when the result leaves [i32]. *)
Definition esp_operar `{Entorno} (op : Z → Z → Z) (ps : list string) (m : Estado) : Desenlace :=
  match ps with
  | [] => Responde (Error "ERR wrong number of arguments") m
  | k :: resto =>
      match m !! k with
      | Some (Str _) | None =>
          let actual := match m !! k with Some (Str v) => parse_i32 v | _ => Some 0 end in
          match actual, match resto with [] => Some 0 | p :: _ => parse_i32 p end with
          | Some a, Some b =>
              if es_i32 (op a b) || negb comprobar_desborde then
                let s := mostrar (como_i32 (op a b)) in
                Responde (BulkStr s) (<[k := Str s]> m)
              else Aborta m
          | _, _ => Responde err_entero m
          end
      | Some _ => Responde err_tipo m
      end
  end.

Definition esp_mget (ps : list string) (m : Estado) : Desenlace :=
  match ps with
  | [] => Responde (Error "ERR wrong number of arguments for mget command") m
  | _ => Responde (Vector ((λ k, match m !! k with Some (Str v) => BulkStr v | _ => Nil end) <$> ps)) m
  end.

(** What MSET stores: every parameter but the last, under the parameter that
    follows it. *)
Definition pares_consecutivos (ps : list string) : list (string * string) := zip ps (tail ps).

Definition esp_mset (ps : list string) (m : Estado) : Desenlace :=
  if bool_decide (ps = []) || negb (Nat.even (length ps))
  then Responde (Error "ERR wrong number of arguments for mset command") m
  else Responde (StrSimple "OK")
         (foldl (λ m '(k, v), <[k := Str v]> m) m (pares_consecutivos ps)).

(** ** The handlers refine their specifications *)

Lemma get_refina c : refina (get c) (esp_get (parametros c)).
Proof.
  intros w Hw. unfold get, esp_get. destruct c as [n [|k ps] i]; leer_comando.
  - cerrar.
  - ejecutar. cerrar.
Qed.

Lemma set_con_vida_eq opcion f k v ps w :
  ps !! 1%nat = Some v →
  set_con_vida opcion f k ps w =
    match segmento_final (λ p, bool_decide (p = opcion)) ps with
    | [] => (None, w)
    | n :: _ => match parse_u64 n with
                | None => (Some (inl err_entero), w)
                | Some e => (Some (inr ()), guardado k (expirable (ahora w) (Str v) (f e)) w)
                end
    end.
Proof.
  intros Hv. unfold set_con_vida, obtener_tiempo_expiracion.
  destruct (segmento_final _ ps) as [|n l]; [done|].
  ejecutar. change (indexar (n :: l) 0) with (Some n). cbn [mbind option_bind].
  destruct (parse_u64 n); ejecutar; [|done].
  change (indexar ps 1) with (ps !! 1%nat). rewrite Hv. by ejecutar.
Qed.

Lemma set_con_vida_cumple opcion f k v ps w :
  (∀ s, 0 ≤ s → 0 ≤ f s) → ps !! 1%nat = Some v → envenenado (base w) = false →
  cumple w (correr (r ← lock_base (set_con_vida opcion f k ps);
                    mret (match r with
                          | None => err_bdd
                          | Some (inl e) => e
                          | Some (inr _) => StrSimple "OK"
                          end)) w) (esp_set_con_vida opcion f k v ps (vista w)).
Proof.
  intros Hf Hv Hw. ejecutar. rewrite (set_con_vida_eq _ _ _ v) by done.
  unfold esp_set_con_vida. destruct (segmento_final _ ps); [apply cumple_envenena|].
  destruct (parse_u64 _) as [e|] eqn:He; [|by apply cumple_igual].
  apply cumple_guardado_expirable; [done|]. apply Hf. apply parse_entero_rango in He. lia.
Qed.

Lemma set_refina c : refina (set c) (esp_set (parametros c)).
Proof.
  intros w Hw. unfold set. destruct c as [n [|k [|v ps]] i]; [by apply cumple_igual..|].
  leer_comando. rewrite bool_decide_eq_false_2 by done.
  unfold esp_set, set_seccion, contiene_param. set (l := k :: v :: ps).
  destruct (bool_decide ("EX" ∈ l)); [|destruct (bool_decide ("PX" ∈ l))].
  - apply set_con_vida_cumple; [lia|done..].
  - apply set_con_vida_cumple; [intros; apply Z.div_pos; lia|done..].
  - ejecutar. by apply cumple_guardado.
Qed.

Lemma getset_refina c : refina (getset c) (esp_getset (parametros c)).
Proof.
  intros w Hw. unfold getset. destruct c as [n [|k [|v ps]] i]; [by apply cumple_igual..|].
  leer_comando. ejecutar. unfold intercambiar_valor. ejecutar. unfold esp_getset.
  destruct (vista w !! k) as [[]|]; ejecutar; cerrar.
Qed.

Lemma append_refina c : refina (append c) (esp_append (parametros c)).
Proof.
  intros w Hw. unfold append. destruct c as [n [|k [|v ps]] i]; [by apply cumple_igual..|].
  leer_comando. ejecutar. unfold append_seccion. ejecutar. unfold esp_append.
  destruct (vista w !! k) as [[]|] eqn:Hk; ejecutar; rewrite ?Hk; ejecutar; cerrar.
Qed.

Lemma getdel_refina c : refina (getdel c) (esp_getdel (parametros c)).
Proof.
  intros w Hw. unfold getdel, get. destruct c as [n [|k ps] i]; [by apply cumple_igual|].
  leer_comando. ejecutar. unfold esp_getdel.
  destruct (vista w !! k) as [[]|]; ejecutar; cerrar.
Qed.

Lemma strlen_refina c : refina (strlen c) (esp_strlen (parametros c)).
Proof.
  intros w Hw. unfold strlen. destruct c as [n [|k ps] i]; [by apply cumple_igual|].
  leer_comando. ejecutar. unfold esp_strlen.
  destruct (vista w !! k) as [[]|]; ejecutar; cerrar.
Qed.

Section aritmetica.
Context `{Entorno}.

Lemma operar_refina (op : Z → Z → Z) c :
  refina (operar_sobre_int c (λ a b, aritmetica_i32 comprobar_desborde (op a b)))
    (esp_operar op (parametros c)).
Proof.
  intros w Hw. unfold operar_sobre_int. destruct c as [n [|k ps] i]; [by apply cumple_igual|].
  leer_comando. ejecutar. unfold esp_operar.
  assert (∀ a b,
    cumple w (correr (num ← o_panico_hilo (aritmetica_i32 comprobar_desborde (op a b));
                      r ← lock_base (guardar_valor k (Str (mostrar num)));
                      mret (match r with
                            | Some _ => BulkStr (mostrar num)
                            | None => err_bdd
                            end)) w)
      (if es_i32 (op a b) || negb comprobar_desborde then
         let s := mostrar (como_i32 (op a b)) in
         Responde (BulkStr s) (<[k := Str s]> (vista w))
       else Aborta (vista w))) as Hfin.
  { intros a b. unfold aritmetica_i32. destruct (es_i32 (op a b)) eqn:He.
    - rewrite como_i32_id by done. ejecutar. cerrar.
    - destruct comprobar_desborde; ejecutar; cerrar. }
  destruct (vista w !! k) as [[s| | |]|]; [|cerrar..|];
    cbv beta iota zeta; [destruct (parse_i32 s); [|cerrar]|change (parse_i32 "0") with (Some 0)];
    (destruct ps as [|p ps]; leer_comando; cbn [from_option id];
     [change (parse_i32 (mostrar 0)) with (Some 0); apply Hfin
     |destruct (parse_i32 p); [apply Hfin|cerrar]]).
Qed.

Lemma incrby_refina c : refina (incrby c) (esp_operar Z.add (parametros c)).
Proof. apply operar_refina. Qed.

Lemma decrby_refina c : refina (decrby c) (esp_operar Z.sub (parametros c)).
Proof. apply operar_refina. Qed.
End aritmetica.

Lemma mget_valores_eq ps vs w :
  envenenado (base w) = false →
  correr (mget_valores ps vs) w =
    (Some (inr (vs ++ ((λ k, match vista w !! k with Some (Str v) => BulkStr v | _ => Nil end) <$> ps))), w).
Proof.
  intros Hw. revert vs. induction ps as [|p ps IH]; intros vs; cbn [mget_valores].
  - ejecutar. by rewrite app_nil_r.
  - ejecutar. destruct (vista w !! p) as [[]|] eqn:Hp; cbv beta iota; rewrite IH;
      cbn [fmap list_fmap]; by rewrite Hp, <-app_assoc.
Qed.

Lemma mget_refina c :
  index c = 0%nat → refina (mget c) (esp_mget (parametros c)).
Proof.
  intros Hi w Hw. unfold mget, parametros_restantes. rewrite Hi. ejecutar.
  rewrite mget_valores_eq by done. destruct (parametros c) as [|p ps]; cerrar.
Qed.

Lemma guardar_pares_vista t h ps k :
  leer_valor t (guardar_pares t ps h) k =
    foldl (λ m '(k, v), <[k := Str v]> m) (omap (Valor.get t) h) (pares_consecutivos ps) !! k.
Proof.
  revert h. induction ps as [|a [|b ps] IH]; intros h; try apply (eq_sym (lookup_omap _ _ _)).
  change (leer_valor t (guardar_pares t (b :: ps) (<[a := no_expirable t (Str b)]> h)) k =
    foldl (λ m '(k, v), <[k := Str v]> m) (<[a := Str b]> (omap (Valor.get t) h))
      (pares_consecutivos (b :: ps)) !! k).
  rewrite IH. do 2 f_equal. by apply omap_insert_Some.
Qed.

Lemma mset_refina c : refina (mset c) (esp_mset (parametros c)).
Proof.
  intros w Hw. unfold mset, esp_mset, get_parametros.
  destruct (parametros c) as [|k ps] eqn:Hps; [cerrar|].
  rewrite bool_decide_eq_false_2 by done. cbn [orb].
  destruct (negb (Nat.even (length (k :: ps)))); [cerrar|].
  ejecutar. change (guardar_valores (k :: ps) w) with
    (Some (), notificado (con_tabla (guardar_pares (ahora w) (k :: ps) (tabla w)) w)).
  cbv beta iota. ejecutar. apply cumple_notificado, cumple_con_tabla; [done|].
  intros j. apply guardar_pares_vista.
Qed.

(** ** Invariants *)

Lemma set_con_vida_preserva {I} `{!Interior I} op a_segundos k ps :
  (∀ n, 0 ≤ n → 0 ≤ a_segundos n) →
  preserva I (set_con_vida op a_segundos k ps).
Proof.
  intros Ha. unfold set_con_vida, obtener_tiempo_expiracion.
  destruct (indexar _ 0) as [c0|]; cbn [mbind option_bind].
  - destruct (parse_u64 c0) as [n|] eqn:Hn; unfold o_panico; [|by intros w Hw].
    apply parse_entero_rango in Hn. intros w Hw. rewrite m_bind_eq.
    revert w Hw. change (preserva I (v ← o_panico (indexar ps 1);
      guardar_valor_con_expiracion k (a_segundos n) (Str v);; mret (inr () : ResultadoRedis + ()))).
    specialize (Ha n (proj1 Hn)). invariante.
  - by intros w Hw.
Qed.

Lemma set_seccion_preserva {I} `{!Interior I} k ps : preserva I (set_seccion k ps).
Proof.
  unfold set_seccion. destruct (contiene_param "EX" ps); [by apply set_con_vida_preserva|].
  destruct (contiene_param "PX" ps); [|invariante]. apply set_con_vida_preserva.
  intros n Hn. by apply Z.div_pos.
Qed.

Lemma mget_valores_siempre {I} `{!InvarianteBase I} ps vs : siempre I (mget_valores ps vs).
Proof. revert vs. induction ps; intros vs; cbn [mget_valores]; invariante. Qed.
#[export] Hint Resolve set_seccion_preserva mget_valores_siempre : redis.

Lemma string_siempre `{Entorno} I `{!InvarianteBase I} c : siempre I (ejecutar c).
Proof.
  unfold ejecutar. invariante; unfold getdel, get, set, getset, append, append_seccion, strlen,
    incrby, decrby, operar_sobre_int, mget, mset; invariante.
Qed.
#[export] Hint Resolve string_siempre : redis.

(** ** The whole handler *)

(** The specification of a string command, by its name. *)
Definition esp_ejecutar `{Entorno} (c : ComandoInfo) : Estado → Desenlace :=
  match nombre c with
  | "GET" => esp_get (parametros c)
  | "APPEND" => esp_append (parametros c)
  | "STRLEN" => esp_strlen (parametros c)
  | "GETDEL" => esp_getdel (parametros c)
  | "INCRBY" => esp_operar Z.add (parametros c)
  | "DECRBY" => esp_operar Z.sub (parametros c)
  | "MGET" => esp_mget (parametros c)
  | "MSET" => esp_mset (parametros c)
  | "GETSET" => esp_getset (parametros c)
  | _ => esp_set (parametros c)
  end.

Lemma string_esp `{Entorno} c : index c = 0%nat → refina (ejecutar c) (esp_ejecutar c).
Proof.
  intros Hi. unfold ejecutar, esp_ejecutar, get_nombre.
  por_nombre ltac:(first [ apply set_refina | apply get_refina | apply append_refina
    | apply strlen_refina | apply getdel_refina | apply incrby_refina | apply decrby_refina
    | by apply mget_refina | apply mset_refina | apply getset_refina ]).
Qed.

(** ** Properties *)

(** C12: Every string command, run alone on any world whose database is
    not poisoned, gives the answer of its specification, leaves the abstract store
    its specification says, and panics or poisons exactly when it says so. *)
Theorem string_refina `{Entorno} c (Hi : index c = 0%nat) : refina (ejecutar c) (esp_ejecutar c).
Proof. by apply string_esp. Qed.

Lemma string_refina_witness :
  cumple mundo_vacio
    (correr (@ejecutar entorno_prueba (MkComandoInfo "INCRBY" ["k"; "5"] 0)) mundo_vacio)
    (Responde (BulkStr "5") (<["k" := Str "5"]> ∅)).
Proof.
  exact (@string_refina entorno_prueba (MkComandoInfo "INCRBY" ["k"; "5"] 0) eq_refl
           mundo_vacio eq_refl).
Defined.

Lemma set_ex_eq n k v ps i s w :
  envenenado (base w) = false → 0 ≤ s ≤ u64_max →
  correr (set (MkComandoInfo n (k :: v :: ps ++ ["EX"; mostrar s]) i)) w =
    (Some (StrSimple "OK"), guardado k (expirable (ahora w) (Str v) s) w).
Proof.
  intros Hw Hs. unfold set. leer_comando. rewrite bool_decide_eq_false_2 by (cbn; rewrite length_app; cbn; lia).
  ejecutar. unfold set_seccion, contiene_param. rewrite bool_decide_eq_true_2 by set_solver.
  unfold set_con_vida, obtener_tiempo_expiracion.
  assert (mostrar s ≠ "EX") as Hne.
  { intros He. pose proof (parse_mostrar false 0 u64_max s Hs) as Hp. rewrite He in Hp.
    specialize (Hp ltac:(lia)). done. }
  change (k :: v :: ps ++ ["EX"; mostrar s]) with ((k :: v :: ps) ++ ["EX"; mostrar s]).
  rewrite segmento_final_app.
  - change (indexar [mostrar s] 0) with (Some (mostrar s)). cbn [mbind option_bind].
    unfold parse_u64. rewrite parse_mostrar by (lia || done).
    change (indexar ((k :: v :: ps) ++ ["EX"; mostrar s]) 1) with (Some v).
    unfold o_panico. ejecutar. done.
  - by apply bool_decide_eq_true_2.
  - cbn. rewrite orb_false_r. by apply bool_decide_eq_false_2.
Qed.

(** C22: [SET k v .. EX s] answers OK, and from then on the key reads as [v]
    during the [s] seconds that follow the command, and as absent afterwards. *)
Theorem set_vida n k v ps i s w t
    (Hw : envenenado (base w) = false) (Hs : 0 ≤ s ≤ u64_max) (Ht : ahora w ≤ t) :
  let '(r, w') := correr (set (MkComandoInfo n (k :: v :: ps ++ ["EX"; mostrar s]) i)) w in
  r = Some (StrSimple "OK") ∧
  leer_valor t (tabla w') k = if from_secs s <=? t - ahora w then None else Some (Str v).
Proof.
  rewrite set_ex_eq by done. split; [done|]. unfold guardado.
  change (tabla (notificado ?w)) with (tabla w). rewrite tabla_con_tabla, leer_valor_insert.
  rewrite decide_True by done. unfold Valor.get. rewrite expiro_expirable by done.
  by destruct (from_secs s <=? t - ahora w).
Qed.

Lemma set_vida_witness :
  leer_valor 9999999999 (tabla (snd (correr (set (MkComandoInfo "SET" ["k"; "v"; "EX"; "10"] 0))
    mundo_vacio))) "k" = Some (Str "v").
Proof.
  exact (proj2 (set_vida "SET" "k" "v" [] 0 10 mundo_vacio 9999999999 eq_refl
    ltac:(unfold u64_max; lia) ltac:(done))).
Defined.

(** C21: A SET whose last parameter is [EX] panics while it holds the
    database: the thread dies, the mutex is poisoned and the content is what it
    was. *)
Theorem set_envenena n k v ps i w (Hw : envenenado (base w) = false) :
  correr (set (MkComandoInfo n (k :: v :: ps ++ ["EX"]) i)) w =
    (None, con_base (MkMutex (dato (base w)) true) w).
Proof.
  unfold set. leer_comando. rewrite bool_decide_eq_false_2 by (cbn; rewrite length_app; cbn; lia).
  ejecutar. unfold set_seccion, contiene_param. rewrite bool_decide_eq_true_2 by set_solver.
  unfold set_con_vida, obtener_tiempo_expiracion.
  change (k :: v :: ps ++ ["EX"]) with ((k :: v :: ps) ++ ["EX"]).
  rewrite segmento_final_app; [|by apply bool_decide_eq_true_2|done].
  change (indexar (@nil string) 0) with (@None string). cbn [mbind option_bind]. by ejecutar.
Qed.

Lemma set_envenena_witness :
  fst (correr (set (MkComandoInfo "SET" ["k"; "v"; "EX"] 0)) mundo_vacio) = None.
Proof. exact (f_equal fst (set_envenena "SET" "k" "v" [] 0 mundo_vacio eq_refl)). Defined.

(** C29: INCRBY and DECRBY are inverse: from a key that holds the integer
    [a], adding [b] and subtracting it again leaves the abstract store as it was,
    provided the sum fits in 32 bits. *)
Theorem incr_decr `{Entorno} k a b w
    (Hw : envenenado (base w) = false) (Hk : vista w !! k = Some (Str (mostrar a)))
    (Ha : es_i32 a = true) (Hb : es_i32 b = true) (Hab : es_i32 (a + b) = true) :
  let w1 := snd (correr (incrby (MkComandoInfo "INCRBY" [k; mostrar b] 0)) w) in
  let '(r, w2) := correr (decrby (MkComandoInfo "DECRBY" [k; mostrar b] 0)) w1 in
  vista w1 = <[k := Str (mostrar (a + b))]> (vista w) ∧
  r = Some (BulkStr (mostrar a)) ∧ vista w2 = vista w.
Proof.
  pose proof (incrby_refina (MkComandoInfo "INCRBY" [k; mostrar b] 0) w Hw) as H1.
  set (r1 := correr _ w) in *. cbv beta zeta. destruct r1 as [r1 w1]. cbn [snd].
  unfold esp_operar in H1. cbn [parametros] in H1.
  rewrite Hk, !parse_mostrar_i32, Hab, como_i32_id in H1 by done. cbn [orb] in H1.
  destruct H1 as (_ & _ & Hv & Hw1). cbn [snd] in Hv, Hw1.
  pose proof (decrby_refina (MkComandoInfo "DECRBY" [k; mostrar b] 0) w1 Hw1) as H2.
  set (r2 := correr _ w1) in *. destruct r2 as [r2 w2]. unfold esp_operar in H2.
  cbn [parametros] in H2. rewrite Hv, lookup_insert_eq, !parse_mostrar_i32 in H2 by done.
  replace (a + b - b) with a in H2 by lia. rewrite Ha, como_i32_id in H2 by done.
  destruct H2 as (_ & Hr & Hv2 & _). cbn [orb fst snd] in *. split_and!; [done|done|].
  by rewrite Hv2, insert_insert_eq, insert_id.
Qed.

Lemma incr_decr_witness :
  vista (snd (correr (@decrby entorno_prueba (MkComandoInfo "DECRBY" ["k"; mostrar 7] 0))
    (snd (correr (@incrby entorno_prueba (MkComandoInfo "INCRBY" ["k"; mostrar 7] 0))
      (mundo_con "k" (Str "35"))))))
  = vista (mundo_con "k" (Str "35")).
Proof.
  exact (proj2 (proj2 (@incr_decr entorno_prueba "k" 35 7
    (mundo_con "k" (Str "35")) eq_refl eq_refl
    eq_refl eq_refl eq_refl))).
Defined.

(** MSET with two pairs also stores the second key as the value of the
    first value: its loop moves one parameter at a time instead of two. *)
Theorem mset_pares n a x b y i :
  refina (mset (MkComandoInfo n [a; x; b; y] i))
    (λ m, Responde (StrSimple "OK") (<[b := Str y]> (<[x := Str b]> (<[a := Str x]> m)))).
Proof. exact (mset_refina (MkComandoInfo n [a; x; b; y] i)). Qed.

(** ** A poisoned database

    Every command with a parameter answers an error and changes nothing. *)
Lemma string_falla `{Entorno} n k ps w :
  envenenado (base w) = true → falla (ejecutar (MkComandoInfo n (k :: ps) 0)) w.
Proof.
  intros Hw. set (c := MkComandoInfo n (k :: ps) 0).
  assert (falla (get c) w) by (unfold get, c; envenenado).
  assert (falla (set c) w) by (unfold set, c; envenenado).
  assert (falla (getset c) w) by (unfold getset, c; envenenado).
  assert (falla (append c) w) by (unfold append, c; envenenado).
  assert (falla (getdel c) w) by (unfold getdel, get, c; envenenado).
  assert (falla (strlen c) w) by (unfold strlen, c; envenenado).
  assert (falla (mset c) w) by (unfold mset, c; envenenado).
  assert (falla (mget c) w).
  { unfold mget, parametros_restantes, c. cbn [drop index parametros mget_valores]. envenenado. }
  assert (∀ g, falla (operar_sobre_int c g) w) by (intros; unfold operar_sobre_int, c; envenenado).
  unfold ejecutar, get_nombre, incrby, decrby.
  repeat match goal with |- falla (match ?x with _ => _ end) _ => destruct x end; auto.
Qed.
