(* ===== verification/ComandoList.v ===== *)
(** * List commands (comando_list_handler.rs)

    The handlers read the list in one critical section and write it back in
    another, working on a private copy in between. *)
From S2P Require Import Prelude Rust Datos Efectos Valor ComandoInfo BaseDeDatos Refinamiento.
From S2P Require Import ComandoString.

#[local] Open Scope Z_scope.

Definition es_comando_list (comando : string) : bool := bool_decide (comando ∈
  ["LINDEX"; "LPOP"; "RPOP"; "LPUSH"; "LPUSHX"; "RPUSH"; "RPUSHX"; "LRANGE"; "LREM"; "LSET"; "LLEN"]).

(** ** Reading the list of a key

    [match bdd.lock() { Ok(bdd) => match bdd.obtener_valor(&clave) { Some(Lista(l))
    => l.clone(), None => si_no_hay, _ => return WRONGTYPE }, Err(_) => return .. }]:
    [inl] is the early return. *)
Definition leer_lista (clave : string) (si_no_hay : ResultadoRedis + list string)
    : Prog (ResultadoRedis + list string) :=
  r ← lock_base (obtener_valor clave);
  mret (match r with
        | Some (Some (Lista lista)) => inr lista
        | Some None => si_no_hay
        | Some _ => inl err_tipo
        | None => inl err_bdd
        end).

(** Storing what is left of a list: an empty list removes the key. *)
Definition guardar_o_eliminar (clave : string) (lista : list string) : M () :=
  match lista with
  | [] => eliminar_clave clave;; mret ()
  | _ => guardar_valor clave (Lista lista)
  end.

Definition largo_i32 {A} (l : list A) : Z := como_i32 (Z.of_nat (length l)).
Definition largo_isize {A} (l : list A) : Z := como_isize (Z.of_nat (length l)).

(** ** Handlers *)

Definition lindex `{Entorno} (comando : ComandoInfo) : Prog ResultadoRedis :=
  match get_clave comando with
  | (None, _) => mret (err_args "lindex")
  | (Some clave, comando) =>
      match get_parametro comando with
      | (None, _) => mret (err_args "lindex")
      | (Some parametro, _) =>
          r ← leer_lista clave (inl err_tipo);
          match r with
          | inl e => mret e
          | inr lista =>
              match parse_i32 parametro with
              | None => mret err_entero
              | Some indice =>
                  let tamanio := largo_i32 lista in
                  if (0 <=? indice) && (indice <? tamanio) then
                    x ← o_panico_hilo (indexar lista indice); mret (BulkStr x)
                  else if indice <? 0 then
                    suma ← o_panico_hilo (aritmetica_i32 comprobar_desborde (tamanio + indice));
                    if 0 <=? suma then
                      x ← o_panico_hilo (indexar lista (como_usize suma)); mret (BulkStr x)
                    else mret (BulkStr "nil")
                  else mret (BulkStr "nil")
              end
          end
      end
  end.

Definition llen (comando : ComandoInfo) : Prog ResultadoRedis :=
  match get_clave comando with
  | (None, _) => mret (err_args "llen")
  | (Some clave, _) =>
      r ← leer_lista clave (inr []);
      mret (match r with inl e => e | inr lista => Int (largo_isize lista) end)
  end.

(** What [pop] does once its arguments are read: [drain(0..indice)] panics when the
    list is shorter. *)
Definition sacar (clave : string) (indice : Z) (reversed : bool) : Prog ResultadoRedis :=
  r ← leer_lista clave (inl Nil);
  match r with
  | inl e => mret e
  | inr lista =>
      let lista := if reversed then reverse lista else lista in
      a_devolver ← o_panico_hilo (rebanada 0 indice lista);
      let lista := drop (Z.to_nat indice) lista in
      let lista := if reversed then reverse lista else lista in
      let a_devolver := if reversed then reverse a_devolver else a_devolver in
      r ← lock_base (guardar_o_eliminar clave lista);
      mret (match r with
            | None => err_bdd
            | Some _ => match a_devolver with
                        | [x] => BulkStr x
                        | _ => Vector (BulkStr <$> a_devolver)
                        end
            end)
  end.

Definition pop (comando : ComandoInfo) (reversed : bool) : Prog ResultadoRedis :=
  match get_clave comando with
  | (None, _) => mret (err_args "pop")
  | (Some clave, comando) =>
      match get_parametro comando with
      | (Some p, _) => match parse_usize p with
                       | Some indice => sacar clave indice reversed
                       | None => mret err_entero
                       end
      | (None, _) => sacar clave 1 reversed
      end
  end.

Definition lpop (comando : ComandoInfo) : Prog ResultadoRedis := pop comando false.
Definition rpop (comando : ComandoInfo) : Prog ResultadoRedis := pop comando true.

(** The loop of [push] inserts each parameter at the chosen end. *)
Definition push (lista : list string) (clave : string) (comando : ComandoInfo) (reversed : bool)
    : Prog ResultadoRedis :=
  let lista := foldl (λ l p, if reversed then l ++ [p] else p :: l) lista
                 (parametros_restantes comando) in
  r ← lock_base (guardar_valor clave (Lista lista));
  mret (match r with Some _ => Int (largo_isize lista) | None => err_bdd end).

(** LPUSH and RPUSH create the list, LPUSHX and RPUSHX need it. *)
Definition push_con (nombre_cmd : string) (si_no_hay : ResultadoRedis + list string)
    (reversed : bool) (comando : ComandoInfo) : Prog ResultadoRedis :=
  match get_clave comando with
  | (None, _) => mret (err_args nombre_cmd)
  | (Some clave, comando) =>
      r ← leer_lista clave si_no_hay;
      match r with
      | inl e => mret e
      | inr lista => push lista clave comando reversed
      end
  end.

Definition lpush : ComandoInfo → Prog ResultadoRedis := push_con "lpush" (inr []) false.
Definition lpushx : ComandoInfo → Prog ResultadoRedis := push_con "lpushx" (inl (Int 0)) false.
Definition rpush : ComandoInfo → Prog ResultadoRedis := push_con "rpush" (inr []) true.
Definition rpushx : ComandoInfo → Prog ResultadoRedis := push_con "rpushx" (inl (Int 0)) true.

(** *** LRANGE *)

Definition esta_en_rango_lista (v limite : Z) : bool := (0 <=? v) && (v <? limite).

(** The outer [None] is the panic of an addition that overflows. *)
Definition obtener_indice_inferior `{Entorno} (inicio limite : Z) : option (option Z) :=
  if esta_en_rango_lista inicio limite then Some (Some inicio)
  else if inicio <? 0 then
    suma ← aritmetica_i32 comprobar_desborde (inicio + limite);
    Some (if esta_en_rango_lista suma limite then Some suma else Some 0)
  else Some None.

Definition obtener_indice_superior `{Entorno} (fin limite : Z) : option (option Z) :=
  if esta_en_rango_lista fin limite then Some (Some fin)
  else if fin <? 0 then
    suma ← aritmetica_i32 comprobar_desborde (fin + limite);
    Some (if esta_en_rango_lista suma limite then Some suma else None)
  else Some <$> aritmetica_i32 comprobar_desborde (limite - 1).

Definition obtener_intervalo `{Entorno} (inicio fin limite : Z) : option (option (Z * Z)) :=
  a ← obtener_indice_inferior inicio limite;
  match a with
  | None => Some None
  | Some a =>
      b ← obtener_indice_superior fin limite;
      Some (match b with None => None | Some b => Some (como_usize a, como_usize b) end)
  end.

(** The next [i32] parameter: [inl] is the early return. *)
Definition parametro_i32 (nombre_cmd : string) (comando : ComandoInfo)
    : (ResultadoRedis + Z) * ComandoInfo :=
  match get_parametro comando with
  | (Some p, comando) =>
      (match parse_i32 p with Some i => inr i | None => inl err_entero end, comando)
  | (None, comando) => (inl (err_args nombre_cmd), comando)
  end.

Definition lrange `{Entorno} (comando : ComandoInfo) : Prog ResultadoRedis :=
  match get_clave comando with
  | (None, _) => mret (err_args "lrange")
  | (Some clave, comando) =>
      match parametro_i32 "lrange" comando with
      | (inl e, _) => mret e
      | (inr inicio, comando) =>
          match parametro_i32 "lrange" comando with
          | (inl e, _) => mret e
          | (inr fin, _) =>
              r ← leer_lista clave (inl (Vector []));
              match r with
              | inl e => mret e
              | inr lista =>
                  intervalo ← o_panico_hilo (obtener_intervalo inicio fin (largo_i32 lista));
                  match intervalo with
                  | None => mret (Vector [])
                  | Some (a, b) =>
                      if b <? a then mret (Vector [])
                      else
                        b1 ← o_panico_hilo (aritmetica_usize comprobar_desborde (b + 1));
                        a_devolver ← o_panico_hilo (rebanada a b1 lista);
                        mret (Vector (BulkStr <$> a_devolver))
                  end
              end
          end
      end
  end.

(** *** LREM *)

(** The loop that filters the list: the elements kept and how many were removed;
    at most [i] occurrences of [x] go. *)
Fixpoint filtrar_ocurrencias (x : string) (i eliminadas : Z) (l : list string)
    : list string * Z :=
  match l with
  | [] => ([], eliminadas)
  | v :: l' =>
      if bool_decide (v = x) && (eliminadas <? i)
      then filtrar_ocurrencias x i (eliminadas + 1) l'
      else let '(r, n) := filtrar_ocurrencias x i eliminadas l' in (v :: r, n)
  end.

Definition lrem `{Entorno} (comando : ComandoInfo) : Prog ResultadoRedis :=
  match get_clave comando with
  | (None, _) => mret (err_args "lrem")
  | (Some clave, comando) =>
      match parametro_i32 "lrem" comando with
      | (inl e, _) => mret e
      | (inr indice, comando) =>
          match get_parametro comando with
          | (None, _) => mret (err_args "lrem")
          | (Some a_eliminar, _) =>
              r ← leer_lista clave (inl (Int 0));
              match r with
              | inl e => mret e
              | inr lista =>
                  let lista := if indice <? 0 then reverse lista else lista in
                  i ← o_panico_hilo (if indice <? 0
                                     then aritmetica_i32 comprobar_desborde (- indice)
                                     else Some indice);
                  let '(filtrada, cant_eliminada) := filtrar_ocurrencias a_eliminar i 0 lista in
                  let filtrada := if indice <? 0 then reverse filtrada else filtrada in
                  r ← lock_base (guardar_o_eliminar clave filtrada);
                  mret (match r with Some _ => Int cant_eliminada | None => err_bdd end)
              end
          end
      end
  end.

(** *** LSET *)

Definition lset `{Entorno} (comando : ComandoInfo) : Prog ResultadoRedis :=
  match get_clave comando with
  | (None, _) => mret (err_args "lset")
  | (Some clave, comando) =>
      match parametro_i32 "lset" comando with
      | (inl e, _) => mret e
      | (inr indice, comando) =>
          match get_parametro comando with
          | (None, _) => mret (err_args "lset")
          | (Some parametro, _) =>
              r ← leer_lista clave (inr []);
              match r with
              | inl e => mret e
              | inr lista =>
                  let tamanio := largo_i32 lista in
                  insertada ← o_panico_hilo
                    (if (0 <=? indice) && (indice <? tamanio)
                     then Some (Some (insertar (Z.to_nat indice) parametro lista))
                     else if indice <? 0 then
                       suma ← aritmetica_i32 comprobar_desborde (tamanio + indice);
                       Some (if 0 <=? suma
                             then Some (insertar (Z.to_nat (como_usize suma)) parametro lista)
                             else None)
                     else Some None);
                  match insertada with
                  | None => mret err_entero
                  | Some lista =>
                      r ← lock_base (guardar_valor clave (Lista lista));
                      mret (match r with Some _ => StrSimple "OK" | None => err_bdd end)
                  end
              end
          end
      end
  end.

(** [ComandoListHandler::new] and [ejecutar]. *)
Definition ejecutar `{Entorno} (comando : ComandoInfo) : Prog ResultadoRedis :=
  match get_nombre comando with
  | "LINDEX" => lindex comando
  | "LPOP" => lpop comando
  | "RPOP" => rpop comando
  | "LPUSH" => lpush comando
  | "LPUSHX" => lpushx comando
  | "RPUSH" => rpush comando
  | "RPUSHX" => rpushx comando
  | "LRANGE" => lrange comando
  | "LREM" => lrem comando
  | "LSET" => lset comando
  | _ => llen comando
  end.

(** ** Specifications *)

(** The answer of a read-only command on the list of the first parameter, and the
    steps of one that updates it. *)
Definition con_lista (k : string) (m : Estado) (si_no_hay : Desenlace)
    (f : list string → Desenlace) : Desenlace :=
  match m !! k with
  | Some (Lista l) => f l
  | None => si_no_hay
  | Some _ => Responde err_tipo m
  end.

(** A list without elements is not stored. *)
Definition poner_lista (k : string) (l : list string) (m : Estado) : Estado :=
  if bool_decide (l = []) then delete k m else <[k := Lista l]> m.

Definition esp_llen (ps : list string) (m : Estado) : Desenlace :=
  match ps with
  | [] => Responde (err_args "llen") m
  | k :: _ => con_lista k m (Responde (Int 0) m) (λ l, Responde (Int (largo_isize l)) m)
  end.

Definition esp_push (cmd : string) (crea reversed : bool) (ps : list string) (m : Estado)
    : Desenlace :=
  match ps with
  | [] => Responde (err_args cmd) m
  | k :: vs =>
      let agregar l :=
        let l' := if reversed then l ++ vs else reverse vs ++ l in
        Responde (Int (largo_isize l')) (<[k := Lista l']> m) in
      con_lista k m (if crea then agregar [] else Responde (Int 0) m) agregar
  end.

(** LPOP takes the first [n] elements, RPOP the last [n], both in list order; a
    [n] longer than the list panics. *)
Definition esp_sacar (k : string) (n : Z) (reversed : bool) (m : Estado) : Desenlace :=
  con_lista k m (Responde Nil m) (λ l,
    let corte := if reversed then (length l - Z.to_nat n)%nat else Z.to_nat n in
    let salen := if reversed then drop corte l else take corte l in
    let quedan := if reversed then take corte l else drop corte l in
    if n <=? Z.of_nat (length l) then
      Responde (match salen with [x] => BulkStr x | _ => Vector (BulkStr <$> salen) end)
        (poner_lista k quedan m)
    else Aborta m).

Definition esp_pop (reversed : bool) (ps : list string) (m : Estado) : Desenlace :=
  match ps with
  | [] => Responde (err_args "pop") m
  | [k] => esp_sacar k 1 reversed m
  | k :: p :: _ =>
      match parse_usize p with
      | Some n => esp_sacar k n reversed m
      | None => Responde err_entero m
      end
  end.

(** An index counts from the end when it is negative. *)
Definition posicion_de (indice : Z) {A} (l : list A) : option nat :=
  let n := Z.of_nat (length l) in
  if (0 <=? indice) && (indice <? n) then Some (Z.to_nat indice)
  else if (indice <? 0) && (0 <=? n + indice) then Some (Z.to_nat (n + indice))
  else None.

Definition esp_lindex (ps : list string) (m : Estado) : Desenlace :=
  match ps with
  | k :: p :: _ =>
      con_lista k m (Responde err_tipo m) (λ l,
        match parse_i32 p with
        | None => Responde err_entero m
        | Some i => Responde (BulkStr (default "nil" (posicion_de i l ≫= λ j, l !! j))) m
        end)
  | _ => Responde (err_args "lindex") m
  end.

Definition esp_lset (ps : list string) (m : Estado) : Desenlace :=
  match ps with
  | k :: p :: resto =>
      match parse_i32 p with
      | None => Responde err_entero m
      | Some i =>
          match resto with
          | [] => Responde (err_args "lset") m
          | v :: _ =>
              con_lista k m (Responde err_entero m) (λ l,
                match posicion_de i l with
                | None => Responde err_entero m
                | Some j => Responde (StrSimple "OK") (<[k := Lista (insertar j v l)]> m)
                end)
          end
      end
  | _ => Responde (err_args "lset") m
  end.

(** ** Lemmas *)

Lemma leer_lista_eq k d w :
  envenenado (base w) = false →
  correr (leer_lista k d) w =
    (Some (match vista w !! k with
           | Some (Lista l) => inr l
           | None => d
           | Some _ => inl err_tipo
           end), w).
Proof. intros Hw. unfold leer_lista. ejecutar. by destruct (vista w !! k) as [[]|]. Qed.
#[export] Hint Rewrite leer_lista_eq using assumption : correr.

Lemma guardar_o_eliminar_eq k l w :
  guardar_o_eliminar k l w =
    (Some (), match l with
              | [] => borrado k w
              | _ => guardado k (no_expirable (ahora w) (Lista l)) w
              end).
Proof. destruct l; [|done]. unfold guardar_o_eliminar. by ejecutar. Qed.
#[export] Hint Rewrite guardar_o_eliminar_eq : correr.

Lemma cumple_poner_lista w k l r :
  envenenado (base w) = false →
  cumple w (Some r, match l with
                    | [] => borrado k w
                    | _ => guardado k (no_expirable (ahora w) (Lista l)) w
                    end) (Responde r (poner_lista k l (vista w))).
Proof. intros Hw. destruct l; cerrar. Qed.

Lemma push_foldl_izquierda (vs l : list string) :
  foldl (λ l p, p :: l) l vs = reverse vs ++ l.
Proof.
  revert l. induction vs as [|v vs IH]; intros l; [done|].
  cbn [foldl]. by rewrite IH, reverse_cons, <-app_assoc.
Qed.
Lemma push_foldl_derecha (vs l : list string) :
  foldl (λ l p, l ++ [p]) l vs = l ++ vs.
Proof.
  revert l. induction vs as [|v vs IH]; intros l; cbn [foldl]; [by rewrite app_nil_r|].
  by rewrite IH, <-app_assoc.
Qed.

Lemma llen_refina c : refina (llen c) (esp_llen (parametros c)).
Proof.
  intros w Hw. unfold llen. destruct c as [n [|k ps] i]; leer_comando; [cerrar|].
  ejecutar. unfold esp_llen, con_lista. destruct (vista w !! k) as [[]|]; cerrar.
Qed.

Lemma push_con_refina cmd d (crea reversed : bool) c :
  d = (if crea then inr [] else inl (Int 0)) →
  refina (push_con cmd d reversed c) (esp_push cmd crea reversed (parametros c)).
Proof.
  intros -> w Hw. unfold push_con. destruct c as [n [|k vs] i]; leer_comando; [cerrar|].
  assert (∀ l, cumple w (correr (push l k (MkComandoInfo n (k :: vs) 1) reversed) w)
    (let l' := if reversed then l ++ vs else reverse vs ++ l in
     Responde (Int (largo_isize l')) (<[k := Lista l']> (vista w)))) as Hpush.
  { intros l. unfold push. ejecutar. cbn [parametros_restantes parametros index drop].
    destruct reversed; rewrite ?push_foldl_izquierda, ?push_foldl_derecha; cerrar. }
  ejecutar. unfold esp_push, con_lista.
  destruct (vista w !! k) as [[]|]; cbv beta iota; [cerrar|apply Hpush|cerrar..|].
  destruct crea; [apply Hpush|cerrar].
Qed.

Lemma lpush_refina c : refina (lpush c) (esp_push "lpush" true false (parametros c)).
Proof. by apply push_con_refina. Qed.
Lemma rpush_refina c : refina (rpush c) (esp_push "rpush" true true (parametros c)).
Proof. by apply push_con_refina. Qed.
Lemma lpushx_refina c : refina (lpushx c) (esp_push "lpushx" false false (parametros c)).
Proof. by apply push_con_refina. Qed.
Lemma rpushx_refina c : refina (rpushx c) (esp_push "rpushx" false true (parametros c)).
Proof. by apply push_con_refina. Qed.

Lemma rebanada_0 {A} n (l : list A) :
  0 ≤ n → rebanada 0 n l = if n <=? Z.of_nat (length l) then Some (take (Z.to_nat n) l) else None.
Proof.
  intros Hn. unfold rebanada. rewrite (proj2 (Z.leb_le 0 n)) by lia. simpl.
  by rewrite Z.sub_0_r, drop_0.
Qed.

Lemma sacar_refina k n reversed :
  0 ≤ n → refina (sacar k n reversed) (esp_sacar k n reversed).
Proof.
  intros Hn w Hw. unfold sacar. ejecutar. unfold esp_sacar, con_lista.
  destruct (vista w !! k) as [[s|l|s|s]|]; cbv beta iota zeta; [cerrar| |cerrar..].
  rewrite correr_bind, correr_panico, rebanada_0 by done.
  replace (length (if reversed then reverse l else l)) with (length l)
    by (destruct reversed; by rewrite ?length_reverse).
  destruct (n <=? Z.of_nat (length l)) eqn:Hl; [|cerrar]. ejecutar.
  destruct reversed; [|apply cumple_poner_lista; done].
  rewrite take_reverse, drop_reverse, !reverse_involutive. by apply cumple_poner_lista.
Qed.

Lemma pop_refina reversed c : refina (pop c reversed) (esp_pop reversed (parametros c)).
Proof.
  unfold pop. destruct c as [n [|k [|p ps]] i]; leer_comando; [by intros w|by apply sacar_refina|].
  unfold esp_pop. destruct (parse_usize p) as [num|] eqn:Hp; [|by intros w].
  apply parse_entero_rango in Hp. apply sacar_refina. lia.
Qed.

Lemma lpop_refina c : refina (lpop c) (esp_pop false (parametros c)).
Proof. apply pop_refina. Qed.
Lemma rpop_refina c : refina (rpop c) (esp_pop true (parametros c)).
Proof. apply pop_refina. Qed.

(** *** Indices

    The indices of the code are [i32]; the specifications below hold on lists
    whose length fits. *)
Definition listas_cortas (m : Estado) : Prop :=
  ∀ k l, m !! k = Some (Lista l) → Z.of_nat (length l) ≤ i32_max.

Lemma largo_i32_corta {A} (l : list A) : Z.of_nat (length l) ≤ i32_max → largo_i32 l = Z.of_nat (length l).
Proof.
  intros. apply como_i32_id, es_i32_spec. unfold i32_min. lia.
Qed.

(** A negative index counted from the end of a short list does not overflow. *)
Lemma suma_indice c p ind n :
  parse_i32 p = Some ind → ind < 0 → 0 ≤ n ≤ i32_max → aritmetica_i32 c (n + ind) = Some (n + ind).
Proof.
  intros Hp%parse_i32_rango%es_i32_spec Hi Hn. apply aritmetica_i32_ok, es_i32_spec. lia.
Qed.

Lemma lindex_refina `{Entorno} c : refina_si listas_cortas (lindex c) (esp_lindex (parametros c)).
Proof.
  intros w Hw Hc. unfold lindex. destruct c as [n [|k [|p ps]] i]; leer_comando; [cerrar..|].
  ejecutar. unfold esp_lindex, con_lista.
  destruct (vista w !! k) as [[s|l|s|s]|] eqn:Hk; cbv beta iota; [cerrar| |cerrar..].
  specialize (Hc k l Hk). destruct (parse_i32 p) as [ind|] eqn:Hp; [|cerrar].
  unfold posicion_de. rewrite largo_i32_corta by done. set (N := Z.of_nat (length l)) in *.
  destruct ((0 <=? ind) && (ind <? N)) eqn:H1.
  { destruct (indexar_ok l ind) as (x & Hx & Hx'); [lia|].
    ejecutar. rewrite Hx. cbn [mbind option_bind]. rewrite Hx'. ejecutar. cerrar. }
  destruct (Z.ltb_spec ind 0); cbn [andb]; [|cerrar].
  ejecutar. rewrite (suma_indice _ p) by (done || lia). cbv beta iota.
  destruct (Z.leb_spec 0 (N + ind)); [|cerrar].
  destruct (indexar_ok l (N + ind)) as (x & Hx & Hx'); [lia|].
  ejecutar. rewrite como_usize_id by (unfold i32_max, u64_max in *; lia). rewrite Hx.
  cbn [mbind option_bind]. rewrite Hx'. ejecutar. cerrar.
Qed.

Lemma lset_refina `{Entorno} c : refina_si listas_cortas (lset c) (esp_lset (parametros c)).
Proof.
  intros w Hw Hc. unfold lset, parametro_i32.
  destruct c as [n [|k [|p ps]] i]; leer_comando; [cerrar..|].
  unfold esp_lset. destruct (parse_i32 p) as [ind|] eqn:Hp; [|cerrar].
  destruct ps as [|v ps]; leer_comando; [cerrar|]. ejecutar. unfold con_lista.
  destruct (vista w !! k) as [[s|l|s|s]|] eqn:Hk; cbv beta iota; [cerrar| |cerrar..|].
  - specialize (Hc k l Hk). unfold posicion_de. rewrite largo_i32_corta by done.
    destruct (_ && (ind <? _)); [ejecutar; cerrar|].
    destruct (Z.ltb_spec ind 0); cbn [andb]; [|ejecutar; cerrar].
    rewrite (suma_indice _ p) by (done || lia). cbn [mbind option_bind].
    destruct (Z.leb_spec 0 (Z.of_nat (length l) + ind)); ejecutar; [|cerrar].
    rewrite como_usize_id by (apply parse_i32_rango, es_i32_spec in Hp; unfold i32_max, u64_max in *; lia).
    cerrar.
  - change (largo_i32 (@nil string)) with 0.
    replace ((0 <=? ind) && (ind <? 0)) with false by lia.
    destruct (Z.ltb_spec ind 0); [|ejecutar; cerrar].
    rewrite (suma_indice _ p) by (done || (unfold i32_max; lia)). cbn [mbind option_bind].
    rewrite (proj2 (Z.leb_gt 0 _)) by lia. ejecutar. cerrar.
Qed.

(** The elements from [inicio] to [fin], both included, negative indices counting
    from the end and out of range ones clamped. *)
Definition desde (inicio n : Z) : Z := if inicio <? 0 then Z.max 0 (n + inicio) else inicio.
Definition hasta (fin n : Z) : Z := if fin <? 0 then n + fin else Z.min fin (n - 1).
Definition sublista (inicio fin : Z) (l : list string) : list string :=
  let a := desde inicio (Z.of_nat (length l)) in
  let b := hasta fin (Z.of_nat (length l)) in
  if b <? a then [] else take (Z.to_nat (b + 1 - a)) (drop (Z.to_nat a) l).

Lemma indice_inferior_desde `{Entorno} inicio n :
  0 < n ≤ i32_max → i32_min ≤ inicio ≤ i32_max →
  obtener_indice_inferior inicio n =
    Some (if desde inicio n <? n then Some (desde inicio n) else None).
Proof.
  intros. unfold obtener_indice_inferior, desde, esta_en_rango_lista.
  destruct (Z.ltb_spec inicio 0);
    [rewrite aritmetica_i32_ok by (apply es_i32_spec; lia); cbn [mbind option_bind]|];
    repeat (case_match; try lia); do 2 f_equal; lia.
Qed.

Lemma indice_superior_hasta `{Entorno} fin n :
  0 < n ≤ i32_max → i32_min ≤ fin ≤ i32_max →
  obtener_indice_superior fin n =
    Some (if hasta fin n <? 0 then None else Some (hasta fin n)).
Proof.
  intros. unfold obtener_indice_superior, hasta, esta_en_rango_lista.
  destruct (Z.ltb_spec fin 0);
    rewrite aritmetica_i32_ok by (apply es_i32_spec; unfold i32_min in *; lia);
    cbn [mbind option_bind fmap option_fmap option_map];
    repeat (case_match; try lia); do 2 f_equal; lia.
Qed.

Lemma desde_no_negativo inicio n : 0 ≤ desde inicio n.
Proof. unfold desde. case_match; lia. Qed.
Lemma hasta_menor fin n : 0 < n → hasta fin n < n.
Proof. unfold hasta. case_match; lia. Qed.

(** LRANGE answers the sublist; on a stored list without elements an interval that
    starts at a negative index and ends at a non-negative one overflows. *)
Definition esp_lrange `{Entorno} (ps : list string) (m : Estado) : Desenlace :=
  match ps with
  | [] => Responde (err_args "lrange") m
  | k :: p :: resto =>
      match parse_i32 p with
      | None => Responde err_entero m
      | Some inicio =>
          match resto with
          | [] => Responde (err_args "lrange") m
          | q :: _ =>
              match parse_i32 q with
              | None => Responde err_entero m
              | Some fin =>
                  con_lista k m (Responde (Vector []) m) (λ l,
                    if bool_decide (l = []) && (inicio <? 0) && (0 <=? fin) && comprobar_desborde
                    then Aborta m
                    else Responde (Vector (BulkStr <$> sublista inicio fin l)) m)
              end
          end
      end
  | _ => Responde (err_args "lrange") m
  end.

Section lrange.
Context `{Entorno}.

(** The end of the handler, on the list it read. *)
Lemma lrange_final inicio fin (l : list string) m w :
  i32_min ≤ inicio ≤ i32_max → i32_min ≤ fin ≤ i32_max →
  Z.of_nat (length l) ≤ i32_max → envenenado (base w) = false → m = vista w →
  cumple w (correr (intervalo ← o_panico_hilo (obtener_intervalo inicio fin (largo_i32 l));
                    match intervalo with
                    | None => mret (Vector [])
                    | Some (a, b) =>
                        if b <? a then mret (Vector [])
                        else
                          b1 ← o_panico_hilo (aritmetica_usize comprobar_desborde (b + 1));
                          a_devolver ← o_panico_hilo (rebanada a b1 l);
                          mret (Vector (BulkStr <$> a_devolver))
                    end) w)
    (if bool_decide (l = []) && (inicio <? 0) && (0 <=? fin) && comprobar_desborde
     then Aborta m else Responde (Vector (BulkStr <$> sublista inicio fin l)) m).
Proof.
  intros Hin Hfi Hc Hw ->. rewrite largo_i32_corta by done. destruct (decide (l = [])) as [->|Hne].
  - rewrite bool_decide_eq_true_2 by done. unfold sublista, obtener_intervalo,
      obtener_indice_inferior, obtener_indice_superior, esta_en_rango_lista. cbn [length].
    change (Z.of_nat 0) with 0.
    replace ((0 <=? inicio) && (inicio <? 0)) with false by lia.
    replace ((0 <=? fin) && (fin <? 0)) with false by lia.
    replace (if hasta fin 0 <? desde inicio 0 then [] else _) with (@nil string)
      by (rewrite drop_nil, take_nil; by destruct (_ <? _)).
    destruct (inicio <? 0); [|ejecutar; cerrar].
    rewrite !Z.add_0_r, (aritmetica_i32_ok _ inicio) by (apply es_i32_spec; lia).
    cbn [mbind option_bind]. replace ((0 <=? inicio) && (inicio <? 0)) with false by lia. destruct (Z.ltb_spec fin 0).
    + rewrite (proj2 (Z.leb_gt 0 fin)) by lia. rewrite aritmetica_i32_ok by (apply es_i32_spec; lia).
      cbn [mbind option_bind]. replace (if (0 <=? fin) && (fin <? 0) then Some fin else None)
        with (@None Z) by (by rewrite (proj2 (Z.leb_gt 0 fin)) by lia).
      ejecutar. rewrite andb_false_r. cerrar.
    + rewrite (proj2 (Z.leb_le 0 fin)) by lia. cbn [mbind option_bind fmap option_fmap option_map].
      destruct comprobar_desborde; cbn; cerrar.
  - rewrite bool_decide_eq_false_2 by done. cbn [andb].
    assert (0 < Z.of_nat (length l)) as Hpos by (destruct l; [done|simpl; lia]).
    unfold obtener_intervalo, sublista.
    rewrite indice_inferior_desde, indice_superior_hasta by done. cbn [mbind option_bind].
    set (N := Z.of_nat (length l)) in *. pose proof (desde_no_negativo inicio N).
    pose proof (hasta_menor fin N Hpos). unfold i32_max in *.
    destruct (Z.ltb_spec (desde inicio N) N); cbn [mbind option_bind]; ejecutar;
      [|by rewrite (proj2 (Z.ltb_lt (hasta fin N) _)) by lia].
    destruct (Z.ltb_spec (hasta fin N) 0); cbv beta iota;
      [by rewrite (proj2 (Z.ltb_lt (hasta fin N) _)) by lia|].
    rewrite !como_usize_id by (unfold u64_max; lia).
    destruct (Z.ltb_spec (hasta fin N) (desde inicio N)); [cerrar|]. ejecutar.
    unfold aritmetica_usize. rewrite (proj2 (en_rango_spec _ _ _)) by (unfold u64_max; lia).
    rewrite rebanada_ok by lia. ejecutar. cerrar.
Qed.

Lemma lrange_refina c : refina_si listas_cortas (lrange c) (esp_lrange (parametros c)).
Proof.
  intros w Hw Hc. unfold lrange, parametro_i32.
  destruct c as [n [|k [|p ps]] i]; leer_comando; [cerrar..|].
  unfold esp_lrange. destruct (parse_i32 p) as [inicio|] eqn:Hp; [|cerrar].
  destruct ps as [|q ps]; leer_comando; [cerrar|]. destruct (parse_i32 q) as [fin|] eqn:Hq; [|cerrar].
  ejecutar. unfold con_lista.
  destruct (vista w !! k) as [[s|l|s|s]|] eqn:Hk; cbv beta iota; [cerrar| |cerrar..].
  apply lrange_final; [by eapply es_i32_spec, parse_i32_rango|by eapply es_i32_spec, parse_i32_rango|by eapply Hc|done..].
Qed.
End lrange.

(** *** LREM *)

(** The list without its first [n] occurrences of [x]. *)
Fixpoint quitar_primeras (x : string) (n : nat) (l : list string) : list string :=
  match n, l with
  | O, _ => l
  | S n', [] => []
  | S n', v :: l' => if bool_decide (v = x) then quitar_primeras x n' l' else v :: quitar_primeras x n l'
  end.

Definition ocurrencias (x : string) (l : list string) : nat := length (base.filter (x =.) l).

(** A negative count removes from the tail; zero removes nothing. *)
Definition quitar_segun (x : string) (indice : Z) (l : list string) : list string :=
  if indice <? 0 then reverse (quitar_primeras x (Z.to_nat (- indice)) (reverse l))
  else quitar_primeras x (Z.to_nat indice) l.

(** [i32::MIN.abs()] overflows: the debug build panics, the release build removes
    nothing. *)
Definition esp_lrem `{Entorno} (ps : list string) (m : Estado) : Desenlace :=
  match ps with
  | [] => Responde (err_args "lrem") m
  | k :: p :: resto =>
      match parse_i32 p with
      | None => Responde err_entero m
      | Some indice =>
          match resto with
          | [] => Responde (err_args "lrem") m
          | x :: _ =>
              con_lista k m (Responde (Int 0) m) (λ l,
                if indice =? i32_min then
                  if comprobar_desborde then Aborta m
                  else Responde (Int 0) (poner_lista k l m)
                else Responde (Int (Z.min (Z.abs indice) (Z.of_nat (ocurrencias x l))))
                       (poner_lista k (quitar_segun x indice l) m))
          end
      end
  | _ => Responde (err_args "lrem") m
  end.

Lemma ocurrencias_cons x v l :
  ocurrencias x (v :: l) = if bool_decide (v = x) then S (ocurrencias x l) else ocurrencias x l.
Proof.
  unfold ocurrencias. rewrite filter_cons. case_bool_decide; case_decide; naive_solver.
Qed.

Lemma ocurrencias_reverse x l : ocurrencias x (reverse l) = ocurrencias x l.
Proof. unfold ocurrencias. by rewrite (reverse_Permutation l). Qed.

(** The loop of the handler removes the first [i - e] occurrences and counts
    them. *)
Lemma filtrar_ocurrencias_eq x i e l :
  filtrar_ocurrencias x i e l =
    (quitar_primeras x (Z.to_nat (i - e)) l,
     e + Z.min (Z.max 0 (i - e)) (Z.of_nat (ocurrencias x l))).
Proof.
  revert e. induction l as [|v l IH]; intros e; cbn [filtrar_ocurrencias].
  { destruct (Z.to_nat (i - e)); cbn; f_equal; lia. }
  rewrite ocurrencias_cons. destruct (bool_decide (v = x)) eqn:Hv; cbn [andb].
  - destruct (Z.ltb_spec e i).
    + rewrite IH. replace (Z.to_nat (i - e)) with (S (Z.to_nat (i - (e + 1)))) by lia.
      cbn [quitar_primeras]. rewrite Hv. f_equal. lia.
    + rewrite IH. replace (Z.to_nat (i - e)) with 0%nat by lia.
      destruct l; cbn [quitar_primeras]; f_equal; lia.
  - rewrite IH. destruct (Z.to_nat (i - e)) eqn:Hn; cbn [quitar_primeras]; [by destruct l|].
    by rewrite Hv.
Qed.

Lemma quitar_primeras_0 x l : quitar_primeras x 0 l = l.
Proof. by destruct l. Qed.

Section lrem.
Context `{Entorno}.

Lemma lrem_refina c : refina (lrem c) (esp_lrem (parametros c)).
Proof.
  intros w Hw. unfold lrem, parametro_i32.
  destruct c as [n [|k [|p ps]] i]; leer_comando; [cerrar..|].
  unfold esp_lrem. destruct (parse_i32 p) as [ind|] eqn:Hind; [|cerrar].
  destruct ps as [|x ps]; leer_comando; [cerrar|]. ejecutar. unfold con_lista.
  destruct (vista w !! k) as [[s|l|s|s]|] eqn:Hk; cbv beta iota zeta; [cerrar| |cerrar..].
  apply parse_i32_rango, es_i32_spec in Hind. unfold quitar_segun.
  destruct (Z.eqb_spec ind i32_min) as [->|Hmin];
    [|destruct (Z.ltb_spec ind 0) as [Hneg|Hneg]].
  - change (i32_min <? 0) with true. cbv beta iota zeta. destruct comprobar_desborde; [cerrar|].
    change (aritmetica_i32 false (- i32_min)) with (Some i32_min). ejecutar.
    rewrite filtrar_ocurrencias_eq. change (Z.to_nat (i32_min - 0)) with 0%nat.
    rewrite quitar_primeras_0, reverse_involutive.
    replace (0 + _) with 0 by (unfold i32_min; lia). ejecutar. by apply cumple_poner_lista.
  - rewrite aritmetica_i32_ok by (apply es_i32_spec; unfold i32_min, i32_max in *; lia). ejecutar.
    rewrite filtrar_ocurrencias_eq, ocurrencias_reverse, Z.sub_0_r.
    replace (0 + _) with (Z.min (Z.abs ind) (Z.of_nat (ocurrencias x l))) by lia.
    ejecutar. by apply cumple_poner_lista.
  - ejecutar. rewrite filtrar_ocurrencias_eq, Z.sub_0_r.
    replace (0 + _) with (Z.min (Z.abs ind) (Z.of_nat (ocurrencias x l))) by lia.
    ejecutar. by apply cumple_poner_lista.
Qed.
End lrem.

(** ** Invariants *)

Lemma guardar_o_eliminar_preserva {I} `{!Interior I} k l : preserva I (guardar_o_eliminar k l).
Proof. unfold guardar_o_eliminar. invariante. Qed.
#[export] Hint Resolve guardar_o_eliminar_preserva : redis.

Lemma list_siempre `{Entorno} I `{!InvarianteBase I} c : siempre I (ejecutar c).
Proof.
  unfold ejecutar. invariante; unfold lindex, llen, lpop, rpop, pop, sacar, lpush, lpushx, rpush,
    rpushx, push_con, push, leer_lista, lrange, lrem, lset; invariante.
Qed.
#[export] Hint Resolve list_siempre : redis.

(** ** The whole handler *)

(** The specification of a list command, by its name. *)
Definition esp_ejecutar `{Entorno} (c : ComandoInfo) : Estado → Desenlace :=
  match nombre c with
  | "LINDEX" => esp_lindex (parametros c)
  | "LPOP" => esp_pop false (parametros c)
  | "RPOP" => esp_pop true (parametros c)
  | "LPUSH" => esp_push "lpush" true false (parametros c)
  | "LPUSHX" => esp_push "lpushx" false false (parametros c)
  | "RPUSH" => esp_push "rpush" true true (parametros c)
  | "RPUSHX" => esp_push "rpushx" false true (parametros c)
  | "LRANGE" => esp_lrange (parametros c)
  | "LREM" => esp_lrem (parametros c)
  | "LSET" => esp_lset (parametros c)
  | _ => esp_llen (parametros c)
  end.

Lemma refina_refina_si P p f : refina p f → refina_si P p f.
Proof. intros Hp w Hw _. by apply Hp. Qed.

Lemma list_esp `{Entorno} c : refina_si listas_cortas (ejecutar c) (esp_ejecutar c).
Proof.
  unfold ejecutar, esp_ejecutar, get_nombre.
  por_nombre ltac:(first [ apply refina_refina_si, llen_refina | apply lindex_refina
    | apply lset_refina | apply lrange_refina
    | apply refina_refina_si; first [ apply lpop_refina | apply rpop_refina | apply lpush_refina
        | apply rpush_refina | apply lpushx_refina | apply rpushx_refina | apply lrem_refina ] ]).
Qed.

Lemma sublista_toda l : sublista 0 (-1) l = l.
Proof.
  unfold sublista, desde, hasta. change (0 <? 0) with false. change (-1 <? 0) with true.
  destruct l as [|x l]; [done|]. cbv beta iota zeta.
  rewrite (proj2 (Z.ltb_ge (Z.of_nat (length (x :: l)) + -1) 0)) by (cbn [length]; lia).
  change (Z.to_nat 0) with 0%nat. rewrite drop_0, take_ge; [done|lia].
Qed.

Lemma quitar_primeras_todas x n l :
  (ocurrencias x l ≤ n)%nat → quitar_primeras x n l = base.filter (λ y, y ≠ x) l.
Proof.
  revert n. induction l as [|v l IH]; intros n; [by destruct n|].
  rewrite ocurrencias_cons, filter_cons. destruct n as [|n]; cbn [quitar_primeras].
  - destruct (bool_decide_reflect (v = x)); [lia|]. intros Hn.
    rewrite decide_True by done. f_equal. by rewrite <-(IH 0%nat) by lia; destruct l.
  - destruct (bool_decide_reflect (v = x)) as [->|]; intros Hn.
    + rewrite decide_False by (by intros []). apply IH. lia.
    + rewrite decide_True by done. f_equal. by apply IH.
Qed.

(** ** Properties *)

(** C13: Every list command, run alone on a world whose database is not
    poisoned and whose lists have at most [i32::MAX] elements, gives the answer and
    the abstract store of its specification, and panics exactly when it says so. *)
Theorem list_refina `{Entorno} c : refina_si listas_cortas (ejecutar c) (esp_ejecutar c).
Proof. apply list_esp. Qed.

(** C30: RPUSH then RPOP on a key that is absent or holds a list with
    some element: the pop answers the pushed element and the abstract store is what it
    was before the push. *)
Theorem rpush_rpop n k x i w
    (Hw : envenenado (base w) = false)
    (Hk : vista w !! k = None ∨ ∃ l, l ≠ [] ∧ vista w !! k = Some (Lista l)) :
  let w1 := snd (correr (rpush (MkComandoInfo n [k; x] i)) w) in
  let '(r, w2) := correr (rpop (MkComandoInfo n [k] i)) w1 in
  r = Some (BulkStr x) ∧ vista w2 = vista w.
Proof.
  set (l0 := match vista w !! k with Some (Lista l) => l | _ => [] end).
  assert (vista (snd (correr (rpush (MkComandoInfo n [k; x] i)) w)) =
      <[k := Lista (l0 ++ [x])]> (vista w) ∧
    envenenado (base (snd (correr (rpush (MkComandoInfo n [k; x] i)) w))) = false) as [H1 Hw1].
  { pose proof (rpush_refina (MkComandoInfo n [k; x] i) w Hw) as H1.
    unfold esp_push, con_lista in H1; cbn [parametros] in H1.
    unfold l0. destruct Hk as [Hk|(l & Hl & Hk)]; rewrite Hk in *; destruct H1 as (_ & _ & ? & ?); done. }
  cbv beta zeta. set (w1 := snd _) in *.
  pose proof (rpop_refina (MkComandoInfo n [k] i) w1 Hw1) as H2.
  destruct (correr _ w1) as [r w2].
  unfold esp_pop, esp_sacar, con_lista in H2; cbn [parametros] in H2.
  rewrite H1, lookup_insert_eq, length_app in H2. cbn [length] in H2.
  rewrite (proj2 (Z.leb_le 1 _)) in H2 by lia.
  replace (length l0 + 1 - Z.to_nat 1)%nat with (length l0) in H2 by lia.
  rewrite drop_app_length, take_app_length in H2. destruct H2 as (_ & Hr & Hv & _).
  split; [done|]. cbn [snd] in Hv. rewrite Hv. unfold poner_lista, l0.
  destruct Hk as [Hk|(l & Hl & Hk)]; rewrite Hk.
  - by rewrite bool_decide_eq_true_2, delete_insert_id by done.
  - by rewrite bool_decide_eq_false_2, insert_insert_eq, insert_id by done.
Qed.

Lemma rpush_rpop_witness :
  fst (correr (rpop (MkComandoInfo "RPOP" ["k"] 0))
    (snd (correr (rpush (MkComandoInfo "RPOP" ["k"; "x"] 0)) mundo_vacio))) = Some (BulkStr "x").
Proof.
  exact (proj1 (rpush_rpop "RPOP" "k" "x" 0 mundo_vacio eq_refl (or_introl eq_refl))).
Defined.

(** [LRANGE k 0 -1] answers the whole list, in order. *)
Theorem lrange_todo `{Entorno} n k i w l
    (Hw : envenenado (base w) = false) (Hk : vista w !! k = Some (Lista l))
    (Hne : l ≠ []) (Hl : listas_cortas (vista w)) :
  fst (correr (lrange (MkComandoInfo n [k; "0"; "-1"] i)) w) = Some (Vector (BulkStr <$> l)).
Proof.
  destruct (lrange_refina (MkComandoInfo n [k; "0"; "-1"] i) w Hw Hl) as [_ H1].
  revert H1. unfold esp_lrange, con_lista. cbn [parametros]. rewrite Hk.
  change (parse_i32 "0") with (Some 0). change (parse_i32 "-1") with (Some (-1)). cbv beta iota.
  rewrite andb_false_r, sublista_toda. by intros [Hr _].
Qed.

Lemma lrange_todo_witness :
  fst (correr (@lrange entorno_prueba (MkComandoInfo "LRANGE" ["k"; "0"; "-1"] 0))
    (mundo_con "k" (Lista ["a"; "b"])))
  = Some (Vector [BulkStr "a"; BulkStr "b"]).
Proof.
  refine (@lrange_todo entorno_prueba "LRANGE" "k" 0
    (mundo_con "k" (Lista ["a"; "b"])) ["a"; "b"]
    eq_refl eq_refl _ _); [done|].
  intros j l Hj. rewrite vista_lookup in Hj. unfold leer_valor in Hj. unfold mundo_con in Hj.
  rewrite tabla_con_tabla, lookup_singleton in Hj. case_decide; simplify_eq/=. rewrite get_no_expirable in Hj. by simplify_eq/=.
Defined.

(** LREM with a count as large as the number of occurrences, towards
    either end, leaves exactly the other elements, in order, and answers how many
    it removed. *)
Theorem lrem_todas `{Entorno} n k p x i w l indice
    (Hw : envenenado (base w) = false) (Hk : vista w !! k = Some (Lista l))
    (Hp : parse_i32 p = Some indice) (Hmin : indice ≠ i32_min)
    (Hi : Z.of_nat (ocurrencias x l) ≤ Z.abs indice) :
  let '(r, w') := correr (lrem (MkComandoInfo n [k; p; x] i)) w in
  r = Some (Int (Z.of_nat (ocurrencias x l))) ∧
  vista w' = poner_lista k (base.filter (λ y, y ≠ x) l) (vista w).
Proof.
  pose proof (lrem_refina (MkComandoInfo n [k; p; x] i) w Hw) as H1.
  destruct (correr _ w) as [r w']. unfold esp_lrem, con_lista in H1; cbn [parametros] in H1.
  rewrite Hp, Hk, (proj2 (Z.eqb_neq _ _)) in H1 by done. destruct H1 as (_ & Hr & Hv & _).
  cbn [fst snd] in *. rewrite Hr, Hv, Z.min_r by done. split; [done|]. f_equal.
  unfold quitar_segun. destruct (Z.ltb_spec indice 0).
  - rewrite quitar_primeras_todas by (rewrite ocurrencias_reverse; lia).
    by rewrite list.filter_reverse, reverse_involutive.
  - apply quitar_primeras_todas. lia.
Qed.

Lemma lrem_todas_witness :
  vista (snd (correr (@lrem entorno_prueba (MkComandoInfo "LREM" ["k"; "-2"; "a"] 0))
    (mundo_con "k" (Lista ["a"; "b"; "a"]))))
  !! "k" = Some (Lista ["b"]).
Proof.
  destruct (@lrem_todas entorno_prueba "LREM" "k" "-2" "a" 0
    (mundo_con "k" (Lista ["a"; "b"; "a"])) ["a"; "b"; "a"] (-2)
    eq_refl eq_refl eq_refl ltac:(done) ltac:(done))
    as [_ Hv].
  exact (f_equal (lookup "k") Hv).
Defined.

(** ** A poisoned database *)

Lemma list_falla `{Entorno} n k ps w :
  envenenado (base w) = true → falla (ejecutar (MkComandoInfo n (k :: ps) 0)) w.
Proof.
  intros Hw. set (c := MkComandoInfo n (k :: ps) 0).
  assert (falla (lindex c) w) by (unfold lindex, leer_lista, c; envenenado).
  assert (∀ b, falla (pop c b) w) by (intros b; unfold pop, sacar, leer_lista, c; envenenado).
  assert (∀ cmd s b, falla (push_con cmd s b c) w)
    by (intros; unfold push_con, leer_lista, c; envenenado).
  assert (falla (lrange c) w) by (unfold lrange, parametro_i32, leer_lista, c; envenenado).
  assert (falla (lrem c) w) by (unfold lrem, parametro_i32, leer_lista, c; envenenado).
  assert (falla (lset c) w) by (unfold lset, parametro_i32, leer_lista, c; envenenado).
  assert (falla (llen c) w) by (unfold llen, leer_lista, c; envenenado).
  unfold ejecutar, get_nombre, lpop, rpop, lpush, rpush, lpushx, rpushx.
  repeat match goal with |- falla (match ?x with _ => _ end) _ => destruct x end; auto.
Qed.

(** ** The two critical sections of RPUSH *)

Lemma rpush_lee n k x i w l :
  envenenado (base w) = false →
  vista w !! k = (if bool_decide (l = []) then None else Some (Lista l)) →
  avanzar (rpush (MkComandoInfo n [k; x] i)) w =
    Some (Vivo (push l k (MkComandoInfo n [k; x] 1) true), w).
Proof.
  intros Hw Hk.
  change (avanzar (rpush (MkComandoInfo n [k; x] i)) w) with
    (Some (match con_cerrojo_base (obtener_valor k) w with
           | (Some r, w') => (Vivo (match (match r with
                                     | Some (Some (Lista lista)) => inr lista
                                     | Some None => inr []
                                     | Some _ => inl err_tipo
                                     | None => inl err_bdd
                                     end) with
                               | inl e => mret e
                               | inr lista => push lista k (MkComandoInfo n [k; x] 1) true
                               end), w')
           | (None, w') => (Muerto, w')
           end)).
  unfold con_cerrojo_base. rewrite Hw, obtener_valor_eq, Hk.
  by destruct (bool_decide_reflect (l = [])) as [->|].
Qed.

Lemma rpush_escribe n k x l w :
  envenenado (base w) = false →
  avanzar (push l k (MkComandoInfo n [k; x] 1) true) w =
    Some (Vivo (Ret (Int (largo_isize (l ++ [x])))),
          guardado k (no_expirable (ahora w) (Lista (l ++ [x]))) w).
Proof.
  intros Hw.
  change (avanzar (push l k (MkComandoInfo n [k; x] 1) true) w) with
    (Some (match con_cerrojo_base (guardar_valor k (Lista (l ++ [x]))) w with
           | (Some r, w') => (Vivo (mret match r with
                                         | Some _ => Int (largo_isize (l ++ [x]))
                                         | None => err_bdd
                                         end), w')
           | (None, w') => (Muerto, w')
           end)).
  unfold con_cerrojo_base. by rewrite Hw, guardar_valor_eq.
Qed.
