(* ===== verification/ComandoSet.v ===== *)
(** * Set commands (comando_set_handler.rs)

    A [HashSet<String>] is a [gset string]; the order of SMEMBERS is that of the
    table's iterator. *)
From S2P Require Import Prelude Rust Datos Efectos Valor ComandoInfo BaseDeDatos Refinamiento.
From S2P Require Import ComandoString.

#[local] Open Scope Z_scope.

Definition es_comando_set (comando : string) : bool := bool_decide (comando ∈
  ["SADD"; "SCARD"; "SISMEMBER"; "SMEMBERS"; "SREM"]).

(** ** Handlers *)

(** The loops over the remaining parameters: the new set and how many elements
    changed. *)
Fixpoint aggregar_al_set (ps : list string) (s : gset string) (cantidad : Z) : gset string * Z :=
  match ps with
  | [] => (s, cantidad)
  | p :: ps' =>
      if negb (bool_decide (p ∈ s)) then aggregar_al_set ps' ({[p]} ∪ s) (cantidad + 1)
      else aggregar_al_set ps' s cantidad
  end.

Fixpoint eliminar_del_set (ps : list string) (s : gset string) (cantidad : Z) : gset string * Z :=
  match ps with
  | [] => (s, cantidad)
  | p :: ps' =>
      if bool_decide (p ∈ s) then eliminar_del_set ps' (s ∖ {[p]}) (cantidad + 1)
      else eliminar_del_set ps' s cantidad
  end.

Definition sadd_seccion (clave : string) (comando : ComandoInfo) : M ResultadoRedis :=
  actual ← obtener_valor clave;
  match (match actual with
         | Some (Conjunto s) => Some (aggregar_al_set (parametros_restantes comando) s 0)
         | None => Some (aggregar_al_set (parametros_restantes comando) ∅ 0)
         | _ => None
         end) with
  | None => mret err_tipo
  | Some (a_agregar, cantidad) =>
      guardar_valor clave (Conjunto a_agregar);; mret (Int (como_isize cantidad))
  end.

Definition sadd (comando : ComandoInfo) : Prog ResultadoRedis :=
  match get_clave comando with
  | (None, _) => mret (err_args "sadd")
  | (Some clave, comando) =>
      r ← lock_base (sadd_seccion clave comando);
      mret (default err_bdd r)
  end.

Definition largo_set (s : gset string) : Z := como_isize (Z.of_nat (size s)).

Definition scard (comando : ComandoInfo) : Prog ResultadoRedis :=
  match get_clave comando with
  | (None, _) => mret (err_args "scard")
  | (Some clave, _) =>
      r ← lock_base (obtener_valor clave);
      mret (match r with
            | Some (Some (Conjunto s)) => Int (largo_set s)
            | Some None => Int 0
            | Some _ => err_tipo
            | None => err_bdd
            end)
  end.

Definition sismember (comando : ComandoInfo) : Prog ResultadoRedis :=
  match get_clave comando with
  | (None, _) => mret (err_args "scard")
  | (Some clave, comando) =>
      r ← lock_base (obtener_valor clave);
      mret (match r with
            | Some (Some (Conjunto s)) =>
                match get_parametro comando with
                | (Some p, _) => Int (if bool_decide (p ∈ s) then 1 else 0)
                | (None, _) => err_tipo
                end
            | Some None => Int 0
            | Some _ => err_tipo
            | None => err_bdd
            end)
  end.

Section con_entorno.
Context `{Entorno}.

(** The elements of a set as its iterator yields them. *)
Definition elementos_en_orden (semilla : Z) (s : gset string) : list string :=
  orden_iteracion semilla (elements s).

Definition smembers_seccion (clave : string) : M ResultadoRedis :=
  actual ← obtener_valor clave;
  semilla ← consultar semilla;
  mret (match actual with
        | Some (Conjunto s) => Vector (BulkStr <$> elementos_en_orden semilla s)
        | None => Vector []
        | _ => err_tipo
        end).

Definition smembers (comando : ComandoInfo) : Prog ResultadoRedis :=
  match get_clave comando with
  | (None, _) => mret (err_args "smembers")
  | (Some clave, _) =>
      r ← lock_base (smembers_seccion clave);
      mret (default err_bdd r)
  end.
End con_entorno.

Definition srem_seccion (clave : string) (comando : ComandoInfo) : M ResultadoRedis :=
  actual ← obtener_valor clave;
  match actual with
  | Some (Conjunto s) =>
      let '(a_agregar, cantidad) := eliminar_del_set (parametros_restantes comando) s 0 in
      guardar_valor clave (Conjunto a_agregar);; mret (Int (como_isize cantidad))
  | None => mret (Int 0)
  | _ => mret err_tipo
  end.

Definition srem (comando : ComandoInfo) : Prog ResultadoRedis :=
  match get_clave comando with
  | (None, _) => mret (err_args "srem")
  | (Some clave, comando) =>
      r ← lock_base (srem_seccion clave comando);
      mret (default err_bdd r)
  end.

(** [ComandoSetHandler::new] and [ejecutar]. *)
Definition ejecutar `{Entorno} (comando : ComandoInfo) : Prog ResultadoRedis :=
  match get_nombre comando with
  | "SADD" => sadd comando
  | "SCARD" => scard comando
  | "SISMEMBER" => sismember comando
  | "SMEMBERS" => smembers comando
  | _ => srem comando
  end.

(** ** Specifications *)

Definition con_conjunto (k : string) (m : Estado) (si_no_hay : Desenlace)
    (f : gset string → Desenlace) : Desenlace :=
  match m !! k with
  | Some (Conjunto s) => f s
  | None => si_no_hay
  | Some _ => Responde err_tipo m
  end.

(** SADD stores the union and answers how many elements are new. *)
Definition esp_sadd (ps : list string) (m : Estado) : Desenlace :=
  match ps with
  | [] => Responde (err_args "sadd") m
  | k :: vs =>
      let agregar s :=
        Responde (Int (como_isize (Z.of_nat (size (list_to_set vs ∖ s : gset string)))))
          (<[k := Conjunto (list_to_set vs ∪ s)]> m) in
      con_conjunto k m (agregar ∅) agregar
  end.

(** SREM stores the difference, even when it is empty, and answers how many
    elements were there. *)
Definition esp_srem (ps : list string) (m : Estado) : Desenlace :=
  match ps with
  | [] => Responde (err_args "srem") m
  | k :: vs =>
      con_conjunto k m (Responde (Int 0) m) (λ s,
        Responde (Int (como_isize (Z.of_nat (size (list_to_set vs ∩ s : gset string)))))
          (<[k := Conjunto (s ∖ list_to_set vs)]> m))
  end.

Definition esp_scard (ps : list string) (m : Estado) : Desenlace :=
  match ps with
  | [] => Responde (err_args "scard") m
  | k :: _ => con_conjunto k m (Responde (Int 0) m) (λ s, Responde (Int (largo_set s)) m)
  end.

Definition esp_sismember (ps : list string) (m : Estado) : Desenlace :=
  match ps with
  | [] => Responde (err_args "scard") m
  | k :: vs =>
      con_conjunto k m (Responde (Int 0) m) (λ s,
        Responde (match vs with
                  | [] => err_tipo
                  | x :: _ => Int (if bool_decide (x ∈ s) then 1 else 0)
                  end) m)
  end.

(** ** Lemmas *)

Lemma aggregar_al_set_eq ps s n :
  aggregar_al_set ps s n =
    (list_to_set ps ∪ s, n + Z.of_nat (size (list_to_set ps ∖ s : gset string))).
Proof.
  revert s n. induction ps as [|p ps IH]; intros s n; cbn [aggregar_al_set list_to_set foldr].
  - f_equal; [set_solver|]. replace (∅ ∖ s) with (∅ : gset string) by set_solver.
    rewrite size_empty. lia.
  - destruct (bool_decide_reflect (p ∈ s)) as [Hp|Hp]; cbn [negb]; rewrite IH; f_equal.
    + set_solver.
    + f_equal. f_equal. f_equal. set_solver.
    + set_solver.
    + replace (({[p]} ∪ list_to_set ps) ∖ s) with
        ({[p]} ∪ (list_to_set ps ∖ ({[p]} ∪ s)) : gset string)
        by (apply set_eq; intros x; destruct (decide (x = p)); set_solver).
      rewrite (size_union {[p]}), (size_singleton (C := gset string)) by set_solver. lia.
Qed.

Lemma eliminar_del_set_eq ps s n :
  eliminar_del_set ps s n =
    (s ∖ list_to_set ps, n + Z.of_nat (size (list_to_set ps ∩ s : gset string))).
Proof.
  revert s n. induction ps as [|p ps IH]; intros s n; cbn [eliminar_del_set list_to_set foldr].
  - f_equal; [set_solver|]. replace (∅ ∩ s) with (∅ : gset string) by set_solver.
    rewrite size_empty. lia.
  - destruct (bool_decide_reflect (p ∈ s)) as [Hp|Hp]; rewrite IH; f_equal.
    + set_solver.
    + replace (({[p]} ∪ list_to_set ps) ∩ s) with
        ({[p]} ∪ (list_to_set ps ∩ (s ∖ {[p]})) : gset string)
        by (apply set_eq; intros x; destruct (decide (x = p)); set_solver).
      rewrite (size_union {[p]}), (size_singleton (C := gset string)) by set_solver. lia.
    + set_solver.
    + do 3 f_equal. set_solver.
Qed.

(** ** The handlers refine their specifications *)

Lemma sadd_refina c : refina (sadd c) (esp_sadd (parametros c)).
Proof.
  intros w Hw. unfold sadd. destruct c as [n [|k vs] i]; leer_comando; [cerrar|].
  ejecutar. unfold sadd_seccion. ejecutar. unfold esp_sadd, con_conjunto.
  change (parametros_restantes _) with vs. rewrite !aggregar_al_set_eq.
  destruct (vista w !! k) as [[]|]; rewrite ?aggregar_al_set_eq; cbv beta iota; ejecutar; cerrar.
Qed.

Lemma srem_refina c : refina (srem c) (esp_srem (parametros c)).
Proof.
  intros w Hw. unfold srem. destruct c as [n [|k vs] i]; leer_comando; [cerrar|].
  ejecutar. unfold srem_seccion. ejecutar. unfold esp_srem, con_conjunto.
  change (parametros_restantes _) with vs.
  destruct (vista w !! k) as [[]|]; rewrite ?eliminar_del_set_eq; cbv beta iota; ejecutar; cerrar.
Qed.

Lemma scard_refina c : refina (scard c) (esp_scard (parametros c)).
Proof.
  intros w Hw. unfold scard. destruct c as [n [|k vs] i]; leer_comando; [cerrar|].
  ejecutar. unfold esp_scard, con_conjunto. destruct (vista w !! k) as [[]|]; cerrar.
Qed.

Lemma sismember_refina c : refina (sismember c) (esp_sismember (parametros c)).
Proof.
  intros w Hw. unfold sismember. destruct c as [n [|k [|x vs]] i]; leer_comando; [cerrar|..];
    ejecutar; unfold esp_sismember, con_conjunto; destruct (vista w !! k) as [[]|]; cerrar.
Qed.

Section orden.
Context `{Entorno}.

(** SMEMBERS answers every element once, in the order of the table. *)
Definition esp_smembers (semilla : Z) (ps : list string) (m : Estado) : Desenlace :=
  match ps with
  | [] => Responde (err_args "smembers") m
  | k :: _ =>
      con_conjunto k m (Responde (Vector []) m) (λ s,
        Responde (Vector (BulkStr <$> elementos_en_orden semilla s)) m)
  end.

Lemma elementos_en_orden_perm sem s : elementos_en_orden sem s ≡ₚ elements s.
Proof. apply orden_perm. Qed.

Lemma smembers_esp c :
  refina_en (smembers c) (λ w, esp_smembers (semilla w) (parametros c)).
Proof.
  intros w Hw. unfold smembers. destruct c as [n [|k vs] i]; leer_comando; [cerrar|].
  ejecutar. unfold smembers_seccion. ejecutar. unfold esp_smembers, con_conjunto.
  destruct (vista w !! k) as [[]|]; ejecutar; cerrar.
Qed.
End orden.

(** ** Invariants *)

Lemma set_siempre `{Entorno} I `{!InvarianteBase I} c : siempre I (ejecutar c).
Proof.
  unfold ejecutar. invariante; unfold sadd, scard, sismember, smembers, srem, sadd_seccion,
    smembers_seccion, srem_seccion; invariante.
Qed.
#[export] Hint Resolve set_siempre : redis.

(** ** The whole handler *)

(** The specification of a set command, by its name. *)
Definition esp_ejecutar `{Entorno} (c : ComandoInfo) : Mundo → Estado → Desenlace :=
  match nombre c with
  | "SADD" => λ _, esp_sadd (parametros c)
  | "SCARD" => λ _, esp_scard (parametros c)
  | "SISMEMBER" => λ _, esp_sismember (parametros c)
  | "SMEMBERS" => λ w, esp_smembers (semilla w) (parametros c)
  | _ => λ _, esp_srem (parametros c)
  end.

Lemma set_esp `{Entorno} c : refina_en (ejecutar c) (esp_ejecutar c).
Proof.
  unfold ejecutar, esp_ejecutar, get_nombre.
  por_nombre ltac:(first [ exact (srem_refina c) | exact (sadd_refina c) | exact (scard_refina c)
    | exact (sismember_refina c) | exact (smembers_esp c) ]).
Qed.

(** ** Properties *)

(** C14: Every set command, run alone on a world whose database is
    not poisoned, gives the answer and the abstract store of its specification: set
    union, difference, cardinality and membership. *)
Theorem conjuntos_refina `{Entorno} c : refina_en (ejecutar c) (esp_ejecutar c).
Proof. apply set_esp. Qed.

(** SMEMBERS answers each element of the set exactly once. *)
Theorem smembers_todos `{Entorno} n k ps i w s
    (Hw : envenenado (base w) = false) (Hk : vista w !! k = Some (Conjunto s)) :
  ∃ l, correr (smembers (MkComandoInfo n (k :: ps) i)) w = (Some (Vector (BulkStr <$> l)), w) ∧
    NoDup l ∧ ∀ x, x ∈ l ↔ x ∈ s.
Proof.
  exists (elementos_en_orden (semilla w) s). split_and!.
  - unfold smembers. leer_comando. ejecutar. unfold smembers_seccion. ejecutar. rewrite Hk.
    by ejecutar.
  - rewrite elementos_en_orden_perm. apply NoDup_elements.
  - intros x. rewrite elementos_en_orden_perm. apply elem_of_elements.
Qed.

Lemma smembers_todos_witness :
  ∃ l, fst (correr (@smembers entorno_prueba (MkComandoInfo "SMEMBERS" ["k"] 0))
         (mundo_con "k" (Conjunto {["a"; "b"]}))) = Some (Vector (BulkStr <$> l)) ∧ NoDup l.
Proof.
  destruct (@smembers_todos entorno_prueba "SMEMBERS" "k" [] 0 (mundo_con "k" (Conjunto {["a"; "b"]}))
    {["a"; "b"]} eq_refl eq_refl) as (l & Hr & Hn & _).
  exists l. split; [exact (f_equal fst Hr)|exact Hn].
Defined.

(** Repeating a SADD adds nothing: the second one answers 0 and
    leaves the abstract store as the first left it. *)
Theorem sadd_idempotente c w
    (Hw : envenenado (base w) = false) (Hc : parametros c ≠ [])
    (Hk : ∀ k, head (parametros c) = Some k →
       vista w !! k = None ∨ ∃ s, vista w !! k = Some (Conjunto s)) :
  let w1 := snd (correr (sadd c) w) in
  let '(r, w2) := correr (sadd c) w1 in
  r = Some (Int 0) ∧ vista w2 = vista w1.
Proof.
  pose proof (sadd_refina c w Hw) as H1. destruct c as [n [|k vs] i]; [done|].
  cbn [parametros] in *. unfold esp_sadd, con_conjunto in H1. specialize (Hk k eq_refl).
  set (s0 := match vista w !! k with Some (Conjunto s) => s | _ => ∅ end).
  assert (vista (snd (correr (sadd (MkComandoInfo n (k :: vs) i)) w)) =
      <[k := Conjunto (list_to_set vs ∪ s0)]> (vista w) ∧
    envenenado (base (snd (correr (sadd (MkComandoInfo n (k :: vs) i)) w))) = false) as [Hv Hw1].
  { unfold s0. destruct Hk as [Hk|[s Hk]]; rewrite Hk in *; destruct H1 as (_ & _ & ? & ?); done. }
  cbv beta zeta. set (w1 := snd _) in *.
  pose proof (sadd_refina (MkComandoInfo n (k :: vs) i) w1 Hw1) as H2.
  destruct (correr _ w1) as [r w2]. unfold esp_sadd, con_conjunto in H2. cbn [parametros] in H2.
  rewrite Hv, lookup_insert_eq in H2. destruct H2 as (_ & Hr & Hv2 & _). cbn [fst snd] in *.
  replace (list_to_set vs ∖ (list_to_set vs ∪ s0)) with (∅ : gset string) in Hr by set_solver.
  rewrite size_empty in Hr. split; [done|]. rewrite Hv2, Hv, insert_insert_eq. do 2 f_equal. set_solver.
Qed.

Lemma sadd_idempotente_witness :
  fst (correr (sadd (MkComandoInfo "SADD" ["k"; "a"; "b"] 0))
    (snd (correr (sadd (MkComandoInfo "SADD" ["k"; "a"; "b"] 0)) mundo_vacio))) = Some (Int 0).
Proof.
  refine (proj1 (sadd_idempotente (MkComandoInfo "SADD" ["k"; "a"; "b"] 0) mundo_vacio eq_refl _ _)).
  - discriminate.
  - intros k _. left. reflexivity.
Defined.

(** ** A poisoned database *)

Lemma set_falla `{Entorno} n k ps w :
  envenenado (base w) = true → falla (ejecutar (MkComandoInfo n (k :: ps) 0)) w.
Proof.
  intros Hw. set (c := MkComandoInfo n (k :: ps) 0).
  assert (falla (sadd c) w) by (unfold sadd, c; envenenado).
  assert (falla (srem c) w) by (unfold srem, c; envenenado).
  assert (falla (scard c) w) by (unfold scard, c; envenenado).
  assert (falla (sismember c) w) by (unfold sismember, c; envenenado).
  assert (falla (smembers c) w) by (unfold smembers, c; envenenado).
  unfold ejecutar, get_nombre.
  repeat match goal with |- falla (match ?x with _ => _ end) _ => destruct x end; auto.
Qed.
