(* ===== verification/ComandoKey.v ===== *)
(** * Key commands (comando_key_handler.rs)

    COPY, RENAME, DEL and the like, expirations, and SORT with its options; commands
    over several keys take the lock once per key. *)
From S2P Require Import Prelude Rust Datos Efectos Valor ComandoInfo BaseDeDatos Refinamiento.
From S2P Require Import ComandoString ComandoSet.

#[local] Open Scope Z_scope.

Definition es_comando_key (comando : string) : bool := bool_decide (comando ∈
  ["COPY"; "DEL"; "EXISTS"; "RENAME"; "EXPIRE"; "EXPIREAT"; "PERSIST"; "TTL"; "TOUCH"; "KEYS";
   "SORT"; "TYPE"]).

(** ** Handlers on keys *)

Definition copy (comando : ComandoInfo) : Prog ResultadoRedis :=
  match get_clave comando with
  | (None, _) => mret (err_args "copy")
  | (Some clave, comando) =>
      match get_parametro comando with
      | (None, _) => mret (err_args "copy")
      | (Some parametro, _) =>
          r ← lock_base (copiar_valor clave parametro);
          mret (match r with
                | Some (Some _) => Int 1
                | Some None => Int 0
                | None => err_bdd
                end)
      end
  end.

(** One turn of the loop of [recorrer_y_ejecutar], under the lock: whether the key
    existed. *)
Definition recorrer_clave (funcion : string → M ()) (clave : string) : M bool :=
  existe ← existe_clave clave;
  if existe : bool then funcion clave;; mret true else mret false.

(** The loop takes the lock once per key. *)
Fixpoint recorrer_claves (funcion : string → M ()) (claves : list string) (cuenta : Z)
    : Prog ResultadoRedis :=
  match claves with
  | [] => mret (Int cuenta)
  | clave :: claves' =>
      r ← lock_base (recorrer_clave funcion clave);
      match r with
      | None => mret err_bdd
      | Some existia => recorrer_claves funcion claves' (if existia : bool then cuenta + 1 else cuenta)
      end
  end.

Definition recorrer_y_ejecutar (comando : ComandoInfo) (funcion : string → M ())
    : Prog ResultadoRedis :=
  recorrer_claves funcion (parametros_restantes comando) 0.

Definition del (comando : ComandoInfo) : Prog ResultadoRedis :=
  recorrer_y_ejecutar comando (λ clave, eliminar_clave clave;; mret ()).

Definition exists_ (comando : ComandoInfo) : Prog ResultadoRedis :=
  recorrer_y_ejecutar comando (λ _, mret ()).

Definition tipo (comando : ComandoInfo) : Prog ResultadoRedis :=
  match get_clave comando with
  | (None, _) => mret (err_args "type")
  | (Some clave, _) =>
      r ← lock_base (obtener_valor clave);
      mret (match r with
            | Some (Some (Str _)) => BulkStr "string"
            | Some (Some (Lista _)) => BulkStr "lista"
            | Some (Some (Conjunto _)) => BulkStr "set"
            | Some _ => BulkStr "none"
            | None => err_bdd
            end)
  end.

(** The count of a method of the store as an answer. *)
Definition como_int (r : option Z) : ResultadoRedis :=
  match r with Some n => Int (como_isize n) | None => err_bdd end.

(** The key and the [u64] that EXPIRE and EXPIREAT read. *)
Definition leer_clave_y_tiempo (nombre : string) (comando : ComandoInfo)
    : ResultadoRedis + string * Z :=
  match get_clave comando with
  | (None, _) => inl (err_args nombre)
  | (Some clave, comando) =>
      match get_parametro comando with
      | (None, _) => inl (err_args nombre)
      | (Some p, _) =>
          match parse_u64 p with
          | None => inl err_entero
          | Some t => inr (clave, t)
          end
      end
  end.

Definition expire (comando : ComandoInfo) : Prog ResultadoRedis :=
  match leer_clave_y_tiempo "expire" comando with
  | inl e => mret e
  | inr (clave, parametro) =>
      r ← lock_base (actualizar_valor_con_expiracion clave parametro);
      mret (como_int r)
  end.

(** [UNIX_EPOCH + Duration::from_secs(s)] panics when the seconds of the instant
    do not fit in an [i64]. *)
Definition epoch_mas (s : Z) : option Z :=
  if en_rango 0 i64_max s then Some (from_secs s) else None.

Definition expireat (comando : ComandoInfo) : Prog ResultadoRedis :=
  match leer_clave_y_tiempo "expireat" comando with
  | inl e => mret e
  | inr (clave, parametro) =>
      tiempo_desde_epoch ← o_panico_hilo (epoch_mas parametro);
      ahora_sistema ← atomico (consultar sistema);
      if tiempo_desde_epoch <? ahora_sistema
      then mret (Error "TimeError the time since epoch has already happened")
      else
        r ← lock_base (actualizar_valor_con_expiracion clave
                         (as_secs (tiempo_desde_epoch - ahora_sistema)));
        mret (como_int r)
  end.

Definition persist (comando : ComandoInfo) : Prog ResultadoRedis :=
  match get_clave comando with
  | (None, _) => mret (err_args "persist")
  | (Some clave, _) =>
      r ← lock_base (actualizar_valor_sin_expiracion clave); mret (como_int r)
  end.

Definition ttl (comando : ComandoInfo) : Prog ResultadoRedis :=
  match get_clave comando with
  | (None, _) => mret (err_args "ttl")
  | (Some clave, _) => r ← lock_base (obtener_expiracion clave); mret (como_int r)
  end.

Fixpoint tocar (claves : list string) (acum : Z) : M Z :=
  match claves with
  | [] => mret acum
  | clave :: claves' => n ← actualizar_ultimo_acceso clave; tocar claves' (acum + n)
  end.

Definition touch (comando : ComandoInfo) : Prog ResultadoRedis :=
  r ← lock_base (tocar (parametros_restantes comando) 0);
  mret (match r with Some acum => Int acum | None => err_bdd end).

(** ** SORT *)

Definition es_parseable (num : string) : bool :=
  match parse_i32 num with Some _ => true | None => false end.

Definition tiene_solo_valores_numericos (valores : list string) : bool :=
  forallb es_parseable valores.

(** [l[a..=b]] panics when [b] is [usize::MAX] or the range is not in the list. *)
Definition rebanada_inclusiva (a b : Z) (l : list string) : option (list string) :=
  if b =? u64_max then None else rebanada a (b + 1) l.

(** [c[0]] of the parameters after an option. *)
Definition tras_opcion (opcion : string) (ps : list string) : option string :=
  indexar (segmento_final (λ p, bool_decide (p = opcion)) ps) 0.

Definition vector_simple (valores : list string) : ResultadoRedis :=
  Vector (StrSimple <$> valores).

Definition peso_leb (a b : string * string) : bool := string_leb (snd a) (snd b).

Section con_entorno.
Context `{Entorno}.

Definition rename (comando : ComandoInfo) : Prog ResultadoRedis :=
  match get_clave comando with
  | (None, _) => mret (err_args "rename")
  | (Some clave, comando) =>
      r ← copy comando;
      match r with
      | Error _ => mret (Error "ERR no such key")
      | _ =>
          comando ← o_panico_hilo (ComandoInfo.new ["rename"; clave]);
          _ ← del comando;
          mret (StrSimple "Ok")
      end
  end.

Definition keys (comando : ComandoInfo) : Prog ResultadoRedis :=
  match get_parametro comando with
  | (None, _) => mret (err_args "keys")
  | (Some re, _) =>
      r ← lock_base (claves re);
      mret (match r with
            | Some vector => Vector (BulkStr <$> vector)
            | None => err_bdd
            end)
  end.

(** [Some None] is the [None] of the code. *)
Definition selecionar_rango (parametros valores : list string) : option (option (list string)) :=
  let rango := base.filter (λ i, es_parseable i = true) parametros in
  let cd := comprobar_desborde in
  let largo := Z.of_nat (length valores) in
  r0 ← indexar rango 0;
  match parse_i32 r0 with
  | None => Some None
  | Some offset =>
      r1 ← indexar rango 1;
      match parse_i32 r1 with
      | None => Some None
      | Some count =>
          ultimo ← aritmetica_usize cd (largo - 1);
          if count =? 0 then Some (Some []) else
          let index_min :=
            if (0 <=? offset) && (offset <? como_i32 largo) then offset else 0 in
          index_max ←
            (if 0 <=? count then
               resto ← aritmetica_i32 cd (como_i32 largo - offset);
               if count <? resto then
                 suma ← aritmetica_usize cd (count + como_usize offset);
                 aritmetica_usize cd (suma - 1)
               else Some ultimo
             else Some ultimo);
          Some <$> rebanada_inclusiva index_min index_max valores
      end
  end.

(** DESC, LIMIT and STORE. *)
Definition sort_configuracion_lista_ordenada (parametros valores : list string)
    : Prog ResultadoRedis :=
  let valores := if contiene_param "DESC" parametros then rev valores else valores in
  elegidos ← o_panico_hilo (if contiene_param "LIMIT" parametros
                            then selecionar_rango parametros valores
                            else Some (Some valores));
  match elegidos with
  | None => mret (Error "ERR syntax error")
  | Some valores =>
      if contiene_param "STORE" parametros then
        clave ← o_panico_hilo (tras_opcion "STORE" parametros);
        r ← lock_base (guardar_valor clave (Lista valores));
        mret (match r with
              | Some _ => StrSimple (mostrar (Z.of_nat (length valores)))
              | None => err_bdd
              end)
      else mret (vector_simple valores)
  end.

Definition sort_elemento_con_pesos_interno (valores parametros : list string)
    : Prog ResultadoRedis :=
  if negb (contiene_param "ALPHA" parametros) && negb (tiene_solo_valores_numericos valores)
  then mret (Error "ERR One or more scores can't be converted into double")
  else sort_configuracion_lista_ordenada parametros (ordenar string_leb valores).

(** The inner loop of [obetener_tupla_valor_peso] and then the outer one; the
    lock is taken for each pair. *)
Fixpoint pesos_de (valor : string) (pesos : list string)
    : Prog (option (list (string * string))) :=
  match pesos with
  | [] => mret (Some [])
  | peso :: pesos' =>
      if bool_decide (ultimo_segmento "_" peso = ultimo_segmento "_" valor) then
        r ← lock_base (obtener_valor peso);
        match r with
        | Some (Some (Str p)) =>
            resto ← pesos_de valor pesos'; mret (cons (valor, p) <$> resto)
        | _ => mret None
        end
      else pesos_de valor pesos'
  end.

Fixpoint obetener_tupla_valor_peso (valores pesos : list string)
    : Prog (option (list (string * string))) :=
  match valores with
  | [] => mret (Some [])
  | valor :: valores' =>
      r ← pesos_de valor pesos;
      match r with
      | None => mret None
      | Some tuplas =>
          resto ← obetener_tupla_valor_peso valores' pesos; mret (app tuplas <$> resto)
      end
  end.

(** The loops of GET: what they push, and [pusheado], which is never reset. *)
Fixpoint objetos_de (valor : string) (objetos : list string) (pusheado : bool)
    : Prog (option (list ResultadoRedis * bool)) :=
  match objetos with
  | [] => mret (Some ([], pusheado))
  | objeto :: objetos' =>
      if contiene valor objeto then
        r ← lock_base (obtener_valor objeto);
        match r with
        | None => mret None
        | Some (Some (Str v)) =>
            resto ← objetos_de valor objetos' true;
            mret ('(l, b) ← resto; Some (StrSimple v :: l, b))
        | Some _ => objetos_de valor objetos' pusheado
        end
      else objetos_de valor objetos' pusheado
  end.

Fixpoint resultado_get (tuplas : list (string * string)) (objetos : list string)
    (pusheado : bool) : Prog (option (list ResultadoRedis)) :=
  match tuplas with
  | [] => mret (Some [])
  | valor :: tuplas' =>
      r ← objetos_de (fst valor) objetos pusheado;
      match r with
      | None => mret None
      | Some (l, pusheado) =>
          resto ← resultado_get tuplas' objetos pusheado;
          mret (app (l ++ if pusheado : bool then [] else [Nil]) <$> resto)
      end
  end.

(** From the sorted tuples on. *)
Definition sort_externos_salida (tuplas : list (string * string)) (parametros : list string)
    : Prog ResultadoRedis :=
  if contiene_param "GET" parametros then
    patron_obj ← o_panico_hilo (tras_opcion "GET" parametros);
    objetos ← lock_base (claves patron_obj);
    match objetos with
    | None => mret err_bdd
    | Some objetos =>
        r ← resultado_get tuplas objetos false;
        mret (match r with Some l => Vector l | None => err_bdd end)
    end
  else sort_configuracion_lista_ordenada parametros (fst <$> tuplas).

Definition sort_elemento_con_pesos_externos (valores parametros : list string)
    : Prog ResultadoRedis :=
  patron_pesos ← o_panico_hilo (tras_opcion "BY" parametros);
  pesos ← lock_base (claves patron_pesos);
  match pesos with
  | None => mret err_bdd
  | Some pesos =>
      if negb (bool_decide (length pesos = length valores)) then mret (vector_simple valores)
      else
        r ← obetener_tupla_valor_peso valores pesos;
        match r with
        | None => mret (Error "ERR syntax error")
        | Some tuplas => sort_externos_salida (ordenar peso_leb tuplas) parametros
        end
  end.

(** The elements to sort, under the lock: [inl] is an early answer. *)
Definition sort_seccion (clave : string) : M (ResultadoRedis + list string) :=
  actual ← obtener_valor clave;
  semilla ← consultar semilla;
  mret (match actual with
        | Some (Lista lista) => inr lista
        | Some (Conjunto s) => inr (elementos_en_orden semilla s)
        | None => inl (Vector [])
        | _ => inl err_tipo
        end).

Definition sort (comando : ComandoInfo) : Prog ResultadoRedis :=
  match get_parametros comando with
  | None => mret (err_args "sort")
  | Some parametros =>
      clave ← o_panico_hilo (indexar parametros 0);
      r ← lock_base (sort_seccion clave);
      match r with
      | None => mret (Error "ERR when accessing the databases")
      | Some (inl e) => mret e
      | Some (inr []) => mret (Vector [])
      | Some (inr valores) =>
          if contiene_param "BY" parametros
          then sort_elemento_con_pesos_externos valores parametros
          else sort_elemento_con_pesos_interno valores parametros
      end
  end.

(** [ComandoKeyHandler::new] and [ejecutar]. *)
Definition ejecutar (comando : ComandoInfo) : Prog ResultadoRedis :=
  match get_nombre comando with
  | "COPY" => copy comando
  | "DEL" => del comando
  | "EXISTS" => exists_ comando
  | "RENAME" => rename comando
  | "EXPIRE" => expire comando
  | "EXPIREAT" => expireat comando
  | "PERSIST" => persist comando
  | "TTL" => ttl comando
  | "TOUCH" => touch comando
  | "KEYS" => keys comando
  | "SORT" => sort comando
  | _ => tipo comando
  end.
End con_entorno.

(** ** Specifications *)

(** The value a copy stores: a channel clones its subscribers. *)
Definition esp_copy (w : Mundo) (ps : list string) (m : Estado) : Desenlace :=
  match ps with
  | k1 :: k2 :: _ =>
      match m !! k1 with
      | Some v => Responde (Int 1) (<[k2 := clonar_tipo w v]> m)
      | None => Responde (Int 0) m
      end
  | _ => Responde (err_args "copy") m
  end.

(** RENAME answers Ok whether the key exists or not; renaming a key to itself
    deletes it. *)
Definition esp_rename (w : Mundo) (ps : list string) (m : Estado) : Desenlace :=
  match ps with
  | [] => Responde (err_args "rename") m
  | [_] => Responde (Error "ERR no such key") m
  | k1 :: k2 :: _ =>
      match m !! k1 with
      | Some v => Responde (StrSimple "Ok") (delete k1 (<[k2 := clonar_tipo w v]> m))
      | None => Responde (StrSimple "Ok") m
      end
  end.

(** DEL deletes all its keys and counts the distinct live ones. *)
Definition esp_del (ps : list string) (m : Estado) : Desenlace :=
  Responde (Int (Z.of_nat (size (list_to_set ps ∩ dom m : gset string)))) (foldr delete m ps).

(** EXISTS counts its live keys, with repetitions. *)
Definition esp_exists (ps : list string) (m : Estado) : Desenlace :=
  Responde (Int (Z.of_nat (length (base.filter (λ k, is_Some (m !! k)) ps)))) m.

Definition esp_tipo (ps : list string) (m : Estado) : Desenlace :=
  match ps with
  | [] => Responde (err_args "type") m
  | k :: _ =>
      Responde (BulkStr match m !! k with
                        | Some (Str _) => "string"
                        | Some (Lista _) => "lista"
                        | Some (Conjunto _) => "set"
                        | _ => "none"
                        end) m
  end.

(** ** Lemmas *)

Lemma foldr_delete_delete {A} (m : gmap string A) k ks :
  foldr delete (delete k m) ks = delete k (foldr delete m ks).
Proof.
  induction ks as [|j ks IH]; simpl; [done|]. rewrite IH. apply map_eq. intros i.
  rewrite !lookup_delete. by repeat case_decide.
Qed.

Lemma recorrer_del ks n w :
  envenenado (base w) = false →
  ∃ w', correr (recorrer_claves (λ clave, eliminar_clave clave;; mret ()) ks n) w =
      (Some (Int (n + Z.of_nat (size (list_to_set ks ∩ dom (vista w) : gset string)))), w') ∧
    vista w' = foldr delete (vista w) ks ∧ envenenado (base w') = false ∧ ahora w' = ahora w.
Proof.
  revert n w. induction ks as [|k ks IH]; intros n w Hw; cbn [recorrer_claves].
  { eexists. split; [|done]. ejecutar. do 3 f_equal. cbn [list_to_set foldr].
    replace (∅ ∩ dom (vista w)) with (∅ : gset string) by set_solver. rewrite size_empty. lia. }
  ejecutar. unfold recorrer_clave. ejecutar. cbn [list_to_set foldr].
  destruct (vista w !! k) as [v|] eqn:Hk; ejecutar.
  - destruct (IH (n + 1) (borrado k w)) as (w' & -> & Hv & Hb & Ha); [done|].
    rewrite vista_borrado in *. exists w'. split_and!; [|by rewrite Hv, foldr_delete_delete|done..].
    do 3 f_equal. rewrite dom_delete_L.
    assert (k ∈ dom (vista w)) as Hd by (apply elem_of_dom; eauto).
    replace ((({[k]} ∪ list_to_set ks) ∩ dom (vista w)) : gset string) with
      ({[k]} ∪ (list_to_set ks ∩ (dom (vista w) ∖ {[k]})) : gset string)
      by (apply set_eq; intros x; destruct (decide (x = k)); set_solver).
    rewrite (size_union {[k]}), (size_singleton (C := gset string)) by set_solver. lia.
  - destruct (IH n w) as (w' & -> & Hv & Hb & Ha); [done|].
    exists w'. split_and!; [|by rewrite Hv; cbn; rewrite <-foldr_delete_delete, delete_id|done..].
    assert (k ∉ dom (vista w)) by by apply not_elem_of_dom.
    by replace ((({[k]} ∪ list_to_set ks) ∩ dom (vista w)) : gset string) with
      (list_to_set ks ∩ dom (vista w) : gset string) by set_solver.
Qed.

Lemma recorrer_exists ks n w :
  envenenado (base w) = false →
  correr (recorrer_claves (λ _, mret ()) ks n) w =
    (Some (Int (n + Z.of_nat (length (base.filter (λ k, is_Some (vista w !! k)) ks)))), w).
Proof.
  intros Hw. revert n. induction ks as [|k ks IH]; intros n; cbn [recorrer_claves].
  { ejecutar. do 3 f_equal. cbn. lia. }
  ejecutar. unfold recorrer_clave. ejecutar. rewrite filter_cons.
  destruct (vista w !! k) as [v|] eqn:Hk; ejecutar; rewrite IH; case_decide as Hd.
  - do 3 f_equal. cbn [length]. lia.
  - by destruct Hd.
  - by apply is_Some_None in Hd.
  - done.
Qed.

(** ** The handlers refine their specifications *)

Lemma copy_refina c : refina_en (copy c) (λ w, esp_copy w (parametros c)).
Proof.
  intros w Hw. unfold copy. destruct c as [n [|k1 [|k2 ps]] i]; leer_comando; [cerrar..|].
  ejecutar. unfold esp_copy. destruct (vista w !! k1); ejecutar; cerrar.
Qed.

Lemma del_refina c :
  refina (del c) (λ m, esp_del (parametros_restantes c) m).
Proof.
  intros w Hw. unfold del, recorrer_y_ejecutar.
  destruct (recorrer_del (parametros_restantes c) 0 w Hw) as (w' & -> & Hv & Hb & Ha).
  done.
Qed.

Lemma exists_refina c :
  refina (exists_ c) (λ m, esp_exists (parametros_restantes c) m).
Proof.
  intros w Hw. unfold exists_, recorrer_y_ejecutar. rewrite recorrer_exists by done. cerrar.
Qed.

Lemma tipo_refina c : refina (tipo c) (esp_tipo (parametros c)).
Proof.
  intros w Hw. unfold tipo. destruct c as [n [|k ps] i]; leer_comando; [cerrar|].
  ejecutar. unfold esp_tipo. destruct (vista w !! k) as [[]|]; cerrar.
Qed.

Lemma rename_refina `{Entorno} c : refina_en (rename c) (λ w, esp_rename w (parametros c)).
Proof.
  intros w Hw. unfold rename. destruct c as [n [|k1 ps] i]; leer_comando; [cerrar|].
  rewrite correr_bind.
  pose proof (copy_refina (MkComandoInfo n (k1 :: ps) 1) w Hw) as Hc. revert Hc.
  destruct (correr (copy _) w) as [r w1]. unfold esp_copy, esp_rename; cbn [parametros].
  destruct ps as [|k2 ps].
  { intros (? & ? & ? & ?). cbn in *. simplify_eq/=. done. }
  destruct (vista w !! k1) as [v|] eqn:Hk; intros (Ha & Hr & Hv & Hb); cbn in Ha, Hr, Hv, Hb;
    subst r; cbn [ComandoInfo.new]; ejecutar; cbn [o_panico_hilo]; ejecutar;
    unfold del, recorrer_y_ejecutar;
    destruct (recorrer_del [k1] 0 w1 Hb) as (w' & Hd & Hv' & Hb' & Ha');
    change (parametros_restantes _) with [k1]; rewrite Hd; ejecutar;
    split_and!; cbn [fst snd]; try done; try congruence; rewrite Hv', Hv; [done|].
  by apply delete_id.
Qed.

(** ** Invariants *)

Lemma leer_clave_y_tiempo_pos n c k t : leer_clave_y_tiempo n c = inr (k, t) → 0 ≤ t.
Proof.
  unfold leer_clave_y_tiempo. intros Hl. repeat case_match; simplify_eq.
  match goal with Hp : parse_u64 _ = Some _ |- _ => apply parse_entero_rango in Hp; lia end.
Qed.

Lemma tocar_preserva {I} `{!Interior I} ks n : preserva I (tocar ks n).
Proof.
  revert n. induction ks as [|k ks IH]; intros n; cbn [tocar];
    unfold BaseDeDatos.actualizar_ultimo_acceso; invariante.
Qed.
Lemma claves_preserva `{Entorno} I re : preserva I (claves re).
Proof. apply preserva_consultar. Qed.
Lemma expiracion_preserva {I} `{!Interior I} k s :
  0 ≤ s → preserva I (actualizar_valor_con_expiracion k s).
Proof. intros Hs. apply preserva_mutar_valor. auto with redis. Qed.
#[export] Hint Resolve tocar_preserva claves_preserva expiracion_preserva : redis.

Section invariantes.
Context `{Entorno} (I : Mundo → Prop) `{!InvarianteBase I}.

Lemma recorrer_claves_siempre f ks n :
  (∀ k, preserva (dentro I) (f k)) → siempre I (recorrer_claves f ks n).
Proof.
  intros Hf. revert n. induction ks as [|k ks IH]; intros n; cbn [recorrer_claves];
    unfold recorrer_clave; invariante.
Qed.
Lemma pesos_de_siempre v ps : siempre I (pesos_de v ps).
Proof. induction ps; cbn [pesos_de]; invariante. Qed.
Lemma tuplas_siempre vs ps : siempre I (obetener_tupla_valor_peso vs ps).
Proof.
  pose proof pesos_de_siempre. induction vs; cbn [obetener_tupla_valor_peso]; invariante.
Qed.
Lemma objetos_de_siempre v os b : siempre I (objetos_de v os b).
Proof. revert b. induction os; intros b; cbn [objetos_de]; invariante. Qed.
Lemma resultado_get_siempre ts os b : siempre I (resultado_get ts os b).
Proof.
  pose proof objetos_de_siempre. revert b. induction ts; intros b; cbn [resultado_get]; invariante.
Qed.
Lemma sort_configuracion_siempre ps vs : siempre I (sort_configuracion_lista_ordenada ps vs).
Proof. unfold sort_configuracion_lista_ordenada. invariante. Qed.
Lemma sort_siempre c : siempre I (sort c).
Proof.
  pose proof tuplas_siempre. pose proof resultado_get_siempre.
  pose proof sort_configuracion_siempre.
  unfold sort, sort_seccion, sort_elemento_con_pesos_externos, sort_externos_salida,
    sort_elemento_con_pesos_interno. invariante.
Qed.

Lemma expire_siempre c : siempre I (expire c).
Proof.
  unfold expire.
  destruct (leer_clave_y_tiempo "expire" c) as [e|[k t]] eqn:Hl; [done|].
  apply leer_clave_y_tiempo_pos in Hl. invariante.
Qed.
Lemma expireat_siempre c : siempre I (expireat c).
Proof.
  unfold expireat.
  destruct (leer_clave_y_tiempo "expireat" c) as [e|[k t]] eqn:Hl; [done|].
  apply siempre_bind; [invariante|intros d]. apply siempre_bind; [invariante|intros a].
  destruct (Z.ltb_spec d a); [done|].
  assert (0 ≤ as_secs (d - a)) by (apply Z.div_pos; unfold nanos; lia). invariante.
Qed.
End invariantes.
#[export] Hint Resolve expire_siempre expireat_siempre sort_siempre
  recorrer_claves_siempre : redis.

Lemma key_siempre `{Entorno} I `{!InvarianteBase I} c : siempre I (ejecutar c).
Proof.
  unfold ejecutar. invariante; unfold rename, copy, del, exists_, recorrer_y_ejecutar, persist,
    actualizar_valor_sin_expiracion, ttl, obtener_expiracion, touch, keys, tipo; invariante.
Qed.
#[export] Hint Resolve key_siempre : redis.

(** ** Expiration over time *)

(** EXPIRE replaces the deadline of any key of the table, expired or not, and
    answers whether the table holds it. *)
Lemma expire_eq n k p ps i s w :
  envenenado (base w) = false → parse_u64 p = Some s →
  correr (expire (MkComandoInfo n (k :: p :: ps) i)) w =
    match tabla w !! k with
    | Some v => (Some (Int 1), con_tabla (<[k := Valor.actualizar_expiracion (ahora w) s v]> (tabla w)) w)
    | None => (Some (Int 0), w)
    end.
Proof.
  intros Hw Hp. unfold expire, leer_clave_y_tiempo. leer_comando. rewrite Hp. ejecutar.
  unfold actualizar_valor_con_expiracion. rewrite mutar_valor_eq.
  by destruct (tabla w !! k).
Qed.

Lemma persist_eq n k ps i w :
  envenenado (base w) = false →
  correr (persist (MkComandoInfo n (k :: ps) i)) w =
    match tabla w !! k with
    | Some v => (Some (Int 1), con_tabla (<[k := hacer_persistente v]> (tabla w)) w)
    | None => (Some (Int 0), w)
    end.
Proof.
  intros Hw. unfold persist. leer_comando. ejecutar.
  unfold actualizar_valor_sin_expiracion. rewrite mutar_valor_eq. by destruct (tabla w !! k).
Qed.

(** TTL reads the stored lifetime. *)
Lemma ttl_eq n k ps i w :
  envenenado (base w) = false →
  correr (ttl (MkComandoInfo n (k :: ps) i)) w =
    (Some (Int (como_isize match tabla w !! k with
                           | Some v => Valor.obtener_expiracion v
                           | None => -2
                           end)), w).
Proof. intros Hw. unfold ttl. leer_comando. ejecutar. done. Qed.

Lemma leer_actualizado t t' s v h k :
  t ≤ t' →
  leer_valor t' (<[k := Valor.actualizar_expiracion t s v]> h) k =
    if from_secs s <=? t' - t then None else Some (valor v).
Proof.
  intros Ht. rewrite leer_valor_insert, decide_True by done.
  unfold Valor.get, expiro, elapsed; cbn. rewrite Z.max_r by lia. by destruct (_ <=? _).
Qed.

(** ** The whole handler *)

(** The specification of the commands on keys whose effect is a function of the
    abstract store. *)
Definition esp_ejecutar (c : ComandoInfo) : Mundo → Estado → Desenlace :=
  match nombre c with
  | "COPY" => λ w, esp_copy w (parametros c)
  | "DEL" => λ _, esp_del (parametros c)
  | "EXISTS" => λ _, esp_exists (parametros c)
  | "RENAME" => λ w, esp_rename w (parametros c)
  | _ => λ _, esp_tipo (parametros c)
  end.

Lemma llaves_esp `{Entorno} c :
  index c = 0%nat → nombre c ∈ ["COPY"; "DEL"; "EXISTS"; "RENAME"; "TYPE"] →
  refina_en (ejecutar c) (esp_ejecutar c).
Proof.
  intros Hi Hc.
  assert (parametros_restantes c = parametros c) as Hp
    by (unfold parametros_restantes; by rewrite Hi).
  unfold ejecutar, esp_ejecutar, get_nombre.
  pose proof (copy_refina c) as H1. pose proof (del_refina c) as H2. pose proof (exists_refina c) as H3.
  pose proof (rename_refina c) as H4. pose proof (tipo_refina c) as H5. rewrite Hp in *.
  repeat (apply elem_of_cons in Hc as [->|Hc]; [assumption|]). by apply elem_of_nil in Hc.
Qed.

(** ** Properties *)

(** C15: COPY, DEL, EXISTS, RENAME and TYPE, run alone on a world whose
    database is not poisoned, give the answer and the abstract store of their
    specification, although DEL and RENAME take the lock several times. *)
Theorem llaves_refina `{Entorno} c (Hi : index c = 0%nat)
    (Hc : nombre c ∈ ["COPY"; "DEL"; "EXISTS"; "RENAME"; "TYPE"]) :
  refina_en (ejecutar c) (esp_ejecutar c).
Proof. by apply llaves_esp. Qed.

Lemma llaves_refina_witness :
  cumple (mundo_con "k" (Str "v"))
    (correr (@ejecutar entorno_prueba (MkComandoInfo "DEL" ["k"; "k"; "z"] 0)) (mundo_con "k" (Str "v")))
    (Responde (Int 1) ∅).
Proof.
  refine (@llaves_refina entorno_prueba (MkComandoInfo "DEL" ["k"; "k"; "z"] 0) eq_refl _
    (mundo_con "k" (Str "v")) eq_refl).
  set_solver.
Defined.

(** RENAME of a key to itself answers Ok and deletes the key. *)
Theorem rename_misma `{Entorno} n k i :
  refina (rename (MkComandoInfo n [k; k] i)) (λ m, Responde (StrSimple "Ok") (delete k m)).
Proof.
  intros w Hw. pose proof (rename_refina (MkComandoInfo n [k; k] i) w Hw) as Hr. revert Hr.
  unfold esp_rename. cbn [parametros]. destruct (vista w !! k) eqn:Hk.
  - by rewrite delete_insert_eq.
  - by rewrite delete_id.
Qed.

(** C33: EXPIRE with [s] seconds on a key of the table answers 1; from then
    on the key reads as its value during [s] seconds and as absent afterwards. The
    key may have expired before the command: it is readable again. *)
Theorem expire_vida n k p ps i s w v t
    (Hw : envenenado (base w) = false) (Hp : parse_u64 p = Some s)
    (Hk : tabla w !! k = Some v) (Ht : ahora w ≤ t) :
  let '(r, w') := correr (expire (MkComandoInfo n (k :: p :: ps) i)) w in
  r = Some (Int 1) ∧
  leer_valor t (tabla w') k = if from_secs s <=? t - ahora w then None else Some (valor v).
Proof.
  rewrite (expire_eq n k p ps i s w Hw Hp), Hk. split; [done|].
  rewrite tabla_con_tabla. by apply leer_actualizado.
Qed.

Lemma expire_vida_witness :
  let w := mundo_vencido in
  vista w !! "k" = None ∧
  leer_valor 0 (tabla (snd (correr (expire (MkComandoInfo "EXPIRE" ["k"; "9"] 0)) w))) "k"
    = Some (Str "v").
Proof.
  split; [reflexivity|].
  exact (proj2 (expire_vida "EXPIRE" "k" "9" [] 0 9
    mundo_vencido
    (expirable (-5000000000) (Str "v") 1) 0 eq_refl eq_refl
    ltac:(vm_compute; reflexivity) ltac:(done))).
Defined.

(** PERSIST on a key of the table answers 1 and makes its value
    readable at every later instant, even when the key had already expired and read
    as absent. *)
Theorem persist_siempre n k ps i w v
    (Hw : envenenado (base w) = false) (Hk : tabla w !! k = Some v) :
  let '(r, w') := correr (persist (MkComandoInfo n (k :: ps) i)) w in
  vista w !! k = (if expiro (ahora w) v then None else Some (valor v)) ∧
  r = Some (Int 1) ∧ ∀ t, leer_valor t (tabla w') k = Some (valor v).
Proof.
  rewrite (persist_eq n k ps i w Hw), Hk. split_and!.
  - rewrite vista_lookup. unfold leer_valor, Valor.get. rewrite Hk. by destruct (expiro _ _).
  - done.
  - intros t. rewrite tabla_con_tabla, leer_valor_insert, decide_True by done.
    apply get_hacer_persistente.
Qed.

Lemma persist_siempre_witness :
  let w := mundo_vencido in
  vista w !! "k" = None ∧
  leer_valor 7 (tabla (snd (correr (persist (MkComandoInfo "PERSIST" ["k"] 0)) w))) "k"
    = Some (Str "v").
Proof.
  destruct (persist_siempre "PERSIST" "k" [] 0
    mundo_vencido
    (expirable (-5000000000) (Str "v") 1) eq_refl ltac:(vm_compute; reflexivity)) as (Hv & _ & Ht).
  split; [exact Hv|exact (Ht 7)].
Defined.

(** TTL answers the lifetime the key was given, in seconds, however
    much of it has passed, also when it has passed completely. *)
Theorem ttl_constante n k ps i w t0 v s
    (Hw : envenenado (base w) = false) (Hs : 0 ≤ s ≤ i64_max)
    (Hk : tabla w !! k = Some (expirable t0 v s)) :
  correr (ttl (MkComandoInfo n (k :: ps) i)) w = (Some (Int s), w).
Proof.
  rewrite ttl_eq, Hk by done. unfold Valor.obtener_expiracion, expirable. cbn [vida_util].
  rewrite as_secs_from_secs, !como_isize_id; [done|..]; rewrite ?como_isize_id;
    unfold i64_min in *; lia.
Qed.

Lemma ttl_constante_witness :
  fst (correr (ttl (MkComandoInfo "TTL" ["k"] 0))
    mundo_vencido) = Some (Int 1).
Proof.
  exact (f_equal fst (ttl_constante "TTL" "k" [] 0
    mundo_vencido (-5000000000) (Str "v") 1
    eq_refl ltac:(split; discriminate) ltac:(vm_compute; reflexivity))).
Defined.

(** C34: EXPIREAT panics, without poisoning the database, when the
    instant does not fit in the clock; it fails when the instant has passed; else
    it gives the key the whole seconds left until then. *)
Theorem expireat_plazo n k p ps i s w
    (Hw : envenenado (base w) = false) (Hp : parse_u64 p = Some s) :
  correr (expireat (MkComandoInfo n (k :: p :: ps) i)) w =
    if i64_max <? s then (None, w)
    else if from_secs s <? sistema w
    then (Some (Error "TimeError the time since epoch has already happened"), w)
    else match tabla w !! k with
         | Some v =>
             (Some (Int 1), con_tabla (<[k := Valor.actualizar_expiracion (ahora w)
                               (as_secs (from_secs s - sistema w)) v]> (tabla w)) w)
         | None => (Some (Int 0), w)
         end.
Proof.
  unfold expireat, leer_clave_y_tiempo. leer_comando. rewrite Hp. unfold epoch_mas, en_rango.
  apply parse_entero_rango in Hp. rewrite (proj2 (Z.leb_le 0 s)) by lia. cbn [andb].
  destruct (Z.ltb_spec i64_max s), (Z.leb_spec s i64_max); try lia; ejecutar; [done|].
  rewrite correr_atomico. ejecutar. destruct (from_secs s <? sistema w); ejecutar; [done|].
  unfold actualizar_valor_con_expiracion. rewrite mutar_valor_eq. by destruct (tabla w !! k).
Qed.

Lemma expireat_plazo_witness :
  fst (correr (expireat (MkComandoInfo "EXPIREAT" ["k"; "18446744073709551615"] 0)) mundo_vacio) = None.
Proof.
  exact (f_equal fst (expireat_plazo "EXPIREAT" "k" "18446744073709551615" [] 0 u64_max mundo_vacio
    eq_refl eq_refl)).
Defined.

(** KEYS answers, once each, the keys of the table that match the
    pattern, those that have expired included. *)
Theorem keys_todas `{Entorno} n re ps w is_match
    (Hw : envenenado (base w) = false) (Hre : regex_new re = Some is_match) :
  ∃ l, correr (keys (MkComandoInfo n (re :: ps) 0)) w = (Some (Vector (BulkStr <$> l)), w) ∧
    NoDup l ∧ ∀ k, k ∈ l ↔ is_match k = true ∧ is_Some (tabla w !! k).
Proof.
  exists (base.filter (λ c, is_match c = true) (claves_en_orden w)). split_and!.
  - unfold keys. leer_comando. ejecutar. unfold claves. rewrite consultar_eq, Hre. by ejecutar.
  - apply list.NoDup_filter. unfold claves_en_orden. rewrite orden_perm. apply NoDup_fst_map_to_list.
  - intros k. rewrite list_elem_of_filter. unfold claves_en_orden. rewrite orden_perm.
    f_equiv. rewrite list_elem_of_fmap. split.
    + intros ([k' v] & -> & Hin%elem_of_map_to_list). by exists v.
    + intros [v Hv]. exists (k, v). by rewrite elem_of_map_to_list.
Qed.

Lemma keys_todas_witness :
  ∃ l, fst (correr (@keys entorno_prueba (MkComandoInfo "KEYS" ["k"] 0)) (mundo_con "kk" (Str "v")))
    = Some (Vector (BulkStr <$> l)) ∧ "kk" ∈ l.
Proof.
  destruct (@keys_todas entorno_prueba "KEYS" "k" [] (mundo_con "kk" (Str "v")) (contiene "k")
    eq_refl eq_refl) as (l & Hl & _ & Hk).
  exists l. split; [exact (f_equal fst Hl)|]. apply Hk. split; [reflexivity|by eexists].
Defined.
