(* ===== verification/ComandoSort.v ===== *)
(** * SORT (comando_key_handler.rs)

    The specification of SORT with all its options, as a function on the abstract
    store and the order of the hash tables, and its refinement: the handler takes the
    lock once per key it looks up and may panic between two of them. *)
From S2P Require Import Prelude Rust Datos Efectos Valor ComandoInfo BaseDeDatos Refinamiento.
From S2P Require Import ComandoString ComandoSet ComandoKey.

#[local] Open Scope Z_scope.

(** ** Specification *)

(** LIMIT on the values: nothing when the count is zero; from the offset on, at most
    [count] values, all of them when the count is negative; every value when the
    offset is past the end or both are negative. A negative offset with a positive
    count is not rejected: the count loses what the offset has too much, unless an
    overflow is noticed, and a window that would end before the first value panics.
    [None] is a panic; [comprobar] says that the build checks overflow. *)
Definition ventana (comprobar : bool) (vs : list string) (offset count : Z) : option (list string) :=
  let largo := Z.of_nat (length vs) in
  if bool_decide (vs = []) then
    if negb comprobar && (count =? 0) then Some [] else None
  else if count =? 0 then Some []
  else if (largo <=? offset) || (offset <? 0) && (count <? 0) then Some vs
  else if 0 <=? offset then
    let resto := drop (Z.to_nat offset) vs in
    Some (if count <? 0 then resto else take (Z.to_nat count) resto)
  else if i32_max <? largo - offset then (if comprobar then None else Some vs)
  else if largo - offset <=? count then Some vs
  else if negb comprobar && (0 <? offset + count) then Some (take (Z.to_nat (offset + count)) vs)
  else None.

(** The pairs of a value and a key of its weight: the keys with the same suffix. *)
Definition candidatos (vs pesos : list string) : list (string * string) :=
  v ← vs;
  pair v <$> base.filter (λ p, ultimo_segmento "_" p = ultimo_segmento "_" v) pesos.

(** The string of a key, if it has one. *)
Definition texto_de (m : Estado) (k : string) : option string :=
  match m !! k with Some (Str s) => Some s | _ => None end.

Definition pesados (m : Estado) (pares : list (string * string)) : option (list (string * string)) :=
  mapM (λ vp, pair (fst vp) <$> texto_de m (snd vp)) pares.

(** The strings of the keys whose name contains the value. *)
Definition objetos (m : Estado) (os : list string) (v : string) : list string :=
  omap (texto_de m) (base.filter (λ o, contiene v o = true) os).

Fixpoint vacios_iniciales {A} (ls : list (list A)) : nat :=
  match ls with [] :: ls' => S (vacios_iniciales ls') | _ => 0 end.

(** GET: a nil for each value before the first that has an object, and then the
    objects; the later values without one leave no trace. *)
Definition esp_get (m : Estado) (os vs : list string) : list ResultadoRedis :=
  let ls := objetos m os <$> vs in
  replicate (vacios_iniciales ls) Nil ++ (StrSimple <$> concat ls).

(** The elements SORT reads, in the order it reads them. *)
Definition elementos_leidos `{Entorno} (w : Mundo) (v : TipoRedis) : option (list string) :=
  match v with
  | Lista l => Some l
  | Conjunto s => Some (elementos_en_orden (semilla w) s)
  | _ => None
  end.

(** The keys of the table that match a pattern. *)
Definition claves_que `{Entorno} (w : Mundo) (re : string) : list string :=
  match regex_new re with
  | Some is_match => base.filter (λ c, is_match c = true) (claves_en_orden w)
  | None => []
  end.

Section especificacion.
Context `{Entorno}.

(** DESC, LIMIT and STORE on the sorted values. The limits are the first two
    integers among all the parameters, the key included. *)
Definition esp_opciones (ps vs : list string) (m : Estado) : Desenlace :=
  let vs := if bool_decide ("DESC" ∈ ps) then rev vs else vs in
  let elegidos :=
    if bool_decide ("LIMIT" ∈ ps) then
      match omap parse_i32 ps with
      | offset :: count :: _ => ventana comprobar_desborde vs offset count
      | _ => None
      end
    else Some vs in
  match elegidos with
  | None => Aborta m
  | Some vs =>
      if bool_decide ("STORE" ∈ ps) then
        match tras_opcion "STORE" ps with
        | Some k => Responde (StrSimple (mostrar (Z.of_nat (length vs)))) (<[k := Lista vs]> m)
        | None => Aborta m
        end
      else Responde (vector_simple vs) m
  end.

Definition esp_by (w : Mundo) (ps vs : list string) (m : Estado) : Desenlace :=
  match tras_opcion "BY" ps with
  | None => Aborta m
  | Some patron =>
      let pesos := claves_que w patron in
      if bool_decide (length pesos ≠ length vs) then Responde (vector_simple vs) m
      else
        match pesados m (candidatos vs pesos) with
        | None => Responde (Error "ERR syntax error") m
        | Some tuplas =>
            let orden := (ordenar peso_leb tuplas).*1 in
            if bool_decide ("GET" ∈ ps) then
              match tras_opcion "GET" ps with
              | Some patron => Responde (Vector (esp_get m (claves_que w patron) orden)) m
              | None => Aborta m
              end
            else esp_opciones ps orden m
        end
  end.

Definition esp_sort (ps : list string) (w : Mundo) (m : Estado) : Desenlace :=
  match ps with
  | [] => Responde (err_args "sort") m
  | k :: _ =>
      match elementos_leidos w <$> m !! k with
      | None | Some (Some []) => Responde (Vector []) m
      | Some None => Responde err_tipo m
      | Some (Some vs) =>
          if bool_decide ("BY" ∈ ps) then esp_by w ps vs m
          else if bool_decide ("ALPHA" ∉ ps) && negb (tiene_solo_valores_numericos vs)
          then Responde (Error "ERR One or more scores can't be converted into double") m
          else esp_opciones ps (ordenar string_leb vs) m
      end
  end.
End especificacion.

(** The lists and sets LIMIT can measure in an [i32]; with BY, the number of pairs
    is bounded by the square of the elements. *)
Definition medible (by_ : bool) (vs : list string) : Prop :=
  let n := Z.of_nat (length vs) in (if by_ then n * n else n) ≤ i32_max.

Definition sort_medible `{Entorno} (ps : list string) (w : Mundo) : Prop :=
  ∀ k v vs, head ps = Some k → vista w !! k = Some v → elementos_leidos w v = Some vs →
    medible (bool_decide ("BY" ∈ ps)) vs.

(** ** Lemmas *)

Definition elementos_de (v : TipoRedis) : option (list string) :=
  match v with Lista l => Some l | Conjunto s => Some (elements s) | _ => None end.

Lemma string_leb_ordenar l :
  StronglySorted (λ a b, string_leb a b = true) (ordenar string_leb l).
Proof. apply ordenar_sorted; [apply string_leb_total|apply string_leb_trans]. Qed.

Lemma solo_numericos_perm l l' :
  l ≡ₚ l' → tiene_solo_valores_numericos l = tiene_solo_valores_numericos l'.
Proof.
  intros Hl. apply eq_true_iff_eq. unfold tiene_solo_valores_numericos.
  rewrite !forallb_forall. split; intros Hx x Hin; apply Hx; by rewrite ?Hl, <-?Hl in *.
Qed.

Lemma sort_interno_simple `{Entorno} k l w :
  tiene_solo_valores_numericos l = true →
  k ∉ ["DESC"; "LIMIT"; "STORE"] →
  correr (sort_elemento_con_pesos_interno l [k]) w =
    (Some (vector_simple (ordenar string_leb l)), w).
Proof.
  intros Hl Hk. unfold sort_elemento_con_pesos_interno. rewrite Hl, andb_false_r.
  unfold sort_configuracion_lista_ordenada, contiene_param.
  rewrite !bool_decide_eq_false_2 by set_solver. done.
Qed.

(** The elements SORT reads. *)
Lemma sort_seccion_eq `{Entorno} k w v l :
  vista w !! k = Some v → elementos_de v = Some l →
  ∃ l', l' ≡ₚ l ∧ sort_seccion k w = (Some (inr l'), w).
Proof.
  intros Hk Hv. unfold sort_seccion. rewrite m_bind_eq, obtener_valor_eq, m_bind_eq, consultar_eq, Hk.
  destruct v as [s|l0|s|c]; simplify_eq/=; [by exists l|].
  exists (elementos_en_orden (semilla w) s). split; [apply elementos_en_orden_perm|done].
Qed.

Lemma sort_sin_by `{Entorno} n k ps i w v l :
  envenenado (base w) = false → vista w !! k = Some v → elementos_de v = Some l → l ≠ [] →
  "BY" ∉ k :: ps →
  ∃ l', l' ≡ₚ l ∧ correr (sort (MkComandoInfo n (k :: ps) i)) w =
    correr (sort_elemento_con_pesos_interno l' (k :: ps)) w.
Proof.
  intros Hw Hk Hv Hl Hby. destruct (sort_seccion_eq k w v l Hk Hv) as (l' & Hp & Hs).
  exists l'. split; [done|]. unfold sort. leer_comando.
  change (indexar (k :: ps) 0) with (Some k). ejecutar. rewrite Hs. cbv beta iota.
  destruct l' as [|x l']; [by apply Permutation_nil in Hp|].
  unfold contiene_param at 1. by rewrite bool_decide_eq_false_2.
Qed.

(** *** LIMIT *)

(** The parameters LIMIT reads are the integers. *)
Lemma filter_parseables (ps : list string) :
  parse_i32 <$> base.filter (λ i, es_parseable i = true) ps = Some <$> omap parse_i32 ps.
Proof.
  induction ps as [|p ps IH]; [done|]. rewrite filter_cons. cbn [omap list_omap].
  destruct (parse_i32 p) eqn:Hp.
  - rewrite decide_True by (unfold es_parseable; by rewrite Hp). cbn [fmap list_fmap]. by rewrite Hp, IH.
  - by rewrite decide_False by (unfold es_parseable; by rewrite Hp).
Qed.

Lemma rebanada_inclusiva_ok a b (l : list string) :
  0 ≤ a ≤ b + 1 → b < Z.of_nat (length l) ≤ i32_max →
  rebanada_inclusiva a b l = Some (take (Z.to_nat (b + 1 - a)) (drop (Z.to_nat a) l)).
Proof.
  unfold i32_max. intros. unfold rebanada_inclusiva.
  rewrite (proj2 (Z.eqb_neq _ _)) by (unfold u64_max; lia). by rewrite rebanada_ok by lia.
Qed.
Lemma rebanada_inclusiva_fuera a b (l : list string) :
  Z.of_nat (length l) ≤ b → rebanada_inclusiva a b l = None.
Proof.
  intros. unfold rebanada_inclusiva. destruct (b =? u64_max); [done|].
  unfold rebanada. by rewrite (proj2 (Z.leb_gt (b + 1) _)), andb_false_r by lia.
Qed.

Lemma como_usize_negativo z : - u64_max ≤ z < 0 → como_usize z = z + (u64_max + 1).
Proof.
  unfold como_usize, u64_max. intros.
  by rewrite <-(Z.mod_add z 1), Z.mod_small by lia.
Qed.

Lemma aritmetica_usize_desborda c z :
  u64_max < z ∨ z < 0 →
  aritmetica_usize c z = if c then None else Some (como_usize z).
Proof.
  intros. unfold aritmetica_usize.
  destruct (en_rango 0 u64_max z) eqn:Hr; [apply en_rango_spec in Hr; lia|done].
Qed.

Lemma aritmetica_usize_pos c z r : aritmetica_usize c z = Some r → 0 ≤ r.
Proof.
  unfold aritmetica_usize, como_usize. destruct (en_rango 0 u64_max z) eqn:Hr.
  - intros [= <-]. apply en_rango_spec in Hr. lia.
  - destruct c; [done|]. intros [= <-]. pose proof (Z.mod_pos_bound z 18446744073709551616). lia.
Qed.

(** The arithmetic of LIMIT on [usize] and [i32]. *)
Section limite.
Context (c : bool) (vs : list string) (offset count : Z).
Context (Hn : Z.of_nat (length vs) ≤ i32_max).
Context (Ho : i32_min ≤ offset ≤ i32_max) (Hc : i32_min ≤ count ≤ i32_max).
#[local] Abbreviation largo := (Z.of_nat (length vs)).

(** The end of the window the code computes, when the count is not negative. *)
Definition fin_ventana (ultimo : Z) : option Z :=
  resto ← aritmetica_i32 c (largo - offset);
  if count <? resto then
    suma ← aritmetica_usize c (count + como_usize offset); aritmetica_usize c (suma - 1)
  else Some ultimo.

Lemma fin_ventana_pos u r : 0 ≤ u → fin_ventana u = Some r → 0 ≤ r.
Proof.
  intros Hu. unfold fin_ventana. destruct (aritmetica_i32 _ _) as [resto|]; [|done].
  cbn [mbind option_bind]. destruct (count <? resto); [|by intros [= <-]].
  destruct (aritmetica_usize c _); [|done]. apply aritmetica_usize_pos.
Qed.

Lemma fin_ventana_desde :
  0 ≤ offset → 0 < count → vs ≠ [] →
  fin_ventana (largo - 1) = Some (if count <? largo - offset then count + offset - 1 else largo - 1).
Proof.
  intros. unfold fin_ventana, i32_max, i32_min in *.
  rewrite aritmetica_i32_ok by (apply es_i32_spec; unfold i32_min, i32_max; lia).
  cbn [mbind option_bind]. destruct (count <? largo - offset); [|done].
  rewrite como_usize_id by (unfold u64_max; lia).
  rewrite aritmetica_usize_ok by (unfold u64_max; lia). cbn [mbind option_bind].
  by rewrite aritmetica_usize_ok by (unfold u64_max; lia).
Qed.

Lemma fin_ventana_antes :
  offset < 0 → 0 < count → vs ≠ [] →
  (r ← fin_ventana (largo - 1); rebanada_inclusiva 0 r vs) =
    (if i32_max <? largo - offset then (if c then None else Some vs)
     else if largo - offset <=? count then Some vs
     else if negb c && (0 <? offset + count) then Some (take (Z.to_nat (offset + count)) vs)
     else None).
Proof.
  intros Ho' Hc' Hvs. assert (length vs ≠ 0)%nat by (by destruct vs).
  assert (rebanada_inclusiva 0 (largo - 1) vs = Some vs) as Htodo
    by (rewrite rebanada_inclusiva_ok by lia; by rewrite drop_0, take_ge by lia).
  unfold fin_ventana. destruct (Z.ltb_spec i32_max (largo - offset)) as [Hd|Hd].
  - unfold aritmetica_i32. destruct (es_i32 _) eqn:Hi; [apply es_i32_spec in Hi; lia|].
    destruct c; [done|]. cbn [mbind option_bind].
    assert (como_i32 (largo - offset) < 0) as Hneg.
    { unfold como_i32, i32_max, i32_min in *.
      rewrite <-(Z.mod_add _ (-1)), Z.mod_small by lia. lia. }
    by rewrite (proj2 (Z.ltb_ge count _)) by lia.
  - rewrite aritmetica_i32_ok by (apply es_i32_spec; unfold i32_min, i32_max in *; lia).
    cbn [mbind option_bind].
    destruct (Z.ltb_spec count (largo - offset)), (Z.leb_spec (largo - offset) count); [lia| |done|lia].
    unfold i32_min, i32_max in *. rewrite como_usize_negativo by (unfold u64_max; lia).
    destruct (Z.ltb_spec 0 (offset + count)) as [Hp|Hp].
    + rewrite aritmetica_usize_desborda by (unfold u64_max; lia).
      destruct c; [done|]. cbn [mbind option_bind negb andb].
      assert (como_usize (count + (offset + (u64_max + 1))) = offset + count) as ->.
      { unfold como_usize. replace (count + (offset + (u64_max + 1)))
          with (offset + count + 1 * 18446744073709551616) by (unfold u64_max; lia).
        rewrite Z.mod_add, Z.mod_small by lia. done. }
      rewrite aritmetica_usize_ok by (unfold u64_max; lia). cbn [mbind option_bind].
      rewrite rebanada_inclusiva_ok by (unfold i32_max; lia). rewrite drop_0. do 2 f_equal. lia.
    + rewrite andb_false_r. destruct (decide (offset + count = 0)) as [Hz|Hz].
      * rewrite aritmetica_usize_desborda by (unfold u64_max; lia).
        destruct c; [done|]. cbn [mbind option_bind].
        replace (count + (offset + (u64_max + 1))) with 18446744073709551616 by (unfold u64_max; lia).
        change (como_usize 18446744073709551616) with 0.
        reflexivity.
      * rewrite aritmetica_usize_ok by (unfold u64_max; lia). cbn [mbind option_bind].
        rewrite aritmetica_usize_ok by (unfold u64_max; lia). cbn [mbind option_bind].
        apply rebanada_inclusiva_fuera. unfold u64_max. lia.
Qed.
End limite.

Section opciones.
Context `{Entorno}.

Lemma ventana_eq (vs : list string) offset count :
  i32_min ≤ offset ≤ i32_max → i32_min ≤ count ≤ i32_max →
  Z.of_nat (length vs) ≤ i32_max →
  (ultimo ← aritmetica_usize comprobar_desborde (Z.of_nat (length vs) - 1);
   if count =? 0 then Some []
   else
     fin ← (if 0 <=? count then fin_ventana comprobar_desborde vs offset count ultimo else Some ultimo);
     rebanada_inclusiva (if (0 <=? offset) && (offset <? Z.of_nat (length vs)) then offset else 0) fin vs) =
  ventana comprobar_desborde vs offset count.
Proof.
  intros Ho Hc Hn. unfold ventana. destruct (decide (vs = [])) as [->|Hvs].
  { rewrite bool_decide_eq_true_2 by done. rewrite aritmetica_usize_desborda by (by right).
    destruct comprobar_desborde; [done|]. cbn [mbind option_bind negb andb].
    destruct (count =? 0); [done|]. destruct (if 0 <=? count then _ else _) as [fin|] eqn:Hf; [|done].
    assert (0 ≤ fin) as Hfin
      by (destruct (0 <=? count); [by eapply fin_ventana_pos, Hf|by injection Hf as <-]).
    cbn [mbind option_bind].
    destruct (_ && _); by apply rebanada_inclusiva_fuera. }
  assert (length vs ≠ 0)%nat by (by destruct vs).
  assert (Hn' := Hn). unfold i32_min, i32_max in Ho, Hc, Hn'. rewrite bool_decide_eq_false_2 by done.
  rewrite aritmetica_usize_ok by (unfold u64_max; lia). cbn [mbind option_bind].
  destruct (Z.eqb_spec count 0) as [->|Hc0]; [done|].
  destruct (Z.leb_spec (Z.of_nat (length vs)) offset) as [Hl|Hl]; cbn [orb].
  { rewrite (proj2 (Z.ltb_ge offset _)), andb_false_r by lia.
    assert (rebanada_inclusiva 0 (Z.of_nat (length vs) - 1) vs = Some vs) as Htodo
      by (rewrite rebanada_inclusiva_ok by lia; by rewrite drop_0, take_ge by lia).
    destruct (Z.leb_spec 0 count); [|done].
    rewrite fin_ventana_desde by (done || lia).
    by rewrite (proj2 (Z.ltb_ge count _)) by lia. }
  rewrite (proj2 (Z.ltb_lt offset _)), andb_true_r by lia.
  destruct (Z.leb_spec 0 offset) as [Hpos|Hneg].
  - rewrite (proj2 (Z.ltb_ge offset 0)) by lia. cbn [andb].
    destruct (Z.leb_spec 0 count), (Z.ltb_spec count 0); try lia.
    + rewrite fin_ventana_desde by (done || lia). cbn [mbind option_bind].
      destruct (Z.ltb_spec count (Z.of_nat (length vs) - offset)).
      * rewrite rebanada_inclusiva_ok by lia. do 2 f_equal. lia.
      * rewrite rebanada_inclusiva_ok by lia.
        rewrite !take_ge by (rewrite length_drop; lia). done.
    + cbn [mbind option_bind]. rewrite rebanada_inclusiva_ok by lia.
      rewrite take_ge by (rewrite length_drop; lia). done.
  - rewrite (proj2 (Z.ltb_lt offset 0)) by lia. cbn [andb].
    destruct (Z.leb_spec 0 count), (Z.ltb_spec count 0); try lia.
    + apply fin_ventana_antes; first [assumption|lia].
    + cbn [mbind option_bind]. rewrite rebanada_inclusiva_ok by lia. by rewrite drop_0, take_ge by lia.
Qed.

Lemma selecionar_rango_eq (ps vs : list string) :
  Z.of_nat (length vs) ≤ i32_max →
  selecionar_rango ps vs =
    match omap parse_i32 ps with
    | offset :: count :: _ => Some <$> ventana comprobar_desborde vs offset count
    | _ => None
    end.
Proof.
  intros Hn. unfold selecionar_rango. cbv zeta. pose proof (filter_parseables ps) as Hf.
  destruct (base.filter _ ps) as [|x [|y xs]], (omap parse_i32 ps) as [|a [|b l]];
    try discriminate Hf; [done| |].
  - cbn [fmap list_fmap] in Hf. injection Hf as Hx. change (indexar [x] 0) with (Some x).
    cbn [mbind option_bind]. rewrite Hx. done.
  - cbn [fmap list_fmap] in Hf. injection Hf as Hx Hy _.
    change (indexar (x :: y :: xs) 0) with (Some x). change (indexar (x :: y :: xs) 1) with (Some y).
    cbn [mbind option_bind]. rewrite Hx. cbn [mbind option_bind]. rewrite Hy.
    pose proof (parse_i32_rango _ _ Hx) as Ha%es_i32_spec.
    pose proof (parse_i32_rango _ _ Hy) as Hb%es_i32_spec.
    rewrite como_i32_id by (apply es_i32_spec; unfold i32_min, i32_max in *; lia).
    rewrite <-ventana_eq by done.
  destruct (aritmetica_usize _ (Z.of_nat _ - 1)) as [ultimo|]; [|reflexivity]. cbn [mbind option_bind].
  destruct (b =? 0); [done|]. unfold fin_ventana.
  by destruct (if 0 <=? b then _ else _).
Qed.

(** *** DESC, LIMIT and STORE *)

Lemma sort_configuracion_cumple ps vs w :
  envenenado (base w) = false → Z.of_nat (length vs) ≤ i32_max →
  cumple w (correr (sort_configuracion_lista_ordenada ps vs) w) (esp_opciones ps vs (vista w)).
Proof.
  intros Hw Hn. unfold sort_configuracion_lista_ordenada, esp_opciones, contiene_param. cbv zeta.
  set (us := if bool_decide ("DESC" ∈ ps) then rev vs else vs).
  assert (Z.of_nat (length us) ≤ i32_max) as Hu
    by (unfold us; destruct (bool_decide _); rewrite ?length_rev; done).
  clearbody us.
  assert ((if bool_decide ("LIMIT" ∈ ps) then selecionar_rango ps us else Some (Some us)) =
    Some <$> (if bool_decide ("LIMIT" ∈ ps) then
      match omap parse_i32 ps with
      | offset :: count :: _ => ventana comprobar_desborde us offset count
      | _ => None
      end else Some us)) as ->.
  { destruct (bool_decide _); [|done]. rewrite selecionar_rango_eq by done.
    by destruct (omap parse_i32 ps) as [|? [|? ?]]. }
  ejecutar. destruct (if bool_decide ("LIMIT" ∈ ps) then _ else _) as [elegidos|];
    cbn [fmap option_fmap option_map]; [|cerrar].
  destruct (bool_decide ("STORE" ∈ ps)); [|cerrar].
  ejecutar. destruct (tras_opcion "STORE" ps); [|cerrar]. ejecutar. cerrar.
Qed.

(** *** BY and GET: the loops that look keys up *)

Lemma correr_obtener {A} k w (f : option (option TipoRedis) → Prog A) :
  envenenado (base w) = false →
  correr (lock_base (obtener_valor k) ≫= f) w = correr (f (Some (vista w !! k))) w.
Proof. intros Hw. by ejecutar. Qed.

Lemma pesados_cons m v p ps :
  pesados m ((v, p) :: ps) =
    match texto_de m p with Some s => cons (v, s) <$> pesados m ps | None => None end.
Proof. unfold pesados. cbn [mapM fst snd]. by destruct (texto_de m p), (mapM _ ps). Qed.

Lemma pesados_app m l1 l2 :
  pesados m (l1 ++ l2) =
    match pesados m l1 with Some a => app a <$> pesados m l2 | None => None end.
Proof.
  induction l1 as [|[v p] l1 IH].
  { rewrite app_nil_l. change (pesados m []) with (Some (@nil (string * string))). by destruct (pesados m l2). }
  rewrite <-app_comm_cons, !pesados_cons, IH. destruct (texto_de m p); [|done].
  destruct (pesados m l1); [|done]. by destruct (pesados m l2).
Qed.

Lemma pesos_de_eq v pesos w :
  envenenado (base w) = false →
  correr (pesos_de v pesos) w = (Some (pesados (vista w) (candidatos [v] pesos)), w).
Proof.
  intros Hw. unfold candidatos. cbn [mbind list_bind]. rewrite app_nil_r.
  induction pesos as [|p pesos IH]; [done|]. cbn [pesos_de]. rewrite filter_cons.
  destruct (decide (ultimo_segmento "_" p = ultimo_segmento "_" v)) as [Hp|Hp].
  - rewrite bool_decide_eq_true_2, correr_obtener by done.
    cbn [fmap list_fmap]. rewrite pesados_cons. unfold texto_de.
    destruct (vista w !! p) as [[s| | |]|]; [|done..]. by rewrite correr_bind, IH.
  - by rewrite bool_decide_eq_false_2 by done.
Qed.

Lemma candidatos_cons v vs pesos :
  candidatos (v :: vs) pesos = candidatos [v] pesos ++ candidatos vs pesos.
Proof. unfold candidatos. cbn [mbind list_bind]. by rewrite app_nil_r. Qed.

Lemma tuplas_eq vs pesos w :
  envenenado (base w) = false →
  correr (obetener_tupla_valor_peso vs pesos) w =
    (Some (pesados (vista w) (candidatos vs pesos)), w).
Proof.
  intros Hw. induction vs as [|v vs IH]; [done|]. cbn [obetener_tupla_valor_peso].
  rewrite correr_bind, pesos_de_eq, (candidatos_cons v vs), pesados_app by done. cbv beta iota.
  destruct (pesados _ (candidatos [v] pesos)); [|done]. by rewrite correr_bind, IH.
Qed.

Lemma objetos_de_eq v os b w :
  envenenado (base w) = false →
  correr (objetos_de v os b) w =
    (Some (Some (StrSimple <$> objetos (vista w) os v,
                 b || bool_decide (objetos (vista w) os v ≠ []))), w).
Proof.
  intros Hw. unfold objetos. revert b. induction os as [|o os IH]; intros b; cbn [objetos_de].
  { cbn. by rewrite orb_false_r. }
  rewrite filter_cons. destruct (contiene v o) eqn:Ho; [|exact (IH b)].
  rewrite correr_obtener, decide_True by done. cbn [omap list_omap].
  assert (texto_de (vista w) o = match vista w !! o with Some (Str s) => Some s | _ => None end)
    as -> by done.
  destruct (vista w !! o) as [[s| | |]|]; [|exact (IH b)..].
  rewrite correr_bind, IH. ejecutar. cbn [mbind option_bind orb].
  rewrite bool_decide_eq_true_2 by done. by rewrite orb_true_r.
Qed.

(** Once an object was found, a value without one leaves no nil. *)
Lemma resultado_get_eq ts os b w :
  envenenado (base w) = false →
  correr (resultado_get ts os b) w =
    (Some (Some (if b : bool then StrSimple <$> concat (objetos (vista w) os <$> ts.*1)
                 else esp_get (vista w) os ts.*1)), w).
Proof.
  intros Hw. revert b. induction ts as [|t ts IH]; intros b; cbn [resultado_get]; [by destruct b|].
  rewrite correr_bind, objetos_de_eq by done. cbv beta iota. rewrite correr_bind, IH.
  unfold esp_get. cbn [fmap list_fmap concat]. rewrite correr_ret.
  destruct (objetos (vista w) os (fst t)) as [|s l]; cbn [concat]; destruct b;
    cbn -[concat]; rewrite ?fmap_app, ?app_nil_r; done.
Qed.
End opciones.

(** ** The handler refines its specification *)

Section refinamiento.
Context `{Entorno}.

Lemma correr_claves {A} re w (f : option (list string) → Prog A) :
  envenenado (base w) = false →
  correr (lock_base (claves re) ≫= f) w = correr (f (Some (claves_que w re))) w.
Proof. intros Hw. unfold claves. by ejecutar. Qed.

Lemma length_candidatos vs pesos :
  (length (candidatos vs pesos) ≤ length vs * length pesos)%nat.
Proof.
  induction vs as [|v vs IH]; [done|]. rewrite candidatos_cons, length_app.
  unfold candidatos at 1. cbn [mbind list_bind]. rewrite app_nil_r, length_fmap.
  pose proof (length_filter (λ p, ultimo_segmento "_" p = ultimo_segmento "_" v) pesos).
  cbn [length]. lia.
Qed.

Lemma by_cumple ps vs w :
  envenenado (base w) = false → medible true vs →
  cumple w (correr (sort_elemento_con_pesos_externos vs ps) w) (esp_by w ps vs (vista w)).
Proof.
  intros Hw Hn. unfold sort_elemento_con_pesos_externos, esp_by.
  rewrite correr_bind, correr_panico. destruct (tras_opcion "BY" ps) as [patron|]; [|cerrar].
  rewrite correr_claves by done. cbv beta iota zeta.
  destruct (decide (length (claves_que w patron) = length vs)) as [Hl|Hl].
  2:{ rewrite bool_decide_eq_false_2, bool_decide_eq_true_2 by done. cerrar. }
  rewrite bool_decide_eq_true_2, bool_decide_eq_false_2 by naive_solver. cbn [negb].
  rewrite correr_bind, tuplas_eq by done.
  destruct (pesados (vista w) _) as [tuplas|] eqn:Ht; [|cerrar]. unfold sort_externos_salida, contiene_param.
  destruct (bool_decide ("GET" ∈ ps)).
  - rewrite correr_bind, correr_panico. destruct (tras_opcion "GET" ps) as [pat|]; [|cerrar].
    rewrite correr_claves, correr_bind, resultado_get_eq by done. cerrar.
  - apply sort_configuracion_cumple; [done|]. rewrite length_fmap.
    rewrite (Permutation_length (ordenar_perm peso_leb tuplas)).
    apply length_mapM in Ht. rewrite <-Ht.
    pose proof (length_candidatos vs (claves_que w patron)). unfold medible in Hn. rewrite Hl in *. lia.
Qed.

Lemma sort_cumple c w :
  envenenado (base w) = false → sort_medible (parametros c) w →
  cumple w (correr (sort c) w) (esp_sort (parametros c) w (vista w)).
Proof.
  destruct c as [n [|k ps] i]; unfold sort, esp_sort; leer_comando; intros Hw Hn; [cerrar|].
  rewrite correr_bind, correr_panico. change (indexar (k :: ps) 0) with (Some k).
  cbv beta iota. unfold sort_seccion. ejecutar.
  destruct (vista w !! k) as [v|] eqn:Hk; cbn [fmap option_fmap option_map]; [|cerrar].
  specialize (Hn k v). rewrite Hk in Hn.
  assert (∀ vs, elementos_leidos w v = Some vs →
    cumple w (correr match vs with [] => mret (Vector []) | _ =>
      if contiene_param "BY" (k :: ps) then sort_elemento_con_pesos_externos vs (k :: ps)
      else sort_elemento_con_pesos_interno vs (k :: ps) end w)
    match vs with [] => Responde (Vector []) (vista w) | _ =>
      if bool_decide ("BY" ∈ k :: ps) then esp_by w (k :: ps) vs (vista w)
      else if bool_decide ("ALPHA" ∉ k :: ps) && negb (tiene_solo_valores_numericos vs)
      then Responde (Error "ERR One or more scores can't be converted into double") (vista w)
      else esp_opciones (k :: ps) (ordenar string_leb vs) (vista w) end) as Hvs.
  { intros vs Hv. specialize (Hn vs eq_refl eq_refl Hv).
    destruct vs as [|x vs]; [cerrar|]. unfold contiene_param at 1.
    destruct (bool_decide ("BY" ∈ k :: ps)); [by apply by_cumple|].
    unfold sort_elemento_con_pesos_interno, contiene_param.
    rewrite <-bool_decide_not. destruct (bool_decide ("ALPHA" ∉ k :: ps) && _); [cerrar|].
    apply sort_configuracion_cumple; [done|].
    by rewrite (Permutation_length (ordenar_perm string_leb _)). }
  destruct v as [s|l|s|ca]; cbn [elementos_leidos] in *; [cerrar|by apply Hvs|by apply Hvs|cerrar].
Qed.
End refinamiento.

(** ** Properties *)

(** C32: SORT meets its specification on every branch: with any parameters, on any
    world whose database is not poisoned and whose list or set LIMIT can measure, it
    gives the answer of [esp_sort], or panics outside the mutex where it says, and
    stores the sorted values exactly when STORE asks for it.  The specification covers
    the order by weights (BY), the objects (GET), ALPHA, DESC, the windows of LIMIT for
    all integers, and the overflow of each build profile. *)
Theorem sort_refina `{Entorno} c w
    (Hw : envenenado (base w) = false) (Hn : sort_medible (parametros c) w) :
  cumple w (correr (sort c) w) (esp_sort (parametros c) w (vista w)).
Proof. by apply sort_cumple. Qed.

(** A list and the weights of its elements. *)
Definition mundo_pesos : Mundo :=
  con_tabla {["k" := no_expirable 0 (Lista ["1"; "2"]); "w_1" := no_expirable 0 (Str "b");
              "w_2" := no_expirable 0 (Str "a")]} mundo_vacio.

Lemma sort_refina_witness :
  cumple mundo_pesos (correr (@sort entorno_prueba (MkComandoInfo "SORT"
      ["k"; "BY"; "w_"; "LIMIT"; "0"; "1"; "STORE"; "d"] 0)) mundo_pesos)
    (Responde (StrSimple "1") (<["d" := Lista ["2"]]> (vista mundo_pesos))).
Proof.
  exact (@sort_refina entorno_prueba
    (MkComandoInfo "SORT" ["k"; "BY"; "w_"; "LIMIT"; "0"; "1"; "STORE"; "d"] 0) mundo_pesos eq_refl
    ltac:(intros k v vs Hk Hv Hvs; injection Hk as <-; vm_compute in Hv; injection Hv as <-;
          injection Hvs as <-; vm_compute; discriminate)).
Defined.

(** C31: SORT of a list or a set of integers answers its elements, each as
    often as it occurs, in the lexicographic order of their bytes, and changes
    nothing. *)
Theorem sort_ordena `{Entorno} n k i w v l
    (Hw : envenenado (base w) = false) (Hk : vista w !! k = Some v)
    (Hv : elementos_de v = Some l) (Hl : tiene_solo_valores_numericos l = true)
    (Hop : k ∉ ["BY"; "DESC"; "LIMIT"; "STORE"]) :
  ∃ l', correr (sort (MkComandoInfo n [k] i)) w = (Some (vector_simple l'), w) ∧
    l' ≡ₚ l ∧ StronglySorted (λ a b, string_leb a b = true) l'.
Proof.
  destruct (decide (l = [])) as [->|Hne].
  { exists []. split_and!; [|done|constructor].
    destruct (sort_seccion_eq k w v [] Hk Hv) as (l' & Hp & Hs).
    apply Permutation_nil_r in Hp as ->. unfold sort. leer_comando.
    change (indexar [k] 0) with (Some k). ejecutar. rewrite Hs. by ejecutar. }
  destruct (sort_sin_by n k [] i w v l) as (l' & Hp & Hs); [done..|set_solver|].
  exists (ordenar string_leb l'). rewrite Hs, sort_interno_simple; [|by rewrite (solo_numericos_perm l' l)|set_solver].
  split_and!; [done|by rewrite ordenar_perm|apply string_leb_ordenar].
Qed.

Lemma sort_ordena_witness :
  ∃ l', fst (correr (@sort entorno_prueba (MkComandoInfo "SORT" ["k"] 0))
         (mundo_con "k" (Lista ["9"; "10"]))) = Some (vector_simple l') ∧ l' ≡ₚ ["9"; "10"].
Proof.
  destruct (@sort_ordena entorno_prueba "SORT" "k" 0 (mundo_con "k" (Lista ["9"; "10"]))
    (Lista ["9"; "10"]) ["9"; "10"] eq_refl eq_refl eq_refl eq_refl ltac:(set_solver))
    as (l' & Hl & Hp & _).
  exists l'. split; [exact (f_equal fst Hl)|exact Hp].
Defined.

