(* ===== verification/PubSub.v ===== *)
(** * Publish/subscribe commands (comando_pubsub_handler.rs)

    Each handler copies a channel out of the store, works on the copy and, when it
    changed the subscribers, stores it again in another critical section. *)
From S2P Require Import Prelude Rust Datos Efectos Valor ComandoInfo Cliente BaseDeDatos Refinamiento.
From S2P Require Canal.
From S2P Require Import ComandoString.

#[local] Open Scope Z_scope.

Definition es_comando_pubsub (comando : string) : bool :=
  bool_decide (comando ∈ ["SUBSCRIBE"; "UNSUBSCRIBE"; "PUBLISH"; "PUBSUB"]).

(** ** Handlers *)

(** The copy of the channel of a key: [inl] is the early return. *)
Definition leer_canal_seccion (clave : string) (si_no_hay : ResultadoRedis + Canal)
    : M (ResultadoRedis + Canal) :=
  actual ← obtener_valor clave;
  match actual with
  | Some (TCanal c) => copia ← consultar (λ w, Canal.clonar_canal w c); mret (inr copia)
  | None => mret si_no_hay
  | _ => mret (inl err_tipo)
  end.

Definition leer_canal (clave : string) (si_no_hay : ResultadoRedis + Canal)
    : Prog (ResultadoRedis + Canal) :=
  r ← lock_base (leer_canal_seccion clave si_no_hay);
  mret (default (inl err_bdd) r).

(** The loop of SUBSCRIBE and of UNSUBSCRIBE: [actualizar] is the method of the
    channel they call with a clone of the client. *)
Fixpoint recorrer_canales (si_no_hay : string → ResultadoRedis + Canal)
    (actualizar : Canal → Cliente → M Canal) (cliente : Cliente) (claves : list string)
    : Prog ResultadoRedis :=
  match claves with
  | [] => mret Vacio
  | clave :: claves' =>
      r ← leer_canal clave (si_no_hay clave);
      match r with
      | inl e => mret e
      | inr canal =>
          copia ← atomico (consultar (λ w, clonar_cliente w cliente));
          canal ← atomico (actualizar canal copia);
          g ← lock_base (guardar_valor clave (TCanal canal));
          match g with
          | Some _ => recorrer_canales si_no_hay actualizar cliente claves'
          | None => mret err_bdd
          end
      end
  end.

Definition subscribe (comando : ComandoInfo) (cliente : Cliente) : Prog ResultadoRedis :=
  recorrer_canales (λ clave, inr (Canal.new_canal clave)) Canal.suscribirse cliente
    (parametros_restantes comando).

Definition unsubscribe (comando : ComandoInfo) (cliente : Cliente) : Prog ResultadoRedis :=
  recorrer_canales (λ _, inl err_tipo) Canal.desuscribirse cliente (parametros_restantes comando).

Definition publish (comando : ComandoInfo) : Prog ResultadoRedis :=
  match get_clave comando with
  | (None, _) => mret (Error "ClaveError no se encontro una clave")
  | (Some clave, comando) =>
      match get_parametro comando with
      | (None, _) => mret (err_args "publish")
      | (Some mensaje, _) =>
          r ← leer_canal clave (inl err_tipo);
          match r with
          | inl e => mret e
          | inr canal =>
              '(n, _) ← atomico (Canal.publicar canal mensaje); mret (Int (como_isize n))
          end
      end
  end.

Fixpoint numsub_cantidades (claves : list string) (cantidades : list ResultadoRedis)
    : Prog ResultadoRedis :=
  match claves with
  | [] => mret (Vector cantidades)
  | clave :: claves' =>
      r ← leer_canal clave (inl err_tipo);
      match r with
      | inl e => mret e
      | inr canal => numsub_cantidades claves' (cantidades ++ [Int (como_isize (Canal.len canal))])
      end
  end.

Definition numsub (comando : ComandoInfo) : Prog ResultadoRedis :=
  numsub_cantidades (parametros_restantes comando) [].

Definition channels `{Entorno} (comando : ComandoInfo) : Prog ResultadoRedis :=
  match get_parametro comando with
  | (None, _) => mret (err_args "channels")
  | (Some parametro, _) =>
      r ← lock_base (canales_activos parametro);
      mret (match r with
            | Some canales => Vector (BulkStr <$> canales)
            | None => err_bdd
            end)
  end.

Definition pubsub `{Entorno} (comando : ComandoInfo) : Prog ResultadoRedis :=
  match get_clave comando with
  | (Some "CHANNELS", comando) => channels comando
  | (Some "NUMSUB", comando) => numsub comando
  | _ => mret (err_args "pubsub")
  end.

(** [ComandoPubSubHandler::new] and [ejecutar]. *)
Definition ejecutar `{Entorno} (comando : ComandoInfo) (cliente : Cliente) : Prog ResultadoRedis :=
  match get_nombre comando with
  | "UNSUBSCRIBE" => unsubscribe comando cliente
  | "PUBLISH" => publish comando
  | "PUBSUB" => pubsub comando
  | _ => subscribe comando cliente
  end.

(** ** Specifications *)

(** The channel SUBSCRIBE and UNSUBSCRIBE work on. *)
Definition canal_de (w : Mundo) (si_no_hay : ResultadoRedis + Canal) (v : option TipoRedis)
    : ResultadoRedis + Canal :=
  match v with
  | Some (TCanal c) => inr (Canal.clonar_canal w c)
  | None => si_no_hay
  | Some _ => inl err_tipo
  end.

(** The keys are processed in order; the first one that is not a channel ends the
    command. *)
Fixpoint esp_canales (si_no_hay : string → ResultadoRedis + Canal) (f : Canal → Canal)
    (ps : list string) (w : Mundo) (m : Estado) : Desenlace :=
  match ps with
  | [] => Responde Vacio m
  | k :: ks =>
      match canal_de w (si_no_hay k) (m !! k) with
      | inl e => Responde e m
      | inr c => esp_canales si_no_hay f ks w (<[k := TCanal (f c)]> m)
      end
  end.

(** The new subscriber is a clone of the client; it is added when the client could
    be notified. *)
Definition con_suscriptor (w : Mundo) (cliente : Cliente) (c : Canal) : Canal :=
  let copia := clonar_cliente w cliente in
  if recibe w (clonar_cliente w copia)
  then MkCanal (nombre_canal c) (suscriptores c ++ [copia]) else c.

Definition sin_suscriptor (w : Mundo) (cliente : Cliente) (c : Canal) : Canal :=
  match posicion (λ x, cliente_eq x (clonar_cliente w cliente)) (suscriptores c) with
  | Some i => MkCanal (nombre_canal c) (quitar i (suscriptores c))
  | None => c
  end.

Definition esp_subscribe (cliente : Cliente) (ps : list string) (w : Mundo) (m : Estado) : Desenlace :=
  esp_canales (λ k, inr (Canal.new_canal k)) (con_suscriptor w cliente) ps w m.
Definition esp_unsubscribe (cliente : Cliente) (ps : list string) (w : Mundo) (m : Estado) : Desenlace :=
  esp_canales (λ _, inl err_tipo) (sin_suscriptor w cliente) ps w m.

Definition esp_publish (ps : list string) (w : Mundo) (m : Estado) : Desenlace :=
  match ps with
  | [] => Responde (Error "ClaveError no se encontro una clave") m
  | [_] => Responde (err_args "publish") m
  | k :: _ :: _ =>
      Responde match canal_de w (inl err_tipo) (m !! k) with
               | inl e => e
               | inr c => Int (como_isize (Canal.alcanzados w (suscriptores c)))
               end m
  end.

(** ** Lemmas *)

Lemma mismos_datos_vista w w' : mismos_datos w w' → vista w' = vista w.
Proof. by intros [-> _]. Qed.
Lemma mismos_datos_cerrojo w w' : mismos_datos w w' → base w' = base w ∧ ahora w' = ahora w.
Proof. by intros [-> _]. Qed.

Lemma leer_canal_eq k si w :
  envenenado (base w) = false →
  correr (leer_canal k si) w = (Some (canal_de w si (vista w !! k)), w).
Proof.
  intros Hw. unfold leer_canal, leer_canal_seccion. ejecutar.
  by destruct (vista w !! k) as [[]|]; ejecutar.
Qed.

(** Two worlds that differ in the table and in what the connections have sent. *)
Definition misma_red (w w' : Mundo) : Prop :=
  ahora w' = ahora w ∧ envenenado (base w') = envenenado (base w) ∧
  ∀ s, (λ c, (clonable c, acepta c)) <$> conexiones w' !! s =
       (λ c, (clonable c, acepta c)) <$> conexiones w !! s.

Definition con_red (w w' : Mundo) : Mundo := con_conexiones (conexiones w') w.
Lemma mismos_datos_red w w' : misma_red w w' → mismos_datos w (con_red w w').
Proof. by intros (_ & _ & Hm). Qed.
Lemma clonar_cliente_red w w' c : misma_red w w' → clonar_cliente w' c = clonar_cliente w c.
Proof.
  intros Hm. change (clonar_cliente w' c) with (clonar_cliente (con_red w w') c).
  by apply clonar_cliente_mismos, mismos_datos_red.
Qed.
Lemma recibe_red w w' c : misma_red w w' → recibe w' c = recibe w c.
Proof.
  intros Hm. change (recibe w' c) with (recibe (con_red w w') c).
  by apply recibe_mismos, mismos_datos_red.
Qed.

Section canales.
Context (si_no_hay : string → ResultadoRedis + Canal).
Context (actualizar : Canal → Cliente → M Canal) (f : Mundo → Cliente → Canal → Canal).
Context (actualizar_eq : ∀ c cl w, ∃ w',
  actualizar c (clonar_cliente w cl) w = (Some (f w cl c), w') ∧ mismos_datos w w').
Context (f_red : ∀ w w' cl c, misma_red w w' → f w' cl c = f w cl c).

Lemma clonar_canal_red w w' c : misma_red w w' → Canal.clonar_canal w' c = Canal.clonar_canal w c.
Proof.
  intros Hm. change (Canal.clonar_canal w' c) with (Canal.clonar_canal (con_red w w') c).
  by apply Canal.clonar_canal_mismos, mismos_datos_red.
Qed.

Lemma esp_canales_red cl ks w w' m :
  misma_red w w' →
  esp_canales si_no_hay (f w' cl) ks w' m = esp_canales si_no_hay (f w cl) ks w m.
Proof.
  intros Hr. revert m. induction ks as [|k ks IH]; intros m; cbn [esp_canales]; [done|].
  assert (canal_de w' (si_no_hay k) (m !! k) = canal_de w (si_no_hay k) (m !! k)) as ->.
  { unfold canal_de. destruct (m !! k) as [[]|]; try done. by rewrite (clonar_canal_red w). }
  destruct (canal_de w _ _); [done|]. by rewrite (f_red w), IH.
Qed.

Lemma recorrer_canales_refina cl ks :
  refina_en (recorrer_canales si_no_hay actualizar cl ks)
    (λ w, esp_canales si_no_hay (f w cl) ks w).
Proof.
  induction ks as [|k ks IH]; intros w Hw; cbn [recorrer_canales esp_canales]; [cerrar|].
  rewrite correr_bind, leer_canal_eq by done. cbv beta iota.
  destruct (canal_de w (si_no_hay k) (vista w !! k)) as [e|c]; [cerrar|].
  rewrite correr_bind, correr_atomico, consultar_eq. cbv beta iota.
  rewrite correr_bind, correr_atomico. destruct (actualizar_eq c cl w) as (w1 & -> & Hd).
  cbv beta iota. destruct (mismos_datos_cerrojo _ _ Hd) as [Hb Ha].
  rewrite correr_bind, correr_lock, guardar_valor_eq by congruence. cbv beta iota.
  set (w2 := guardado _ _ w1).
  assert (misma_red w w2) as Hr
    by (destruct Hd as [_ Hd]; split_and!; unfold w2, guardado; cbn; [congruence..|exact Hd]).
  assert (vista w2 = <[k := TCanal (f w cl c)]> (vista w)) as Hv
    by (unfold w2; by rewrite vista_guardado_no_expirable, (mismos_datos_vista w w1)).
  destruct Hr as (Hr1 & Hr2 & Hr3). rewrite <-Hv, <-(esp_canales_red cl ks w w2) by done.
  unfold cumple. rewrite <-Hr1. apply IH. congruence.
Qed.
End canales.

(** ** The handlers refine their specifications *)

Lemma subscribe_refina c cliente :
  refina_en (subscribe c cliente) (esp_subscribe cliente (parametros_restantes c)).
Proof.
  apply (recorrer_canales_refina _ _ con_suscriptor).
  - intros ca cl w. destruct (Canal.suscribirse_datos ca (clonar_cliente w cl) w) as (w' & -> & Hd).
    eauto.
  - intros w w' cl ca Hm. unfold con_suscriptor.
    by rewrite !(clonar_cliente_red w w'), (recibe_red w w') by done.
Qed.

Lemma unsubscribe_refina c cliente :
  refina_en (unsubscribe c cliente) (esp_unsubscribe cliente (parametros_restantes c)).
Proof.
  apply (recorrer_canales_refina _ _ sin_suscriptor).
  - intros ca cl w. destruct (Canal.desuscribirse_datos ca (clonar_cliente w cl) w) as (w' & -> & Hd).
    eauto.
  - intros w w' cl ca Hm. unfold sin_suscriptor. by rewrite (clonar_cliente_red w w').
Qed.

Lemma publish_refina c : refina_en (publish c) (esp_publish (parametros c)).
Proof.
  intros w Hw. unfold publish. destruct c as [n [|k [|x ps]] i]; leer_comando; [cerrar..|].
  rewrite correr_bind, leer_canal_eq by done. cbv beta iota. unfold esp_publish.
  destruct (canal_de w (inl err_tipo) (vista w !! k)) as [e|ca]; [cerrar|].
  rewrite correr_bind, correr_atomico.
  destruct (Canal.publicar_datos ca x w) as (ca' & w' & -> & Hd). cbv beta iota.
  destruct (mismos_datos_cerrojo _ _ Hd) as [Hb Ha]. rewrite correr_ret.
  split_and!; cbn [fst snd]; [done..| |congruence]. by apply mismos_datos_vista.
Qed.

(** ** Invariants *)

Lemma canales_activos_preserva `{Entorno} I re : preserva I (canales_activos re).
Proof. unfold canales_activos, claves. invariante. Qed.
#[export] Hint Resolve canales_activos_preserva : redis.

Section invariantes.
Context `{Entorno} (I : Mundo → Prop) `{!Invariante I}.

Lemma preserva_mismos_datos {A} (m : M A) :
  (∀ w, mismos_datos w (snd (m w))) → preserva I m.
Proof. intros Hm w Hw. destruct (Hm w) as [-> _]. by apply inv_conexiones. Qed.

Lemma leer_canal_siempre k si : siempre I (leer_canal k si).
Proof. unfold leer_canal, leer_canal_seccion. invariante. Qed.
Lemma recorrer_canales_siempre si act cl ks :
  (∀ c cl w, mismos_datos w (snd (act c cl w))) → siempre I (recorrer_canales si act cl ks).
Proof.
  intros Hact. pose proof leer_canal_siempre.
  assert (∀ c cl, preserva I (act c cl)) by (intros; by apply preserva_mismos_datos).
  induction ks; cbn [recorrer_canales]; invariante.
Qed.
Lemma numsub_siempre ks l : siempre I (numsub_cantidades ks l).
Proof.
  pose proof leer_canal_siempre. revert l.
  induction ks; intros l; cbn [numsub_cantidades]; invariante.
Qed.
Lemma publish_siempre c : siempre I (publish c).
Proof.
  pose proof leer_canal_siempre.
  assert (∀ c m, preserva I (Canal.publicar c m)).
  { intros ca x. apply preserva_mismos_datos. intros w.
    by destruct (Canal.publicar_datos ca x w) as (? & ? & -> & ?). }
  unfold publish. invariante.
Qed.
End invariantes.

Lemma pubsub_siempre `{Entorno} I `{!Invariante I} c cl : siempre I (ejecutar c cl).
Proof.
  pose proof (publish_siempre I). pose proof (numsub_siempre I).
  assert (∀ c, siempre I (unsubscribe c cl)).
  { intros x. apply recorrer_canales_siempre; [done|]. intros ca s w.
    by destruct (Canal.desuscribirse_datos ca s w) as (? & -> & ?). }
  assert (∀ c, siempre I (subscribe c cl)).
  { intros x. apply recorrer_canales_siempre; [done|]. intros ca s w.
    by destruct (Canal.suscribirse_datos ca s w) as (? & -> & ?). }
  unfold ejecutar. invariante; unfold pubsub, channels, numsub; invariante.
Qed.
#[export] Hint Resolve pubsub_siempre : redis.

(** *** What the commands write to the sockets *)

Lemma publish_canal n k x ps w ca :
  envenenado (base w) = false → canal_de w (inl err_tipo) (vista w !! k) = inr ca →
  correr (publish (MkComandoInfo n (k :: x :: ps) 0)) w =
    (Some (Int (como_isize (Canal.alcanzados w (suscriptores ca)))),
     snd (Canal.publicar ca x w)).
Proof.
  intros Hw Hk. unfold publish. leer_comando. rewrite correr_bind, leer_canal_eq, Hk by done.
  cbv beta iota. rewrite correr_bind, correr_atomico.
  by destruct (Canal.publicar_datos ca x w) as (ca' & w' & -> & _).
Qed.

(** A new subscriber is notified, and the channel stored. *)
Lemma subscribe_uno n k a w ca :
  envenenado (base w) = false → canal_de w (inr (Canal.new_canal k)) (vista w !! k) = inr ca →
  ∃ w', correr (subscribe (MkComandoInfo n [k] 0) a) w = (Some Vacio, w') ∧ misma_red w w' ∧
    vista w' = <[k := TCanal (con_suscriptor w a ca)]> (vista w) ∧
    ∀ s, recibido w' s = recibido w s ++
      entrega w s (Canal.mensaje_suscripcion ca) (clonar_cliente w (clonar_cliente w a)).
Proof.
  intros Hw Hk. unfold subscribe. change (parametros_restantes _) with [k]. cbn [recorrer_canales].
  rewrite correr_bind, leer_canal_eq, Hk by done. cbv beta iota.
  rewrite correr_bind, correr_atomico, consultar_eq. cbv beta iota.
  rewrite correr_bind, correr_atomico.
  pose proof (Canal.suscribirse_recibido ca (clonar_cliente w a) w) as Hr.
  destruct (Canal.suscribirse_datos ca (clonar_cliente w a) w) as (w1 & Hs & Hd).
  change (if recibe w _ then _ else _) with (con_suscriptor w a ca) in Hs.
  rewrite Hs in Hr |- *. cbn [snd] in Hr. cbv beta iota.
  destruct (mismos_datos_cerrojo _ _ Hd) as [Hb Ha].
  rewrite correr_bind, correr_lock, guardar_valor_eq by congruence. cbv beta iota.
  eexists. split_and!; [done| | |exact Hr].
  - destruct Hd as [_ Hd]. split_and!; unfold guardado; cbn; [congruence..|exact Hd].
  - by rewrite vista_guardado_no_expirable, (mismos_datos_vista w w1).
Qed.

Lemma alcanzados_red w w' ss : misma_red w w' → Canal.alcanzados w' ss = Canal.alcanzados w ss.
Proof.
  intros Hm. unfold Canal.alcanzados. do 2 f_equal. apply list_filter_iff.
  intros c. by rewrite (recibe_red w w').
Qed.

(** What a command copies out of the store is a fixed point of the copy. *)
Lemma canal_de_clonado w k v ca :
  canal_de w (inr (Canal.new_canal k)) v = inr ca → Canal.clonar_canal w ca = ca.
Proof.
  destruct v as [[]|]; intros Hc; simplify_eq/=; [|done]. apply Canal.clonar_canal_idem.
Qed.

Lemma entrega_red w w' s res c : misma_red w w' → entrega w' s res c = entrega w s res c.
Proof.
  intros Hm. change (entrega w' s res c) with (entrega (con_red w w') s res c).
  by apply entrega_mismos, mismos_datos_red.
Qed.

(** ** Properties *)

(** C16: SUBSCRIBE processes its channels in order, creating those that do
    not exist and adding a clone of the client to each if the client can be
    notified; UNSUBSCRIBE removes, from each of the channels it names, the first
    subscriber with the token of the client, and stores the channel even when nobody
    is left.  The first key that is not a channel ends either command with an error,
    and what was done before stays. *)
Theorem suscripciones c cliente :
  refina_en (subscribe c cliente) (esp_subscribe cliente (parametros_restantes c)) ∧
  refina_en (unsubscribe c cliente) (esp_unsubscribe cliente (parametros_restantes c)).
Proof. split; [apply subscribe_refina|apply unsubscribe_refina]. Qed.

(** C40: PUBLISH answers how many subscribers received the message, leaves the store
    as it was, and writes to each socket, once for each subscriber of the channel that
    has it and accepts it, the message in the protocol of the subscriber. *)
Theorem publicacion c :
  refina_en (publish c) (esp_publish (parametros c)) ∧
  ∀ n k x ps w ca, envenenado (base w) = false → vista w !! k = Some (TCanal ca) →
    c = MkComandoInfo n (k :: x :: ps) 0 →
    ∀ s, recibido (snd (correr (publish c) w)) s = recibido w s ++
      (suscriptores (Canal.clonar_canal w ca) ≫= entrega w s (Canal.mensaje_publicado ca x)).
Proof.
  split; [apply publish_refina|]. intros n k x ps w ca Hw Hk -> s.
  rewrite (publish_canal _ _ _ _ _ (Canal.clonar_canal w ca)) by (by rewrite ?Hk).
  exact (Canal.publicar_recibido (Canal.clonar_canal w ca) x w s).
Qed.

(** A world with a connection and a channel its client is in. *)
Definition suscriptor_prueba : ClienteRedis := MkClienteRedis 7 0 None 0 (Some 1).
Definition mundo_canal : Mundo :=
  con_conexiones {[1 := MkConexion true (Some 100%nat) None None []]}
    (mundo_con "c" (TCanal (MkCanal "c" [CRedis suscriptor_prueba]))).

Lemma publicacion_witness :
  recibido (snd (correr (publish (MkComandoInfo "PUBLISH" ["c"; "hi"] 0)) mundo_canal)) 1 =
    ["*3" +:+ CRLF +:+ "$7" +:+ CRLF +:+ "message" +:+ CRLF +:+ "$1" +:+ CRLF +:+ "c" +:+ CRLF
     +:+ "$2" +:+ CRLF +:+ "hi" +:+ CRLF].
Proof.
  exact (proj2 (publicacion (MkComandoInfo "PUBLISH" ["c"; "hi"] 0)) "PUBLISH" "c" "hi" [] mundo_canal
    (MkCanal "c" [CRedis suscriptor_prueba]) eq_refl eq_refl eq_refl 1).
Defined.

(** C17: A client that subscribes to a channel receives, over its own socket, the
    notice of its subscription and then a message published there by any other client,
    behind what the earlier subscribers with the same socket receive; and the publisher
    is told of one more receiver.  The channel may be new or have subscribers. *)
Theorem difusion n1 n2 k x ps a s w ca b
    (Hw : envenenado (base w) = false)
    (Hk : canal_de w (inr (Canal.new_canal k)) (vista w !! k) = inr ca)
    (Ha : cr_socket a = Some s) (Hs : try_clone w s = Some s)
    (Hb : (c ← conexiones w !! s; acepta c) = Some b) :
  let '(r1, w1) := correr (subscribe (MkComandoInfo n1 [k] 0) (CRedis a)) w in
  let '(r2, w2) := correr (publish (MkComandoInfo n2 (k :: x :: ps) 0)) w1 in
  r1 = Some Vacio ∧
  r2 = Some (Int (como_isize (Canal.alcanzados w (suscriptores ca) + 1))) ∧
  recibido w2 s = recibido w s
    ++ [HttpParser.primeros_bytes b (Parser.parsear_respuesta (Canal.mensaje_suscripcion ca))]
    ++ (suscriptores ca ≫= entrega w s (Canal.mensaje_publicado ca x))
    ++ [HttpParser.primeros_bytes b (Parser.parsear_respuesta (Canal.mensaje_publicado ca x))].
Proof.
  destruct (subscribe_uno n1 k (CRedis a) w ca Hw Hk) as (w1 & -> & Hr & Hv & Hent).
  set (a' := clonar_cliente w (CRedis a)) in *.
  assert (socket_de a' = Some s) as Ha' by (unfold a'; cbn; by rewrite Ha).
  assert (recibe w a' = true) as Hrec by (unfold recibe, escribible; by rewrite Ha', Hb).
  assert (∀ res, entrega w s res a' = [HttpParser.primeros_bytes b (Parser.parsear_respuesta res)]) as He
    by (intros res; unfold entrega; by rewrite bool_decide_eq_true_2, Hb).
  assert (con_suscriptor w (CRedis a) ca = MkCanal (nombre_canal ca) (suscriptores ca ++ [a'])) as Hca
    by (unfold con_suscriptor; cbv zeta; rewrite clonar_cliente_idem; fold a'; by rewrite Hrec).
  pose proof (canal_de_clonado _ _ _ _ Hk) as Hid.
  rewrite (publish_canal _ _ _ _ _ (MkCanal (nombre_canal ca) (suscriptores ca ++ [a']))).
  2:{ destruct Hr as (_ & -> & _). done. }
  2:{ rewrite Hv, lookup_insert_eq. cbn [canal_de]. rewrite (clonar_canal_red w), Hca by done.
      unfold Canal.clonar_canal. cbn [nombre_canal suscriptores].
      pose proof (f_equal suscriptores Hid) as Hs'. cbn in Hs'. rewrite fmap_app, Hs'.
      change (clonar_cliente w <$> [a']) with [clonar_cliente w a']. unfold a'.
      by rewrite clonar_cliente_idem. }
  split_and!; [done| |].
  - rewrite (alcanzados_red w) by done. cbn [suscriptores].
    by rewrite Canal.alcanzados_app, Canal.alcanzados_uno.
  - rewrite Canal.publicar_recibido, Hent. unfold a'. rewrite clonar_cliente_idem. fold a'.
    rewrite He, <-app_assoc. cbn [suscriptores]. rewrite list.bind_app. do 3 f_equal.
    + apply list_bind_ext; [|done]. intros c. by apply entrega_red.
    + cbn [mbind list_bind]. rewrite app_nil_r, (entrega_red w) by done. apply He.
Qed.

Lemma difusion_witness :
  let w := con_conexiones {[1 := MkConexion true (Some 100%nat) None None []]} mundo_vacio in
  let '(r1, w1) := correr (subscribe (MkComandoInfo "SUBSCRIBE" ["c"] 0) (CRedis suscriptor_prueba)) w in
  let '(r2, w2) := correr (publish (MkComandoInfo "PUBLISH" ["c"; "hi"] 0)) w1 in
  r1 = Some Vacio ∧ r2 = Some (Int 1) ∧
  recibido w2 1 =
    [Parser.parsear_respuesta (Vector [BulkStr "subscribe"; BulkStr "c"; Int 1]);
     Parser.parsear_respuesta (Vector [BulkStr "message"; BulkStr "c"; BulkStr "hi"])].
Proof.
  exact (difusion "SUBSCRIBE" "PUBLISH" "c" "hi" [] suscriptor_prueba 1
    (con_conexiones {[1 := MkConexion true (Some 100%nat) None None []]} mundo_vacio)
    (Canal.new_canal "c") 100%nat eq_refl eq_refl eq_refl eq_refl eq_refl).
Defined.
