(* ===== verification/Configuracion.v ===== *)
(** * Configuration and server commands (config.rs, comando_server_handler.rs)

    The configuration map with its file, and the commands that read or change it or
    the whole database. *)
From S2P Require Import Prelude Rust Datos Efectos Valor ComandoInfo BaseDeDatos Refinamiento.
From S2P Require Import ComandoString.

#[local] Open Scope Z_scope.

(** ** Config *)

(** [Config::new]. *)
Definition new_config : Config :=
  MkConfig (list_to_map [("verbose", "0"); ("host", "127.0.0.1"); ("port", "8080");
    ("timeout", "0"); ("dbfilename", "dump.rb"); ("logfile", "redis.log")]) None false.

Definition direccion (c : Config) : string :=
  default "127.0.0.1" (mapa_config c !! "host") +:+ ":" +:+
  default "8080" (mapa_config c !! "port").

Definition timeout (c : Config) : Z :=
  match mapa_config c !! "timeout" with
  | Some t => default 0 (parse_u64 t)
  | None => 0
  end.

Definition dbfilename (c : Config) : string := default "dump.rb" (mapa_config c !! "dbfilename").
Definition logfile (c : Config) : string := default "redis.log" (mapa_config c !! "logfile").

Definition verbose (c : Config) : bool :=
  match mapa_config c !! "verbose" with
  | Some t => match parse_u32 t with Some t => t =? 1 | None => false end
  | None => false
  end.

Definition set (parametro valor : string) (c : Config) : Config :=
  MkConfig (<[parametro := valor]> (mapa_config c)) (persistidor c) (monitorear_ultimo_cliente c).

Definition monitor (c : Config) : Config := MkConfig (mapa_config c) (persistidor c) true.

Definition set_persistidor (p : Persistidor) (c : Config) : Config :=
  MkConfig (mapa_config c) (Some p) (monitorear_ultimo_cliente c).

(** The entries of the map, in the order its iterator yields them. *)
Definition entradas `{Entorno} (semilla : Z) (c : Config) : list (string * string) :=
  orden_iteracion semilla (map_to_list (mapa_config c)).

Definition get `{Entorno} (semilla : Z) (re : string) (c : Config) : list string :=
  match regex_new re with
  | None => []
  | Some is_match =>
      '(clave, valor) ← entradas semilla c;
      if is_match clave : bool then [clave; valor] else []
  end.

Definition config_info `{Entorno} (semilla : Z) (c : Config) : list string :=
  ["# Config"; ""] ++ ((λ '(clave, valor), clave +:+ ":" +:+ valor) <$> entradas semilla c)
    ++ [""].

(** [actualizar_log] and [actualizar_persistencia]: the messages they send to the
    log thread and to the persistence thread. *)
Definition actualizar_log (c : Config) (cliente : Cliente) : Config * list Mensaje :=
  (MkConfig (mapa_config c) (persistidor c) false,
   (if monitorear_ultimo_cliente c then [Monitor cliente] else [])
     ++ [SetVerbose (verbose c); ArchivoALogear (logfile c)]).

Definition actualizar_persistencia (c : Config) : list MensajePersistencia :=
  match persistidor c with
  | Some _ => [ArchivoAPersistir (dbfilename c)]
  | None => []
  end.

(** [Config::actualizar], under the lock of its caller. *)
Definition actualizar (cliente : Cliente) : M () := modificar (λ w,
  let '(c, mensajes) := actualizar_log (dato (conf w)) cliente in
  con_pers (cola_pers w ++ actualizar_persistencia c)
    (con_log (cola_log w ++ mensajes) (con_conf (MkMutex c (envenenado (conf w))) w))).

(** [obtener_configuracion] on the content of the file, [None] when it cannot be
    opened; reading stops at the first line that is not UTF-8, and a line without
    the separator panics ([argumento[1]]). *)
Fixpoint leer_lineas (ls : list (option string)) (mapa : gmap string string)
    : option (gmap string string) :=
  match ls with
  | Some linea :: ls' =>
      let argumento := split_str ": " linea in
      a0 ← indexar argumento 0;
      a1 ← indexar argumento 1;
      leer_lineas ls' (<[a0 := a1]> mapa)
  | _ => Some mapa
  end.

Inductive ArchivoError := ArchivoInexistenteError.

Definition obtener_configuracion (archivo : option string) : option (ArchivoError + Config) :=
  match archivo with
  | None => Some (inl ArchivoInexistenteError)
  | Some contenido =>
      mapa ← leer_lineas (lineas contenido) ∅;
      Some (inr (if bool_decide (mapa = ∅) then new_config else MkConfig mapa None false))
  end.

(** ** Server commands *)

Definition es_comando_server (comando : string) : bool :=
  bool_decide (comando ∈ ["FLUSHDB"; "DBSIZE"; "CONFIG"; "INFO"; "MONITOR"; "PING"]).

Definition ping : Prog ResultadoRedis := mret (StrSimple "PONG").

Definition flushdb : Prog ResultadoRedis :=
  r ← lock_base borrar_claves;
  mret (match r with Some _ => StrSimple "OK" | None => err_bdd end).

Definition dbsize : Prog ResultadoRedis :=
  r ← lock_base cantidad_claves;
  mret (match r with Some cantidad => Int (como_isize cantidad) | None => err_bdd end).

(** A method of [Config] that takes [&mut self]. *)
Definition modificar_conf (f : Config → Config) : M () :=
  modificar (λ w, con_conf (MkMutex (f (dato (conf w))) (envenenado (conf w))) w).

(** Both parameters are read before they are matched. *)
Definition config_set (comando : ComandoInfo) : Prog ResultadoRedis :=
  let '(p, comando) := get_parametro comando in
  match p, fst (get_parametro comando) with
  | Some parametro, Some valor =>
      r ← lock_conf (modificar_conf (set parametro valor));
      mret (match r with
            | Some _ => StrSimple "Ok"
            | None => Error "ERR when accessing config"
            end)
  | _, _ => mret (Error "ERR wrong number of arguments for config_get command")
  end.

Definition fmonitor : Prog ResultadoRedis :=
  r ← lock_conf (modificar_conf monitor);
  mret (match r with
        | Some _ => StrSimple "Ok"
        | None => Error "Error al acceder a la configuracion"
        end).

Section con_entorno.
Context `{Entorno}.

Definition config_get (comando : ComandoInfo) : Prog ResultadoRedis :=
  match get_parametro comando with
  | (None, _) => mret (Error "ERR wrong number of arguments for config_set command")
  | (Some parametro, _) =>
      r ← lock_conf (consultar (λ w, get (semilla w) parametro (dato (conf w))));
      mret (match r with
            | Some valores => Vector (BulkStr <$> valores)
            | None => Error "ERR when accessing config"
            end)
  end.

Definition fconfig (comando : ComandoInfo) : Prog ResultadoRedis :=
  match get_parametro comando with
  | (None, _) => mret (Error "ERR wrong number of arguments for fconfig command")
  | (Some parametro, comando) =>
      match to_uppercase parametro with
      | "GET" => config_get comando
      | "SET" => config_set comando
      | _ => mret (Error "ERR Opcion config not found")
      end
  end.

Definition info_seccion : M (list string) :=
  v ← consultar (λ w, config_info (semilla w) (dato (conf w)));
  b ← BaseDeDatos.info;
  mret (v ++ b).

Definition info : Prog ResultadoRedis :=
  r ← lock_ambos info_seccion;
  mret (match r with
        | Some v => Vector (BulkStr <$> v)
        | None => Error "ERR when accessing info"
        end).

(** [ComandoServerHandler::new] and [ejecutar]. *)
Definition ejecutar (comando : ComandoInfo) : Prog ResultadoRedis :=
  match get_nombre comando with
  | "DBSIZE" => dbsize
  | "CONFIG" => fconfig comando
  | "INFO" => info
  | "MONITOR" => fmonitor
  | "PING" => ping
  | _ => flushdb
  end.
End con_entorno.

(** ** Specifications and refinement *)

Definition esp_flushdb (m : Estado) : Desenlace := Responde (StrSimple "OK") ∅.

Lemma flushdb_refina : refina flushdb esp_flushdb.
Proof.
  intros w Hw. unfold flushdb. ejecutar.
  change (borrar_claves w) with (Some (), notificado (con_tabla ∅ w)). ejecutar.
  unfold esp_flushdb. apply cumple_notificado, cumple_con_tabla; [done|]. intros k.
  unfold leer_valor. by rewrite !lookup_empty.
Qed.

(** DBSIZE counts the expired keys that are still in the table. *)
Lemma dbsize_eq w :
  envenenado (base w) = false →
  correr dbsize w = (Some (Int (como_isize (Z.of_nat (size (tabla w))))), w).
Proof. intros Hw. unfold dbsize. ejecutar. unfold cantidad_claves. by ejecutar. Qed.

Lemma correr_lock_conf {A} (m : M A) w :
  envenenado (conf w) = false →
  correr (lock_conf m) w =
    match m w with
    | (Some a, w') => (Some (Some a), w')
    | (None, w') => (None, con_conf (MkMutex (dato (conf w')) true) w')
    end.
Proof. intros Hw. unfold lock_conf. rewrite correr_atomico. unfold con_cerrojo_conf. by rewrite Hw. Qed.

(** The values [CONFIG GET] answers for a pattern. *)
Lemma get_perm `{Entorno} sem re is_match c :
  regex_new re = Some is_match →
  get sem re c ≡ₚ ('(clave, valor) ← map_to_list (mapa_config c);
                   if is_match clave : bool then [clave; valor] else []).
Proof.
  intros Hre. unfold get, entradas. rewrite Hre. apply bind_Permutation, orden_perm.
Qed.

(** ** Invariants *)

Lemma server_siempre `{Entorno} I `{!Invariante I} c : siempre I (ejecutar c).
Proof.
  assert (∀ A (m : M A), preserva I m → siempre I (lock_conf m)) as Hlock.
  { intros A m Hm. apply siempre_atomico. intros w Hw. unfold con_cerrojo_conf.
    destruct (envenenado (conf w)); [done|]. specialize (Hm w Hw).
    destruct (m w) as [[a|] w']; [done|]. by apply inv_conf. }
  assert (siempre I info).
  { apply siempre_bind; [|done]. apply siempre_atomico. intros w Hw. unfold con_cerrojos.
    by destruct (_ || _). }
  assert (∀ f, preserva I (modificar_conf f)) by (intros f w Hw; by apply inv_conf).
  assert (preserva (dentro I) cantidad_claves) by apply preserva_consultar.
  unfold ejecutar. invariante; unfold dbsize, fconfig, config_get, config_set, fmonitor, ping, flushdb;
    invariante.
Qed.
#[export] Hint Resolve server_siempre : redis.

(** ** Properties *)

(** A configuration file has a line per entry. *)
Definition linea_config (e : string * string) : string := fst e +:+ ": " +:+ snd e.

Definition campo_config (s : string) : bool := sin ":"%char s && linea_limpia s.
Definition entrada_config (e : string * string) : Prop :=
  campo_config (fst e) = true ∧ campo_config (snd e) = true.

Lemma leer_lineas_entradas es m :
  Forall entrada_config es →
  leer_lineas (Some <$> (linea_config <$> es)) m =
    Some (foldl (λ m e, <[fst e := snd e]> m) m es).
Proof.
  intros Hes. revert m. induction Hes as [|[k v] es [Hk Hv] _ IH]; intros m; [done|].
  unfold campo_config in *. apply andb_true_iff in Hk as [Hk _], Hv as [Hv _].
  cbn [fmap list_fmap leer_lineas].
  assert (split_str ": " (linea_config (k, v)) = [k; v]) as ->.
  { unfold linea_config. change (": " +:+ _) with (String ":" " " +:+ v).
    change (split_str ": ") with (split_str (String ":" " ")).
    rewrite split_str_sep by done. by rewrite split_str_sin. }
  cbn [mbind option_bind]. by apply IH.
Qed.

Lemma linea_config_limpia e : entrada_config e → linea_limpia (linea_config e) = true.
Proof.
  destruct e as [k v]. intros [Hk Hv]. unfold campo_config, linea_limpia, linea_config, sin in *.
  cbn [fst snd] in *. rewrite !andb_true_iff in *.
  destruct Hk as (_ & [Hk1 Hk2] & Hk3), Hv as (_ & [Hv1 Hv2] & Hv3).
  rewrite !todos_los_bytes_app, Hk1, Hk2, Hv1, Hv2. split_and!; [done..|].
  by repeat apply utf8_app.
Qed.

(** C35: A configuration file with a line [key: value] per entry is read
    as the map of its entries, the last one of a key winning, and as the default
    configuration when it has none. *)
Theorem config_leida es (Hes : Forall entrada_config es) :
  let mapa := foldl (λ m e, <[fst e := snd e]> m) ∅ es in
  obtener_configuracion (Some (texto (linea_config <$> es))) =
    Some (inr (if bool_decide (mapa = ∅) then new_config else MkConfig mapa None false)).
Proof.
  cbv zeta. unfold obtener_configuracion. rewrite lineas_texto, leer_lineas_entradas by
    (first [done | apply Forall_fmap; eapply Forall_impl; [apply linea_config_limpia|done]]).
  done.
Qed.

Lemma config_leida_witness :
  ∃ c, obtener_configuracion (Some (texto ["port: 7000"; "verbose: 1"; "port: 7001"])) = Some (inr c) ∧
    direccion c = "127.0.0.1:7001" ∧ verbose c = true.
Proof.
  eexists. split.
  - refine (config_leida [("port", "7000"); ("verbose", "1"); ("port", "7001")] _).
    repeat constructor.
  - split; reflexivity.
Defined.
