(* ===== verification/Persistencia.v ===== *)
(** * Persistence (persistencia.rs)

    The thread that writes the table to a file, one line per key, and the reader
    of that file.  The file system is a map from paths to contents; [escribible]
    says which paths [OpenOptions::open] accepts. A [write] to an open file is
    taken to succeed. *)
From S2P Require Import Prelude Rust Datos Efectos Valor.

#[local] Open Scope Z_scope.

Definition STRING := "STRING".
Definition LIST := "LIST".
Definition SET := "SET".
Definition EX := "EX".
Definition SEPARADOR := ":".

(** ** Writing *)

(** The fields after the first, each behind a separator. *)
Definition campos (l : list string) : string := foldr (λ v s, SEPARADOR +:+ v +:+ s) "" l.

Definition con_vida (time : option Z) : string :=
  match time with
  | Some duration => SEPARADOR +:+ EX +:+ SEPARADOR +:+ mostrar (as_secs duration)
  | None => ""
  end.

Section con_entorno.
Context `{Entorno}.

Definition guardar_clave_valor (semilla : Z) (clave : string) (valor : option TipoRedis)
    (time : option Z) : string :=
  match valor with
  | Some (Str valor) =>
      STRING +:+ SEPARADOR +:+ clave +:+ SEPARADOR +:+ valor +:+ con_vida time
  | Some (Lista lista) => LIST +:+ SEPARADOR +:+ clave +:+ campos lista +:+ con_vida time
  | Some (Conjunto s) =>
      SET +:+ SEPARADOR +:+ clave +:+ campos (orden_iteracion semilla (elements s))
        +:+ con_vida time
  | _ => ""
  end.

(** The lines of a table, in the order of its iterator. *)
Definition instrucciones (semilla t : Z) (a_persistir : gmap string Valor) : list string :=
  (λ '(key, val), guardar_clave_valor semilla key (get t val) (get_tiempo val)) <$>
    orden_iteracion semilla (map_to_list a_persistir).
End con_entorno.

Record Disco := MkDisco { archivos : gmap string string; escribible : string → bool }.

(** The file is opened without truncation: the new text overwrites its beginning. *)
Definition sobrescribir (nuevo viejo : string) : string :=
  nuevo +:+ descartar (String.length nuevo) viejo.

(** [None] is the [Err] of [open]. *)
Definition guardar_en_archivo (archivo : string) (ls : list string) (d : Disco) : option Disco :=
  if escribible d archivo
  then Some (MkDisco (<[archivo := sobrescribir (texto ls) (default "" (archivos d !! archivo))]>
                        (archivos d)) (escribible d))
  else None.

(** ** The persistence thread *)

Record PersistidorHandler := MkPersistidorHandler {
  archivo : string;
  intervalo : Z;
  instante : Z;
}.

Definition new_persistidor_handler (a : string) (segundos t : Z) : PersistidorHandler :=
  MkPersistidorHandler a (from_secs segundos) t.

Section con_entorno.
Context `{Entorno}.

(** One turn of the loop of [persistir], at the instant [t]; [None]: the loop
    ends. *)
Definition procesar (semilla t : Z) (mensaje : MensajePersistencia) (h : PersistidorHandler)
    (d : Disco) : option (PersistidorHandler * Disco) :=
  match mensaje with
  | Info a_persistir =>
      if intervalo h <=? elapsed t (instante h) then
        d' ← guardar_en_archivo (archivo h) (instrucciones semilla t a_persistir) d;
        Some (MkPersistidorHandler (archivo h) (intervalo h) t, d')
      else Some (h, d)
  | ArchivoAPersistir a => Some (MkPersistidorHandler a (intervalo h) (instante h), d)
  | CerrarPersistencia => None
  end.

(** The loop over the messages received so far, each with the instant and the
    hashers it is handled with. *)
Fixpoint persistir (mensajes : list (Z * Z * MensajePersistencia)) (h : PersistidorHandler)
    (d : Disco) : PersistidorHandler * Disco :=
  match mensajes with
  | [] => (h, d)
  | (semilla, t, mensaje) :: ms =>
      match procesar semilla t mensaje h d with
      | Some (h', d') => persistir ms h' d'
      | None => (h, d)
      end
  end.
End con_entorno.

(** ** Reading *)

Definition es_expirable (parametros : list string) : bool := bool_decide (EX ∈ parametros).

(** [c[0]] panics when [support] is the last field. *)
Definition obtener_tiempo_expiracion (parametros : list string) (support : string)
    : option (option Z) :=
  c0 ← indexar (segmento_final (λ p, bool_decide (p = support)) parametros) 0;
  Some (parse_u64 c0).

(** The value of a line, with its lifetime if the fields hold [EX]. *)
Definition valor_leido (t : Z) (v : TipoRedis) (elemento : list string) : option Valor :=
  if es_expirable elemento then
    tiempo ← obtener_tiempo_expiracion elemento EX;
    Some (expirable t v (default 0 tiempo))
  else Some (no_expirable t v).

(** [elemento.remove(0); elemento.remove(0)] of a list or a set. *)
Definition leer_coleccion (t : Z) (f : list string → TipoRedis) (elemento : list string)
    (h : gmap string Valor) : option (gmap string Valor) :=
  match elemento with
  | _ :: clave :: elementos =>
      v ← valor_leido t (f elementos) elementos; Some (<[clave := v]> h)
  | _ => None
  end.

(** What a line adds to the table, from its fields. *)
Definition leer_elemento (t : Z) (elemento : list string) (h : gmap string Valor)
    : option (gmap string Valor) :=
  if bool_decide (STRING ∈ elemento) then
    s ← indexar elemento 2;
    v ← valor_leido t (Str s) elemento;
    clave ← indexar elemento 1;
    Some (<[clave := v]> h)
  else if bool_decide (LIST ∈ elemento) then leer_coleccion t Lista elemento h
  else if bool_decide (SET ∈ elemento)
  then leer_coleccion t (λ l, Conjunto (list_to_set l)) elemento h
  else Some h.

Definition leer_linea (t : Z) (line : string) (h : gmap string Valor)
    : option (gmap string Valor) :=
  if bool_decide (line = "") then Some h else leer_elemento t (split_str SEPARADOR line) h.

(** The loop stops at the first line that is not UTF-8; [None]: it panics. *)
Fixpoint levantar_lineas (t : Z) (ls : list (option string)) (h : gmap string Valor)
    : option (gmap string Valor) :=
  match ls with
  | Some line :: ls' => h' ← leer_linea t line h; levantar_lineas t ls' h'
  | _ => Some h
  end.

Definition levantar_tabla (t : Z) (archivo : string) (d : Disco) : option (gmap string Valor) :=
  match archivos d !! archivo with
  | None => Some ∅
  | Some contenido => levantar_lineas t (lineas contenido) ∅
  end.

(** ** Round trip

    A field survives when it holds no separator, no line terminator and no word
    of the format, and is UTF-8. *)
Definition caracter_seguro (a : ascii) : bool :=
  negb (bool_decide (a = ":"%char)) && negb (bool_decide (a = LF)) && negb (bool_decide (a = CR)).

Definition campo_seguro (s : string) : bool :=
  todos_los_bytes caracter_seguro s && utf8_valido s &&
  negb (bool_decide (s ∈ [STRING; LIST; SET; EX])).

Definition tipo_seguro (v : TipoRedis) : bool :=
  match v with
  | Str s => campo_seguro s
  | Lista l => forallb campo_seguro l
  | Conjunto s => forallb campo_seguro (elements s)
  | TCanal _ => false
  end.

(** *** Fields *)

Lemma campo_seguro_bytes s : campo_seguro s = true → todos_los_bytes caracter_seguro s = true.
Proof. unfold campo_seguro. rewrite !andb_true_iff. tauto. Qed.
Lemma campo_seguro_utf8 s : campo_seguro s = true → utf8_valido s = true.
Proof. unfold campo_seguro. rewrite !andb_true_iff. tauto. Qed.
Lemma campo_seguro_palabra s : campo_seguro s = true → s ∉ [STRING; LIST; SET; EX].
Proof. unfold campo_seguro. rewrite !andb_true_iff, negb_true_iff, bool_decide_eq_false. tauto. Qed.

Lemma mostrar_seguro z : todos_los_bytes caracter_seguro (mostrar z) = true.
Proof. by apply mostrar_bytes. Qed.

Lemma campos_app l1 l2 : campos (l1 ++ l2) = campos l1 +:+ campos l2.
Proof.
  induction l1 as [|x l1 IH]; [done|]. cbn [campos foldr app]. fold (campos (l1 ++ l2)) (campos l1).
  by rewrite IH, !string_app_assoc.
Qed.

Lemma split_campos x l :
  Forall (λ s, todos_los_bytes caracter_seguro s = true) (x :: l) →
  split_str SEPARADOR (x +:+ campos l) = x :: l.
Proof.
  assert (∀ s, todos_los_bytes caracter_seguro s = true → sin ":"%char s = true) as Hsin.
  { intros s. apply todos_los_bytes_impl. intros a. unfold caracter_seguro.
    rewrite !andb_true_iff. tauto. }
  revert x. induction l as [|y l IH]; intros x [Hx Hl]%Forall_cons_iff.
  - rewrite string_app_nil_r. by apply split_desde_sin, Hsin.
  - cbn [campos foldr]. fold (campos l). change (SEPARADOR +:+ ?s) with (String ":" s).
    unfold SEPARADOR. rewrite split_str_app by by apply Hsin. f_equal. by apply IH.
Qed.

(** The fields of a line. *)
Definition campos_vida (time : option Z) : list string :=
  match time with Some d => [EX; mostrar (as_secs d)] | None => [] end.

Lemma con_vida_campos time : con_vida time = campos (campos_vida time).
Proof. destruct time; [|done]. cbn [con_vida campos_vida campos foldr]. by rewrite string_app_nil_r. Qed.

Lemma campos_vida_seguros time :
  Forall (λ s, todos_los_bytes caracter_seguro s = true) (campos_vida time).
Proof. destruct time; repeat constructor. apply mostrar_seguro. Qed.

Section lineas.
Context `{Entorno}.

(** The word that starts the line of a value and the fields of its content. *)
Definition palabra (v : TipoRedis) : string :=
  match v with Str _ => STRING | Lista _ => LIST | _ => SET end.
Definition contenido (semilla : Z) (v : TipoRedis) : list string :=
  match v with
  | Str s => [s]
  | Lista l => l
  | Conjunto s => orden_iteracion semilla (elements s)
  | TCanal _ => []
  end.

Lemma contenido_seguro sem v :
  tipo_seguro v = true → Forall (λ s, campo_seguro s = true) (contenido sem v).
Proof.
  destruct v as [s|l|s|c]; cbn; try done.
  - intros Hs. repeat constructor. done.
  - intros Hl. by apply Forall_forall, forallb_forall.
  - intros Hl. rewrite orden_perm. by apply Forall_forall, forallb_forall.
Qed.

Lemma guardar_clave_valor_campos sem k v time :
  tipo_seguro v = true →
  guardar_clave_valor sem k (Some v) time =
    palabra v +:+ campos (k :: contenido sem v ++ campos_vida time).
Proof.
  destruct v as [s|l|s|c]; cbn [guardar_clave_valor palabra contenido]; try done; intros _;
    rewrite con_vida_campos, app_comm_cons, campos_app;
    cbn [campos foldr]; fold campos; by rewrite ?string_app_nil_r, ?string_app_assoc.
Qed.
End lineas.

(** *** Lines *)

(** What a line is read back as: the lifetime of a string is restored, that of a
    list or set comes back with two elements more. *)
Definition valor_restaurado (t : Z) (v : TipoRedis) (time : option Z) : Valor :=
  match time with
  | None => no_expirable t v
  | Some d =>
      expirable t match v with
                  | Lista l => Lista (l ++ campos_vida time)
                  | Conjunto s => Conjunto (s ∪ list_to_set (campos_vida time))
                  | _ => v
                  end (as_secs d)
  end.

Definition duracion_ok (time : option Z) : Prop :=
  match time with Some d => 0 ≤ as_secs d ≤ u64_max | None => True end.

Lemma valor_leido_vida t v xs time :
  EX ∉ xs → duracion_ok time →
  valor_leido t v (xs ++ campos_vida time) =
    Some match time with Some d => expirable t v (as_secs d) | None => no_expirable t v end.
Proof.
  intros Hxs Ht. unfold valor_leido, es_expirable. destruct time as [d|]; cbn [campos_vida].
  - rewrite bool_decide_eq_true_2 by set_solver. unfold obtener_tiempo_expiracion.
    rewrite segmento_final_app.
    + cbn [indexar]. change (indexar [mostrar (as_secs d)] 0) with (Some (mostrar (as_secs d))).
      cbn [mbind option_bind]. unfold parse_u64. by rewrite parse_mostrar by (cbn in Ht; lia).
    + by apply bool_decide_eq_true_2.
    + cbn. rewrite orb_false_r. apply bool_decide_eq_false_2. intros Heq.
      pose proof (mostrar_seguro (as_secs d)) as Hm.
      assert (parse_u64 (mostrar (as_secs d)) = Some (as_secs d)) as Hp
        by (apply parse_mostrar; cbn in Ht; lia).
      rewrite Heq in Hp. done.
  - rewrite app_nil_r. by rewrite bool_decide_eq_false_2.
Qed.

Section lineas_leidas.
Context `{Entorno}.

Lemma campos_sin_palabras xs p :
  Forall (λ s, campo_seguro s = true) xs → p ∈ [STRING; LIST; SET; EX] → p ∉ xs.
Proof.
  intros Hxs Hp Hin. rewrite Forall_forall in Hxs.
  by apply (campo_seguro_palabra p); [apply Hxs, list_elem_of_In|].
Qed.

Lemma campos_vida_sin_palabras time p : p ∈ [STRING; LIST; SET] → p ∉ campos_vida time.
Proof.
  intros Hp Hin. destruct time as [d|]; [|by apply elem_of_nil in Hin].
  assert (parse_natural p ≠ None ∨ ∃ q, p = String "-" q) as Hn; [|set_unfold].
  2:{ destruct Hp as [->|[->|[->|[]]]]; destruct Hn as [Hn|[q Hn]]; done. }
  cbn in Hin. apply elem_of_cons in Hin as [->|Hin].
  { exfalso. set_unfold. naive_solver. }
  apply list_elem_of_singleton in Hin as ->. unfold mostrar.
  destruct (as_secs d) as [|x|x]; [left; done|left|right].
  - change (pretty (Z.pos x)) with (pretty (N.pos x)). by rewrite pretty_N_digitos.
  - by exists (pretty (N.pos x)).
Qed.

(** Reading the line of a value. *)
Lemma leer_linea_guardada sem t k v time h :
  campo_seguro k = true → tipo_seguro v = true → duracion_ok time →
  leer_linea t (guardar_clave_valor sem k (Some v) time) h =
    Some (<[k := valor_restaurado t v time]> h).
Proof.
  intros Hk Hv Ht. rewrite guardar_clave_valor_campos by done.
  pose proof (contenido_seguro sem v Hv) as Hc.
  assert (Forall (λ s, campo_seguro s = true) (k :: contenido sem v)) as Hkc by by constructor.
  set (xs := contenido sem v ++ campos_vida time).
  assert (split_str SEPARADOR (palabra v +:+ campos (k :: xs)) = palabra v :: k :: xs) as Hs.
  { apply split_campos. constructor; [by destruct v|]. unfold xs.
    rewrite app_comm_cons. apply Forall_app; split; [|apply campos_vida_seguros].
    eapply Forall_impl; [|done]. apply campo_seguro_bytes. }
  assert (∀ p, p ∈ [STRING; LIST; SET] → p ∉ k :: xs) as Hp.
  { intros p Hp. unfold xs. rewrite app_comm_cons, not_elem_of_app.
    split; [apply campos_sin_palabras; set_solver|by apply campos_vida_sin_palabras]. }
  assert (EX ∉ k :: contenido sem v) as HEX by (apply campos_sin_palabras; set_solver).
  unfold leer_linea. rewrite bool_decide_eq_false_2 by by destruct v. rewrite Hs.
  unfold leer_elemento.
  destruct v as [s|l|s|c]; [| | |done]; unfold xs in *; cbn [palabra contenido] in *.
  - rewrite bool_decide_eq_true_2 by set_solver.
    change (indexar _ 2) with (Some s). cbn [mbind option_bind].
    pose proof (valor_leido_vida t (Str s) [STRING; k; s] time) as Hl. cbn [app] in *.
    rewrite Hl by (set_solver || done).
    cbn [mbind option_bind]. change (indexar _ 1) with (Some k). cbn [mbind option_bind].
    by destruct time.
  - rewrite bool_decide_eq_false_2 by (apply not_elem_of_cons; split; [done|apply Hp; set_solver]).
    rewrite bool_decide_eq_true_2 by set_solver. cbn [leer_coleccion].
    rewrite valor_leido_vida by (set_solver || done). cbn [mbind option_bind].
    destruct time; [done|]. by rewrite app_nil_r.
  - rewrite !bool_decide_eq_false_2
      by (apply not_elem_of_cons; split; [done|apply Hp; set_solver]).
    rewrite bool_decide_eq_true_2 by set_solver. cbn [leer_coleccion].
    rewrite valor_leido_vida by (set_solver || done). cbn [mbind option_bind].
    assert (list_to_set (orden_iteracion sem (elements s)) = s) as Hset.
    { rewrite (list_to_set_perm_L _ _ (orden_perm sem _ (elements s))).
      apply list_to_set_elements_L. }
    do 2 f_equal. destruct time; cbn [campos_vida valor_restaurado];
      [by rewrite list_to_set_app_L, Hset|by rewrite app_nil_r, Hset].
Qed.
End lineas_leidas.

Lemma campos_limpios xs :
  Forall (λ s, linea_limpia s = true) xs → linea_limpia (campos xs) = true.
Proof.
  unfold linea_limpia, sin. induction 1 as [|x xs Hx _ IH]; [done|].
  rewrite !andb_true_iff in *. destruct Hx as [[Hx1 Hx2] Hx3], IH as [[IH1 IH2] IH3].
  cbn [campos foldr]. fold (campos xs). rewrite !todos_los_bytes_app, Hx1, Hx2, IH1, IH2.
  split; [done|]. apply utf8_app; [done|]. by apply utf8_app.
Qed.

Lemma seguro_limpio s : todos_los_bytes caracter_seguro s = true → utf8_valido s = true →
  linea_limpia s = true.
Proof.
  intros Hs Hu. unfold linea_limpia. rewrite Hu, andb_true_r, andb_true_iff.
  split; (eapply todos_los_bytes_impl; [|exact Hs]); intros a; unfold caracter_seguro;
    rewrite !andb_true_iff; tauto.
Qed.

(** *** Tables *)

Section tablas.
Context `{Entorno}.

Lemma linea_guardada_limpia sem k v time :
  campo_seguro k = true → tipo_seguro v = true →
  linea_limpia (guardar_clave_valor sem k (Some v) time) = true.
Proof.
  intros Hk Hv. rewrite guardar_clave_valor_campos by done.
  pose proof (contenido_seguro sem v Hv) as Hc.
  assert (linea_limpia (campos (k :: contenido sem v ++ campos_vida time)) = true) as Hl.
  { apply campos_limpios. rewrite app_comm_cons. apply Forall_app. split.
    - assert (Forall (λ s, campo_seguro s = true) (k :: contenido sem v)) as Hkc by by constructor.
      eapply Forall_impl; [|exact Hkc]. intros s Hs. apply seguro_limpio; [by apply campo_seguro_bytes|by apply campo_seguro_utf8].
    - destruct time; repeat constructor.
      apply seguro_limpio; [apply mostrar_seguro|apply mostrar_utf8]. }
  unfold linea_limpia, sin in *. rewrite !andb_true_iff in *. destruct Hl as [[Hl1 Hl2] Hl3].
  rewrite !todos_los_bytes_app, Hl1, Hl2.
  split; [by destruct v|]. apply utf8_app; [by destruct v|done].
Qed.

(** A key whose line is read back: live, and not a channel. *)
Definition sobrevive (t : Z) (v : Valor) : bool :=
  negb (expiro t v) && match valor v with TCanal _ => false | _ => true end.

(** The entries that do not damage the file: those that leave an empty line, and
    those whose fields are safe. *)
Definition entrada_segura (t : Z) (k : string) (v : Valor) : Prop :=
  sobrevive t v = true →
  campo_seguro k = true ∧ tipo_seguro (valor v) = true ∧ duracion_ok (vida_util v).

Definition restaurar (t : Z) (v : Valor) : Valor := valor_restaurado t (valor v) (vida_util v).

(** The table read back at [t'] from the one saved at [t]. *)
Definition tabla_restaurada (t t' : Z) (m : gmap string Valor) : gmap string Valor :=
  restaurar t' <$> base.filter (λ kv, sobrevive t kv.2 = true) m.

Lemma linea_perdida sem t k v :
  sobrevive t v = false → guardar_clave_valor sem k (get t v) (get_tiempo v) = "".
Proof.
  unfold sobrevive, get. rewrite andb_false_iff, negb_false_iff. destruct (expiro t v); [done|].
  intros [|Hc]; [done|]. by destruct (valor v).
Qed.

Lemma sobrevive_get t v : sobrevive t v = true → get t v = Some (valor v).
Proof.
  unfold sobrevive, get. rewrite andb_true_iff, negb_true_iff. by intros [-> _].
Qed.

Lemma levantar_entradas sem t t' l h :
  Forall (λ '(k, v), entrada_segura t k v) l →
  levantar_lineas t' (Some <$> ((λ '(k, v),
      guardar_clave_valor sem k (get t v) (get_tiempo v)) <$> l)) h =
    Some (foldl (λ h '(k, v), <[k := restaurar t' v]> h) h
            (base.filter (λ kv, sobrevive t kv.2 = true) l)).
Proof.
  revert h. induction l as [|[k v] l IH]; intros h Hl; [done|].
  apply Forall_cons_iff in Hl as [Hs Hl]. cbn [fmap list_fmap levantar_lineas].
  destruct (sobrevive t v) eqn:Hv.
  - rewrite filter_cons_True by done. destruct (Hs Hv) as (Hk & Ht & Hd).
    rewrite sobrevive_get by done.
    change (get_tiempo v) with (vida_util v). rewrite leer_linea_guardada by done. by apply IH.
  - rewrite filter_cons_False by (cbn; congruence). rewrite linea_perdida by done. by apply IH.
Qed.

Lemma foldl_insertar (f : Valor → Valor) l (m : gmap string Valor) :
  l ≡ₚ map_to_list m →
  foldl (λ h '(k, v), <[k := f v]> h) ∅ l = f <$> m.
Proof.
  intros Hl.
  assert (∀ l' : list (string * Valor), foldl (λ h '(k, v), <[k := f v]> h) ∅ (rev l') =
    f <$> (list_to_map l' : gmap string Valor)) as Hf.
  { induction l' as [|[k v] l' IH]; cbn [rev list_to_map foldr]; [by rewrite fmap_empty|].
    rewrite foldl_app. cbn [foldl]. rewrite IH.
    change (list_to_map ((k, v) :: l')) with (<[k := v]> (list_to_map l' : gmap string Valor)).
    by rewrite fmap_insert. }
  rewrite <-(rev_involutive l), Hf. f_equal. rewrite <-(list_to_map_to_list m).
  apply list_to_map_proper; [|by rewrite <-Hl, <-Permutation_rev].
  rewrite <-Permutation_rev, Hl. apply NoDup_fst_map_to_list.
Qed.

Lemma filtrar_entradas (P : string * Valor → Prop) `{!∀ x, Decision (P x)} l (m : gmap string Valor) :
  l ≡ₚ map_to_list m → base.filter P l ≡ₚ map_to_list (base.filter P m).
Proof.
  intros ->. apply NoDup_Permutation.
  - apply list.NoDup_filter, NoDup_map_to_list.
  - apply NoDup_map_to_list.
  - intros [k v]. rewrite list_elem_of_filter, !elem_of_map_to_list, map_lookup_filter_Some. tauto.
Qed.

(** Reading a file that holds the lines of a table. *)
Lemma levantar_instrucciones sem t t' (m : gmap string Valor) :
  map_Forall (entrada_segura t) m →
  levantar_lineas t' (lineas (texto (instrucciones sem t m))) ∅ = Some (tabla_restaurada t t' m).
Proof.
  intros Hm.
  assert (Forall (λ '(k, v), entrada_segura t k v)
            (orden_iteracion sem (map_to_list m))) as Hl.
  { rewrite orden_perm. apply Forall_forall. intros [k v] Hin%list_elem_of_In%elem_of_map_to_list.
    by apply Hm. }
  unfold instrucciones. rewrite lineas_texto.
  - rewrite (levantar_entradas sem t t' _ ∅) by done. f_equal.
    by apply foldl_insertar, filtrar_entradas, orden_perm.
  - apply Forall_fmap. eapply Forall_impl; [|exact Hl]. intros [k v] Hs.
    change (linea_limpia (guardar_clave_valor sem k (get t v) (get_tiempo v)) = true).
    destruct (sobrevive t v) eqn:Hv; [|by rewrite linea_perdida].
    destruct (Hs Hv) as (Hk & Ht & _). rewrite sobrevive_get by done.
    by apply linea_guardada_limpia.
Qed.
End tablas.

(** *** What the file does to a table

    Saving a table without keys writes nothing: the file is not truncated. *)
Lemma guardar_vacio `{Entorno} sem t a d viejo :
  escribible d a = true → archivos d !! a = Some viejo →
  ∃ d', guardar_en_archivo a (instrucciones sem t ∅) d = Some d' ∧ archivos d' !! a = Some viejo.
Proof.
  intros Ha Hd. unfold guardar_en_archivo. rewrite Ha, Hd. eexists. split; [done|]. cbn [archivos].
  rewrite lookup_insert_eq. unfold instrucciones. rewrite map_to_list_empty.
  pose proof (orden_perm sem _ (@nil (string * Valor))) as Hp.
  apply Permutation_nil_r in Hp. by rewrite Hp.
Qed.

(** The line of a list whose last element is [EX] makes the reader panic. *)
Section linea_ex.
Context `{Entorno}.

Lemma linea_ex_campos sem k l :
  guardar_clave_valor sem k (Some (Lista (l ++ [EX]))) None = LIST +:+ campos (k :: l ++ [EX]).
Proof. cbn [guardar_clave_valor con_vida campos foldr]. by rewrite string_app_nil_r. Qed.

Lemma leer_linea_ex sem t k l h :
  campo_seguro k = true → tipo_seguro (Lista l) = true →
  leer_linea t (guardar_clave_valor sem k (Some (Lista (l ++ [EX]))) None) h = None.
Proof.
  intros Hk Hl. rewrite linea_ex_campos.
  assert (Forall (λ s, campo_seguro s = true) (k :: l)) as Hkl
    by (constructor; [done|]; by apply Forall_forall, forallb_forall).
  unfold leer_linea. rewrite bool_decide_eq_false_2 by done. rewrite split_campos.
  2:{ constructor; [done|]. rewrite app_comm_cons. apply Forall_app. split; [|by repeat constructor].
      eapply Forall_impl; [|exact Hkl]. apply campo_seguro_bytes. }
  assert (∀ p, p ∈ [STRING; LIST; SET; EX] → p ∉ k :: l) as Hp by (intros p; by apply campos_sin_palabras).
  assert (STRING ∉ k :: l) by (apply Hp; set_solver).
  unfold leer_elemento. rewrite bool_decide_eq_false_2 by set_solver.
  rewrite bool_decide_eq_true_2 by set_solver. cbn [leer_coleccion].
  unfold valor_leido, es_expirable. rewrite bool_decide_eq_true_2 by set_solver.
  unfold obtener_tiempo_expiracion. rewrite segmento_final_app; [done| |done].
  by apply bool_decide_eq_true_2.
Qed.


Lemma linea_ex_limpia sem k l :
  campo_seguro k = true → tipo_seguro (Lista l) = true →
  linea_limpia (guardar_clave_valor sem k (Some (Lista (l ++ [EX]))) None) = true.
Proof.
  intros Hk Hl. rewrite linea_ex_campos. change (LIST +:+ campos ?x) with ("LIST" +:+ campos x).
  assert (linea_limpia (campos (k :: l ++ [EX])) = true) as Hc.
  { apply campos_limpios. rewrite app_comm_cons. apply Forall_app. split; [|by repeat constructor].
    assert (Forall (λ s, campo_seguro s = true) (k :: l)) as Hkl
      by (constructor; [done|]; by apply Forall_forall, forallb_forall).
    eapply Forall_impl; [|exact Hkl]. intros s Hs.
    apply seguro_limpio; [by apply campo_seguro_bytes|by apply campo_seguro_utf8]. }
  unfold linea_limpia, sin in *. rewrite !andb_true_iff in *. destruct Hc as [[H1 H2] H3].
  rewrite !todos_los_bytes_app, H1, H2. split; [done|]. by apply utf8_app.
Qed.

(** A table with such a list, and otherwise with entries the file can hold, cannot be
    read back. *)
Definition entrada_ex (l : list string) (v : Valor) : Prop :=
  valor v = Lista (l ++ [EX]) ∧ vida_util v = None.

Lemma linea_entrada_ex sem t k l v :
  entrada_ex l v → guardar_clave_valor sem k (get t v) (get_tiempo v) =
    guardar_clave_valor sem k (Some (Lista (l ++ [EX]))) None.
Proof. intros [Hv Ht]. unfold get, expiro. change (get_tiempo v) with (vida_util v). by rewrite Ht, Hv. Qed.

Lemma levantar_ex sem t t' k l es h :
  campo_seguro k = true → tipo_seguro (Lista l) = true →
  Forall (λ '(k', v), entrada_segura t k' v ∨ k' = k ∧ entrada_ex l v) es →
  Exists (λ '(k', v), k' = k ∧ entrada_ex l v) es →
  levantar_lineas t' (Some <$> ((λ '(k, v), guardar_clave_valor sem k (get t v) (get_tiempo v)) <$> es)) h = None.
Proof.
  intros Hk Hl Hes Hex. revert h. induction Hex as [[k' v] es [-> Hv]|[k' v] es Hex IH]; intros h;
    cbn [fmap list_fmap levantar_lineas].
  - rewrite (linea_entrada_ex sem t k l v Hv). by rewrite leer_linea_ex.
  - apply Forall_cons_iff in Hes as [[Hs|[-> Hv]] Hes].
    + destruct (sobrevive t v) eqn:Hso.
      * destruct (Hs Hso) as (Hk' & Ht & Hd). rewrite sobrevive_get by done.
        change (get_tiempo v) with (vida_util v). rewrite leer_linea_guardada by done. by apply IH.
      * rewrite linea_perdida by done. by apply IH.
    + rewrite (linea_entrada_ex sem t k l v Hv). by rewrite leer_linea_ex.
Qed.

Lemma levantar_tabla_ex sem t t' m k l v :
  campo_seguro k = true → tipo_seguro (Lista l) = true → m !! k = Some v → entrada_ex l v →
  map_Forall (λ k' v, k' ≠ k → entrada_segura t k' v) m →
  levantar_lineas t' (lineas (texto (instrucciones sem t m))) ∅ = None.
Proof.
  intros Hk Hl Hm Hv Hs.
  assert (Forall (λ '(k', v), entrada_segura t k' v ∨ k' = k ∧ entrada_ex l v)
            (orden_iteracion sem (map_to_list m))) as Hes.
  { rewrite orden_perm. apply Forall_forall. intros [k' v'] Hin%list_elem_of_In%elem_of_map_to_list.
    destruct (decide (k' = k)) as [->|]; [right; split; congruence|left; by apply (Hs k')]. }
  unfold instrucciones. rewrite lineas_texto.
  - apply (levantar_ex sem t t' k l); [done..|]. rewrite orden_perm. apply list.Exists_exists.
    exists (k, v). split; [by apply elem_of_map_to_list|done].
  - apply Forall_fmap. eapply Forall_impl; [|exact Hes]. intros [k' v'] Hx.
    change (linea_limpia (guardar_clave_valor sem k' (get t v') (get_tiempo v')) = true).
    destruct Hx as [Hx|[-> Hx]]; [|rewrite (linea_entrada_ex sem t k l v' Hx); by apply linea_ex_limpia].
    destruct (sobrevive t v') eqn:Hso; [|by rewrite linea_perdida].
    destruct (Hx Hso) as (Hk' & Ht & _). rewrite sobrevive_get by done. by apply linea_guardada_limpia.
Qed.
End linea_ex.

(** ** Properties *)

(** C25: Saving a table to a new file and reading it back
    gives each live key its value again, provided its fields hold
    no separator, terminator or word of the format; expired keys and channels are
    not there. The lifetime of a string starts again; a list or a set with a
    lifetime comes back with two elements more, the word [EX] and the seconds. *)
Theorem persistencia_ida_y_vuelta `{Entorno} sem t t' a m d
    (Ha : escribible d a = true) (Hd : archivos d !! a = None)
    (Hm : map_Forall (entrada_segura t) m) :
  ∃ d', guardar_en_archivo a (instrucciones sem t m) d = Some d' ∧
    levantar_tabla t' a d' = Some (tabla_restaurada t t' m).
Proof.
  unfold guardar_en_archivo. rewrite Ha, Hd. eexists. split; [done|].
  unfold levantar_tabla. cbn [archivos]. rewrite lookup_insert_eq. cbn [default from_option].
  unfold sobrescribir. change (id "") with "".
  assert (∀ n, descartar n "" = "") as -> by by intros [].
  rewrite string_app_nil_r. by apply (levantar_instrucciones sem t).
Qed.

Definition tabla_prueba : gmap string Valor :=
  {["k" := no_expirable 0 (Str "v"); "l" := expirable 0 (Lista ["a"]) 9;
    "x" := expirable 0 (Str "v") 0]}.

Lemma tabla_prueba_segura : map_Forall (entrada_segura 5) tabla_prueba.
Proof.
  repeat apply map_Forall_insert_2; [| | |apply map_Forall_empty];
    intros Hs; (split_and!; [reflexivity..|]); cbn; try done; vm_compute; split; discriminate.
Qed.

Lemma persistencia_ida_y_vuelta_witness :
  let d := MkDisco ∅ (λ _, true) in
  ∃ d', @guardar_en_archivo "f" (@instrucciones entorno_prueba 0 5 tabla_prueba) d = Some d' ∧
    levantar_tabla 8 "f" d' = Some {["k" := no_expirable 8 (Str "v");
                                     "l" := expirable 8 (Lista ["a"; "EX"; "9"]) 9]}.
Proof.
  refine (@persistencia_ida_y_vuelta entorno_prueba 0 5 8 "f" tabla_prueba
    (MkDisco ∅ (λ _, true)) eq_refl eq_refl tabla_prueba_segura).
Defined.

(** C37: The tables notified before the interval has passed
    since the last save are discarded: none of them reaches the file. *)
Theorem notificaciones_descartadas `{Entorno} ms h d
    (Hms : Forall (λ '(_, t, m), elapsed t (instante h) < intervalo h ∧ ∃ tabla, m = Info tabla) ms) :
  persistir ms h d = (h, d).
Proof.
  induction Hms as [|[[sem t] m] ms [Ht [tb ->]] _ IH]; [done|]. cbn [persistir procesar].
  by rewrite (proj2 (Z.leb_gt _ _)).
Qed.

Lemma notificaciones_descartadas_witness :
  persistir (H := entorno_prueba) [(0, 5, Info {["k" := no_expirable 0 (Str "v")]})]
    (new_persistidor_handler "f" 1 0) (MkDisco ∅ (λ _, true))
  = (new_persistidor_handler "f" 1 0, MkDisco ∅ (λ _, true)).
Proof.
  refine (@notificaciones_descartadas entorno_prueba
    [(0, 5, Info {["k" := no_expirable 0 (Str "v")]})] (new_persistidor_handler "f" 1 0)
    (MkDisco ∅ (λ _, true)) _).
  repeat constructor. by eexists.
Defined.
