(* ===== verification/Log.v ===== *)
(** * The log thread (log_handler.rs, redis_error.rs)

    The thread that appends the messages to the log file and forwards them to the
    clients in monitor mode. A log line is written whole or its [writeln!] fails,
    as [escribible] says. *)
From S2P Require Import Prelude Rust Datos Efectos Valor ComandoInfo Cliente.
From S2P Require Canal.
From S2P Require Import Persistencia.

#[local] Open Scope Z_scope.

(** [Display for RedisError]. *)
Definition mostrar_error (e : RedisError) : string :=
  match e with
  | Server => "ServerError error del servidor"
  | Coneccion => "ConeccionError no se ha podido establecer conexion"
  | Inicializacion =>
      "InicializacionError no se ha podido inicializar el servidor en el puerto especificado"
  end.

(** [Box<dyn TipoLog + Send>]. *)
Inductive TipoLog := LogEscritor | LogVerbose.

Definition set_verbose (verbose : bool) : TipoLog := if verbose then LogVerbose else LogEscritor.

Record LogHandler := MkLogHandler { ruta : string; canal : Canal; tipo_log : TipoLog }.

Definition new_log_handler (r : string) (verbose : bool) : LogHandler :=
  MkLogHandler r (Canal.new_canal "monitor") (set_verbose verbose).

(** The file system and what was printed. *)
Record Salida := MkSalida { disco : Disco; impreso : list string }.

(** [escribir]: the file is opened for appending; [None] is an error. *)
Definition escribir (r linea : string) (s : Salida) : option Salida :=
  let d := disco s in
  if escribible d r
  then Some (MkSalida (MkDisco (<[r := default "" (archivos d !! r) +:+ linea +:+ String LF ""]>
                                  (archivos d)) (escribible d)) (impreso s))
  else None.

(** The trait method [TipoLog::logear]: what was printed stays printed when the
    write fails. *)
Definition logear_tipo (t : TipoLog) (r linea : string) (s : Salida) : Salida * bool :=
  let s := match t with
           | LogEscritor => s
           | LogVerbose => MkSalida (disco s) (impreso s ++ [linea])
           end in
  match escribir r linea s with Some s' => (s', true) | None => (s, false) end.

(** What follows the [match] of the loop: the line goes to the monitors and to the
    file; whether the loop goes on. *)
Definition logear_linea (linea : string) (h : LogHandler) (s : Salida)
    : M (LogHandler * Salida * bool) :=
  '(_, canal') ← Canal.publicar (canal h) linea;
  let '(s', ok) := logear_tipo (tipo_log h) (ruta h) linea s in
  mret (MkLogHandler (ruta h) canal' (tipo_log h), s', ok).

(** One turn of the loop of [logear]. *)
Definition logear_mensaje (m : Mensaje) (h : LogHandler) (s : Salida)
    : M (LogHandler * Salida * bool) :=
  match m with
  | InfoComando addr comando => logear_linea (addr +:+ " " +:+ descripcion comando) h s
  | InfoError addr error => logear_linea (addr +:+ " " +:+ mostrar_error error) h s
  | InfoConeccion addr mensaje => logear_linea (addr +:+ " " +:+ mensaje) h s
  | SetVerbose b => mret (MkLogHandler (ruta h) (canal h) (set_verbose b), s, true)
  | Monitor c =>
      canal' ← Canal.suscribirse (canal h) c;
      mret (MkLogHandler (ruta h) canal' (tipo_log h), s, true)
  | ArchivoALogear a => mret (MkLogHandler a (canal h) (tipo_log h), s, true)
  | CerrarLog => mret (h, s, false)
  end.

Fixpoint logear (ms : list Mensaje) (h : LogHandler) (s : Salida) : M (LogHandler * Salida) :=
  match ms with
  | [] => mret (h, s)
  | m :: ms' =>
      '(h', s', sigue) ← logear_mensaje m h s;
      if sigue : bool then logear ms' h' s' else mret (h', s')
  end.

(** ** The log file *)

(** The line of a message that is logged. *)
Definition a_logear (m : Mensaje) : option string :=
  match m with
  | InfoComando addr comando => Some (addr +:+ " " +:+ descripcion comando)
  | InfoError addr error => Some (addr +:+ " " +:+ mostrar_error error)
  | InfoConeccion addr mensaje => Some (addr +:+ " " +:+ mensaje)
  | _ => None
  end.

(** The messages that are logged while the file does not change. *)
Definition lineas_log (ms : list Mensaje) : list string := omap a_logear ms.

(** A message that neither ends the thread nor moves it from the file [r]. *)
Definition sin_cierre (r : string) (m : Mensaje) : bool :=
  match m with CerrarLog => false | ArchivoALogear a => bool_decide (a = r) | _ => true end.

Lemma texto_app l1 l2 : texto (l1 ++ l2) = texto l1 +:+ texto l2.
Proof.
  induction l1 as [|x l1 IH]; [done|]. cbn [app texto foldr]. fold (texto (l1 ++ l2)) (texto l1).
  by rewrite IH, string_app_assoc.
Qed.

(** What the log file holds after the messages, in order and without loss. *)
Definition registrado (s s' : Salida) (r : string) (ls : list string) : Prop :=
  escribible (disco s') = escribible (disco s) ∧
  default "" (archivos (disco s') !! r) = default "" (archivos (disco s) !! r) +:+ texto ls.

Lemma registrado_nada s r : registrado s s r [].
Proof. split; [done|]. cbn. by rewrite string_app_nil_r. Qed.

Lemma registrado_trans s1 s2 s3 r l1 l2 :
  registrado s1 s2 r l1 → registrado s2 s3 r l2 → registrado s1 s3 r (l1 ++ l2).
Proof.
  intros [H1 E1] [H2 E2]. split; [congruence|]. by rewrite E2, E1, texto_app, string_app_assoc.
Qed.

Lemma logear_tipo_registrado t r linea s :
  escribible (disco s) r = true →
  ∃ s', logear_tipo t r linea s = (s', true) ∧ registrado s s' r [linea].
Proof.
  intros Hr. unfold logear_tipo, escribir.
  destruct t; cbn [disco]; rewrite Hr; (eexists; split; [done|]; split; [done|]);
    cbn; by rewrite lookup_insert_eq.
Qed.

Lemma logear_linea_registrado l h s w :
  escribible (disco s) (ruta h) = true →
  ∃ h' s' w', logear_linea l h s w = (Some (h', s', true), w') ∧ ruta h' = ruta h ∧
    registrado s s' (ruta h) [l] ∧ mismos_datos w w'.
Proof.
  intros Hs. destruct (Canal.publicar_datos (canal h) l w) as (c' & w' & Hp & Hd).
  destruct (logear_tipo_registrado (tipo_log h) (ruta h) l s Hs) as (s' & Hl & Hr).
  unfold logear_linea. rewrite m_bind_eq, Hp. cbv beta iota. rewrite Hl.
  by exists (MkLogHandler (ruta h) c' (tipo_log h)), s', w'.
Qed.

Lemma logear_mensaje_registrado m h s w :
  sin_cierre (ruta h) m = true → escribible (disco s) (ruta h) = true →
  ∃ h' s' w', logear_mensaje m h s w = (Some (h', s', true), w') ∧ ruta h' = ruta h ∧
    registrado s s' (ruta h) (option_list (a_logear m)) ∧ mismos_datos w w'.
Proof.
  intros Hm Hs. pose proof mismos_datos_refl. pose proof registrado_nada.
  destruct m as [addr c|addr e|addr x|b|c|a|]; cbn [logear_mensaje a_logear option_list]; try done.
  1-3: by apply logear_linea_registrado.
  - by eexists (MkLogHandler _ _ _), s, w.
  - destruct (Canal.suscribirse_datos (canal h) c w) as (w' & Hp & Hd).
    rewrite m_bind_eq, Hp. by eexists (MkLogHandler _ _ _), s, w'.
  - apply bool_decide_eq_true in Hm as ->. by eexists (MkLogHandler _ _ _), s, w.
Qed.

(** Whatever the files do, a turn of the loop does not panic and touches only what the
    monitors receive; the closing message ends the loop. *)
Lemma logear_mensaje_datos m h s w :
  ∃ h' s' sigue w', logear_mensaje m h s w = (Some (h', s', sigue), w') ∧ mismos_datos w w' ∧
    (m = CerrarLog → sigue = false).
Proof.
  pose proof mismos_datos_refl.
  assert (∀ l, ∃ h' s' sigue w', logear_linea l h s w = (Some (h', s', sigue), w') ∧ mismos_datos w w')
    as Hlin.
  { intros l. unfold logear_linea. destruct (Canal.publicar_datos (canal h) l w) as (c' & w' & Hp & Hd).
    rewrite m_bind_eq, Hp. cbv beta iota. destruct (logear_tipo _ _ _ _). by eauto 10. }
  destruct m as [addr c|addr e|addr x|b|c|a|]; cbn [logear_mensaje].
  1-3: match goal with |- context [logear_linea ?l _ _ _] => destruct (Hlin l) as (? & ? & ? & ? & -> & ?) end.
  5: destruct (Canal.suscribirse_datos (canal h) c w) as (w' & Hp & Hd);
    rewrite m_bind_eq, Hp.
  all: eexists _, _, _, _; split_and!; [done|done|by intros].
Qed.

Lemma logear_registrado ms h s w :
  forallb (sin_cierre (ruta h)) ms = true → escribible (disco s) (ruta h) = true →
  ∃ h' s' w', logear ms h s w = (Some (h', s'), w') ∧
    registrado s s' (ruta h) (lineas_log ms) ∧ mismos_datos w w'.
Proof.
  revert h s w. induction ms as [|m ms IH]; intros h s w Hms Hs.
  { exists h, s, w. split_and!; [done|apply registrado_nada|apply mismos_datos_refl]. }
  cbn [forallb] in Hms. apply andb_true_iff in Hms as [Hm Hms].
  destruct (logear_mensaje_registrado m h s w Hm Hs) as (h1 & s1 & w1 & Hl & Hr & Hg & Hd).
  destruct (IH h1 s1 w1) as (h2 & s2 & w2 & Hl2 & Hg2 & Hd2); [by rewrite Hr|destruct Hg; congruence|].
  rewrite Hr in Hg2. exists h2, s2, w2. cbn [logear]. rewrite m_bind_eq, Hl. cbv beta iota.
  split_and!; [done| |by eapply mismos_datos_trans].
  replace (lineas_log (m :: ms)) with (option_list (a_logear m) ++ lineas_log ms)
    by (unfold lineas_log; cbn [omap list_omap]; by destruct (a_logear m)).
  by eapply registrado_trans.
Qed.

(** ** Properties *)

(** C39: While the thread stays on a file that can be written, every logged
    message adds its line to the log file, in the order of the messages, whatever
    the monitors do; messages that only set up the thread add nothing. *)
Theorem log_completo ms h s w
    (Hms : forallb (sin_cierre (ruta h)) ms = true) (Hs : escribible (disco s) (ruta h) = true) :
  ∃ h' s' w', logear ms h s w = (Some (h', s'), w') ∧
    default "" (archivos (disco s') !! ruta h) =
      default "" (archivos (disco s) !! ruta h) +:+ texto (lineas_log ms).
Proof.
  destruct (logear_registrado ms h s w Hms Hs) as (h' & s' & w' & Hl & [_ Hr] & _).
  by exists h', s', w'.
Qed.

Lemma log_completo_witness :
  ∃ h' s' w', logear [InfoConeccion "Token: 0" "hola"; SetVerbose true; InfoError "Token: 0" Server]
      (new_log_handler "f" false) (MkSalida (MkDisco ∅ (λ _, true)) []) mundo_vacio = (Some (h', s'), w') ∧
    default "" (archivos (disco s') !! "f") =
      texto ["Token: 0 hola"; "Token: 0 ServerError error del servidor"].
Proof.
  exact (log_completo [InfoConeccion "Token: 0" "hola"; SetVerbose true; InfoError "Token: 0" Server]
    (new_log_handler "f" false) (MkSalida (MkDisco ∅ (λ _, true)) []) mundo_vacio eq_refl eq_refl).
Defined.
