(* ===== verification/Comando.v ===== *)
(** * Dispatch and client threads (comando.rs, comando_nulo_handler.rs, redis.rs)

    The choice of the handler, the thread that serves a client, and the properties
    of the whole server over its interleavings. *)
From S2P Require Import Prelude Rust Datos Efectos Valor ComandoInfo Cliente BaseDeDatos Refinamiento.
From S2P Require Parser.
From S2P Require ComandoString ComandoList ComandoSet ComandoKey PubSub Configuracion.

#[local] Open Scope Z_scope.

(** [comando_nulo]. *)
Definition comando_nulo (comando : ComandoInfo) : Prog ResultadoRedis :=
  mret (Error ("ComandoError '" +:+ descripcion comando +:+ "' no existe")).

(** The boxed handlers of [crear_comando_handler], with what each captures. *)
Inductive ComandoHandler :=
  | ComandoNuloHandler (comando : ComandoInfo)
  | ComandoStringHandler (comando : ComandoInfo)
  | ComandoSetHandler (comando : ComandoInfo)
  | ComandoKeyHandler (comando : ComandoInfo)
  | ComandoListHandler (comando : ComandoInfo)
  | ComandoPubSubHandler (comando : ComandoInfo) (cliente : Cliente)
  | ComandoServerHandler (comando : ComandoInfo).

Definition crear_comando_handler (comando : ComandoInfo) (cliente : Cliente) : ComandoHandler :=
  let nombre := get_nombre comando in
  if negb (soporta_comando cliente nombre) then ComandoNuloHandler comando
  else if ComandoString.es_comando_string nombre then ComandoStringHandler comando
  else if ComandoSet.es_comando_set nombre then ComandoSetHandler comando
  else if ComandoKey.es_comando_key nombre then ComandoKeyHandler comando
  else if ComandoList.es_comando_list nombre then ComandoListHandler comando
  else if PubSub.es_comando_pubsub nombre then ComandoPubSubHandler comando cliente
  else if Configuracion.es_comando_server nombre then ComandoServerHandler comando
  else ComandoNuloHandler comando.

Section con_entorno.
Context `{Entorno}.

(** The trait method [ComandoHandler::ejecutar]. *)
Definition ejecutar_handler (h : ComandoHandler) : Prog ResultadoRedis :=
  match h with
  | ComandoNuloHandler c => comando_nulo c
  | ComandoStringHandler c => ComandoString.ejecutar c
  | ComandoSetHandler c => ComandoSet.ejecutar c
  | ComandoKeyHandler c => ComandoKey.ejecutar c
  | ComandoListHandler c => ComandoList.ejecutar c
  | ComandoPubSubHandler c cliente => PubSub.ejecutar c cliente
  | ComandoServerHandler c => Configuracion.ejecutar c
  end.

Definition manejar_comando (entrada : ComandoInfo) (cliente : Cliente) : Prog ResultadoRedis :=
  ejecutar_handler (crear_comando_handler entrada cliente).

(** ** Serving a request (the body of the loop of [manejar_cliente])

    From the command on: the log message, the handler, the update of the log and
    persistence threads under the configuration lock, and the answer. [inl] is
    the error that ends the connection. *)
Definition log_comando (dir : string) (comando : ComandoInfo) : M () :=
  modificar (λ w, con_log (cola_log w ++ [InfoComando dir comando]) w).

Definition actualizar_seccion (cliente : Cliente) : M () :=
  copia ← consultar (λ w, clonar_cliente w cliente); Configuracion.actualizar copia.

Definition atender (cliente : Cliente) (comando : ComandoInfo) : Prog (RedisError + Cliente) :=
  dir ← atomico (consultar (λ w, obtener_addr w cliente));
  _ ← atomico (log_comando dir comando);
  copia ← atomico (consultar (λ w, clonar_cliente w cliente));
  resultado ← manejar_comando comando copia;
  r ← lock_conf (actualizar_seccion cliente);
  match r with
  | None => mret (inl Server)
  | Some _ =>
      '(enviado, cliente') ← atomico (enviar_resultado cliente resultado);
      mret (match enviado with inl e => inl e | inr _ => inr cliente' end)
  end.

(** ** The loop of [manejar_cliente]

    The loop only ends by an error or when the client is no longer connected, so it
    is cut at the calls that may wait for the peer.  A client thread rests at a
    [Punto]: before the [peek] of [envio_informacion], before the read of
    [obtener_comando], before the [peek] of [esta_conectado], or out of the loop. *)
Inductive Punto :=
  | Asoma (cliente : Cliente)
  | Lee (cliente : Cliente)
  | Comprueba (cliente : Cliente)
  | Fin (cliente : Cliente) (r : RedisError + ()).

(** What the thread does from a point to the next one; [entrada] is what the reader
    of the socket finds. *)
Definition leer (cliente : Cliente) (entrada : option string) : Prog Punto :=
  '(r, cliente) ← atomico (obtener_comando cliente entrada);
  match r with
  | inl e => mret (Fin cliente (inl e))
  | inr None => mret (Asoma cliente)
  | inr (Some comando) =>
      r ← atender cliente comando;
      mret (match r with inl e => Fin cliente (inl e) | inr cliente => Asoma cliente end)
  end.

Definition tramo (p : Punto) (entrada : option string) : Prog Punto :=
  match p with
  | Asoma cliente =>
      envio ← atomico (consultar (λ w, envio_informacion w cliente));
      mret (if envio : bool then Lee cliente else Comprueba cliente)
  | Lee cliente => leer cliente entrada
  | Comprueba cliente =>
      conectado ← atomico (consultar (λ w, esta_conectado w cliente));
      mret (if conectado : bool then Asoma cliente else Fin cliente (inr ()))
  | Fin _ _ => mret p
  end.

(** A whole turn of the loop, and as many turns as inputs are given: at the end of
    them the thread is still in the loop unless one of them left it. *)
Definition vuelta (cliente : Cliente) (entrada : option string) : Prog Punto :=
  p ← tramo (Asoma cliente) entrada; tramo p entrada.

Fixpoint manejar_cliente (cliente : Cliente) (entradas : list (option string)) : Prog Punto :=
  match entradas with
  | [] => mret (Asoma cliente)
  | entrada :: entradas' =>
      p ← vuelta cliente entrada;
      match p with Asoma cliente => manejar_cliente cliente entradas' | _ => mret p end
  end.

(** The thread of a connection ([iniciar]): the loop between its log messages.  The
    address of a client depends only on its token and socket, which no method
    changes. *)
Definition log_coneccion (dir mensaje : string) : M () :=
  modificar (λ w, con_log (cola_log w ++ [InfoConeccion dir mensaje]) w).
Definition log_error (dir : string) (e : RedisError) : M () :=
  modificar (λ w, con_log (cola_log w ++ [InfoError dir e]) w).

Definition inicio_cliente (cliente : Cliente) : Prog Punto :=
  dir ← atomico (consultar (λ w, obtener_addr w cliente));
  _ ← atomico (log_coneccion dir "Se conecto usario");
  mret (Asoma cliente).

(** What follows the loop; a thread that rests in it has nothing else to do yet. *)
Definition despedida (p : Punto) : Prog Punto :=
  match p with
  | Fin cliente r =>
      _ ← (match r with
           | inr _ => mret ()
           | inl e =>
               dir ← atomico (consultar (λ w, obtener_addr w cliente)); atomico (log_error dir e)
           end);
      dir ← atomico (consultar (λ w, obtener_addr w cliente));
      _ ← atomico (log_coneccion dir "se desconecto usuario");
      mret p
  | _ => mret p
  end.

(** The thread from a point of the loop to the next one, or to its end. *)
Definition tramo_hilo (p : Punto) (entrada : option string) : Prog Punto :=
  p ← tramo p entrada; despedida p.

(** The thread when it finds the inputs one after the other and nothing else runs:
    from its start, and from the beginning of a turn. *)
Definition hilo_desde (p : Punto) (entradas : list (option string)) : Prog Punto :=
  match p with
  | Asoma cliente => p ← manejar_cliente cliente entradas; despedida p
  | _ => mret p
  end.
Definition hilo_cliente (cliente : Cliente) (entradas : list (option string)) : Prog Punto :=
  p ← inicio_cliente cliente; hilo_desde p entradas.

(** ** Every handler preserves the invariants of the shared world *)

Lemma manejar_comando_siempre I `{!Invariante I} c cl : siempre I (manejar_comando c cl).
Proof.
  unfold manejar_comando. destruct (crear_comando_handler c cl); cbn [ejecutar_handler].
  - done.
  - apply ComandoString.string_siempre, _.
  - apply ComandoSet.set_siempre, _.
  - apply ComandoKey.key_siempre, _.
  - apply ComandoList.list_siempre, _.
  - by apply PubSub.pubsub_siempre.
  - by apply Configuracion.server_siempre.
Qed.

Lemma atender_siempre I `{!Invariante I} cl c : siempre I (atender cl c).
Proof.
  unfold atender. repeat (apply siempre_bind; [|intros ?]).
  - apply siempre_atomico, preserva_consultar.
  - apply siempre_atomico. intros w Hw. by apply inv_log.
  - apply siempre_atomico, preserva_consultar.
  - by apply manejar_comando_siempre.
  - apply siempre_atomico. intros w Hw. unfold con_cerrojo_conf.
    destruct (envenenado (conf w)); [done|].
    unfold actualizar_seccion, Configuracion.actualizar, modificar.
    rewrite m_bind_eq, consultar_eq. cbn [Configuracion.actualizar_log snd].
    by apply (inv_pers (con_log (cola_log w ++ _) (con_conf _ w))), (inv_log (con_conf _ w)), inv_conf.
  - match goal with |- siempre _ (match ?r with _ => _ end) => destruct r as [[]|] end; [|done].
    apply siempre_bind; [|intros [[] ?]; done]. apply siempre_atomico. intros w Hw.
    match goal with |- context [enviar_resultado ?c ?r w] =>
      destruct (enviar_resultado_datos c r w) as (? & ? & -> & [-> _] & _) end.
    by apply inv_conexiones.
Qed.

Lemma obtener_comando_preserva I `{!Invariante I} c entrada :
  preserva I (obtener_comando c entrada).
Proof. apply PubSub.preserva_mismos_datos; [done|]. apply obtener_comando_datos. Qed.

Lemma leer_siempre I `{!Invariante I} cl e : siempre I (leer cl e).
Proof.
  apply siempre_bind; [by apply siempre_atomico, obtener_comando_preserva|].
  intros [[e'|[c|]] cl']; [done| |done]. apply siempre_bind; [by apply atender_siempre|done].
Qed.

Lemma tramo_siempre I `{!Invariante I} p e : siempre I (tramo p e).
Proof.
  destruct p as [cl|cl|cl|cl r]; cbn [tramo]; [|by apply leer_siempre| |done];
    (apply siempre_bind; [apply siempre_atomico, preserva_consultar|done]).
Qed.

Lemma inicio_cliente_siempre I `{!Invariante I} cl : siempre I (inicio_cliente cl).
Proof.
  apply siempre_bind; [apply siempre_atomico, preserva_consultar|]. intros dir.
  apply siempre_bind; [|done]. apply siempre_atomico. intros w Hw. by apply inv_log.
Qed.

Lemma tramo_hilo_siempre I `{!Invariante I} p e : siempre I (tramo_hilo p e).
Proof.
  assert (∀ l, siempre I (atomico (modificar (λ w, con_log (cola_log w ++ l) w)))) as Hlog.
  { intros l. apply siempre_atomico. intros w Hw. by apply inv_log. }
  assert (∀ A (f : Mundo → A), siempre I (atomico (consultar f))) as Hcon.
  { intros A f. apply siempre_atomico, preserva_consultar. }
  apply siempre_bind; [by apply tramo_siempre|]. intros [cl|cl|cl|cl r]; cbn [despedida]; [done..|].
  apply siempre_bind.
  { destruct r; [|done]. apply siempre_bind; [apply Hcon|]. intros dir. apply Hlog. }
  intros _. apply siempre_bind; [apply Hcon|]. intros dir. apply siempre_bind; [apply Hlog|done].
Qed.

(** The thread of a client, at its start, and how it goes on from a point of the
    loop, whatever the client sends. *)
Definition en_bucle (p : Punto) : bool := match p with Fin _ _ => false | _ => true end.
Definition continua (q : Punto) (p : Prog Punto) : Prop :=
  en_bucle q = true ∧ ∃ entrada, p = tramo_hilo q entrada.
Definition es_cliente (p : Prog Punto) : Prop :=
  (∃ cl, p = inicio_cliente cl) ∨ ∃ q, continua q p.

Lemma es_cliente_siempre I `{!Invariante I} p : es_cliente p → siempre I p.
Proof.
  intros [[cl ->]|(q & _ & e & ->)]; [by apply inicio_cliente_siempre|by apply tramo_hilo_siempre].
Qed.

Lemma clientes_siempre I `{!Invariante I} s s' :
  (∀ w w', ambiente w w' → I w → I w') → (∀ p, Vivo p ∈ hilos s → es_cliente p) → I (mundo s) →
  pasos_bucle es_cliente continua s s' → I (mundo s').
Proof.
  intros Ha Hs HI Hp. eapply siempre_alcanzable; [| |exact Ha| |exact HI|exact Hp].
  - intros p Hc. by apply es_cliente_siempre.
  - intros r p Hc. apply es_cliente_siempre; [done|]. right. by exists r.
  - intros p Hin. by apply es_cliente_siempre, Hs.
Qed.

(** ** Properties *)

(** C10: In every interleaving of any number of client threads
    with each other, with new ones and with the passage of time, each of them going
    round its loop for as long as its client sends anything, the table stays
    well formed: each value was created in the past and its lifetime is a
    non-negative whole number of seconds. *)
Theorem tabla_bien_formada s s'
    (Hs : ∀ p, Vivo p ∈ hilos s → es_cliente p) (Ht : tabla_ok (mundo s))
    (Hp : pasos_bucle es_cliente continua s s') :
  tabla_ok (mundo s').
Proof. exact (clientes_siempre tabla_ok s s' tabla_ok_ambiente Hs Ht Hp). Qed.

(** C11: A poisoned database never changes again and stays poisoned,
    in every interleaving of client threads, however long their loops go on. *)
Theorem base_congelada b s s'
    (Hs : ∀ p, Vivo p ∈ hilos s → es_cliente p) (Hb : base (mundo s) = MkMutex b true)
    (Hp : pasos_bucle es_cliente continua s s') :
  base (mundo s') = MkMutex b true.
Proof.
  refine (clientes_siempre (congelada b) s s' _ Hs Hb Hp).
  intros w w' [Hw _ _ _ _] Hc. unfold congelada in *. congruence.
Qed.

(** C18: On a poisoned database every string, list or set
    command with a parameter answers an error, whatever the client, and changes
    nothing. *)
Theorem base_envenenada_falla n k ps cl w
    (Hw : envenenado (base w) = true)
    (Hn : ComandoString.es_comando_string n || ComandoSet.es_comando_set n
          || ComandoList.es_comando_list n = true) :
  ∃ e, correr (manejar_comando (MkComandoInfo n (k :: ps) 0) cl) w = (Some (Error e), w).
Proof.
  unfold manejar_comando, crear_comando_handler. cbn [get_nombre nombre].
  destruct (negb _); cbn [ejecutar_handler]; [by eexists|].
  destruct (ComandoString.es_comando_string n);
    [by apply ComandoString.string_falla|].
  destruct (ComandoSet.es_comando_set n); [by apply ComandoSet.set_falla|].
  destruct (ComandoKey.es_comando_key n) eqn:Hkey.
  - exfalso. unfold ComandoKey.es_comando_key, ComandoList.es_comando_list in *.
    cbn [orb] in Hn. rewrite bool_decide_eq_true in Hn, Hkey. clear -Hn Hkey.
    set_unfold. destruct_or!; congruence.
  - cbn [orb] in Hn. rewrite Hn. by apply ComandoList.list_falla.
Qed.

(** The commands the server knows. *)
Definition conocido (n : string) : bool :=
  ComandoString.es_comando_string n || ComandoSet.es_comando_set n
  || ComandoKey.es_comando_key n || ComandoList.es_comando_list n
  || PubSub.es_comando_pubsub n || Configuracion.es_comando_server n.

(** A command that the server does not know, or that the
    client may not use, answers an error that shows the command and changes
    nothing; for an HTTP client these include MONITOR and the commands on
    channels. *)
Theorem comando_desconocido c cl w
    (Hc : conocido (nombre c) && soporta_comando cl (nombre c) = false) :
  correr (manejar_comando c cl) w =
    (Some (Error ("ComandoError '" +:+ descripcion c +:+ "' no existe")), w) ∧
  ∀ h, forallb (λ n, negb (soporta_comando (CHttp h) n))
         ["SUBSCRIBE"; "UNSUBSCRIBE"; "PUBLISH"; "PUBSUB"; "MONITOR"] = true.
Proof.
  split; [|done]. unfold manejar_comando, crear_comando_handler, get_nombre, conocido in *.
  destruct (soporta_comando cl (nombre c)); cbn [negb]; [|done].
  rewrite andb_true_r, !orb_false_iff in Hc. destruct Hc as [[[[[-> ->] ->] ->] ->] ->]. done.
Qed.

(** C19: Two concurrent RPUSH on a key can lose one of them: with
    the reads before the writes both answer the same length and only the element
    of the second one is added. *)
Theorem empujes_perdidos nuevos k x y l cr w
    (Hw : envenenado (base w) = false) (Hl : l ≠ []) (Hk : vista w !! k = Some (Lista l)) :
  let largo := ComandoList.largo_isize (l ++ [y]) in
  ∃ w', pasos nuevos
    (MkSistema [Vivo (manejar_comando (MkComandoInfo "RPUSH" [k; x] 0) (CRedis cr));
                Vivo (manejar_comando (MkComandoInfo "RPUSH" [k; y] 0) (CRedis cr))] w)
    (MkSistema [Vivo (Ret (Int largo)); Vivo (Ret (Int largo))] w') ∧
    vista w' = <[k := Lista (l ++ [y])]> (vista w).
Proof.
  intros largo.
  assert (vista w !! k = (if bool_decide (l = []) then None else Some (Lista l))) as Hk'
    by by rewrite bool_decide_eq_false_2.
  set (w1 := guardado k (no_expirable (ahora w) (Lista (l ++ [x]))) w).
  set (w2 := guardado k (no_expirable (ahora w1) (Lista (l ++ [y]))) w1).
  exists w2. split.
  - apply (planificar_pasos _ _ [0; 1; 0; 1]%nat).
    assert (∀ z, manejar_comando (MkComandoInfo "RPUSH" [k; z] 0) (CRedis cr) =
      ComandoList.rpush (MkComandoInfo "RPUSH" [k; z] 0)) as Hm by done.
    rewrite !Hm.
    cbn [planificar hilos mundo lookup list_lookup].
    rewrite (ComandoList.rpush_lee _ k x _ w l) by done.
    cbn [mbind option_bind insert list_insert lookup list_lookup].
    rewrite (ComandoList.rpush_lee _ k y _ w l) by done.
    cbn [mbind option_bind insert list_insert lookup list_lookup].
    rewrite ComandoList.rpush_escribe by done.
    cbn [mbind option_bind insert list_insert lookup list_lookup]. fold w1.
    rewrite ComandoList.rpush_escribe by done.
    cbn [mbind option_bind insert list_insert]. fold w2. unfold largo.
    unfold ComandoList.largo_isize. by rewrite !length_app.
  - unfold w2. rewrite vista_guardado_no_expirable. unfold w1.
    by rewrite vista_guardado_no_expirable, insert_insert_eq.
Qed.
End con_entorno.

(** ** Witnesses *)

Definition cliente_prueba : Cliente := CRedis (MkClienteRedis 0 0 None 0 (Some 1)).

Definition con_socket (w : Mundo) : Mundo :=
  con_conexiones {[1 := MkConexion true (Some 100%nat) (Some 9%nat) None []]} w.

Definition sistema_prueba (w : Mundo) : Sistema Punto :=
  MkSistema [Vivo (inicio_cliente cliente_prueba)] (con_socket w).

Lemma sistema_prueba_clientes w p :
  Vivo p ∈ hilos (sistema_prueba w) → @es_cliente entorno_prueba p.
Proof.
  intros Hin. apply list_elem_of_singleton in Hin. injection Hin as ->. left. by exists cliente_prueba.
Qed.

(** A schedule of one thread: it runs to the next point of its loop, and goes on from
    it with each input. *)
Fixpoint rondas (entradas : list (option string)) (s : Sistema Punto) : option (Sistema Punto) :=
  match hilos s with
  | [Vivo p] =>
      match correr p (mundo s), entradas with
      | (Some q, w), [] => Some (MkSistema [Vivo (Ret q)] w)
      | (Some q, w), e :: es =>
          if en_bucle q then rondas es (MkSistema [Vivo (@tramo_hilo entorno_prueba q e)] w) else None
      | (None, _), _ => None
      end
  | _ => None
  end.

Lemma correr_pasos {R} (nuevos : Prog R → Prop) reanuda p w q w' :
  correr p w = (Some q, w') →
  pasos_bucle nuevos reanuda (MkSistema [Vivo p] w) (MkSistema [Vivo (Ret q)] w').
Proof.
  revert w. induction p as [a|T op k IH]; intros w Hc; cbn [correr] in Hc; [by simplify_eq|].
  destruct (op w) as [[r|] w1] eqn:Hop; [|done]. eapply rtc_l; [|by apply IH].
  eapply (paso_hilo _ _ [_] w 0); [done|]. cbn. by rewrite Hop.
Qed.

Lemma rondas_pasos nuevos es s s' :
  rondas es s = Some s' → pasos_bucle nuevos (@continua entorno_prueba) s s'.
Proof.
  revert s. induction es as [|e es IH]; intros [[|[p|] [|]] w] Hr; cbn [rondas hilos mundo] in Hr;
    try done; destruct (correr p w) as [[q|] w1] eqn:Hc; try done.
  - simplify_eq. by eapply correr_pasos.
  - destruct (en_bucle q) eqn:Hq; [|done]. etrans; [by eapply correr_pasos|].
    eapply rtc_l; [|by apply IH]. eapply (paso_reanuda _ _ [_] w1 0); [done|]. split; [done|by eexists].
Qed.

(** The system after two requests, each with its [peek] and its read. *)
Definition entradas_prueba : list (option string) :=
  [None; Some (Parser.peticion ["SET"; "k"; "v"; "EX"; "5"]); None; Some (Parser.peticion ["GET"; "k"])].
Definition sistema_despues (w : Mundo) : Sistema Punto :=
  default (sistema_prueba w) (rondas entradas_prueba (sistema_prueba w)).

Lemma sistema_despues_tabla :
  vista (mundo (sistema_despues mundo_vacio)) !! "k" = Some (Str "v").
Proof. vm_compute. reflexivity. Qed.

Lemma tabla_bien_formada_witness : tabla_ok (mundo (sistema_despues mundo_vacio)).
Proof.
  refine (@tabla_bien_formada entorno_prueba (sistema_prueba mundo_vacio) _
    (sistema_prueba_clientes _) _ _).
  - apply map_Forall_empty.
  - apply (rondas_pasos _ entradas_prueba). vm_compute. reflexivity.
Defined.

Definition mundo_envenenado : Mundo :=
  con_base (MkMutex (dato (base mundo_vacio)) true) mundo_vacio.

Lemma base_congelada_witness :
  base (mundo (sistema_despues mundo_envenenado)) = MkMutex (dato (base mundo_vacio)) true.
Proof.
  refine (@base_congelada entorno_prueba (dato (base mundo_vacio)) (sistema_prueba mundo_envenenado) _
    (sistema_prueba_clientes _) eq_refl _).
  apply (rondas_pasos _ entradas_prueba). vm_compute. reflexivity.
Defined.

Lemma base_envenenada_falla_witness :
  ∃ e, fst (correr (@manejar_comando entorno_prueba (MkComandoInfo "GET" ["k"] 0) cliente_prueba)
    mundo_envenenado) = Some (Error e).
Proof.
  destruct (@base_envenenada_falla entorno_prueba "GET" "k" [] cliente_prueba
    mundo_envenenado eq_refl eq_refl) as [e He].
  exists e. exact (f_equal fst He).
Defined.

Lemma comando_desconocido_witness :
  fst (correr (@manejar_comando entorno_prueba (MkComandoInfo "HOLA" ["a"] 0) cliente_prueba) mundo_vacio)
    = Some (Error "ComandoError 'HOLA a' no existe").
Proof.
  exact (f_equal fst (proj1 (@comando_desconocido entorno_prueba (MkComandoInfo "HOLA" ["a"] 0)
    cliente_prueba mundo_vacio eq_refl))).
Defined.

Lemma empujes_perdidos_witness :
  ∃ w', pasos (λ _, False)
    (MkSistema [Vivo (@manejar_comando entorno_prueba (MkComandoInfo "RPUSH" ["k"; "x"] 0) cliente_prueba);
                Vivo (@manejar_comando entorno_prueba (MkComandoInfo "RPUSH" ["k"; "y"] 0) cliente_prueba)]
       (mundo_con "k" (Lista ["a"])))
    (MkSistema [Vivo (Ret (Int 2)); Vivo (Ret (Int 2))] w') ∧ vista w' !! "k" = Some (Lista ["a"; "y"]).
Proof.
  destruct (@empujes_perdidos entorno_prueba (λ _, False) "k" "x" "y" ["a"]
    (MkClienteRedis 0 0 None 0 (Some 1)) (mundo_con "k" (Lista ["a"])) eq_refl ltac:(discriminate)
    eq_refl) as (w' & Hp & Hv).
  exists w'. split; [exact Hp|]. rewrite Hv. reflexivity.
Defined.
