(* ===== verification/Especificacion.v ===== *)
(** * The specification of the commands (comando.rs and its handlers)

    [esp_comando] joins the specifications of the handlers into one function on the
    abstract store; [manejar_comando] refines it.  The answers are well typed: a
    client of the protocol can decode each of them. *)
From S2P Require Import Prelude Rust Datos Efectos Valor ComandoInfo Cliente BaseDeDatos Refinamiento.
From S2P Require Parser.
From S2P Require ComandoString ComandoList ComandoSet ComandoKey PubSub Configuracion.
From S2P Require Import Comando.

#[local] Open Scope Z_scope.

Section especificacion.
Context `{Entorno}.

Definition llaves_cubiertas : list string := ["COPY"; "DEL"; "EXISTS"; "RENAME"; "TYPE"].

(** The commands the specification covers: those whose effect is a function of the
    abstract store, and the unknown ones. *)
Definition cubierto (n : string) : bool :=
  ComandoString.es_comando_string n || ComandoSet.es_comando_set n
  || bool_decide (n ∈ llaves_cubiertas) || ComandoList.es_comando_list n
  || bool_decide (n ∈ ["PING"; "FLUSHDB"]) || negb (conocido n).

Definition esp_comando (c : ComandoInfo) (w : Mundo) (m : Estado) : Desenlace :=
  let n := nombre c in
  if ComandoString.es_comando_string n then ComandoString.esp_ejecutar c m
  else if ComandoSet.es_comando_set n then ComandoSet.esp_ejecutar c w m
  else if ComandoKey.es_comando_key n then ComandoKey.esp_ejecutar c w m
  else if ComandoList.es_comando_list n then ComandoList.esp_ejecutar c m
  else if bool_decide (n = "PING") then Responde (StrSimple "PONG") m
  else if bool_decide (n = "FLUSHDB") then Configuracion.esp_flushdb m
  else Responde (Error ("ComandoError '" +:+ descripcion c +:+ "' no existe")) m.

(** ** The server refines the specification *)

Lemma llave_cubierta n : n ∈ llaves_cubiertas → ComandoKey.es_comando_key n = true.
Proof. intros Hn. unfold llaves_cubiertas in Hn. set_unfold. destruct_or!; by subst. Qed.

(** The cases of a covered command, as [crear_comando_handler] tells them apart. *)
Lemma cubierto_casos (P : string → Prop) n :
  cubierto n = true →
  (ComandoString.es_comando_string n = true → P n) →
  (ComandoString.es_comando_string n = false → ComandoSet.es_comando_set n = true → P n) →
  (ComandoString.es_comando_string n = false → ComandoSet.es_comando_set n = false →
   ComandoKey.es_comando_key n = true → n ∈ llaves_cubiertas → P n) →
  (ComandoString.es_comando_string n = false → ComandoSet.es_comando_set n = false →
   ComandoKey.es_comando_key n = false → ComandoList.es_comando_list n = true → P n) →
  P "PING" → P "FLUSHDB" → (conocido n = false → P n) → P n.
Proof.
  unfold cubierto, conocido. intros Hc Hs Hset Hk Hl Hp Hf Hn.
  destruct (ComandoString.es_comando_string n) eqn:E1; [auto|].
  destruct (ComandoSet.es_comando_set n) eqn:E2; [auto|].
  destruct (ComandoKey.es_comando_key n) eqn:E3.
  { apply Hk; [done..|]. cbn [orb negb] in Hc.
    destruct (ComandoList.es_comando_list n) eqn:E4.
    - exfalso. unfold ComandoKey.es_comando_key, ComandoList.es_comando_list in *.
      rewrite bool_decide_eq_true in E3, E4. clear -E3 E4. set_unfold. destruct_or!; congruence.
    - rewrite !orb_false_r, orb_true_iff, !bool_decide_eq_true in Hc.
      destruct Hc as [Hc|Hc]; [done|]. exfalso. unfold ComandoKey.es_comando_key in E3.
      rewrite bool_decide_eq_true in E3. clear -E3 Hc. set_unfold. destruct_or!; congruence. }
  destruct (ComandoList.es_comando_list n) eqn:E4; [auto|]. cbn [orb] in *.
  destruct (PubSub.es_comando_pubsub n || Configuracion.es_comando_server n) eqn:E5.
  - rewrite !orb_true_iff, !bool_decide_eq_true in Hc. destruct Hc as [[[Hc|Hc]|Hc]|Hc]; [|done| |done].
    + apply llave_cubierta in Hc. congruence.
    + clear -Hc Hp Hf. set_unfold. destruct_or!; by subst.
  - by apply Hn.
Qed.

Lemma manejar_comando_cliente_casos c cl :
  cubierto (nombre c) = true → soporta_comando cl (nombre c) = true →
  manejar_comando c cl =
    (let n := nombre c in
     if ComandoString.es_comando_string n then ComandoString.ejecutar c
     else if ComandoSet.es_comando_set n then ComandoSet.ejecutar c
     else if ComandoKey.es_comando_key n then ComandoKey.ejecutar c
     else if ComandoList.es_comando_list n then ComandoList.ejecutar c
     else if bool_decide (n = "PING") then Configuracion.ping
     else if bool_decide (n = "FLUSHDB") then Configuracion.flushdb
     else comando_nulo c).
Proof.
  unfold manejar_comando, crear_comando_handler, get_nombre. intros Hc ->. destruct c as [n ps i].
  cbn [nombre negb] in *. pattern n. apply cubierto_casos; [done|..].
  - by intros ->.
  - by intros -> ->.
  - by intros -> -> -> _.
  - by intros -> -> -> ->.
  - done.
  - done.
  - unfold conocido. rewrite !orb_false_iff. intros [[[[[-> ->] ->] ->] ->] Hs]. rewrite Hs.
    by rewrite !bool_decide_eq_false_2 by (by intros ->).
Qed.

Lemma manejar_comando_casos c cr :
  cubierto (nombre c) = true →
  manejar_comando c (CRedis cr) =
    (let n := nombre c in
     if ComandoString.es_comando_string n then ComandoString.ejecutar c
     else if ComandoSet.es_comando_set n then ComandoSet.ejecutar c
     else if ComandoKey.es_comando_key n then ComandoKey.ejecutar c
     else if ComandoList.es_comando_list n then ComandoList.ejecutar c
     else if bool_decide (n = "PING") then Configuracion.ping
     else if bool_decide (n = "FLUSHDB") then Configuracion.flushdb
     else comando_nulo c).
Proof. intros Hc. by apply manejar_comando_cliente_casos. Qed.

(** The handler does not depend on the client, if it may use the command. *)
Lemma manejar_comando_cliente c cl cr :
  cubierto (nombre c) = true → soporta_comando cl (nombre c) = true →
  manejar_comando c cl = manejar_comando c (CRedis cr).
Proof. intros Hc Hs. by rewrite manejar_comando_casos, manejar_comando_cliente_casos. Qed.

Lemma manejar_comando_esp c cr w :
  cubierto (nombre c) = true → index c = 0%nat → envenenado (base w) = false →
  (ComandoList.es_comando_list (nombre c) = true → ComandoList.listas_cortas (vista w)) →
  cumple w (correr (manejar_comando c (CRedis cr)) w) (esp_comando c w (vista w)).
Proof.
  intros Hc Hi Hw Hl. rewrite manejar_comando_casos by done. unfold esp_comando. cbv zeta.
  generalize Hc. pattern (nombre c). apply cubierto_casos; [done|..].
  - intros -> _. by apply ComandoString.string_esp.
  - intros -> -> _. by apply ComandoSet.set_esp.
  - intros -> -> -> Hn _. by apply ComandoKey.llaves_esp.
  - intros -> -> -> Hls _. rewrite Hls. apply ComandoList.list_esp; [done|by apply Hl].
  - intros _. by apply cumple_igual.
  - intros _. by apply Configuracion.flushdb_refina.
  - unfold conocido. rewrite !orb_false_iff. intros [[[[[-> ->] ->] ->] _] Hs] _.
    rewrite !bool_decide_eq_false_2 by (intros Hn; by rewrite Hn in Hs). by apply cumple_igual.
Qed.

(** A covered command uses nothing but the database. *)
Lemma manejar_comando_base I `{!InvarianteBase I} c cr :
  cubierto (nombre c) = true → siempre I (manejar_comando c (CRedis cr)).
Proof.
  intros Hc. rewrite manejar_comando_casos by done. cbv zeta.
  repeat case_match; first
    [ apply ComandoString.string_siempre, _ | apply ComandoSet.set_siempre, _
    | apply ComandoKey.key_siempre, _ | apply ComandoList.list_siempre, _ | done | idtac ].
  unfold Configuracion.flushdb. invariante.
Qed.
End especificacion.

(** ** The type of the answers *)

(** A value whose strings hold no line feed and whose sizes are those a machine can
    have. *)
Definition representable (v : TipoRedis) : Prop :=
  match v with
  | Str s => Parser.sin_lf s = true ∧ Parser.largo s ≤ i64_max
  | Lista l => Z.of_nat (length l) ≤ i32_max ∧ Forall (λ s, Parser.largo s ≤ i64_max) l
  | Conjunto s => Z.of_nat (size s) ≤ i64_max ∧ set_Forall (λ s, Parser.largo s ≤ i64_max) s
  | TCanal _ => True
  end.
Definition estado_ok (m : Estado) : Prop := map_Forall (λ _ v, representable v) m.

(** A store without line feeds: in its keys, its strings and the elements of its lists
    and sets. *)
Definition sin_saltos (v : TipoRedis) : Prop :=
  match v with
  | Str s => Parser.sin_lf s = true
  | Lista l => Forall (λ s, Parser.sin_lf s = true) l
  | Conjunto s => set_Forall (λ s, Parser.sin_lf s = true) s
  | TCanal _ => True
  end.
Definition limpio (m : Estado) : Prop := map_Forall (λ k v, Parser.sin_lf k = true ∧ sin_saltos v) m.

(** A command as the parser makes it. *)
Record comando_ok (c : ComandoInfo) : Prop := {
  ok_index : index c = 0%nat;
  ok_nombre : Parser.sin_lf (nombre c) = true;
  ok_parametros : Forall Parser.argumento_ok (parametros c);
  ok_cantidad : Z.of_nat (length (parametros c)) ≤ u32_max;
}.

(** A typed ending of a command on [m0]: the answer can be decoded and no line feed
    enters the store. *)
Definition bien_tipado (m0 : Estado) (d : Desenlace) : Prop :=
  match d with
  | Responde r m => Parser.decodificable 2 r = true ∧ (limpio m0 → limpio m)
  | Aborta m | Envenena m => limpio m0 → limpio m
  end.

Create HintDb tipos.
#[local] Hint Opaque como_isize como_i32 mostrar Parser.decodificable Parser.largo Parser.sin_lf
  Parser.argumento_ok ComandoSet.elementos_en_orden Z.min from_option i64_max i64_min i32_max u32_max : tipos.

Lemma limpio_insert m k v :
  limpio m → Parser.sin_lf k = true → sin_saltos v → limpio (<[k := v]> m).
Proof. intros Hm Hk Hv. by apply map_Forall_insert_2. Qed.
Lemma limpio_insert_str m k s :
  limpio m → Parser.sin_lf k = true → Parser.sin_lf s = true → limpio (<[k := Str s]> m).
Proof. intros. by apply limpio_insert. Qed.
Lemma limpio_insert_lista m k l :
  limpio m → Parser.sin_lf k = true → Forall (λ s, Parser.sin_lf s = true) l → limpio (<[k := Lista l]> m).
Proof. intros. by apply limpio_insert. Qed.
Lemma limpio_insert_conjunto m k s :
  limpio m → Parser.sin_lf k = true → set_Forall (λ s, Parser.sin_lf s = true) s →
  limpio (<[k := Conjunto s]> m).
Proof. intros. by apply limpio_insert. Qed.
Lemma limpio_delete m k : limpio m → limpio (delete k m).
Proof. apply map_Forall_delete. Qed.
Lemma limpio_poner_lista m k l :
  limpio m → Parser.sin_lf k = true → Forall (λ s, Parser.sin_lf s = true) l →
  limpio (ComandoList.poner_lista k l m).
Proof. intros. unfold ComandoList.poner_lista. case_bool_decide; [by apply limpio_delete|by apply limpio_insert]. Qed.
Lemma estado_ok_cortas m : estado_ok m → ComandoList.listas_cortas m.
Proof. intros Hm k l Hk. by destruct (Hm _ _ Hk). Qed.


Lemma bulk_decodificable s : Parser.largo s ≤ i64_max → Parser.decodificable 1 (BulkStr s) = true.
Proof. by intros ?%Z.leb_le. Qed.
Lemma decodificable_mas r : Parser.decodificable 1 r = true → Parser.decodificable 2 r = true.
Proof.
  destruct r as [| | |v| | |]; [exact id..| |exact id|exact id|exact id].
  cbn [Parser.decodificable]. rewrite !andb_true_iff. intros [Hl Hv]. split; [exact Hl|].
  destruct v; [reflexivity|discriminate Hv].
Qed.
Lemma vector_decodificable rs :
  Z.of_nat (length rs) ≤ i64_max → Forall (λ r, Parser.decodificable 1 r = true) rs →
  Parser.decodificable 2 (Vector rs) = true.
Proof.
  intros Hl Hrs. cbn [Parser.decodificable]. apply andb_true_iff. split; [by apply Z.leb_le|].
  apply forallb_forall. by apply List.Forall_forall.
Qed.
Lemma bulks_decodificables l :
  Z.of_nat (length l) ≤ i64_max → Forall (λ s, Parser.largo s ≤ i64_max) l →
  Parser.decodificable 2 (Vector (BulkStr <$> l)) = true.
Proof.
  intros Hl Hf. apply vector_decodificable; [by rewrite length_fmap|]. apply Forall_fmap.
  eapply Forall_impl; [|exact Hf]. intros s. apply bulk_decodificable.
Qed.
Lemma isize_decodificable z : Parser.decodificable 2 (Int (como_isize z)) = true.
Proof. apply como_isize_rango. Qed.
Lemma int_decodificable z : i64_min ≤ z ≤ i64_max → Parser.decodificable 2 (Int z) = true.
Proof. by intros ?%en_rango_spec. Qed.

Lemma simple_decodificable s : Parser.sin_lf s = true → Parser.decodificable 2 (StrSimple s) = true.
Proof. done. Qed.
Lemma mostrar_decodificable z : Parser.decodificable 2 (BulkStr (mostrar (como_i32 z))) = true.
Proof.
  apply decodificable_mas, bulk_decodificable. unfold Parser.largo.
  pose proof (mostrar_largo _ (como_i32_rango z)). unfold i64_max. lia.
Qed.

Lemma argumento_sin_lf s : Parser.argumento_ok s → Parser.sin_lf s = true.
Proof. by intros (? & _). Qed.
Lemma argumento_largo s : Parser.argumento_ok s → Parser.largo s ≤ i64_max.
Proof. intros (_ & _ & H1). unfold u32_max, i64_max in *. lia. Qed.

#[local] Hint Resolve limpio_insert_str limpio_insert_lista
  limpio_insert_conjunto limpio_delete limpio_poner_lista 
  simple_decodificable mostrar_decodificable decodificable_mas bulk_decodificable isize_decodificable
  argumento_sin_lf argumento_largo Parser.mostrar_sin_lf : tipos.

(** Elements without line feeds stay so. *)
Lemma argumentos_sin_lf l : Forall Parser.argumento_ok l → Forall (λ s, Parser.sin_lf s = true) l.
Proof. intros Hl. eapply Forall_impl; [|exact Hl]. apply argumento_sin_lf. Qed.
Lemma sin_saltos_app (l1 l2 : list string) :
  Forall (λ s, Parser.sin_lf s = true) l1 → Forall (λ s, Parser.sin_lf s = true) l2 →
  Forall (λ s, Parser.sin_lf s = true) (l1 ++ l2).
Proof. intros. by apply Forall_app. Qed.
Lemma sin_saltos_parte (l l' : list string) :
  l' `sublist_of` l → Forall (λ s, Parser.sin_lf s = true) l → Forall (λ s, Parser.sin_lf s = true) l'.
Proof. intros Hs Hl. by eapply Forall_sublist. Qed.
Lemma sin_saltos_union (l : list string) (s : gset string) :
  Forall (λ s, Parser.sin_lf s = true) l → set_Forall (λ s, Parser.sin_lf s = true) s →
  set_Forall (λ s, Parser.sin_lf s = true) (list_to_set l ∪ s).
Proof.
  intros Hl Hs. apply set_Forall_union; [|done]. intros x Hx%elem_of_list_to_set.
  by apply (proj1 (list.Forall_forall _ _) Hl).
Qed.
Lemma sin_saltos_diferencia (s t : gset string) :
  set_Forall (λ s, Parser.sin_lf s = true) s → set_Forall (λ s, Parser.sin_lf s = true) (s ∖ t).
Proof. intros Hs x Hx. apply Hs. set_solver. Qed.
Lemma sin_saltos_nada : Forall (λ s, Parser.sin_lf s = true) [].
Proof. constructor. Qed.
Lemma sin_saltos_vacio : set_Forall (λ s, Parser.sin_lf s = true) (∅ : gset string).
Proof. by apply set_Forall_empty. Qed.
Lemma quitar_primeras_parte x n (l : list string) : ComandoList.quitar_primeras x n l `sublist_of` l.
Proof.
  revert n. induction l as [|v l IH]; intros [|n]; cbn; try done.
  destruct (bool_decide (v = x)); [by apply sublist_cons|by apply sublist_skip].
Qed.
Lemma quitar_segun_sin_saltos x i (l : list string) :
  Forall (λ s, Parser.sin_lf s = true) l → Forall (λ s, Parser.sin_lf s = true) (ComandoList.quitar_segun x i l).
Proof.
  intros Hl. unfold ComandoList.quitar_segun. destruct (i <? 0).
  - apply Forall_reverse. eapply sin_saltos_parte; [apply quitar_primeras_parte|]. by apply Forall_reverse.
  - eapply sin_saltos_parte; [apply quitar_primeras_parte|done].
Qed.
Lemma insertar_sin_saltos j v (l : list string) :
  Parser.sin_lf v = true → Forall (λ s, Parser.sin_lf s = true) l →
  Forall (λ s, Parser.sin_lf s = true) (insertar j v l).
Proof.
  intros Hv Hl. unfold insertar. apply Forall_app. split; [by apply Forall_take|].
  constructor; [done|by apply Forall_drop].
Qed.
Lemma reverse_sin_saltos (l : list string) :
  Forall (λ s, Parser.sin_lf s = true) l → Forall (λ s, Parser.sin_lf s = true) (reverse l).
Proof. apply Forall_reverse. Qed.
#[local] Hint Resolve argumentos_sin_lf sin_saltos_app sin_saltos_union sin_saltos_diferencia
  sin_saltos_nada sin_saltos_vacio quitar_segun_sin_saltos insertar_sin_saltos reverse_sin_saltos : tipos.

(** The answers of each family. *)
Ltac respuesta_constante r := lazymatch r with
  | Int Z0 => idtac | Int (Zpos _) => idtac | Int _ => fail
  | Vector [] => idtac | Vector _ => fail
  | BulkStr (String _ _) => idtac | BulkStr _ => fail
  | _ => idtac
  end.
Ltac tipar := cbv zeta; repeat match goal with
  | H : Forall _ (_ :: _) |- _ => apply Forall_cons_iff in H as [? H]
  | |- bien_tipado _ (match ?x with _ => _ end) => first [is_var x; destruct x | destruct x eqn:?]
  | |- bien_tipado _ (Responde _ _) => split
  | |- bien_tipado _ _ => progress cbn [bien_tipado]
  | |- limpio _ → _ => intros ?
  | |- Parser.decodificable _ (match ?x with _ => _ end) = _ => destruct x eqn:?
  | |- Parser.decodificable _ (Int (if ?x then _ else _)) = _ => destruct x
  | |- Parser.decodificable _ (BulkStr (match ?x with _ => _ end)) = _ => destruct x eqn:?
  | |- limpio (if ?x then _ else _) => destruct x
  | |- limpio (<[_ := Lista (if ?x then _ else _)]> _) => destruct x
  | |- _ => solve [eauto 6 with tipos nocore]
  | |- Parser.decodificable _ ?r = _ => respuesta_constante r; reflexivity
  end.

Section familias.
Context `{Entorno} (m : Estado) (Hm : estado_ok m).
Context (ps : list string) (Hps : Forall Parser.argumento_ok ps).
Context (Hn : Z.of_nat (length ps) ≤ u32_max).

Lemma str_sin_lf k s : m !! k = Some (Str s) → Parser.sin_lf s = true.
Proof. intros Hk. by destruct (Hm _ _ Hk). Qed.
Lemma str_largo k s : m !! k = Some (Str s) → Parser.largo s ≤ i64_max.
Proof. intros Hk. by destruct (Hm _ _ Hk). Qed.
Lemma lista_sin_saltos k l : limpio m → m !! k = Some (Lista l) → Forall (λ s, Parser.sin_lf s = true) l.
Proof. intros Hl Hk. by destruct (Hl _ _ Hk). Qed.
Lemma sin_lf_app s1 s2 :
  Parser.sin_lf s1 = true → Parser.sin_lf s2 = true → Parser.sin_lf (s1 +:+ s2) = true.
Proof. unfold Parser.sin_lf. intros H1 H2. by rewrite todos_los_bytes_app, H1, H2. Qed.
#[local] Hint Resolve str_sin_lf str_largo sin_lf_app : tipos.

Lemma get_tipado : bien_tipado m (ComandoString.esp_get ps m).
Proof. unfold ComandoString.esp_get. tipar. Qed.
Lemma append_tipado : bien_tipado m (ComandoString.esp_append ps m).
Proof. unfold ComandoString.esp_append. tipar. Qed.
Lemma getdel_tipado : bien_tipado m (ComandoString.esp_getdel ps m).
Proof. unfold ComandoString.esp_getdel. tipar. Qed.
Lemma strlen_tipado : bien_tipado m (ComandoString.esp_strlen ps m).
Proof. unfold ComandoString.esp_strlen. tipar. Qed.
Lemma getset_tipado : bien_tipado m (ComandoString.esp_getset ps m).
Proof. unfold ComandoString.esp_getset. tipar. Qed.
Lemma set_tipado : bien_tipado m (ComandoString.esp_set ps m).
Proof. unfold ComandoString.esp_set, ComandoString.esp_set_con_vida. tipar. Qed.
Lemma operar_tipado op : bien_tipado m (ComandoString.esp_operar op ps m).
Proof. unfold ComandoString.esp_operar. tipar. Qed.

Lemma mget_tipado : bien_tipado m (ComandoString.esp_mget ps m).
Proof.
  unfold ComandoString.esp_mget. destruct ps as [|k ks] eqn:Hk; [by split; auto with tipos|].
  split; [|by auto with tipos]. apply vector_decodificable.
  - rewrite length_fmap. unfold u32_max, i64_max in *. lia.
  - apply Forall_fmap, Forall_true. intros j. cbn. destruct (m !! j) as [[s| | |]|] eqn:Hj; try done.
    eapply bulk_decodificable, str_largo, Hj.
Qed.

Lemma mset_tipado : bien_tipado m (ComandoString.esp_mset ps m).
Proof.
  unfold ComandoString.esp_mset. destruct (_ || _); split; auto with tipos. intros Hl.
  assert (Forall (λ kv, Parser.sin_lf kv.1 = true ∧ Parser.sin_lf kv.2 = true)
    (ComandoString.pares_consecutivos ps)) as Hp.
  { unfold ComandoString.pares_consecutivos. apply list.Forall_forall. intros [x y] Hxy.
    pose proof (proj1 (list.Forall_forall _ _) Hps) as Hall.
    pose proof (elem_of_zip_l _ _ _ _ Hxy) as Hx. apply elem_of_zip_r in Hxy.
    split; apply argumento_sin_lf, Hall; [|destruct ps; [done|by right]].
    clear -Hx. revert Hx. induction ps as [|? [|? ?] IH]; cbn; set_solver. }
  revert Hl. generalize m. clear Hm m.
  induction Hp as [|[x y] l [Hx Hy] _ IH]; intros m Hl; [done|]. cbn [foldl]. apply IH. auto with tipos.
Qed.

Lemma con_lista_tipado k d f :
  bien_tipado m d →
  (∀ l, Z.of_nat (length l) ≤ i32_max → Forall (λ s, Parser.largo s ≤ i64_max) l →
     (limpio m → Forall (λ s, Parser.sin_lf s = true) l) → bien_tipado m (f l)) →
  bien_tipado m (ComandoList.con_lista k m d f).
Proof.
  intros Hd Hf. unfold ComandoList.con_lista. destruct (m !! k) as [[]|] eqn:Hk; [tipar| |tipar..|done].
  destruct (Hm _ _ Hk). apply Hf; [done..|]. intros Hl. by apply (Hl _ _ Hk).
Qed.

Lemma con_conjunto_tipado k d f :
  bien_tipado m d →
  (∀ s, Z.of_nat (size s) ≤ i64_max → set_Forall (λ s, Parser.largo s ≤ i64_max) s →
     (limpio m → set_Forall (λ s, Parser.sin_lf s = true) s) → bien_tipado m (f s)) →
  bien_tipado m (ComandoSet.con_conjunto k m d f).
Proof.
  intros Hd Hf. unfold ComandoSet.con_conjunto. destruct (m !! k) as [[]|] eqn:Hk; [tipar..| |tipar|done].
  destruct (Hm _ _ Hk). apply Hf; [done..|]. intros Hl. by apply (Hl _ _ Hk).
Qed.

Lemma bulks_parte (l l' : list string) :
  Z.of_nat (length l) ≤ i32_max → Forall (λ s, Parser.largo s ≤ i64_max) l → l' `sublist_of` l →
  Parser.decodificable 2 (Vector (BulkStr <$> l')) = true.
Proof.
  intros Hl Hf Hs. apply bulks_decodificables.
  - apply sublist_length in Hs. unfold i32_max, i64_max in *. lia.
  - by eapply Forall_sublist.
Qed.
Lemma err_args_decodificable cmd :
  Parser.sin_lf cmd = true → Parser.decodificable 2 (err_args cmd) = true.
Proof. intros Hcmd. unfold err_args. cbn [Parser.decodificable]. by repeat apply sin_lf_app. Qed.
#[local] Hint Resolve bulks_parte sublist_take sublist_drop err_args_decodificable : tipos.

(** Splits a command over a list or a set into its cases. *)
Ltac tipar_lista := tipar; repeat first
  [ apply con_lista_tipado; [|intros ????]; tipar
  | apply con_conjunto_tipado; [|intros ????]; tipar ].

Lemma llen_tipado : bien_tipado m (ComandoList.esp_llen ps m).
Proof. unfold ComandoList.esp_llen, ComandoList.largo_isize. tipar_lista. Qed.
Lemma push_tipado cmd crea reversed :
  Parser.sin_lf cmd = true → bien_tipado m (ComandoList.esp_push cmd crea reversed ps m).
Proof.
  intros Hcmd. unfold ComandoList.esp_push, ComandoList.largo_isize.
  tipar_lista.
  eauto 10 with tipos nocore.
Qed.
Lemma sacar_tipado k n reversed : Parser.sin_lf k = true → bien_tipado m (ComandoList.esp_sacar k n reversed m).
Proof.
  intros Hk. unfold ComandoList.esp_sacar. apply con_lista_tipado; [tipar|intros l Hl Hf Hsl]. cbv zeta.
  set (salen := if reversed then drop _ l else _).
  assert (salen `sublist_of` l) as Hs by (subst salen; destruct reversed; auto with tipos).
  destruct (_ <=? _); [|by intros ?].
  assert ((if reversed then take (length l - Z.to_nat n) l else drop (Z.to_nat n) l) `sublist_of` l) as Hq
    by (destruct reversed; auto with tipos).
  split; [|intros; apply limpio_poner_lista; [done..|]; eapply sin_saltos_parte; [|by auto]; by destruct reversed].
  pose proof (bulks_parte l salen Hl Hf Hs) as Hv. pose proof (Forall_sublist _ _ _ Hs Hf) as Hb.
  destruct salen as [|x [|y xs]]; [done| |done]. apply Forall_cons_iff in Hb as [Hx _]. auto with tipos.
Qed.
Lemma pop_tipado reversed : bien_tipado m (ComandoList.esp_pop reversed ps m).
Proof. unfold ComandoList.esp_pop. tipar; apply sacar_tipado, argumento_sin_lf; assumption. Qed.
Lemma lindex_tipado : bien_tipado m (ComandoList.esp_lindex ps m).
Proof.
  unfold ComandoList.esp_lindex. tipar_lista. apply decodificable_mas, bulk_decodificable.
  match goal with |- Parser.largo (default _ ?o) ≤ _ => destruct o as [x|] eqn:Hx end; [|done].
  apply bind_Some in Hx as (j & _ & Hj). cbn [default]. by eapply (Forall_lookup_1 (λ s, Parser.largo s ≤ i64_max)).
Qed.
Lemma lset_tipado : bien_tipado m (ComandoList.esp_lset ps m).
Proof. unfold ComandoList.esp_lset. tipar_lista. Qed.
Lemma sublista_parte a b l : ComandoList.sublista a b l `sublist_of` l.
Proof.
  unfold ComandoList.sublista. case_match; [apply sublist_nil_l|].
  etrans; [apply sublist_take|apply sublist_drop].
Qed.
#[local] Hint Resolve sublista_parte : tipos.
Lemma lrange_tipado : bien_tipado m (ComandoList.esp_lrange ps m).
Proof. unfold ComandoList.esp_lrange. tipar_lista. Qed.
Lemma lrem_tipado : bien_tipado m (ComandoList.esp_lrem ps m).
Proof.
  unfold ComandoList.esp_lrem. tipar_lista. apply int_decodificable.
  pose proof (length_filter (s1 =.) l0) as Hf. unfold ComandoList.ocurrencias.
  unfold i32_max, i64_min, i64_max in *. lia.
Qed.
Lemma sadd_tipado : bien_tipado m (ComandoSet.esp_sadd ps m).
Proof. unfold ComandoSet.esp_sadd. tipar_lista. Qed.
Lemma srem_tipado : bien_tipado m (ComandoSet.esp_srem ps m).
Proof. unfold ComandoSet.esp_srem. tipar_lista. Qed.
Lemma scard_tipado : bien_tipado m (ComandoSet.esp_scard ps m).
Proof. unfold ComandoSet.esp_scard, ComandoSet.largo_set. tipar_lista. Qed.
Lemma sismember_tipado : bien_tipado m (ComandoSet.esp_sismember ps m).
Proof. unfold ComandoSet.esp_sismember. tipar_lista. Qed.
Lemma smembers_tipado sem : bien_tipado m (ComandoSet.esp_smembers sem ps m).
Proof.
  unfold ComandoSet.esp_smembers. tipar_lista. pose proof (ComandoSet.elementos_en_orden_perm sem s0) as Hp.
  apply bulks_decodificables.
  - rewrite Hp. done.
  - rewrite Hp. by apply set_Forall_elements.
Qed.

Lemma limpio_foldr_delete ks : limpio m → limpio (foldr delete m ks).
Proof. intros Hl. induction ks; cbn [foldr]; auto with tipos. Qed.
Lemma limpio_copia w k v : limpio m → m !! k = Some v →
  ∀ k', Parser.sin_lf k' = true → limpio (<[k' := clonar_tipo w v]> m).
Proof.
  intros Hl Hk k' Hk'. apply limpio_insert; [done..|]. destruct (Hl _ _ Hk) as [_ Hv]. by destruct v.
Qed.
#[local] Hint Resolve limpio_foldr_delete limpio_copia : tipos.

Lemma copy_tipado w : bien_tipado m (ComandoKey.esp_copy w ps m).
Proof. unfold ComandoKey.esp_copy. tipar. Qed.
Lemma rename_tipado w : bien_tipado m (ComandoKey.esp_rename w ps m).
Proof. unfold ComandoKey.esp_rename. tipar. Qed.
Lemma tipo_tipado : bien_tipado m (ComandoKey.esp_tipo ps m).
Proof. unfold ComandoKey.esp_tipo. tipar. Qed.
Lemma size_list_to_set_largo (l : list string) : (size (list_to_set l : gset string) ≤ length l)%nat.
Proof.
  induction l as [|x l IH]; [done|]. cbn [list_to_set length].
  rewrite size_union_alt, size_singleton. etrans; [|apply le_n_S, IH]. apply le_n_S.
  apply subseteq_size. set_solver.
Qed.
Lemma del_tipado : bien_tipado m (ComandoKey.esp_del ps m).
Proof.
  unfold ComandoKey.esp_del. split; [|by auto with tipos]. apply int_decodificable.
  assert (size (list_to_set ps ∩ dom m : gset string) ≤ length ps)%nat as Hs.
  { etrans; [apply subseteq_size, intersection_subseteq_l|]. apply size_list_to_set_largo. }
  unfold u32_max, i64_min, i64_max in *. lia.
Qed.
Lemma exists_tipado : bien_tipado m (ComandoKey.esp_exists ps m).
Proof.
  unfold ComandoKey.esp_exists. split; [|by auto with tipos]. apply int_decodificable.
  pose proof (length_filter (λ k, is_Some (m !! k)) ps). unfold u32_max, i64_min, i64_max in *. lia.
Qed.
End familias.

Create HintDb tipados.
#[local] Hint Resolve get_tipado append_tipado getdel_tipado strlen_tipado getset_tipado set_tipado
  operar_tipado mget_tipado mset_tipado llen_tipado pop_tipado lindex_tipado lset_tipado
  lrange_tipado lrem_tipado push_tipado sadd_tipado srem_tipado scard_tipado sismember_tipado
  smembers_tipado copy_tipado rename_tipado tipo_tipado del_tipado exists_tipado : tipados.

Lemma descripcion_sin_lf c : comando_ok c → Parser.sin_lf (descripcion c) = true.
Proof.
  intros Hc. unfold descripcion. pose proof (ok_nombre c Hc) as Hn. revert Hn.
  generalize (nombre c). induction (ok_parametros c Hc) as [|x ps Hx _ IH]; intros n Hn; [done|].
  cbn [foldl]. apply IH. repeat apply sin_lf_app; [done|done|by apply argumento_sin_lf].
Qed.

Lemma esp_comando_tipado `{Entorno} c w m :
  comando_ok c → estado_ok m → bien_tipado m (esp_comando c w m).
Proof.
  intros Hc Hm. pose proof (ok_parametros c Hc) as Hps. pose proof (ok_cantidad c Hc) as Hn.
  unfold esp_comando, ComandoString.esp_ejecutar, ComandoSet.esp_ejecutar, ComandoKey.esp_ejecutar,
    ComandoList.esp_ejecutar. cbv zeta.
  repeat match goal with
  | |- bien_tipado m (if ?b then _ else _) => destruct b
  | |- bien_tipado m ((match ?x with _ => _ end) _) => destruct x
  | |- bien_tipado m ((match ?x with _ => _ end) _ _) => destruct x
  | |- bien_tipado m (match ?x with _ => _ end) => destruct x
  end; auto with tipados.
  - by split.
  - split; [done|]. intros _. apply map_Forall_empty.
  - split; [|done]. cbn [Parser.decodificable].
    repeat apply sin_lf_app; try done. by apply descripcion_sin_lf.
Qed.

(** ** The kind of answer of each command

    Any command may answer an error. *)
Inductive Clase :=
  | Entero | Bit | Cadena | CadenaONada | Numero | Cadenas | Extraido | Valores | NombreDeTipo
  | Simple (s : string) | SimpleONada | SoloError.

Definition clase_de (n : string) : Clase :=
  if bool_decide (n ∈ ["APPEND"; "STRLEN"; "LLEN"; "LPUSH"; "LPUSHX"; "RPUSH"; "RPUSHX"; "LREM"; "SADD";
                       "SREM"; "SCARD"; "DEL"; "EXISTS"]) then Entero
  else if bool_decide (n ∈ ["SISMEMBER"; "COPY"]) then Bit
  else if bool_decide (n ∈ ["GET"; "GETDEL"]) then CadenaONada
  else if bool_decide (n = "GETSET") then SimpleONada
  else if bool_decide (n ∈ ["INCRBY"; "DECRBY"]) then Numero
  else if bool_decide (n = "MGET") then Valores
  else if bool_decide (n ∈ ["LRANGE"; "SMEMBERS"]) then Cadenas
  else if bool_decide (n ∈ ["LPOP"; "RPOP"]) then Extraido
  else if bool_decide (n = "LINDEX") then Cadena
  else if bool_decide (n = "TYPE") then NombreDeTipo
  else if bool_decide (n ∈ ["SET"; "MSET"; "LSET"; "FLUSHDB"]) then Simple "OK"
  else if bool_decide (n = "RENAME") then Simple "Ok"
  else if bool_decide (n = "PING") then Simple "PONG"
  else SoloError.

Definition es_cadena (r : ResultadoRedis) : bool := match r with BulkStr _ => true | _ => false end.
Definition es_nada (r : ResultadoRedis) : bool := match r with Nil => true | _ => false end.

(** Whether an answer to a command with [n] parameters is of a kind. *)
Definition de_clase (k : Clase) (n : nat) (r : ResultadoRedis) : bool :=
  match r, k with
  | Error _, _ => true
  | Int _, Entero => true
  | Int z, Bit => bool_decide (z ∈ [0; 1])
  | BulkStr _, (Cadena | CadenaONada | Extraido) => true
  | BulkStr s, Numero => bool_decide (is_Some (parse_i32 s))
  | BulkStr s, NombreDeTipo => bool_decide (s ∈ ["string"; "lista"; "set"; "none"])
  | Nil, (CadenaONada | SimpleONada | Extraido) => true
  | Vector rs, (Cadenas | Extraido) => forallb es_cadena rs
  | Vector rs, Valores => bool_decide (length rs = n) && forallb (λ r, es_cadena r || es_nada r) rs
  | StrSimple s, Simple s' => bool_decide (s = s')
  | StrSimple _, SimpleONada => true
  | _, _ => false
  end.

Definition clasificado (k : Clase) (n : nat) (d : Desenlace) : Prop :=
  match d with Responde r _ => de_clase k n r = true | _ => True end.

Lemma cadenas_clase l : forallb es_cadena (BulkStr <$> l) = true.
Proof. by induction l. Qed.
Lemma numero_clase z : bool_decide (is_Some (parse_i32 (mostrar (como_i32 z)))) = true.
Proof.
  apply bool_decide_eq_true. pose proof (como_i32_rango z) as Hz.
  apply es_i32_spec in Hz. unfold parse_i32. rewrite parse_mostrar by done. by eexists.
Qed.
Lemma valores_clase (f : string → ResultadoRedis) ps :
  (∀ k, es_cadena (f k) || es_nada (f k) = true) →
  bool_decide (length (f <$> ps) = length ps) && forallb (λ r, es_cadena r || es_nada r) (f <$> ps) = true.
Proof.
  intros Hf. rewrite bool_decide_eq_true_2 by apply length_fmap. cbn [andb].
  induction ps as [|k ps IH]; [done|]. cbn [fmap list_fmap forallb]. by rewrite Hf, IH.
Qed.
Lemma valor_clase (o : option TipoRedis) :
  es_cadena (match o with Some (Str v) => BulkStr v | _ => Nil end) ||
  es_nada (match o with Some (Str v) => BulkStr v | _ => Nil end) = true.
Proof. by destruct o as [[]|]. Qed.

(** The kind of a command whose name is known. *)
Ltac clasificar :=
  match goal with |- clasificado (clase_de ?n) _ _ =>
    let v := eval vm_compute in (clase_de n) in change (clase_de n) with v end;
  cbv [ComandoString.esp_ejecutar ComandoSet.esp_ejecutar ComandoKey.esp_ejecutar
    ComandoList.esp_ejecutar nombre parametros ComandoList.esp_push ComandoList.esp_pop
    ComandoList.esp_sacar ComandoList.con_lista ComandoSet.con_conjunto ComandoString.esp_operar
    ComandoString.esp_set ComandoString.esp_set_con_vida ComandoString.esp_get
    ComandoString.esp_append ComandoString.esp_strlen ComandoString.esp_mget ComandoString.esp_mset
    ComandoString.esp_getset ComandoString.esp_getdel ComandoList.esp_lindex ComandoList.esp_lset
    ComandoList.esp_lrange ComandoList.esp_lrem ComandoList.esp_llen ComandoSet.esp_sadd
    ComandoSet.esp_srem ComandoSet.esp_scard ComandoSet.esp_sismember ComandoSet.esp_smembers
    ComandoKey.esp_copy ComandoKey.esp_rename ComandoKey.esp_del ComandoKey.esp_exists
    ComandoKey.esp_tipo];
  repeat (progress (repeat case_match; cbn [clasificado de_clase]));
  first [done | apply numero_clase | apply cadenas_clase | by apply valores_clase; intros ?; apply valor_clase | idtac].

Section clases.
Context `{Entorno}.

Lemma string_clase n ps i m : ComandoString.es_comando_string n = true →
  clasificado (clase_de n) (length ps) (ComandoString.esp_ejecutar (MkComandoInfo n ps i) m).
Proof.
  unfold ComandoString.es_comando_string. rewrite bool_decide_eq_true. intros Hn. set_unfold.
  destruct_or!; subst n; clasificar.
Qed.

Lemma set_clase n ps i w m : ComandoSet.es_comando_set n = true →
  clasificado (clase_de n) (length ps) (ComandoSet.esp_ejecutar (MkComandoInfo n ps i) w m).
Proof.
  unfold ComandoSet.es_comando_set. rewrite bool_decide_eq_true. intros Hn. set_unfold.
  destruct_or!; subst n; clasificar.
Qed.

Lemma llave_clase n ps i w m : n ∈ llaves_cubiertas →
  clasificado (clase_de n) (length ps) (ComandoKey.esp_ejecutar (MkComandoInfo n ps i) w m).
Proof. unfold llaves_cubiertas. intros Hn. set_unfold. destruct_or!; subst n; clasificar. Qed.

Lemma list_clase n ps i m : ComandoList.es_comando_list n = true →
  clasificado (clase_de n) (length ps) (ComandoList.esp_ejecutar (MkComandoInfo n ps i) m).
Proof.
  unfold ComandoList.es_comando_list. rewrite bool_decide_eq_true. intros Hn. set_unfold.
  destruct_or!; subst n; clasificar.
Qed.

Lemma esp_comando_clase c w m :
  cubierto (nombre c) = true → clasificado (clase_de (nombre c)) (length (parametros c)) (esp_comando c w m).
Proof.
  destruct c as [n ps i]. cbn [nombre parametros]. intros Hc. unfold esp_comando. cbv zeta. cbn [nombre].
  generalize Hc. pattern n. apply cubierto_casos; [done|..].
  - intros Hn _. rewrite Hn. by apply string_clase.
  - intros -> Hn _. rewrite Hn. by apply set_clase.
  - intros -> -> -> Hn _. by apply llave_clase.
  - intros -> -> -> Hn _. rewrite Hn. by apply list_clase.
  - done.
  - done.
  - unfold conocido. rewrite !orb_false_iff. intros [[[[[-> ->] ->] ->] _] Hs] _.
    by rewrite !bool_decide_eq_false_2 by (intros Hn; by rewrite Hn in Hs).
Qed.
End clases.

(** ** Properties *)

(** C4: On a store whose strings hold no line feed and whose sizes are
    those a machine can have, a covered command with the words a request can carry is
    answered, unless its thread panics, with an error or the kind of value of that
    command: STRLEN with an integer, GET with a string or nothing, MGET with a vector
    of them as long as its parameters, and so on ([clase_de]); and with a value of the
    protocol: a client can decode it, vectors hold only scalars, integers fit in 64
    bits and simple strings are one line.  A store without line feeds, in its keys, its
    strings and the elements of its lists and sets, is left without them. *)
Theorem respuesta_tipada `{Entorno} c cr w
    (Hc : cubierto (nombre c) = true) (Hok : comando_ok c)
    (Hw : envenenado (base w) = false) (Hm : estado_ok (vista w)) :
  let '(r, w') := correr (manejar_comando c (CRedis cr)) w in
  (∀ x, r = Some x → de_clase (clase_de (nombre c)) (length (parametros c)) x = true ∧
     Parser.decodificable 2 x = true) ∧
  (limpio (vista w) → limpio (vista w')).
Proof.
  pose proof (manejar_comando_esp c cr w Hc (ok_index c Hok) Hw (λ _, estado_ok_cortas _ Hm)) as He.
  pose proof (esp_comando_tipado c w (vista w) Hok Hm) as Ht.
  pose proof (esp_comando_clase c w (vista w) Hc) as Hk.
  destruct (correr _ w) as [r w']. destruct He as [_ He]. cbn [fst snd] in He.
  destruct (esp_comando c w (vista w)); destruct He as (-> & -> & _); cbn [bien_tipado clasificado] in *.
  - destruct Ht as [Hr Hl]. split; [by intros x [= <-]|done].
  - by split.
  - by split.
Qed.

(** A list pushed by one client and read by another. *)
Lemma respuesta_tipada_witness :
  de_clase Cadenas 3 (Vector [BulkStr "a"; BulkStr "b"]) = true ∧
  Parser.decodificable 2 (Vector [BulkStr "a"; BulkStr "b"]) = true.
Proof.
  pose proof (@respuesta_tipada entorno_prueba (MkComandoInfo "LRANGE" ["k"; "0"; "-1"] 0)
    (MkClienteRedis 0 0 None 0 (Some 1)) (mundo_con "k" (Lista ["a"; "b"]))) as Hr.
  refine (proj1 (Hr eq_refl _ eq_refl _) _ _).
  - split; [reflexivity|reflexivity|repeat constructor; discriminate|discriminate].
  - change (vista (mundo_con "k" (Lista ["a"; "b"]))) with ({["k" := Lista ["a"; "b"]]} : Estado).
    apply map_Forall_singleton. split; [discriminate|repeat constructor; discriminate].
  - vm_compute. reflexivity.
Defined.
