(* ===== verification/Servicio.v ===== *)
(** * The service a client gets (redis.rs)

    What the thread of a Redis client does with a sequence of requests, seen from the
    other end of the connection: the bytes sent, the bytes received and the abstract
    store, through the parser, the dispatch, the handler and the printer. *)
From S2P Require Import Prelude Rust Datos Efectos Valor ComandoInfo Cliente BaseDeDatos Refinamiento.
From S2P Require Parser HttpParser Canal Configuracion.
From S2P Require Import Log Comando Especificacion.

#[local] Open Scope Z_scope.

(** ** What a covered command leaves alone *)

Definition marco (w0 w : Mundo) : Prop :=
  conf w = conf w0 ∧ conexiones w = conexiones w0 ∧ semilla w = semilla w0 ∧ cola_log w = cola_log w0.

#[export] Instance marco_invariante w0 : InvarianteBase (marco w0).
Proof. split; [split|]; unfold dentro, marco; intros; destruct_and!; by split_and!. Qed.

(** Two worlds in which the specification of a command is the same. *)
Definition parecidos (w w' : Mundo) : Prop :=
  semilla w' = semilla w ∧
  ∀ s, (λ c, (clonable c, acepta c)) <$> conexiones w' !! s =
       (λ c, (clonable c, acepta c)) <$> conexiones w !! s.

Lemma parecidos_trans w1 w2 w3 : parecidos w1 w2 → parecidos w2 w3 → parecidos w1 w3.
Proof. intros [H1 R1] [H2 R2]. split; [congruence|]. intros s. by rewrite R2. Qed.

Lemma clonar_tipo_parecidos w w' v : parecidos w w' → clonar_tipo w' v = clonar_tipo w v.
Proof.
  intros [_ Hr]. destruct v as [| | |c]; [done..|]. cbn [clonar_tipo]. f_equal.
  change (Canal.clonar_canal w' c) with (Canal.clonar_canal (con_conexiones (conexiones w') w) c).
  by apply Canal.clonar_canal_mismos.
Qed.

Lemma esp_comando_parecidos `{Entorno} c w w' m :
  parecidos w w' → esp_comando c w' m = esp_comando c w m.
Proof.
  intros Hp. unfold esp_comando, ComandoSet.esp_ejecutar, ComandoKey.esp_ejecutar. cbv zeta.
  pose proof (proj1 Hp) as Hs.
  assert (ComandoKey.esp_copy w' (parametros c) m = ComandoKey.esp_copy w (parametros c) m) as Hc.
  { unfold ComandoKey.esp_copy. repeat case_match; try done. by rewrite (clonar_tipo_parecidos w w'). }
  assert (ComandoKey.esp_rename w' (parametros c) m = ComandoKey.esp_rename w (parametros c) m) as Hr.
  { unfold ComandoKey.esp_rename. repeat case_match; try done. by rewrite (clonar_tipo_parecidos w w'). }
  repeat match goal with
  | |- (if ?b then _ else _) = _ => destruct b
  | |- (match ?x with _ => _ end) _ _ = _ => destruct x
  end; by rewrite ?Hs.
Qed.

Lemma vista_base w w' : base w' = base w → ahora w' = ahora w → vista w' = vista w.
Proof. intros Hb Ha. unfold vista, tabla. by rewrite Hb, Ha. Qed.

(** ** Sending *)

(** A connection that is open, can be duplicated, takes [n] bytes at once and has
    something to read. *)
Definition abierta (n a : nat) (d : option string) (env : list string) : Conexion :=
  MkConexion true (Some n) (Some (S a)) d env.

Section conexion.
Context (s : TcpStream) (n a : nat) (d : option string).

Definition conectado (cr : ClienteRedis) (env : list string) (w : Mundo) : Prop :=
  cr_socket cr = Some s ∧ conexiones w !! s = Some (abierta n a d env).

Definition recibido (env : list string) (w : Mundo) : Mundo :=
  con_conexiones (<[s := abierta n a d env]> (conexiones w)) w.

Lemma conectado_clon cr env w :
  conectado cr env w → (x ← cr_socket cr; try_clone w x) = Some s.
Proof. intros [Hs Hc]. rewrite Hs. cbn. unfold try_clone. by rewrite Hc. Qed.

Lemma parecidos_recibido cr env env' w : conectado cr env w → parecidos w (recibido env' w).
Proof.
  intros [_ Hc]. split; [done|]. intros x. cbn. rewrite lookup_insert. case_decide; [|done].
  subst x. by rewrite Hc.
Qed.

Lemma enviar_redis cr env r w :
  conectado cr env w → (String.length (Parser.parsear_respuesta r) <= n)%nat →
  ∃ cr', enviar_resultado (CRedis cr) r w =
      (Some (inr (), CRedis cr'), recibido (env ++ [Parser.parsear_respuesta r]) w) ∧
    cr_socket cr' = cr_socket cr ∧ cr_id cr' = cr_id cr.
Proof.
  intros [Hs Hc] Hl. unfold enviar_resultado, enviar_mensaje, enviar_mensaje_redis.
  rewrite m_bind_eq, m_bind_eq, consultar_eq. cbv beta iota zeta. rewrite Hs.
  rewrite m_bind_eq. unfold escribir_socket. rewrite Hc. unfold abierta.
  rewrite HttpParser.primeros_bytes_todos by done. eexists. split; [done|]. done.
Qed.
End conexion.

(** ** One request *)

Section servicio.
Context `{Entorno} (s : TcpStream) (n a : nat) (d : option string).

(** The handler of a covered command, from the world its log message leaves. *)
Lemma manejar_comando_marco c cr w :
  cubierto (nombre c) = true → index c = 0%nat → envenenado (base w) = false →
  ComandoList.listas_cortas (vista w) →
  let '(r, w') := correr (manejar_comando c (CRedis cr)) w in
  marco w w' ∧ cumple w (r, w') (esp_comando c w (vista w)).
Proof.
  intros Hc Hi Hw Hl. pose proof (manejar_comando_esp c cr w Hc Hi Hw (λ _, Hl)) as He.
  pose proof (siempre_correr (marco w) _ w (manejar_comando_base (marco w) c cr Hc)) as Hm.
  destruct (correr _ w) as [r w']. split; [by apply Hm|done].
Qed.

(** The line of the log for a request. *)
Definition linea_comando (dir : string) (c : ComandoInfo) : string := dir +:+ " " +:+ descripcion c.

Definition dir_de (cr : ClienteRedis) : string :=
  match d with
  | Some x => "Token: " +:+ mostrar (cr_id cr) +:+ " IP: " +:+ x
  | None => "Token: " +:+ mostrar (cr_id cr)
  end.

Lemma obtener_addr_conectado cr env w :
  conectado s n a d cr env w → obtener_addr w (CRedis cr) = dir_de cr.
Proof. intros [Hs Hc]. unfold obtener_addr, addr. rewrite Hs, Hc. done. Qed.

(** What a turn of the client sends to the log: one line, and the configuration. *)
Definition registra (w w' : Mundo) (lineas : list string) : Prop :=
  ∃ ms, cola_log w' = cola_log w ++ ms ∧ lineas_log ms = lineas ∧
    forallb (sin_cierre (Configuracion.logfile (dato (conf w)))) ms = true.

Lemma registra_trans w1 w2 w3 l1 l2 :
  mapa_config (dato (conf w2)) = mapa_config (dato (conf w1)) →
  registra w1 w2 l1 → registra w2 w3 l2 → registra w1 w3 (l1 ++ l2).
Proof.
  intros Hc (m1 & H1 & L1 & F1) (m2 & H2 & L2 & F2). exists (m1 ++ m2). split_and!.
  - by rewrite H2, H1, app_assoc.
  - unfold lineas_log in *. by rewrite omap_app, L1, L2.
  - rewrite forallb_app, F1. unfold Configuracion.logfile in *. by rewrite Hc in F2.
Qed.

Lemma actualizar_registra cl w :
  envenenado (conf w) = false →
  ∃ w', correr (lock_conf (actualizar_seccion cl)) w = (Some (Some ()), w') ∧
    base w' = base w ∧ conexiones w' = conexiones w ∧ semilla w' = semilla w ∧ ahora w' = ahora w ∧
    envenenado (conf w') = false ∧ mapa_config (dato (conf w')) = mapa_config (dato (conf w)) ∧
    registra w w' [].
Proof.
  intros Hf. unfold lock_conf. rewrite correr_atomico. unfold con_cerrojo_conf. rewrite Hf.
  unfold actualizar_seccion, Configuracion.actualizar, modificar. rewrite m_bind_eq, consultar_eq.
  cbn [Configuracion.actualizar_log fst snd]. cbv beta iota. eexists. split; [done|].
  split_and!; [done..|]. eexists. split; [done|].
  destruct (monitorear_ultimo_cliente _); split; try done; cbn; by rewrite bool_decide_eq_true_2.
Qed.

(** How a request ends, for any client that may send it: its answer is there to be
    sent, or the thread dies without sending anything. *)
Lemma atender_cubierto c cl w :
  cubierto (nombre c) = true → soporta_comando cl (nombre c) = true → index c = 0%nat →
  ComandoList.listas_cortas (vista w) → envenenado (base w) = false → envenenado (conf w) = false →
  match esp_comando c w (vista w) with
  | Responde r m =>
      ∃ w', correr (atender cl c) w =
          correr ('(enviado, cliente') ← atomico (enviar_resultado cl r);
                  mret (match enviado with inl e => inl e | inr _ => inr cliente' end)) w' ∧
        conexiones w' = conexiones w ∧ semilla w' = semilla w ∧ vista w' = m ∧
        envenenado (base w') = false ∧ envenenado (conf w') = false ∧
        mapa_config (dato (conf w')) = mapa_config (dato (conf w)) ∧
        registra w w' [linea_comando (obtener_addr w cl) c]
  | Aborta m | Envenena m =>
      ∃ w', correr (atender cl c) w = (None, w') ∧ conexiones w' = conexiones w ∧
        vista w' = m ∧ registra w w' [linea_comando (obtener_addr w cl) c]
  end.
Proof.
  intros Hc Hsop Hi Hl Hb Hf. set (dir := obtener_addr w cl).
  set (w1 := con_log (cola_log w ++ [InfoComando dir c]) w).
  set (cr := MkClienteRedis 0 0 None 0 None).
  assert (correr (atender cl c) w =
    correr (resultado ← manejar_comando c (CRedis cr);
            r ← lock_conf (actualizar_seccion cl);
            match r with
            | None => mret (inl Server)
            | Some _ =>
                '(enviado, cliente') ← atomico (enviar_resultado cl resultado);
                mret (match enviado with inl e => inl e | inr _ => inr cliente' end)
            end) w1) as ->.
  { unfold atender. rewrite correr_bind, correr_atomico, consultar_eq. cbv beta iota.
    rewrite correr_bind, correr_atomico. unfold log_comando at 1, modificar at 1. cbv beta iota.
    fold dir. fold w1. rewrite correr_bind, correr_atomico, consultar_eq. cbv beta iota.
    rewrite (manejar_comando_cliente c (clonar_cliente w1 cl) cr); [done..|]. by destruct cl. }
  pose proof (manejar_comando_marco c cr w1 Hc Hi Hb Hl) as Hm. rewrite correr_bind.
  destruct (correr (manejar_comando c (CRedis cr)) w1) as [r w2].
  destruct Hm as [(Hcf & Hcx & Hs & Hlog) [_ He]]. cbn [fst snd] in He.
  change (vista w1) with (vista w) in He. rewrite (esp_comando_parecidos c w w1) in He by done.
  assert (registra w w2 [linea_comando dir c]) as Hreg.
  { exists [InfoComando dir c]. split_and!; [by rewrite Hlog|done..]. }
  destruct (esp_comando c w (vista w)) as [r0 m|m|m] eqn:Hesp;
    destruct He as (-> & Hv & Hp); [|by exists w2..].
  destruct (actualizar_registra cl w2) as (w3 & Hact & Hb3 & Hx3 & Hs3 & Ha3 & Hf3 & Hmap & Hreg3);
    [by rewrite Hcf|].
  rewrite correr_bind, Hact. cbv beta iota. exists w3. split_and!.
  - done.
  - by rewrite Hx3, Hcx.
  - by rewrite Hs3, Hs.
  - by rewrite (vista_base w2 w3).
  - by rewrite Hb3.
  - done.
  - by rewrite Hmap, Hcf.
  - change [linea_comando dir c] with ([linea_comando dir c] ++ []).
    eapply registra_trans; [|exact Hreg|]; [by rewrite Hcf|done].
Qed.

Lemma atender_redis c cr env w :
  cubierto (nombre c) = true → index c = 0%nat → ComandoList.listas_cortas (vista w) →
  envenenado (base w) = false → envenenado (conf w) = false → conectado s n a d cr env w →
  (∀ r m, esp_comando c w (vista w) = Responde r m →
     (String.length (Parser.parsear_respuesta r) <= n)%nat) →
  match esp_comando c w (vista w) with
  | Responde r m =>
      ∃ cr' w', correr (atender (CRedis cr) c) w = (Some (inr (CRedis cr')), w') ∧
        conectado s n a d cr' (env ++ [Parser.parsear_respuesta r]) w' ∧ cr_id cr' = cr_id cr ∧
        vista w' = m ∧ envenenado (base w') = false ∧ envenenado (conf w') = false ∧
        mapa_config (dato (conf w')) = mapa_config (dato (conf w)) ∧ parecidos w w' ∧
        registra w w' [linea_comando (dir_de cr) c]
  | Aborta m | Envenena m =>
      ∃ w', correr (atender (CRedis cr) c) w = (None, w') ∧ conexiones w' = conexiones w ∧
        vista w' = m ∧ registra w w' [linea_comando (dir_de cr) c]
  end.
Proof.
  intros Hc Hi Hl Hb Hf Hcon Hn.
  pose proof (atender_cubierto c (CRedis cr) w Hc eq_refl Hi Hl Hb Hf) as Hat.
  rewrite (obtener_addr_conectado cr env) in Hat by done.
  destruct (esp_comando c w (vista w)) as [r m|m|m]; [|done..].
  destruct Hat as (w3 & -> & Hx & Hs & Hv & Hb3 & Hf3 & Hmap & Hreg).
  assert (conectado s n a d cr env w3) as Hcon3.
  { destruct Hcon as [Hcs Hcc]. split; [done|]. by rewrite Hx. }
  rewrite correr_bind, correr_atomico.
  destruct (enviar_redis s n a d cr env r w3 Hcon3) as (cr' & -> & Hcs & Hci); [by eapply Hn|].
  exists cr', (recibido s n a d (env ++ [Parser.parsear_respuesta r]) w3). split_and!; try done.
  - split; [rewrite Hcs; apply Hcon|]. cbn. by rewrite lookup_insert_eq.
  - eapply parecidos_trans; [|by eapply parecidos_recibido]. split; [done|]. intros x. by rewrite Hx.
Qed.

(** ** A conversation *)

(** The specification: the requests answered in order from the store [m], the store
    they leave, and whether the thread is still there. *)
Fixpoint conversar (w : Mundo) (peticiones : list (list string)) (m : Estado)
    : list ResultadoRedis * Estado * bool :=
  match peticiones with
  | [] => ([], m, true)
  | args :: peticiones' =>
      match new args with
      | None => ([], m, false)
      | Some c =>
          match esp_comando c w m with
          | Responde r m' =>
              let '(rs, m'', vivo) := conversar w peticiones' m' in (r :: rs, m'', vivo)
          | Aborta m' | Envenena m' => ([], m', false)
          end
      end
  end.

(** The requests the theorem is about: words a request can carry, covered commands,
    and at each turn a store with sizes a machine can have. *)
Fixpoint admisible (w : Mundo) (peticiones : list (list string)) (m : Estado) : Prop :=
  match peticiones with
  | [] => True
  | args :: peticiones' =>
      Forall Parser.argumento_ok args ∧ Z.of_nat (length args) ≤ u32_max ∧ estado_ok m ∧
      match new args with
      | None => False
      | Some c =>
          cubierto (nombre c) = true ∧ Parser.sin_lf (nombre c) = true ∧
          match esp_comando c w m with
          | Responde _ m' => admisible w peticiones' m'
          | _ => True
          end
      end
  end.

(** The requests that reach a handler: all that are answered and the one, if any,
    that kills the thread. *)
Definition atendidas (peticiones : list (list string)) (rs : list ResultadoRedis) (vivo : bool)
    : list ComandoInfo :=
  omap new (if vivo then peticiones else take (S (length rs)) peticiones).

Lemma new_comando_ok args c :
  new args = Some c → Forall Parser.argumento_ok args → Z.of_nat (length args) ≤ u32_max →
  Parser.sin_lf (nombre c) = true → comando_ok c ∧ args ≠ [].
Proof.
  intros Hn Ha Hl Hs. destruct args as [|x [|y args]]; [done|..]; injection Hn as <-;
    apply Forall_cons_iff in Ha as [_ Ha]; (split; [|done]);
    (split; cbn [index parametros] in *; [done..|exact Ha|cbn [length] in *; lia]).
Qed.

Lemma conversar_decodificable w ps m :
  admisible w ps m → Forall (λ r, Parser.decodificable 2 r = true) (conversar w ps m).1.1.
Proof.
  revert m. induction ps as [|args ps IH]; intros m Ha; cbn [conversar]; [constructor|].
  cbn [admisible] in Ha. destruct Ha as (Hargs & Hl & Hm & Ha).
  destruct (new args) as [c|] eqn:Hn; [|done]. destruct Ha as (Hc & Hs & Ha).
  destruct (new_comando_ok args c Hn Hargs Hl Hs) as [Hok _].
  pose proof (esp_comando_tipado c w m Hok Hm) as Ht.
  destruct (esp_comando c w m) as [r m'|m'|m']; [|constructor..].
  specialize (IH m' Ha). destruct (conversar w ps m') as [[rs m''] vivo].
  constructor; [apply Ht|exact IH].
Qed.

(** What the reader finds at each turn: a request, and whatever had already arrived
    after it, which is lost with the reader. *)
Definition envios (ps : list (list string)) (restos : list string) : list (option string) :=
  zip_with (λ args resto, Some (Parser.peticion args +:+ resto)) ps restos.

Lemma obtener_comando_peticion cr env w args resto :
  conectado s n a d cr env w → Forall Parser.argumento_ok args → args ≠ [] →
  Z.of_nat (length args) ≤ u32_max →
  obtener_comando (CRedis cr) (Some (Parser.peticion args +:+ resto)) w =
    ((c ← new args; Some (inr (Some c), CRedis cr)), w).
Proof.
  intros Hcon Ha Hne Hl. cbn [obtener_comando]. unfold obtener_comando_redis.
  rewrite !m_bind_eq, consultar_eq. rewrite (conectado_clon s n a d cr env w) by done.
  rewrite m_bind_eq, o_panico_eq. cbn [from_option id default].
  rewrite (Parser.parsear_stream_peticion args resto Hne Hl Ha). by destruct (new args).
Qed.

(** A turn that finds a request. *)
Lemma vuelta_redis cr env w args resto c :
  conectado s n a d cr env w → Forall Parser.argumento_ok args → args ≠ [] →
  Z.of_nat (length args) ≤ u32_max → new args = Some c →
  correr (vuelta (CRedis cr) (Some (Parser.peticion args +:+ resto))) w =
    match correr (atender (CRedis cr) c) w with
    | (Some (inl e), w') => (Some (Fin (CRedis cr) (inl e)), w')
    | (Some (inr cl), w') => (Some (Asoma cl), w')
    | (None, w') => (None, w')
    end.
Proof.
  intros Hcon Ha Hne Hl Hnew. unfold vuelta. rewrite correr_bind. cbn [tramo].
  rewrite correr_bind, correr_atomico, consultar_eq. cbv beta iota.
  assert (envio_informacion w (CRedis cr) = true) as ->.
  { destruct Hcon as [Hcs Hcc]. cbn. unfold envio_informacion_redis, asomar. rewrite Hcs.
    cbn. by rewrite Hcc. }
  rewrite correr_ret. cbv beta iota. cbn [tramo]. unfold leer.
  rewrite correr_bind, correr_atomico, (obtener_comando_peticion cr env) by done.
  rewrite Hnew. cbn [mbind option_bind]. cbv beta iota. rewrite correr_bind.
  by destruct (correr (atender (CRedis cr) c) w) as [[[e|cl]|] w'].
Qed.

(** A thread after a conversation: in its loop, as the same client, or dead. *)
Definition sigue (vivo : bool) (cr : ClienteRedis) (p : option Punto) : Prop :=
  if vivo then ∃ cr', p = Some (Asoma (CRedis cr')) ∧ cr_socket cr' = Some s ∧ cr_id cr' = cr_id cr
  else p = None.

Lemma manejar_cliente_redis w0 ps restos cr env w :
  length restos = length ps →
  admisible w0 ps (vista w) → parecidos w0 w →
  envenenado (base w) = false → envenenado (conf w) = false → conectado s n a d cr env w →
  Forall (λ r, (String.length (Parser.parsear_respuesta r) <= n)%nat) (conversar w0 ps (vista w)).1.1 →
  let '(rs, m, vivo) := conversar w0 ps (vista w) in
  ∃ p w', correr (manejar_cliente (CRedis cr) (envios ps restos)) w = (p, w') ∧ sigue vivo cr p ∧
    vista w' = m ∧
    conexiones w' !! s = Some (abierta n a d (env ++ (Parser.parsear_respuesta <$> rs))) ∧
    registra w w' (linea_comando (dir_de cr) <$> atendidas ps rs vivo).
Proof.
  revert restos cr env w. induction ps as [|args ps IH]; intros [|resto restos] cr env w Hlen Ha Hp Hb Hf Hcon Hn;
    try done.
  - exists (Some (Asoma (CRedis cr))), w. cbn. rewrite app_nil_r. split_and!; [done| |done|apply Hcon|].
    + exists cr. split_and!; [done|apply Hcon|done].
    + exists []. by rewrite app_nil_r.
  - cbn [admisible] in Ha. destruct Ha as (Hargs & Hl & Hm & Ha). cbn [conversar] in *.
    injection Hlen as Hlen.
    destruct (new args) as [c|] eqn:Hnew; [|done]. destruct Ha as (Hc & Hs & Ha).
    destruct (new_comando_ok args c Hnew Hargs Hl Hs) as [Hok Hne].
    cbn [envios zip_with manejar_cliente]. rewrite correr_bind, (vuelta_redis cr env w args resto c) by done.
    pose proof (atender_redis c cr env w Hc (ok_index c Hok) (estado_ok_cortas _ Hm) Hb Hf Hcon) as Hat.
    rewrite (esp_comando_parecidos c w0 w) in Hat by done.
    assert (∀ ps' rs vivo, atendidas (args :: ps') rs vivo =
      c :: (if vivo then omap new ps' else omap new (take (length rs) ps'))) as Hats.
    { intros ps' rs vivo. unfold atendidas. destruct vivo; cbn; by rewrite Hnew. }
    destruct (esp_comando c w0 (vista w)) as [r m'|m'|m'].
    + destruct Hat as (cr' & w1 & -> & Hcon1 & Hid & Hv & Hb1 & Hf1 & Hmap & Hpar & Hreg).
      { intros r1 m1 [= <- <-]. destruct (conversar w0 ps m') as [[rs m''] vivo].
        by apply Forall_cons_iff in Hn as [Hn _]. }
      cbv beta iota. specialize (IH restos cr' (env ++ [Parser.parsear_respuesta r]) w1 Hlen).
      rewrite Hv in IH. destruct (conversar w0 ps m') as [[rs m''] vivo].
      destruct IH as (p & w' & Hrun & Hsig & Hv' & Hx' & Hreg'); try done.
      { by eapply parecidos_trans. }
      { by apply Forall_cons_iff in Hn as [_ Hn]. }
      exists p, w'. split_and!; [done| |done|by rewrite Hx', <-app_assoc|].
      { unfold sigue in *. by rewrite <-Hid. }
      rewrite Hats. assert (dir_de cr' = dir_de cr) as Hdir by (unfold dir_de; by rewrite Hid).
      rewrite Hdir in Hreg'.
      change (linea_comando (dir_de cr) <$> (c :: ?l))
        with ([linea_comando (dir_de cr) c] ++ (linea_comando (dir_de cr) <$> l)).
      eapply registra_trans; [done|exact Hreg|].
      unfold atendidas in Hreg'. by destruct vivo.
    + destruct Hat as (w1 & -> & Hx & Hv & Hreg); [done|]. cbv beta iota.
      exists None, w1. split_and!; [done..| |]; [|by rewrite Hats].
      rewrite app_nil_r, Hx. apply Hcon.
    + destruct Hat as (w1 & -> & Hx & Hv & Hreg); [done|]. cbv beta iota.
      exists None, w1. split_and!; [done..| |]; [|by rewrite Hats].
      rewrite app_nil_r, Hx. apply Hcon.
Qed.

(** A connection its peer has closed, or that fails: [peek] finds nothing. *)
Definition cerrada (w : Mundo) : Prop :=
  ∃ c, conexiones w !! s = Some c ∧ direccion_local c = d ∧
    (asomado c = Some 0%nat ∨ asomado c = None).

(** The turn that finds it ends the loop, and the thread says so. *)
Lemma hilo_cerrado cr e es w :
  cr_socket cr = Some s → cerrada w →
  correr (hilo_desde (Asoma (CRedis cr)) (e :: es)) w =
    (Some (Fin (CRedis cr) (inr ())),
     con_log (cola_log w ++ [InfoConeccion (dir_de cr) "se desconecto usuario"]) w).
Proof.
  intros Hs (c & Hc & Hd & Hce). cbn [hilo_desde manejar_cliente].
  assert (obtener_addr w (CRedis cr) = dir_de cr) as Hdir.
  { unfold obtener_addr, addr. rewrite Hs, Hc. cbn [mbind option_bind]. by rewrite Hd. }
  assert (asomar w s = asomado c) as Has by (unfold asomar; by rewrite Hc).
  assert (envio_informacion w (CRedis cr) = false) as He.
  { cbn [envio_informacion]. unfold envio_informacion_redis. rewrite Hs. cbn [mbind option_bind].
    rewrite Has. by destruct Hce as [->| ->]. }
  assert (esta_conectado w (CRedis cr) = false) as Hec.
  { cbn [esta_conectado]. unfold esta_conectado_redis. rewrite Hs, Has. by destruct Hce as [->| ->]. }
  unfold vuelta. cbn [tramo]. ejecutar. rewrite correr_atomico, consultar_eq, He. ejecutar. cbn [tramo].
  ejecutar. rewrite correr_atomico, consultar_eq, Hec. ejecutar. cbn [despedida]. ejecutar.
  rewrite correr_atomico, consultar_eq, Hdir. cbv beta iota. done.
Qed.
End servicio.

(** ** Properties *)

(** C1: A Redis client that is alone on the server and sends requests,
    one for each turn of its thread's loop, over an open connection that takes each
    answer in one write, receives exactly the answers of the specification, in order,
    and the abstract store is the one the specification leaves: decoding the bytes of
    the socket gives the answers and nothing more.  The requests are of words the parser
    can read, for the commands of [cubierto] (those on strings, lists and sets, COPY,
    DEL, EXISTS, RENAME, TYPE, PING, FLUSHDB, and names the server does not know), on
    stores with strings of one line and sizes a machine can have ([admisible]).  What
    had arrived behind a request when it was read ([restos]) is lost.  After the last request the thread is
    in its loop as the same client; when a request makes its handler panic, what came
    before it is still answered and the thread is dead. *)
Theorem cliente_servido `{Entorno} cr s n a d env ps restos w
    (Hcon : conectado s n a d cr env w)
    (Hb : envenenado (base w) = false) (Hf : envenenado (conf w) = false)
    (Hps : admisible w ps (vista w)) (Hrestos : length restos = length ps)
    (Hn : Forall (λ r, (String.length (Parser.parsear_respuesta r) <= n)%nat)
            (conversar w ps (vista w)).1.1) :
  let '(rs, m, vivo) := conversar w ps (vista w) in
  ∃ p w' nuevos,
    correr (manejar_cliente (CRedis cr) (envios ps restos)) w = (p, w') ∧ sigue s vivo cr p ∧
    vista w' = m ∧ enviado <$> conexiones w' !! s = Some (env ++ nuevos) ∧
    Parser.leer_varios (Parser.leer_respuesta 2) (length rs) (String.concat "" nuevos) =
      Some (rs, "").
Proof.
  pose proof (conversar_decodificable w ps (vista w) Hps) as Hd.
  pose proof (manejar_cliente_redis s n a d w ps restos cr env w Hrestos Hps (conj eq_refl (λ _, eq_refl))
    Hb Hf Hcon Hn) as Hc.
  destruct (conversar w ps (vista w)) as [[rs m] vivo]. destruct Hc as (p & w' & Hr & Hsig & Hv & Hx & _).
  exists p, w', (Parser.parsear_respuesta <$> rs). split_and!; [done..|by rewrite Hx|].
  rewrite <-(string_app_nil_r (String.concat _ _)). apply Parser.leer_varios_app.
  eapply Forall_impl; [|exact Hd]. intros r Hdr t. by apply Parser.leer_respuesta_parsear.
Qed.

Lemma estado_ok_vacio : estado_ok ∅.
Proof. apply map_Forall_empty. Qed.

Definition peticiones_prueba : list (list string) :=
  [["set"; "k"; "v"]; ["append"; "k"; "w"]; ["get"; "k"]; ["hola"]].

Lemma peticiones_prueba_admisibles :
  @admisible entorno_prueba (con_socket mundo_vacio) peticiones_prueba ∅.
Proof.
  pose proof estado_ok_vacio.
  assert (∀ v, Parser.sin_lf v = true → Parser.largo v ≤ i64_max →
    estado_ok {["k" := Str v]}) as Hv by (intros; by apply map_Forall_singleton).
  assert (Parser.largo "v" ≤ i64_max ∧ Parser.largo "vw" ≤ i64_max) as [? ?]
    by (split; discriminate).
  cbn [admisible peticiones_prueba].
  repeat match goal with
  | |- _ ∧ _ => split
  | |- Forall _ _ => repeat constructor; discriminate
  | |- match ?x with _ => _ end => let y := eval vm_compute in x in change x with y; cbv iota
  end; try done; try (by apply Hv).
Qed.

(** A second request sent together with the first one is lost. *)
Definition restos_prueba : list string := [Parser.peticion ["del"; "k"]; ""; ""; ""].

Lemma cliente_servido_witness :
  ∃ p w' nuevos,
    correr (@manejar_cliente entorno_prueba cliente_prueba (envios peticiones_prueba restos_prueba))
      (con_socket mundo_vacio) = (p, w') ∧
    sigue 1 true (MkClienteRedis 0 0 None 0 (Some 1)) p ∧
    vista w' = {["k" := Str "vw"]} ∧ enviado <$> conexiones w' !! 1 = Some nuevos ∧
    Parser.leer_varios (Parser.leer_respuesta 2) 4 (String.concat "" nuevos) =
      Some ([StrSimple "OK"; Int 2; BulkStr "vw"; Error "ComandoError 'HOLA' no existe"], "").
Proof.
  exact (@cliente_servido entorno_prueba (MkClienteRedis 0 0 None 0 (Some 1)) 1 100 8 None []
    peticiones_prueba restos_prueba (con_socket mundo_vacio) (conj eq_refl eq_refl) eq_refl eq_refl
    peticiones_prueba_admisibles eq_refl ltac:(vm_compute; repeat constructor)).
Defined.

(** C27: What a Redis client that is alone on the server does with the
    requests of C1 is in the log, if its file can be written: from its connection until
    its peer has closed it and the thread has noticed, the messages the thread sends
    make the log thread append to the file one line for the connection, one for each
    request that reached a handler, the fatal one included, and, when the loop finds
    the connection closed and ends without error, one for the departure; that line is
    missing exactly when a handler panicked. *)
Theorem registro_cliente `{Entorno} cr s n a d env ps restos w h sal e es
    (Hcon : conectado s n a d cr env w)
    (Hb : envenenado (base w) = false) (Hf : envenenado (conf w) = false)
    (Hps : admisible w ps (vista w)) (Hrestos : length restos = length ps)
    (Hn : Forall (λ r, (String.length (Parser.parsear_respuesta r) <= n)%nat)
            (conversar w ps (vista w)).1.1)
    (Hlog : cola_log w = []) (Hr : ruta h = Configuracion.logfile (dato (conf w)))
    (Hd : Persistencia.escribible (disco sal) (ruta h) = true) :
  let '(rs, _, vivo) := conversar w ps (vista w) in
  let dir := dir_de d cr in
  ∃ p w1, correr (hilo_cliente (CRedis cr) (envios ps restos)) w = (p, w1) ∧ sigue s vivo cr p ∧
  ∀ w2, ambiente w1 w2 → cerrada s d w2 →
  ∃ q w3, (match p with Some p => correr (hilo_desde p (e :: es)) w2 | None => (None, w2) end) = (q, w3) ∧
    (if vivo then ∃ cl, q = Some (Fin cl (inr ())) else q = None) ∧
    ∃ h' sal' w'', logear (cola_log w3) h sal w3 = (Some (h', sal'), w'') ∧
      default "" (Persistencia.archivos (disco sal') !! ruta h) =
        default "" (Persistencia.archivos (disco sal) !! ruta h) +:+
        texto ((dir +:+ " Se conecto usario") :: (linea_comando dir <$> atendidas ps rs vivo)
               ++ (if vivo then [dir +:+ " se desconecto usuario"] else [])).
Proof.
  set (w0 := con_log (cola_log w ++ [InfoConeccion (dir_de d cr) "Se conecto usario"]) w).
  pose proof (manejar_cliente_redis s n a d w ps restos cr env w0 Hrestos Hps (conj eq_refl (λ _, eq_refl))
    Hb Hf Hcon Hn) as Hc. change (vista w0) with (vista w) in Hc.
  destruct (conversar w ps (vista w)) as [[rs m] vivo].
  destruct Hc as (p & w1 & Hrun & Hsig & _ & _ & ms & Hms & Hls & Hfs). cbv zeta.
  assert (Hin : ∀ w', cola_log w' = cola_log w1 ++
      (if vivo then [InfoConeccion (dir_de d cr) "se desconecto usuario"] else []) →
    ∃ h' sal' w'', logear (cola_log w') h sal w' = (Some (h', sal'), w'') ∧
    default "" (Persistencia.archivos (disco sal') !! ruta h) =
      default "" (Persistencia.archivos (disco sal) !! ruta h) +:+
      texto ((dir_de d cr +:+ " Se conecto usario") :: (linea_comando (dir_de d cr) <$> atendidas ps rs vivo)
             ++ (if vivo then [dir_de d cr +:+ " se desconecto usuario"] else []))).
  { intros w' Hw'. destruct (logear_registrado (cola_log w') h sal w') as (h' & sal' & w'' & Hl & [_ Hr'] & _).
    - rewrite Hw', Hms, !forallb_app, Hr. cbn [w0 cola_log con_log]. rewrite Hlog. cbn [forallb app].
      cbn [w0 conf con_log] in Hfs. rewrite Hfs. by destruct vivo.
    - done.
    - exists h', sal', w''. split; [done|]. rewrite Hr', Hw', Hms. do 2 f_equal.
      cbn [w0 cola_log con_log]. rewrite Hlog. unfold lineas_log in *. rewrite !omap_app, Hls.
      by destruct vivo. }
  exists p, w1. split_and!; [|done|].
  - unfold hilo_cliente, inicio_cliente. ejecutar. rewrite correr_atomico, consultar_eq. cbv beta iota.
    rewrite (obtener_addr_conectado s n a d cr env) by done.
    rewrite correr_bind, correr_atomico. unfold log_coneccion at 1, modificar. cbv beta iota. fold w0.
    rewrite correr_ret. cbv beta iota. cbn [hilo_desde]. rewrite correr_bind, Hrun. unfold sigue in Hsig.
    destruct vivo; [destruct Hsig as (cr' & -> & _ & _)|subst p]; done.
  - intros w2 Hamb Hce. unfold sigue in Hsig. destruct vivo.
    + destruct Hsig as (cr' & -> & Hs' & Hid). rewrite (hilo_cerrado s d cr') by done.
      do 2 eexists. split_and!; [done|by eexists|].
      apply Hin. cbn [cola_log con_log]. rewrite (amb_log _ _ Hamb). unfold dir_de. by rewrite Hid.
    + subst p. do 2 eexists. split_and!; [done|done|]. apply Hin.
      by rewrite (amb_log _ _ Hamb), app_nil_r.
Qed.

Definition salida_prueba : Salida := MkSalida (Persistencia.MkDisco ∅ (λ _, true)) [].
Definition log_prueba : LogHandler :=
  new_log_handler (Configuracion.logfile (dato (conf mundo_vacio))) false.

(** The peer closes the connection. *)
Definition colgar (w : Mundo) : Mundo :=
  con_conexiones {[1 := MkConexion true (Some 100%nat) (Some 0%nat) None []]} w.

Lemma registro_cliente_witness :
  let '(p, w1) := correr (@hilo_cliente entorno_prueba cliente_prueba
    (envios peticiones_prueba restos_prueba)) (con_socket mundo_vacio) in
  let '(q, w3) := match p with
                  | Some p => correr (@hilo_desde entorno_prueba p [None]) (colgar w1)
                  | None => (None, colgar w1)
                  end in
  ∃ h' sal' w'', logear (cola_log w3) log_prueba salida_prueba w3 = (Some (h', sal'), w'') ∧
    default "" (Persistencia.archivos (disco sal') !! ruta log_prueba) =
      texto ["Token: 0 Se conecto usario"; "Token: 0 SET k v"; "Token: 0 APPEND k w";
             "Token: 0 GET k"; "Token: 0 HOLA"; "Token: 0 se desconecto usuario"].
Proof.
  pose proof (@registro_cliente entorno_prueba (MkClienteRedis 0 0 None 0 (Some 1)) 1 100 8 None []
    peticiones_prueba restos_prueba (con_socket mundo_vacio) log_prueba salida_prueba None []
    (conj eq_refl eq_refl) eq_refl eq_refl peticiones_prueba_admisibles eq_refl
    ltac:(vm_compute; repeat constructor) eq_refl eq_refl eq_refl) as (p & w1 & Hrun & _ & Hw).
  change (@hilo_cliente entorno_prueba cliente_prueba) with
    (@hilo_cliente entorno_prueba (CRedis (MkClienteRedis 0 0 None 0 (Some 1)))).
  rewrite Hrun. destruct (Hw (colgar w1)) as (q & w3 & Hq & _ & Hl).
  - split; done.
  - eexists. split_and!; [reflexivity..|left; reflexivity].
  - rewrite Hq. exact Hl.
Defined.
