(* ===== verification/ServicioHttp.v ===== *)
(** * The service a browser gets (redis.rs, cliente_http.rs)

    One connection of the web page: the bytes of a POST of its form, through the HTTP
    parser, the dispatch and the handler, to the bytes of the response and the abstract
    store; and a GET of the page. *)
From S2P Require Import Prelude Rust Datos Efectos Valor ComandoInfo Cliente BaseDeDatos Refinamiento.
From S2P Require Import HttpParser Comando Especificacion Servicio.
From S2P Require ComandoList.

#[local] Open Scope Z_scope.


(** ** Serving *)

Section http.
Context `{Entorno} (s : TcpStream) (n a : nat) (d : option string).

Definition conectado_http (ch : ClienteHttp) (env : list string) (w : Mundo) : Prop :=
  ch_socket ch = Some s ∧ conexiones w !! s = Some (abierta n a d env).

Lemma enviar_http ch env texto w :
  conectado_http ch env w → (String.length texto <= n)%nat →
  enviar_bytes ch texto w = (Some (inr ()), recibido s n a d (env ++ [texto]) w).
Proof.
  intros [Hs Hc] Hl. unfold enviar_bytes. rewrite Hs, m_bind_eq. unfold escribir_socket. rewrite Hc.
  unfold abierta. by rewrite primeros_bytes_todos.
Qed.

Lemma clonado_http ch env w : conectado_http ch env w → (x ← ch_socket ch; try_clone w x) = Some s.
Proof. intros [Hs Hc]. rewrite Hs. cbn. unfold try_clone. by rewrite Hc. Qed.


(** The turn of the loop that reads the request. *)
Lemma vuelta_http ch bytes w :
  ch_mando ch = false → (x ← ch_socket ch; try_clone w x) = Some s →
  correr (vuelta (CHttp ch) bytes) w =
    match obtener_comando_http ch bytes w with
    | (Some (inl e), w') => (Some (Fin (CHttp (con_mando ch)) (inl e)), w')
    | (Some (inr None), w') => (Some (Asoma (CHttp (con_mando ch))), w')
    | (Some (inr (Some c)), w') =>
        correr (r ← atender (CHttp (con_mando ch)) c;
                mret (match r with inl e => Fin (CHttp (con_mando ch)) (inl e) | inr cl => Asoma cl end)) w'
    | (None, w') => (None, w')
    end.
Proof.
  intros Hm Hs. unfold vuelta. cbn [tramo]. ejecutar. rewrite correr_atomico, consultar_eq.
  cbn [envio_informacion]. rewrite Hm. cbn [negb]. ejecutar. cbn [tramo]. unfold leer.
  rewrite correr_bind, correr_atomico. cbn [obtener_comando]. rewrite m_bind_eq, consultar_eq, Hs, m_bind_eq.
  destruct (obtener_comando_http ch bytes w) as [[[e'|[c|]]|] w']; done.
Qed.

End http.

(** ** Properties *)


(** What a GET is answered with: the icon behind its size, or the page. *)
Definition contenido_get (ch : ClienteHttp) (ruta : string) : list string :=
  if bool_decide (ruta = "/favicon.ico")
  then ["HTTP/1.1 200 OK" +:+ CRLF +:+ "Content-Type: image/gif" +:+ CRLF +:+ "Content-Length: " +:+
        mostrar (Z.of_nat (String.length (ch_icono ch))) +:+ CRLF +:+ CRLF; ch_icono ch]
  else ["HTTP/1.1 200 OK" +:+ CRLF +:+ "Content-Type: text/html; charset=UTF-8" +:+ CRLF +:+ CRLF +:+
        ch_pag_index ch].

(** C28: A GET of any path but the icon gets the page, and of the icon its
    bytes behind their size; neither changes anything else, and the connection
    ends. *)
Theorem pagina_servida `{Entorno} ch s n a d env ruta hs e es w
    (Hcon : conectado_http s n a d ch env w) (Hm : ch_mando ch = false)
    (Hruta : sin CR ruta && sin " " ruta = true) (Hhs : forallb encabezado_ok hs = true)
    (Hu : utf8_valido (peticion_http "GET" ruta hs "") = true)
    (Hlen : Z.of_nat (String.length (peticion_http "GET" ruta hs "")) ≤ 5000)
    (Hn : Forall (λ t, (String.length t <= n)%nat) (contenido_get ch ruta)) :
  correr (manejar_cliente (CHttp ch) (Some (peticion_http "GET" ruta hs "") :: e :: es)) w =
    (Some (Fin (CHttp (con_mando ch)) (inr ())), recibido s n a d (env ++ contenido_get ch ruta) w).
Proof.
  apply andb_true_iff in Hruta as [Hcr Hsp].
  cbn [manejar_cliente]. rewrite correr_bind, (vuelta_http s) by (done || by eapply clonado_http).
  unfold obtener_comando_http. rewrite m_bind_eq, consultar_eq, (clonado_http s n a d ch env) by done.
  rewrite m_bind_eq, o_panico_eq.
  destruct (parsear_peticion "GET" ruta hs "") as [k ->]; try done; [lia|].
  assert (∀ l, obtener_comando_redis l "GET" = Some (inr [])) as -> by done.
  cbn [mbind option_bind fmap option_fmap option_map new_http get_metodo metodo].
  unfold manejar_get. cbn [get_argumento args head]. unfold contenido_get in *.
  destruct (decide (ruta = "/favicon.ico")) as [->|Hr].
  - rewrite !bool_decide_eq_true_2 in * by done. apply Forall_cons_iff in Hn as [Hn1 [Hn2 _]%Forall_cons_iff].
    rewrite m_bind_eq, (enviar_http s n a d ch env) by done. rewrite m_bind_eq.
    rewrite (enviar_http s n a d ch (env ++ [_]))
      by (done || (split; [apply Hcon|]; cbn; by rewrite lookup_insert_eq)).
    cbn. unfold recibido. cbn. by rewrite insert_insert_eq, <-app_assoc.
  - rewrite !bool_decide_eq_false_2 in * by congruence. apply Forall_cons_iff in Hn as [Hn1 _].
    rewrite m_bind_eq, (enviar_http s n a d ch env) by done. done.
Qed.

(** ** Witnesses *)

Definition navegador : ClienteHttp := MkClienteHttp 7 (Some 1) false "<html/>" "GIF".
Definition encabezados_prueba : list (string * string) :=
  [("Host", "localhost:8080"); ("Content-Type", "application/x-www-form-urlencoded")].


Lemma pagina_servida_witness :
  enviado <$> conexiones (snd (correr (@manejar_cliente entorno_prueba (CHttp navegador)
      [Some (peticion_http "GET" "/" encabezados_prueba ""); None]) (con_socket mundo_vacio))) !! 1 =
    Some (contenido_get navegador "/").
Proof.
  rewrite (@pagina_servida entorno_prueba navegador 1 100 8 None [] "/" encabezados_prueba None []
    (con_socket mundo_vacio) (conj eq_refl eq_refl) eq_refl eq_refl eq_refl
    ltac:(vm_compute; reflexivity) ltac:(vm_compute; discriminate) ltac:(vm_compute; repeat constructor)).
  reflexivity.
Defined.
