(* ===== verification/Concurrencia.v ===== *)
(** * Concurrent commands (redis.rs)

    A command that enters the critical section of the database once behaves, among
    any other such commands and while keys expire, as one indivisible step of the
    abstract store, taken between its arrival and its answer. *)
From S2P Require Import Prelude Rust Datos Efectos Valor ComandoInfo Cliente BaseDeDatos Refinamiento.
From S2P Require ComandoString ComandoList ComandoSet ComandoKey Parser.
From S2P Require Import Comando Especificacion.

#[local] Open Scope Z_scope.

(** ** Programs with one action *)

(** No action at all, or one critical section and then the answer. *)
Inductive seccion {B} : Prog B → Prop :=
  | seccion_ret a : seccion (Ret a)
  | seccion_lock A (m : M A) (f : option A → B) : seccion (r ← lock_base m; mret (f r)).

(** The only step of such a program is its run; on a poisoned database it does
    nothing. *)
Lemma seccion_paso {B} (p : Prog B) w h w' :
  seccion p → avanzar p w = Some (h, w') →
  if envenenado (base w) then w' = w ∧ ∃ r, h = Vivo (Ret r)
  else ∃ o, correr p w = (o, w') ∧ h = match o with Some r => Vivo (Ret r) | None => Muerto end.
Proof.
  intros [a|A m f]; [done|]. cbn. unfold con_cerrojo_base.
  destruct (envenenado (base w)); [intros [= <- <-]; by eauto|].
  destruct (m w) as [[r|] w1]; intros [= <- <-]; by eauto.
Qed.

Definition comandos_seccion : list string :=
  ["GET"; "SET"; "APPEND"; "STRLEN"; "MSET"; "GETSET"; "SADD"; "SREM"; "SCARD"; "SISMEMBER";
   "SMEMBERS"; "COPY"; "TYPE"].

Section concurrencia.
Context `{Entorno}.

(** A request of the commands above, as the parser makes it. *)
Definition indivisible (c : ComandoInfo) : Prop := nombre c ∈ comandos_seccion ∧ index c = 0%nat.

Lemma indivisible_cubierto c :
  indivisible c → cubierto (nombre c) = true ∧ ComandoList.es_comando_list (nombre c) = false.
Proof.
  intros [Hn _]. unfold comandos_seccion in Hn. set_unfold.
  destruct_or!; rewrite Hn; by split.
Qed.

Lemma indivisible_seccion c cr : indivisible c → seccion (manejar_comando c (CRedis cr)).
Proof.
  intros Hc. pose proof (indivisible_cubierto c Hc) as [Hcub _].
  rewrite manejar_comando_casos by done. destruct Hc as [Hn _]. destruct c as [n ps i].
  cbn [nombre] in *. unfold comandos_seccion in Hn. set_unfold.
  destruct_or!; subst n; cbv zeta;
    repeat match goal with
    | |- seccion (if ?b then _ else _) => let v := eval vm_compute in b in change b with v; cbv iota
    end;
    cbv [ComandoString.ejecutar ComandoSet.ejecutar ComandoKey.ejecutar get_nombre nombre];
    unfold ComandoString.get, ComandoString.set, ComandoString.append, ComandoString.strlen,
      ComandoString.mset, ComandoString.getset, ComandoSet.sadd, ComandoSet.srem, ComandoSet.scard,
      ComandoSet.sismember, ComandoSet.smembers, ComandoKey.copy, ComandoKey.tipo;
    repeat match goal with
    | |- seccion (match ?x with _ => _ end) => destruct x
    end; first [apply seccion_ret | apply seccion_lock].
Qed.

(** ** The abstract system *)

(** A request waits until its step, which fixes its answer, [None] when its thread
    panics. *)
Inductive Peticion :=
  | Pendiente (c : ComandoInfo)
  | Hecha (r : option ResultadoRedis).

(** The requests, the abstract store and whether the database is poisoned. *)
Record Abstracto := MkAbstracto {
  peticiones : list Peticion;
  almacen : Estado;
  roto : bool;
}.

(** What an ending means for the abstract system. *)
Definition efecto (d : Desenlace) : option ResultadoRedis * Estado * bool :=
  match d with
  | Responde r m => (Some r, m, false)
  | Aborta m => (None, m, false)
  | Envenena m => (None, m, true)
  end.

(** A request arrives; it is served in one step, which is that of its specification
    in some world with this store (the world decides the order of a set); on a
    poisoned database it is answered without effect; keys expire. *)
Inductive paso_abstracto : Abstracto → Abstracto → Prop :=
  | abs_llega ps m b c :
      indivisible c →
      paso_abstracto (MkAbstracto ps m b) (MkAbstracto (ps ++ [Pendiente c]) m b)
  | abs_sirve ps w i c r m b :
      ps !! i = Some (Pendiente c) → efecto (esp_comando c w (vista w)) = (r, m, b) →
      paso_abstracto (MkAbstracto ps (vista w) false) (MkAbstracto (<[i := Hecha r]> ps) m b)
  | abs_roto ps m i c r :
      ps !! i = Some (Pendiente c) →
      paso_abstracto (MkAbstracto ps m true) (MkAbstracto (<[i := Hecha (Some r)]> ps) m true)
  | abs_expira ps m m' b :
      m' ⊆ m → paso_abstracto (MkAbstracto ps m b) (MkAbstracto ps m' b).

(** ** The simulation *)

Definition nueva (p : Prog ResultadoRedis) : Prop :=
  ∃ c cr, indivisible c ∧ p = manejar_comando c (CRedis cr).

(** A waiting request has not run its action; a served one is the thread with its
    answer, or a dead one. *)
Definition corresponde (h : Hilo ResultadoRedis) (x : Peticion) : Prop :=
  match x with
  | Pendiente c => indivisible c ∧ ∃ cr, h = Vivo (manejar_comando c (CRedis cr))
      ∧ ∀ a, manejar_comando c (CRedis cr) ≠ Ret a
  | Hecha (Some r) => h = Vivo (Ret r)
  | Hecha None => h = Muerto
  end.

(** The abstract view of a pool. *)
Definition vista_abstracta (ps : list Peticion) (w : Mundo) : Abstracto :=
  MkAbstracto ps (vista w) (envenenado (base w)).

Lemma vista_ambiente w w' : ambiente w w' → vista w' ⊆ vista w.
Proof.
  intros [Hb _ Ha _ _]. apply map_subseteq_spec. intros k v. rewrite !vista_lookup. unfold leer_valor, tabla.
  rewrite Hb. destruct (hashmap (dato (base w)) !! k) as [x|]; [|done]. unfold get.
  destruct (expiro (ahora w) x) eqn:He; [by rewrite (expiro_monotono _ _ _ Ha He)|].
  by destruct (expiro (ahora w') x).
Qed.

(** What a run of a request means for the abstract system. *)
Lemma servir_indivisible c cr w o w' :
  indivisible c → envenenado (base w) = false →
  correr (manejar_comando c (CRedis cr)) w = (o, w') →
  efecto (esp_comando c w (vista w)) = (o, vista w', envenenado (base w')).
Proof.
  intros Hc Hw Hr. destruct (indivisible_cubierto c Hc) as [Hcub Hl].
  pose proof (manejar_comando_esp c cr w Hcub (proj2 Hc) Hw) as He. rewrite Hl, Hr in He.
  destruct He as [_ He]; [done|]. cbn [fst snd] in He.
  destruct (esp_comando c w (vista w)); destruct He as (-> & -> & ->); done.
Qed.

Lemma simular s s' ps :
  paso nueva (λ _ _, False) s s' → Forall2 corresponde (hilos s) ps →
  ∃ ps', rtc paso_abstracto (vista_abstracta ps (mundo s)) (vista_abstracta ps' (mundo s')) ∧
    Forall2 corresponde (hilos s') ps'.
Proof.
  intros Hp Hps. destruct Hp as [hs w i p h w' Hi Hav|hs w p (c & cr & Hc & ->)|hs w i r p _ []|hs w w' Ha];
    cbn [hilos mundo] in *.
  - apply (Forall2_lookup_l _ _ _ _ _ Hps) in Hi as (x & Hx & Hcor).
    destruct x as [c|[r|]]; cbn [corresponde] in Hcor; [|simplify_eq/=..].
    destruct Hcor as (Hc & cr & Hp & _). simplify_eq.
    pose proof (seccion_paso _ _ _ _ (indivisible_seccion c cr Hc) Hav) as Hs.
    unfold vista_abstracta at 1. destruct (envenenado (base w)) eqn:Hw.
    + destruct Hs as (-> & r & ->). exists (<[i := Hecha (Some r)]> ps). split.
      * unfold vista_abstracta. rewrite Hw. by eapply rtc_once, abs_roto.
      * by apply Forall2_insert.
    + destruct Hs as (o & Hr & ->). exists (<[i := Hecha o]> ps). split.
      * eapply rtc_once, abs_sirve; [done|]. by eapply servir_indivisible.
      * apply Forall2_insert; [done|]. by destruct o.
  - pose proof (indivisible_seccion c cr Hc) as Hs.
    assert (rtc paso_abstracto (vista_abstracta ps w) (vista_abstracta (ps ++ [Pendiente c]) w)) as Hll
      by by apply rtc_once, abs_llega.
    destruct (manejar_comando c (CRedis cr)) as [a|R op k] eqn:Hm.
    + exists (ps ++ [Hecha (Some a)]). split; [|by apply Forall2_app; [|constructor]].
      assert ((ps ++ [Pendiente c]) !! length ps = Some (Pendiente c)) as Hlk
        by by apply list_lookup_middle.
      assert (<[length ps := Hecha (Some a)]> (ps ++ [Pendiente c]) = ps ++ [Hecha (Some a)]) as <-
        by (rewrite insert_app_r_alt, Nat.sub_diag by done; done).
      eapply rtc_r; [exact Hll|]. unfold vista_abstracta. destruct (envenenado (base w)) eqn:Hw.
      * by eapply abs_roto.
      * eapply abs_sirve; [done|]. rewrite <-Hw. eapply (servir_indivisible c cr); [done..|].
        by rewrite Hm.
    + exists (ps ++ [Pendiente c]). split; [done|]. apply Forall2_app; [done|]. constructor; [|done].
      split; [done|]. exists cr. by rewrite Hm.
  - exists ps. split; [|done]. unfold vista_abstracta. rewrite (amb_base _ _ Ha).
    by apply rtc_once, abs_expira, vista_ambiente.
Qed.

Lemma simular_pasos s s' ps :
  pasos nueva s s' → Forall2 corresponde (hilos s) ps →
  ∃ ps', rtc paso_abstracto (vista_abstracta ps (mundo s)) (vista_abstracta ps' (mundo s')) ∧
    Forall2 corresponde (hilos s') ps'.
Proof.
  intros Hp. revert ps. induction Hp as [s|s1 s2 s3 H1 _ IH]; intros ps Hps; [by exists ps|].
  destruct (simular _ _ _ H1 Hps) as (ps2 & Hr & Hps2).
  destruct (IH _ Hps2) as (ps3 & Hr' & Hps3). exists ps3. split; [by etrans|done].
Qed.

(** ** Properties *)

(** C3: Every concurrent execution of commands with one critical section,
    with requests arriving and keys expiring at any moment, is an execution of the
    abstract system: each request takes effect in one step of its specification,
    between its arrival and its answer, and threads that have finished give the
    answers the abstract requests have. *)
Theorem linealizable w s' (Hp : pasos nueva (MkSistema [] w) s') :
  ∃ ps, rtc paso_abstracto (vista_abstracta [] w) (vista_abstracta ps (mundo s')) ∧
    Forall2 corresponde (hilos s') ps ∧
    ∀ i r, hilos s' !! i = Some (Vivo (Ret r)) → ps !! i = Some (Hecha (Some r)).
Proof.
  destruct (simular_pasos _ _ [] Hp) as (ps & Hr & Hps); [constructor|].
  exists ps. split_and!; [done..|]. intros i r Hi.
  apply (Forall2_lookup_l _ _ _ _ _ Hps) in Hi as (x & Hx & Hcor). rewrite Hx.
  destruct x as [c|[r'|]]; cbn [corresponde] in Hcor; simplify_eq; [|done].
  destruct Hcor as (_ & cr & Heq & Hne). simplify_eq. by destruct (Hne r).
Qed.
End concurrencia.

(** ** Witness: a GET that overtakes a SET *)

Definition hilo_prueba (c : ComandoInfo) : Hilo ResultadoRedis :=
  Vivo (@manejar_comando entorno_prueba c cliente_prueba).
Definition set_prueba : ComandoInfo := MkComandoInfo "SET" ["k"; "v"] 0.
Definition get_prueba : ComandoInfo := MkComandoInfo "GET" ["k"] 0.
Definition carrera : Sistema ResultadoRedis :=
  default (MkSistema [] mundo_vacio)
    (planificar [1; 0]%nat (MkSistema [hilo_prueba set_prueba; hilo_prueba get_prueba] mundo_vacio)).

Lemma carrera_pasos : pasos (@nueva entorno_prueba) (MkSistema [] mundo_vacio) carrera.
Proof.
  assert (∀ n ps, n ∈ comandos_seccion → @nueva entorno_prueba
    (@manejar_comando entorno_prueba (MkComandoInfo n ps 0) cliente_prueba)) as Hn.
  { intros n ps Hin. by exists (MkComandoInfo n ps 0), (MkClienteRedis 0 0 None 0 (Some 1)). }
  eapply rtc_l; [apply paso_llega, (Hn "SET" ["k"; "v"]); set_solver|].
  eapply rtc_l; [apply paso_llega, (Hn "GET" ["k"]); set_solver|].
  apply (planificar_pasos _ _ [1; 0]%nat). vm_compute. reflexivity.
Qed.

Lemma linealizable_witness :
  ∃ ps, rtc (@paso_abstracto entorno_prueba) (MkAbstracto [] ∅ false)
      (MkAbstracto ps {["k" := Str "v"]} false) ∧
    ps !! 0%nat = Some (Hecha (Some (StrSimple "OK"))) ∧ ps !! 1%nat = Some (Hecha (Some Nil)).
Proof.
  destruct (@linealizable entorno_prueba mundo_vacio carrera carrera_pasos) as (ps & Hr & _ & Hps).
  exists ps. split_and!; [exact Hr|apply Hps; vm_compute; reflexivity..].
Defined.

(** ** MONITOR among other clients *)

Section monitor.
Context `{Entorno}.

Definition es_monitor (m : Mensaje) : bool := match m with Monitor _ => true | _ => false end.
(** The clients that were subscribed to the log, in order. *)
Definition monitores (w : Mundo) : list Mensaje := base.filter (λ m, es_monitor m = true) (cola_log w).

(** C20: The mark that MONITOR leaves in the configuration does not say
    who asked: when another client finishes a command between the MONITOR of [a] and
    the end of its turn, and both can receive, both requests succeed and their answers
    are sent, and it is the other client, [b], that the log thread is told to
    subscribe; [a] never is. *)
Theorem monitor_equivocado nuevos a b w (Hw : envenenado (conf w) = false)
    (Ha : recibe w (CRedis a) = true) (Hb : recibe w (CRedis b) = true) :
  ∃ a' b' w', pasos nuevos
    (MkSistema [Vivo (atender (CRedis a) (MkComandoInfo "MONITOR" [] 0));
                Vivo (atender (CRedis b) (MkComandoInfo "PING" [] 0))] w)
    (MkSistema [Vivo (Ret (inr a')); Vivo (Ret (inr b'))] w') ∧
    (∀ s, recibido w' s = recibido w s ++ entrega w s (StrSimple "PONG") (CRedis b)
                          ++ entrega w s (StrSimple "Ok") (CRedis a)) ∧
    monitores w' = monitores w ++ [Monitor (clonar_cliente w (CRedis b))].
Proof.
  cut (∃ a' b' w', planificar [0; 0; 0; 0; 1; 1; 1; 1; 1; 0; 0]%nat
    (MkSistema [Vivo (atender (CRedis a) (MkComandoInfo "MONITOR" [] 0));
                Vivo (atender (CRedis b) (MkComandoInfo "PING" [] 0))] w) =
    Some (MkSistema [Vivo (Ret (inr a')); Vivo (Ret (inr b'))] w') ∧
    (∀ s, recibido w' s = recibido w s ++ entrega w s (StrSimple "PONG") (CRedis b)
                          ++ entrega w s (StrSimple "Ok") (CRedis a)) ∧
    monitores w' = monitores w ++ [Monitor (clonar_cliente w (CRedis b))]).
  { intros (a' & b' & w' & Hpl & Hq). exists a', b', w'. split; [by eapply planificar_pasos|done]. }
  unfold atender.
  do 3 (erewrite siguiente_hilo; [|reflexivity|by apply avanzar_atomico]; cbn [insert list_insert]).
  change (manejar_comando (MkComandoInfo "MONITOR" [] 0) _) with Configuracion.fmonitor.
  unfold Configuracion.fmonitor.
  erewrite siguiente_hilo; [|reflexivity|by apply avanzar_lock_conf]; cbn [insert list_insert].
  do 3 (erewrite siguiente_hilo; [|reflexivity|by apply avanzar_atomico]; cbn [insert list_insert]).
  change (manejar_comando (MkComandoInfo "PING" [] 0) _) with Configuracion.ping.
  unfold Configuracion.ping.
  erewrite siguiente_hilo; [|reflexivity|by apply avanzar_lock_conf]; cbn [insert list_insert].
  match goal with |- context [enviar_resultado ?c ?r] =>
    match goal with |- context [MkSistema _ ?w0] =>
      destruct (enviar_resultado_datos c r w0) as (c1 & w1 & He1 & Hm1 & _);
      pose proof (enviar_resultado_recibido c r w0) as Hr1;
      change (recibe w0 c) with (recibe w c) in He1; rewrite He1 in Hr1;
      change (∀ s, recibido w1 s = recibido w s ++ entrega w s r c) in Hr1 end end.
  rewrite Hb in He1. destruct Hm1 as [Hd1 Hx1].
  erewrite siguiente_hilo; [|reflexivity|by apply avanzar_atomico]; cbn [insert list_insert].
  erewrite siguiente_hilo; [|reflexivity|apply avanzar_lock_conf; [by rewrite Hd1|done]];
    cbn [insert list_insert].
  match goal with |- context [enviar_resultado ?c ?r] =>
    match goal with |- context [MkSistema _ ?w0] =>
      destruct (enviar_resultado_datos c r w0) as (c2 & w2 & He2 & [Hd2 _] & _);
      pose proof (enviar_resultado_recibido c r w0) as Hr2;
      change (recibe w0 c) with (recibe w1 c) in He2; rewrite He2 in Hr2;
      change (∀ s, recibido w2 s = recibido w1 s ++ entrega w1 s r c) in Hr2 end end.
  assert (mismos_datos w (con_conexiones (conexiones w1) w)) as Hm1 by done.
  pose proof (recibe_mismos _ _ (CRedis a) Hm1) as Hra. change (recibe w1 (CRedis a) = recibe w (CRedis a)) in Hra.
  rewrite Hra, Ha in He2.
  erewrite siguiente_hilo; [|reflexivity|by apply avanzar_atomico]; cbn [insert list_insert planificar].
  do 3 eexists. split_and!; [reflexivity|..].
  - intros s. rewrite Hr2, Hr1, <-app_assoc. do 2 f_equal.
    exact (entrega_mismos w (con_conexiones (conexiones w1) w) s _ _ Hm1).
  - unfold monitores. rewrite Hd2. cbn [cola_log con_conexiones con_pers con_log con_conf].
    rewrite Hd1. cbn [cola_log con_conexiones con_pers con_log con_conf dato conf envenenado
      Configuracion.actualizar_log Configuracion.monitor monitorear_ultimo_cliente fst snd].
    rewrite !list.filter_app. cbn. by rewrite !app_nil_r.
Qed.
End monitor.

(** Two open connections. *)
Definition mundo_dos : Mundo :=
  con_conexiones {[1 := MkConexion true (Some 100%nat) (Some 9%nat) None [];
                   2 := MkConexion true (Some 100%nat) (Some 9%nat) None []]} mundo_vacio.

Lemma monitor_equivocado_witness :
  ∃ a' b' w', pasos (λ _, False)
    (MkSistema [Vivo (@atender entorno_prueba cliente_prueba (MkComandoInfo "MONITOR" [] 0));
                Vivo (@atender entorno_prueba (CRedis (MkClienteRedis 1 0 None 0 (Some 2)))
                        (MkComandoInfo "PING" [] 0))] mundo_dos)
    (MkSistema [Vivo (Ret (inr a')); Vivo (Ret (inr b'))] w') ∧
    recibido w' 1 = [Parser.parsear_respuesta (StrSimple "Ok")] ∧
    recibido w' 2 = [Parser.parsear_respuesta (StrSimple "PONG")] ∧
    monitores w' = [Monitor (CRedis (MkClienteRedis 1 0 None 0 (Some 2)))].
Proof.
  destruct (@monitor_equivocado entorno_prueba (λ _, False) (MkClienteRedis 0 0 None 0 (Some 1))
    (MkClienteRedis 1 0 None 0 (Some 2)) mundo_dos eq_refl eq_refl eq_refl) as (a' & b' & w' & Hp & Hr & Hm).
  exists a', b', w'. split; [exact Hp|]. split; [rewrite Hr; reflexivity|].
  split; [rewrite Hr; reflexivity|exact Hm].
Defined.
