(* ===== verification/Redis.v ===== *)
(** * The server (redis.rs, main.rs)

    Start-up, the acceptance of connections and shut-down. The threads are those of
    [Comando], [Persistencia] and [Log]. *)
From S2P Require Import Prelude Rust Datos Efectos Valor Cliente BaseDeDatos.
From S2P Require Import Configuracion Persistencia Log Comando.

#[local] Open Scope Z_scope.

(** The configuration [main] starts with: the last argument of the process is a
    path, [archivo] its content. *)
Definition configuracion_inicial (ultimo_argumento : option string)
    (archivo : string → option string) : option Config :=
  match ultimo_argumento with
  | None => Some new_config
  | Some ruta =>
      c ← obtener_configuracion (archivo ruta);
      Some (match c with inr config => config | inl ArchivoInexistenteError => new_config end)
  end.

(** What [Redis::new] creates: the shared world, the log thread and the persistence
    thread; [None] when the persistence file makes the reader panic. *)
Record Redis := MkRedis {
  compartido : Mundo;
  hilo_log : LogHandler;
  hilo_pers : PersistidorHandler;
  siguiente_id : Token;
}.

Definition new (config : Config) (t ts sem : Z) (conexiones : gmap TcpStream Conexion) (d : Disco)
    : option Redis :=
  tabla ← levantar_tabla t (dbfilename config) d;
  let bdd := agregar_observador MkPersistidor (MkBaseDeDatos tabla []) in
  Some (MkRedis
    (MkMundo (MkMutex bdd false) (MkMutex (set_persistidor MkPersistidor config) false)
       t ts sem [] [] conexiones)
    (new_log_handler (logfile config) (verbose config))
    (new_persistidor_handler (dbfilename config) 1 t)
    0).

(** The address [iniciar] binds, [None] when the configuration is poisoned. *)
Definition direccion_de_inicio (w : Mundo) : RedisError + string :=
  if envenenado (conf w) then inl Server else inr (direccion (dato (conf w))).

(** One turn of the loop of [iniciar], up to the [peek] of [crear_cliente]: the
    time-out of the new client, [None] when the connection is dropped. *)
Definition aceptar (r : Redis) : option Z :=
  let w := compartido r in
  if envenenado (conf w) then None else Some (timeout (dato (conf w))).

(** The rest of the turn: the client of the new thread and the next identifier. *)
Definition crear (r : Redis) (timeout : Z) (stream : TcpStream) (pagina icono asomados : option string)
    : Redis * Cliente :=
  let w := compartido r in
  (MkRedis w (hilo_log r) (hilo_pers r) (siguiente_id r + 1),
   crear_cliente (siguiente_id r) timeout (ahora w) stream pagina icono asomados).

(** What [Drop for Redis] sends to each of the two threads. *)
Definition cerrar_log (w : Mundo) : Mundo := con_log (cola_log w ++ [CerrarLog]) w.
Definition cerrar_persistencia (w : Mundo) : Mundo :=
  con_pers (cola_pers w ++ [CerrarPersistencia]) w.

(** ** The initial table *)

Lemma valor_leido_ok t v elemento x : valor_leido t v elemento = Some x → valor_ok t x.
Proof.
  unfold valor_leido. destruct (es_expirable elemento).
  - intros (tiempo & Ht & Hx)%bind_Some. simplify_eq. apply expirable_ok.
    unfold obtener_tiempo_expiracion in Ht. apply bind_Some in Ht as (c0 & _ & Ht). simplify_eq.
    destruct (parse_u64 c0) as [n|] eqn:Hn; [|done]. apply parse_entero_rango in Hn. cbn. lia.
  - intros Hx. simplify_eq. apply no_expirable_ok.
Qed.

Definition valores_ok (t : Z) (h : gmap string Valor) : Prop := map_Forall (λ _ v, valor_ok t v) h.

Lemma leer_coleccion_ok t f elemento h h' :
  leer_coleccion t f elemento h = Some h' → valores_ok t h → valores_ok t h'.
Proof.
  destruct elemento as [|a [|k xs]]; [done..|]. cbn [leer_coleccion].
  intros (v & Hv & Hh)%bind_Some Hok. simplify_eq.
  apply map_Forall_insert_2; [by eapply valor_leido_ok|done].
Qed.

Lemma leer_linea_ok t line h h' :
  leer_linea t line h = Some h' → valores_ok t h → valores_ok t h'.
Proof.
  unfold leer_linea, leer_elemento. intros Hl Hok. repeat case_bool_decide; simplify_eq; [done| |..].
  - apply bind_Some in Hl as (s & _ & (v & Hv & (k & _ & Hk)%bind_Some)%bind_Some). simplify_eq.
    apply map_Forall_insert_2; [by eapply valor_leido_ok|done].
  - by eapply leer_coleccion_ok.
  - by eapply leer_coleccion_ok.
  - done.
Qed.

Lemma levantar_lineas_ok t ls h h' :
  levantar_lineas t ls h = Some h' → valores_ok t h → valores_ok t h'.
Proof.
  revert h. induction ls as [|[line|] ls IH]; intros h; cbn [levantar_lineas]; [by intros [= <-]| |by intros [= <-]].
  intros (h1 & H1 & H2)%bind_Some Hok. eapply IH; [exact H2|]. by eapply leer_linea_ok.
Qed.

Lemma new_ok config t ts sem cs d r :
  new config t ts sem cs d = Some r →
  tabla_ok (compartido r) ∧ observadores (dato (base (compartido r))) = [MkPersistidor] ∧
  (cola_log (compartido r) = [] ∧ cola_pers (compartido r) = []) ∧ siguiente_id r = 0 ∧
  ruta (hilo_log r) = logfile config ∧ archivo (hilo_pers r) = dbfilename config.
Proof.
  unfold new. intros (tb & Ht & Hr)%bind_Some. simplify_eq. split_and!; [|done..].
  unfold tabla_ok. cbn. change (valores_ok t tb). unfold levantar_tabla in Ht.
  destruct (archivos d !! dbfilename config) as [contenido|].
  - eapply levantar_lineas_ok; [exact Ht|]. apply map_Forall_empty.
  - simplify_eq. apply map_Forall_empty.
Qed.
