(* ===== verification/Vida.v ===== *)
(** * The life of the server (redis.rs)

    All the threads of the server together: the loop that accepts connections, one
    thread per client, the log thread and the persistence thread, and the shut-down.
    A thread that reads a channel takes one message per step from the queue of
    [Mundo], which keeps all that was sent. *)
From S2P Require Import Prelude Rust Datos Efectos Valor Cliente BaseDeDatos.
From S2P Require Canal Parser.
From S2P Require Import Configuracion Persistencia Log Comando Redis.

#[local] Open Scope Z_scope.

(** Where the main thread is: before the [bind] of [iniciar]; in its loop, waiting for
    a connection or for the first bytes of the one it accepted, whose client will have
    the given time-out; in [drop], which joins the clients, closes and joins the log
    thread, then the persistence thread; or at its end. *)
Inductive Fase :=
  | Iniciando | Atendiendo | Asomando (timeout : Z) (stream : TcpStream)
  | EsperandoClientes | EsperandoLog | EsperandoPersistencia | Terminado.
#[export] Instance fase_eq_dec : EqDecision Fase.
Proof. solve_decision. Defined.

Record Servidor := MkServidor {
  red : Redis;
  fase : Fase;
  hilos_clientes : list (Hilo Punto);
  (** The client each of those threads was given. *)
  clientes : list Cliente;
  (** The file system and the standard output. *)
  salida : Salida;
  (** How many messages each thread has received, and whether it still runs. *)
  log_recibidos : nat;
  log_activo : bool;
  pers_recibidos : nat;
  pers_activo : bool;
}.

Definition mundo_de (S : Servidor) : Mundo := compartido (red S).

Definition con_compartido (w : Mundo) (r : Redis) : Redis :=
  MkRedis w (hilo_log r) (hilo_pers r) (siguiente_id r).

(** A server that has just been created, on the given file system. *)
Definition arrancado (r : Redis) (sal : Salida) : Servidor :=
  MkServidor r Iniciando [] [] sal 0 true 0 true.

(** The main thread moves on to another phase, in another shared world. *)
Definition en_fase (f : Fase) (w : Mundo) (S : Servidor) : Servidor :=
  MkServidor (con_compartido w (red S)) f (hilos_clientes S) (clientes S) (salida S)
    (log_recibidos S) (log_activo S) (pers_recibidos S) (pers_activo S).
Definition con_salida (sal : Salida) (S : Servidor) : Servidor :=
  MkServidor (red S) (fase S) (hilos_clientes S) (clientes S) sal
    (log_recibidos S) (log_activo S) (pers_recibidos S) (pers_activo S).
Definition con_hilos (hs : list (Hilo Punto)) (S : Servidor) : Servidor :=
  MkServidor (red S) (fase S) hs (clientes S) (salida S)
    (log_recibidos S) (log_activo S) (pers_recibidos S) (pers_activo S).

(** Whether the next call of a client thread waits for the peer: a [peek] or a read of
    its socket.  Without a socket, or when it cannot be duplicated, the call fails at
    once, and an HTTP client is not asked. *)
Definition espera (w : Mundo) (p : Punto) : bool :=
  match p with
  | Asoma (CRedis c) | Comprueba (CRedis c) => bool_decide (is_Some (cr_socket c))
  | Asoma (CHttp _) | Comprueba (CHttp _) => false
  | Lee c => bool_decide (is_Some (s ← socket_de c; try_clone w s))
  | Fin _ _ => false
  end.

Section vida.
Context `{Entorno}.

(** ** The main thread *)

(** The start of [iniciar] and, when it fails, the message of [main] and the return;
    [libre] says whether the address can be bound. *)
Definition paso_iniciar (libre : bool) (S : Servidor) : option Servidor :=
  if bool_decide (fase S = Iniciando) then
    Some (match direccion_de_inicio (mundo_de S), libre with
          | inr _, true => en_fase Atendiendo (mundo_de S) S
          | _, _ => en_fase EsperandoClientes (mundo_de S)
                      (con_salida (MkSalida (disco (salida S)) (impreso (salida S) ++ ["Error al iniciar"])) S)
          end)
  else None.

(** A turn of the loop: a connection arrives... *)
Definition paso_aceptar (stream : TcpStream) (S : Servidor) : option Servidor :=
  if bool_decide (fase S = Atendiendo) then
    Some (match aceptar (red S) with
          | Some timeout => en_fase (Asomando timeout stream) (mundo_de S) S
          | None => S
          end)
  else None.

(** ... and its first bytes are seen.  When the thread cannot be created
    [thread::spawn] panics, which ends the loop: the client has a dead thread. *)
Definition paso_crear (pagina icono asomados : option string) (creado : bool) (S : Servidor)
    : option Servidor :=
  match fase S with
  | Asomando timeout stream =>
      let '(r, cliente) := crear (red S) timeout stream pagina icono asomados in
      Some (MkServidor r (if creado then Atendiendo else EsperandoClientes)
              (hilos_clientes S ++ [if creado then Vivo (inicio_cliente cliente) else Muerto])
              (clientes S ++ [cliente]) (salida S) (log_recibidos S) (log_activo S)
              (pers_recibidos S) (pers_activo S))
  | _ => None
  end.

(** A client thread that [join] does not wait for: it has returned or panicked. *)
Definition terminado (h : Hilo Punto) : bool :=
  match h with Vivo (Ret (Fin _ _)) | Muerto => true | _ => false end.

(** The main thread advances in [drop]; [None] while a [join] waits. *)
Definition paso_principal (S : Servidor) : option Servidor :=
  let w := mundo_de S in
  match fase S with
  | EsperandoClientes =>
      if forallb terminado (hilos_clientes S) then Some (en_fase EsperandoLog (cerrar_log w) S) else None
  | EsperandoLog =>
      if log_activo S then None
      else Some (en_fase EsperandoPersistencia (cerrar_persistencia w) S)
  | EsperandoPersistencia => if pers_activo S then None else Some (en_fase Terminado w S)
  | _ => None
  end.

(** ** The other threads *)

Definition paso_cliente (i : nat) (S : Servidor) : option Servidor :=
  match hilos_clientes S !! i with
  | Some (Vivo p) =>
      '(h, w) ← avanzar p (mundo_de S);
      Some (MkServidor (con_compartido w (red S)) (fase S) (<[i := h]> (hilos_clientes S))
              (clientes S) (salida S) (log_recibidos S) (log_activo S)
              (pers_recibidos S) (pers_activo S))
  | _ => None
  end.

(** The call a client thread was at returns, and the thread goes on. *)
Definition paso_reanudar (i : nat) (entrada : option string) (S : Servidor) : option Servidor :=
  match hilos_clientes S !! i with
  | Some (Vivo (Ret q)) =>
      if en_bucle q then Some (con_hilos (<[i := Vivo (tramo_hilo q entrada)]> (hilos_clientes S)) S)
      else None
  | _ => None
  end.

(** It returns without waiting for the peer. *)
Definition paso_seguir (i : nat) (S : Servidor) : option Servidor :=
  match hilos_clientes S !! i with
  | Some (Vivo (Ret q)) => if espera (mundo_de S) q then None else paso_reanudar i None S
  | _ => None
  end.

(** The log thread receives a message. *)
Definition paso_log (S : Servidor) : option Servidor :=
  if log_activo S then
    m ← cola_log (mundo_de S) !! log_recibidos S;
    Some (match logear_mensaje m (hilo_log (red S)) (salida S) (mundo_de S) with
          | (Some (h, sal, sigue), w) =>
              MkServidor (MkRedis w h (hilo_pers (red S)) (siguiente_id (red S))) (fase S)
                (hilos_clientes S) (clientes S) sal (log_recibidos S + 1) sigue
                (pers_recibidos S) (pers_activo S)
          | (None, w) =>
              MkServidor (con_compartido w (red S)) (fase S) (hilos_clientes S) (clientes S)
                (salida S) (log_recibidos S + 1) false (pers_recibidos S) (pers_activo S)
          end)
  else None.

(** The persistence thread receives a message. *)
Definition paso_persistencia (S : Servidor) : option Servidor :=
  if pers_activo S then
    m ← cola_pers (mundo_de S) !! pers_recibidos S;
    Some (match procesar (semilla (mundo_de S)) (ahora (mundo_de S)) m (hilo_pers (red S))
                  (disco (salida S)) with
          | Some (h, d) =>
              MkServidor (MkRedis (mundo_de S) (hilo_log (red S)) h (siguiente_id (red S))) (fase S)
                (hilos_clientes S) (clientes S) (MkSalida d (impreso (salida S)))
                (log_recibidos S) (log_activo S) (pers_recibidos S + 1) true
          | None =>
              MkServidor (red S) (fase S) (hilos_clientes S) (clientes S) (salida S)
                (log_recibidos S) (log_activo S) (pers_recibidos S + 1) false
          end)
  else None.

(** ** Transitions *)

(** What the server does by itself. *)
Inductive accion (S S' : Servidor) : Prop :=
  | acc_iniciar libre : paso_iniciar libre S = Some S' → accion S S'
  | acc_cliente i : paso_cliente i S = Some S' → accion S S'
  | acc_seguir i : paso_seguir i S = Some S' → accion S S'
  | acc_log : paso_log S = Some S' → accion S S'
  | acc_persistencia : paso_persistencia S = Some S' → accion S S'
  | acc_principal : paso_principal S = Some S' → accion S S'.

(** What needs a peer: a connection arrives, its first bytes arrive, or the call a
    client thread waits at returns. *)
Inductive evento (S S' : Servidor) : Prop :=
  | ev_aceptar stream : paso_aceptar stream S = Some S' → evento S S'
  | ev_crear pagina icono asomados creado :
      paso_crear pagina icono asomados creado S = Some S' → evento S S'
  | ev_reanudar i entrada : paso_reanudar i entrada S = Some S' → evento S S'.

(** The environment moves: time, and the peers. *)
Inductive azar (S S' : Servidor) : Prop :=
  | azar_mundo w : ambiente (mundo_de S) w → S' = en_fase (fase S) w S → azar S S'.

Definition transicion (S S' : Servidor) : Prop := accion S S' ∨ evento S S' ∨ azar S S'.

(** A schedule. *)
Inductive Orden := Inicia (libre : bool) | Acepta (stream : TcpStream)
  | Crea (asomados : option string) (creado : bool) | Avanza (i : nat)
  | Reanuda (i : nat) (entrada : option string) | Sigue (i : nat) | Registra | Persiste | Prosigue.

Definition obedecer (o : Orden) (S : Servidor) : option Servidor :=
  match o with
  | Inicia libre => paso_iniciar libre S
  | Acepta stream => paso_aceptar stream S
  | Crea asomados creado => paso_crear None None asomados creado S
  | Avanza i => paso_cliente i S
  | Reanuda i entrada => paso_reanudar i entrada S
  | Sigue i => paso_seguir i S
  | Registra => paso_log S
  | Persiste => paso_persistencia S
  | Prosigue => paso_principal S
  end.

Fixpoint guion (os : list Orden) (S : Servidor) : option Servidor :=
  match os with
  | [] => Some S
  | o :: os' => S' ← obedecer o S; guion os' S'
  end.

End vida.

Abbreviation vive := (rtc transicion).

Section vida.
Context `{Entorno}.

Lemma obedecer_transicion o S S' : obedecer o S = Some S' → accion S S' ∨ evento S S'.
Proof.
  destruct o; cbn [obedecer]; intros; first [by left; econstructor|by right; econstructor].
Qed.

Lemma guion_vive os S S' : guion os S = Some S' → vive S S'.
Proof.
  revert S. induction os as [|o os IH]; intros S Hg; cbn [guion] in Hg; [by simplify_eq|].
  apply bind_Some in Hg as (S1 & Ho & Hg). eapply rtc_l; [|by apply IH].
  destruct (obedecer_transicion o S S1 Ho) as [Ha|Ha]; [by left|by right; left].
Qed.

(** ** The steps that change the threads or the world

    Each step either changes only the phase or the output of the main thread, or is
    one of the following. *)

Lemma paso_crear_datos p i a creado S S' : paso_crear p i a creado S = Some S' →
  ∃ timeout stream, fase S = Asomando timeout stream ∧
    let c := crear_cliente (siguiente_id (red S)) timeout (ahora (mundo_de S)) stream p i a in
    S' = MkServidor (MkRedis (mundo_de S) (hilo_log (red S)) (hilo_pers (red S)) (siguiente_id (red S) + 1))
           (if creado then Atendiendo else EsperandoClientes)
           (hilos_clientes S ++ [if creado then Vivo (inicio_cliente c) else Muerto])
           (clientes S ++ [c]) (salida S) (log_recibidos S) (log_activo S)
           (pers_recibidos S) (pers_activo S).
Proof.
  unfold paso_crear, crear. destruct (fase S) as [| |t st| | | |]; intros [= <-]. by exists t, st.
Qed.

Lemma paso_cliente_datos i S S' : paso_cliente i S = Some S' →
  ∃ p h w, hilos_clientes S !! i = Some (Vivo p) ∧ avanzar p (mundo_de S) = Some (h, w) ∧
    S' = MkServidor (con_compartido w (red S)) (fase S) (<[i := h]> (hilos_clientes S))
              (clientes S) (salida S) (log_recibidos S) (log_activo S)
              (pers_recibidos S) (pers_activo S).
Proof.
  unfold paso_cliente. intros Hc. destruct (hilos_clientes S !! i) as [[p|]|] eqn:Hi; [|done..].
  apply bind_Some in Hc as ([h w] & Hav & Hc). injection Hc as <-. by exists p, h, w.
Qed.

Lemma paso_reanudar_datos i e S S' : paso_reanudar i e S = Some S' →
  ∃ q, hilos_clientes S !! i = Some (Vivo (Ret q)) ∧ en_bucle q = true ∧
    S' = con_hilos (<[i := Vivo (tramo_hilo q e)]> (hilos_clientes S)) S.
Proof.
  unfold paso_reanudar. destruct (hilos_clientes S !! i) as [[[q|]|]|] eqn:Hi; [|done..].
  destruct (en_bucle q) eqn:Hq; [|done]. intros [= <-]. by exists q.
Qed.

Lemma paso_seguir_datos i S S' : paso_seguir i S = Some S' →
  ∃ q, hilos_clientes S !! i = Some (Vivo (Ret q)) ∧ en_bucle q = true ∧ espera (mundo_de S) q = false ∧
    S' = con_hilos (<[i := Vivo (tramo_hilo q None)]> (hilos_clientes S)) S.
Proof.
  unfold paso_seguir. destruct (hilos_clientes S !! i) as [[[q|]|]|] eqn:Hi; [|done..].
  destruct (espera _ q) eqn:He; [done|]. intros (q' & Hi' & Hq & ->)%paso_reanudar_datos.
  rewrite Hi in Hi'. injection Hi' as <-. by exists q.
Qed.

(** A turn of the log thread never panics. *)
Lemma paso_log_recibe S S' :
  paso_log S = Some S' →
  ∃ m h sal sigue w, log_activo S = true ∧ cola_log (mundo_de S) !! log_recibidos S = Some m ∧
    logear_mensaje m (hilo_log (red S)) (salida S) (mundo_de S) = (Some (h, sal, sigue), w) ∧
    mismos_datos (mundo_de S) w ∧ (m = CerrarLog → sigue = false) ∧
    S' = MkServidor (MkRedis w h (hilo_pers (red S)) (siguiente_id (red S))) (fase S)
           (hilos_clientes S) (clientes S) sal (log_recibidos S + 1) sigue
           (pers_recibidos S) (pers_activo S).
Proof.
  unfold paso_log. destruct (log_activo S); [|done]. intros (m & Hm & Hx)%bind_Some.
  destruct (logear_mensaje_datos m (hilo_log (red S)) (salida S) (mundo_de S))
    as (h & sal & sg & w & Hl & Hd & Hc). rewrite Hl in Hx. injection Hx as <-. by exists m, h, sal, sg, w.
Qed.

Lemma paso_persistencia_recibe S S' :
  paso_persistencia S = Some S' →
  ∃ m h d b, pers_activo S = true ∧ cola_pers (mundo_de S) !! pers_recibidos S = Some m ∧
    (match procesar (semilla (mundo_de S)) (ahora (mundo_de S)) m (hilo_pers (red S)) (disco (salida S)) with
     | Some (h', d') => h = h' ∧ d = d' ∧ b = true
     | None => h = hilo_pers (red S) ∧ d = disco (salida S) ∧ b = false
     end) ∧
    S' = MkServidor (MkRedis (mundo_de S) (hilo_log (red S)) h (siguiente_id (red S))) (fase S)
           (hilos_clientes S) (clientes S) (MkSalida d (impreso (salida S)))
           (log_recibidos S) (log_activo S) (pers_recibidos S + 1) b.
Proof.
  unfold paso_persistencia. destruct (pers_activo S); [|done]. intros (m & Hm & Hx)%bind_Some.
  exists m. destruct (procesar _ _ _ _ _) as [[h d]|]; injection Hx as <-; do 3 eexists;
    (split_and!; [done..|]); unfold mundo_de; [done|]. by destruct S as [[] ? ? ? [] ? ? ? ?].
Qed.

(** The steps of the main thread: the phase it reaches, the world and the output. *)
Lemma paso_iniciar_datos b S S' : paso_iniciar b S = Some S' →
  ∃ f ls, fase S = Iniciando ∧ (f = Atendiendo ∨ f = EsperandoClientes) ∧
    S' = en_fase f (mundo_de S) (con_salida (MkSalida (disco (salida S)) (impreso (salida S) ++ ls)) S).
Proof.
  unfold paso_iniciar. case_bool_decide as Hf; [|done].
  destruct (direccion_de_inicio (mundo_de S)), b; intros [= <-];
    first [ by exists EsperandoClientes, ["Error al iniciar"]; auto
          | exists Atendiendo, []; rewrite app_nil_r; split_and!; auto; by destruct S as [? ? ? ? [] ? ? ? ?] ].
Qed.

Lemma paso_aceptar_datos st S S' : paso_aceptar st S = Some S' →
  S' = S ∨ ∃ t, fase S = Atendiendo ∧ S' = en_fase (Asomando t st) (mundo_de S) S.
Proof.
  unfold paso_aceptar. case_bool_decide as Hf; [|done].
  destruct (aceptar (red S)) as [t|]; intros [= <-]; [right; by exists t|by left].
Qed.

(** Where the main thread can go from each phase of [drop]. *)
Lemma paso_principal_datos S S' : paso_principal S = Some S' →
  (fase S = EsperandoClientes ∧ forallb terminado (hilos_clientes S) = true ∧
     S' = en_fase EsperandoLog (cerrar_log (mundo_de S)) S) ∨
  (fase S = EsperandoLog ∧ log_activo S = false ∧
     S' = en_fase EsperandoPersistencia (cerrar_persistencia (mundo_de S)) S) ∨
  (fase S = EsperandoPersistencia ∧ pers_activo S = false ∧ S' = en_fase Terminado (mundo_de S) S).
Proof.
  unfold paso_principal. destruct (fase S); [done..| | | |done]; repeat case_match; intros [= <-]; auto 10.
Qed.

(** ** What every step keeps *)

Definition vivos_siempre (I : Mundo → Prop) (S : Servidor) : Prop :=
  ∀ p, Vivo p ∈ hilos_clientes S → siempre I p.

Lemma vivos_insert I `{!Invariante I} S i q e :
  vivos_siempre I S → vivos_siempre I (con_hilos (<[i := Vivo (tramo_hilo q e)]> (hilos_clientes S)) S).
Proof.
  intros Hs p [j Hj]%list_elem_of_lookup.
  apply list_lookup_insert_Some in Hj as [(_ & [= <-] & _)|[_ Hj]]; [by apply tramo_hilo_siempre|].
  by eapply Hs, list_elem_of_lookup_2.
Qed.

Lemma accion_invariante I `{!Invariante I} S S' :
  accion S S' → vivos_siempre I S → vivos_siempre I S' ∧ (I (mundo_de S) → I (mundo_de S')).
Proof.
  intros Ht Hs. destruct Ht as [b Hc|i Hc|i Hc|Hc|Hc|Hc].
  - by apply paso_iniciar_datos in Hc as (f & ls & _ & _ & ->).
  - apply paso_cliente_datos in Hc as (p & h & w & Hi & Hav & ->).
    by destruct (hilos_siempre I _ i p _ h w Hi Hav Hs).
  - apply paso_seguir_datos in Hc as (q & _ & _ & _ & ->). split; [by apply vivos_insert|done].
  - apply paso_log_recibe in Hc as (m & h & sal & sg & w & _ & _ & _ & [-> _] & _ & ->).
    split; [done|]. by apply inv_conexiones.
  - by apply paso_persistencia_recibe in Hc as (m & h & d & b & _ & _ & _ & ->).
  - apply paso_principal_datos in Hc as [(_ & _ & ->)|[(_ & _ & ->)|(_ & _ & ->)]];
      (split; [done|]); first [by apply inv_log|by apply inv_pers|done].
Qed.

Lemma evento_invariante I `{!Invariante I} S S' :
  evento S S' → vivos_siempre I S → vivos_siempre I S' ∧ mundo_de S' = mundo_de S.
Proof.
  intros Ht Hs. destruct Ht as [st Hc|p i a creado Hc|i e Hc].
  - by apply paso_aceptar_datos in Hc as [->|(t & _ & ->)].
  - apply paso_crear_datos in Hc as (t & st & _ & ->). split; [|done].
    intros q [Hq|Hq]%elem_of_app; [by apply Hs|]. apply list_elem_of_singleton in Hq.
    destruct creado; simplify_eq. by apply inicio_cliente_siempre.
  - apply paso_reanudar_datos in Hc as (q & _ & _ & ->). split; [by apply vivos_insert|done].
Qed.

Lemma transicion_invariante I `{!Invariante I} S S' :
  (∀ w w', ambiente w w' → I w → I w') → transicion S S' → vivos_siempre I S →
  vivos_siempre I S' ∧ (I (mundo_de S) → I (mundo_de S')).
Proof.
  intros Ha [Ht|[Ht|[w Hamb ->]]] Hs; [by eapply accion_invariante| |].
  - destruct (evento_invariante I S S' Ht Hs) as [Hs' ->]. done.
  - split; [done|]. by eapply Ha.
Qed.

(** Every live thread is what is left of the thread of a client. *)
Definition vivos (S : Servidor) : Prop := ∀ I, Invariante I → vivos_siempre I S.

Lemma transicion_vivos S S' : transicion S S' → vivos S → vivos S'.
Proof.
  intros [Ht|[Ht|[w Hamb ->]]] Hs I HI; [by eapply accion_invariante, Hs|by eapply evento_invariante, Hs|].
  by apply Hs.
Qed.

Lemma vive_vivos S S' : vive S S' → vivos S → vivos S'.
Proof. intros Hv. induction Hv; eauto using transicion_vivos. Qed.

Lemma vive_mundo I `{!Invariante I} S S' :
  (∀ w w', ambiente w w' → I w → I w') → vive S S' → vivos S → I (mundo_de S) → I (mundo_de S').
Proof.
  intros Ha Hv. induction Hv as [S|S1 S2 S3 Ht Hr IH]; [done|]. intros H1 Hw.
  apply IH; [by eapply transicion_vivos|]. eapply transicion_invariante; [done..|by apply H1|done].
Qed.

(** The queues only grow. *)
Definition crece (w0 w : Mundo) : Prop :=
  cola_log w0 `prefix_of` cola_log w ∧ cola_pers w0 `prefix_of` cola_pers w.

#[export] Instance crece_invariante w0 : Invariante (crece w0).
Proof.
  split; [split; [split|]|..]; unfold dentro, crece; cbn; intros; destruct_and?; split_and?; try done;
    by apply prefix_app_r.
Qed.

Lemma crece_ambiente w0 w w' : ambiente w w' → crece w0 w → crece w0 w'.
Proof. intros [_ _ _ Hp Hl]. unfold crece. by rewrite Hp, Hl. Qed.

Lemma vive_crece S S' : vive S S' → vivos S → crece (mundo_de S) (mundo_de S').
Proof. intros Hv Hs. by apply (vive_mundo (crece (mundo_de S)) S S' (crece_ambiente _) Hv Hs). Qed.

Lemma arrancado_vivos r sal : vivos (arrancado r sal).
Proof. intros I HI p Hp. by apply elem_of_nil in Hp. Qed.

(** ** Clients *)

#[local] Instance observado_invariante l : Invariante (λ w, observadores (dato (base w)) = l).
Proof. split; [split; [split|]|..]; unfold dentro; cbn; tauto. Qed.

(** One thread per client, and the tokens count the clients. *)
Definition numerados (S : Servidor) : Prop :=
  length (hilos_clientes S) = length (clientes S) ∧
  obtener_token <$> clientes S = Z.of_nat <$> seq 0 (length (clientes S)) ∧
  siguiente_id (red S) = Z.of_nat (length (clientes S)).

Lemma crear_cliente_token id timeout t stream pagina icono asomados :
  obtener_token (crear_cliente id timeout t stream pagina icono asomados) = id.
Proof. unfold crear_cliente. destruct asomados; [|done]. by destruct (contiene _ _). Qed.

Lemma transicion_numerados S S' : transicion S S' → numerados S → numerados S'.
Proof.
  intros Ht (Hl & Hn & Hi). unfold numerados.
  destruct Ht as [[b Hc|i Hc|i Hc|Hc|Hc|Hc]|[[st Hc|p i a creado Hc|i e Hc]|[w Hamb ->]]]; [..|done].
  - by apply paso_iniciar_datos in Hc as (f & ls & _ & _ & ->).
  - apply paso_cliente_datos in Hc as (p & h & w & Hp & Hav & ->). cbn. by rewrite length_insert.
  - apply paso_seguir_datos in Hc as (q & _ & _ & _ & ->). cbn. by rewrite length_insert.
  - by apply paso_log_recibe in Hc as (m & h & sal & sg & w & _ & _ & _ & _ & _ & ->).
  - by apply paso_persistencia_recibe in Hc as (m & h & d & b & _ & _ & _ & ->).
  - by apply paso_principal_datos in Hc as [(_ & _ & ->)|[(_ & _ & ->)|(_ & _ & ->)]].
  - by apply paso_aceptar_datos in Hc as [->|(t & _ & ->)].
  - apply paso_crear_datos in Hc as (t & st & _ & ->). cbn [hilos_clientes clientes red siguiente_id].
    rewrite !length_app, fmap_app, Hl. cbn [length].
    rewrite Nat.add_comm, seq_S. cbn [Nat.add]. rewrite (fmap_app _ (seq 0 _)), Hn. cbn.
    rewrite crear_cliente_token, Hi. split_and!; [lia|done|lia].
  - apply paso_reanudar_datos in Hc as (q & _ & _ & ->). cbn. by rewrite length_insert.
Qed.

Lemma vive_numerados S S' : vive S S' → numerados S → numerados S'.
Proof. intros Hv. induction Hv; eauto using transicion_numerados. Qed.

(** ** The log file *)

(** What the log thread has done up to now, when no message it received took it to
    another file and no file of the persistence thread is the log. *)
Definition archivos_aparte (r : string) (S : Servidor) : Prop :=
  forallb (sin_cierre r) (take (log_recibidos S) (cola_log (mundo_de S))) = true ∧
  ∀ a, ArchivoAPersistir a ∈ take (pers_recibidos S) (cola_pers (mundo_de S)) → a ≠ r.

Definition al_corriente (r : string) (sal : Salida) (S : Servidor) : Prop :=
  log_activo S = true ∧ ruta (hilo_log (red S)) = r ∧ archivo (hilo_pers (red S)) ≠ r ∧
  (log_recibidos S <= length (cola_log (mundo_de S)))%nat ∧
  registrado sal (salida S) r (lineas_log (take (log_recibidos S) (cola_log (mundo_de S)))).

(** How many messages the threads have received only grows. *)
Lemma transicion_recibidos S S' :
  transicion S S' → (log_recibidos S <= log_recibidos S')%nat ∧ (pers_recibidos S <= pers_recibidos S')%nat.
Proof.
  intros Ht.
  destruct Ht as [[b Hc|i Hc|i Hc|Hc|Hc|Hc]|[[st Hc|p i a creado Hc|i e Hc]|[w Hamb ->]]]; [..|done].
  - by apply paso_iniciar_datos in Hc as (f & ls & _ & _ & ->).
  - by apply paso_cliente_datos in Hc as (p & h & w & Hp & Hav & ->).
  - by apply paso_seguir_datos in Hc as (q & _ & _ & _ & ->).
  - apply paso_log_recibe in Hc as (m & h & sal & sg & w & _ & _ & _ & _ & _ & ->). cbn. lia.
  - apply paso_persistencia_recibe in Hc as (m & h & d & b & _ & _ & _ & ->). cbn. lia.
  - by apply paso_principal_datos in Hc as [(_ & _ & ->)|[(_ & _ & ->)|(_ & _ & ->)]].
  - by apply paso_aceptar_datos in Hc as [->|(t & _ & ->)].
  - by apply paso_crear_datos in Hc as (t & st & _ & ->).
  - by apply paso_reanudar_datos in Hc as (q & _ & _ & ->).
Qed.

Lemma archivos_aparte_antes r S S' :
  transicion S S' → vivos S → archivos_aparte r S' → archivos_aparte r S.
Proof.
  intros Ht Hs [Hl Hp]. destruct (transicion_recibidos S S' Ht) as [Hnl Hnp].
  destruct (vive_crece S S' (rtc_once _ _ Ht) Hs) as [Hcl Hcp]. split.
  - destruct (prefix_take _ _ _ _ Hnl Hcl) as [k Hk]. rewrite Hk, forallb_app in Hl.
    by apply andb_true_iff in Hl as [Hl _].
  - intros a Ha. apply Hp. destruct (prefix_take _ _ _ _ Hnp Hcp) as [k Hk]. rewrite Hk.
    apply elem_of_app. by left.
Qed.

(** A step that only moves the world, the main thread, the client threads and what is
    printed. *)
Lemma al_corriente_igual r sal S S' :
  al_corriente r sal S → crece (mundo_de S) (mundo_de S') →
  hilo_log (red S') = hilo_log (red S) → hilo_pers (red S') = hilo_pers (red S) →
  disco (salida S') = disco (salida S) → log_recibidos S' = log_recibidos S →
  log_activo S' = log_activo S → al_corriente r sal S'.
Proof.
  intros (Ha & Hr & Hf & Hn & [He Hd]) [Hc _] Hhl Hhp Hsd Hln Hla. unfold al_corriente, registrado.
  rewrite Hhl, Hhp, Hsd, Hln, Hla, (take_prefix_eq _ _ _ Hn Hc). split_and!; try done.
  apply prefix_length in Hc. lia.
Qed.

Lemma registrado_otro r sal sal' d l a ls :
  registrado sal sal' r ls → a ≠ r → guardar_en_archivo a l (disco sal') = Some d →
  registrado sal (MkSalida d (impreso sal')) r ls.
Proof.
  unfold guardar_en_archivo. destruct (escribible (disco sal') a); [|done].
  intros [He Hd] Ha [= <-]. split; [done|]. cbn. by rewrite lookup_insert_ne.
Qed.

Lemma log_al_corriente r sal S S' :
  escribible (disco sal) r = true → paso_log S = Some S' → archivos_aparte r S' →
  al_corriente r sal S → al_corriente r sal S'.
Proof.
  intros Hes Hx [Hl Hp] (_ & Hr & Hf & Hn & Hgr).
  destruct (paso_log_recibe S S' Hx) as (m & h & sal' & sg & w & Ha & Hm & Hlm & [Hw _] & _ & ->).
  cbn in Hl, Hp. rewrite Nat.add_1_r in Hl |- *.
  assert (cola_log w = cola_log (mundo_de S)) as Hcl by by rewrite Hw.
  rewrite Hcl in Hl. rewrite (take_S_r _ _ _ Hm), forallb_app in Hl. apply andb_true_iff in Hl as [_ Hsc].
  cbn in Hsc. rewrite andb_true_r, <-Hr in Hsc.
  destruct (logear_mensaje_registrado m (hilo_log (red S)) (salida S) (mundo_de S) Hsc)
    as (h1 & s1 & w1 & Hl1 & Hr1 & Hg1 & _); [rewrite Hr; destruct Hgr; congruence|].
  rewrite Hlm in Hl1. injection Hl1 as <- <- -> <-.
  split_and!; cbn; [done|congruence|done|..].
  - rewrite Hcl. apply lookup_lt_Some in Hm. lia.
  - rewrite Hcl, (take_S_r _ _ _ Hm). unfold lineas_log. rewrite omap_app.
    eapply registrado_trans; [exact Hgr|]. rewrite <-Hr.
    replace (omap a_logear [m]) with (option_list (a_logear m)) by (cbn; by destruct (a_logear m)). done.
Qed.

Lemma persistencia_al_corriente r sal S S' :
  paso_persistencia S = Some S' → archivos_aparte r S' → al_corriente r sal S → al_corriente r sal S'.
Proof.
  intros Hx [_ Hp] (Ha & Hr & Hf & Hn & Hgr).
  destruct (paso_persistencia_recibe S S' Hx) as (m & h & d & b & _ & Hm & Hpro & ->).
  cbn in Hp. rewrite Nat.add_1_r in Hp.
  destruct m as [tb|a|]; cbn [procesar] in Hpro.
  - destruct (_ <=? _); [|by destruct Hpro as (-> & -> & ->); split_and!].
    destruct (guardar_en_archivo _ _ _) as [d'|] eqn:Hgu; cbn [mbind option_bind] in Hpro;
      destruct Hpro as (-> & -> & ->); (split_and!; try done). cbn. by eapply registrado_otro.
  - destruct Hpro as (-> & -> & ->). split_and!; try done. cbn. apply Hp.
    change (compartido (red S)) with (mundo_de S). rewrite (take_S_r _ _ _ Hm). set_solver.
  - by destruct Hpro as (-> & -> & ->); split_and!.
Qed.

Lemma transicion_al_corriente r sal S S' :
  escribible (disco sal) r = true → transicion S S' → vivos S → archivos_aparte r S' →
  al_corriente r sal S → al_corriente r sal S'.
Proof.
  intros Hes Ht Hs Har Hc. pose proof (vive_crece S S' (rtc_once _ _ Ht) Hs) as Hg.
  destruct Ht as [[b Hx|i Hx|i Hx|Hx|Hx|Hx]|[[st Hx|p i a creado Hx|i e Hx]|[w Hamb ->]]].
  - apply paso_iniciar_datos in Hx as (f & ls & _ & _ & ->). by eapply al_corriente_igual.
  - apply paso_cliente_datos in Hx as (p & h & w & _ & _ & ->). by eapply al_corriente_igual.
  - apply paso_seguir_datos in Hx as (q & _ & _ & _ & ->). by eapply al_corriente_igual.
  - by eapply log_al_corriente.
  - by eapply persistencia_al_corriente.
  - apply paso_principal_datos in Hx as [(_ & _ & ->)|[(_ & _ & ->)|(_ & _ & ->)]]; by eapply al_corriente_igual.
  - apply paso_aceptar_datos in Hx as [->|(t & _ & ->)]; by eapply al_corriente_igual.
  - apply paso_crear_datos in Hx as (t & st & _ & ->). by eapply al_corriente_igual.
  - apply paso_reanudar_datos in Hx as (q & _ & _ & ->). by eapply al_corriente_igual.
  - by eapply al_corriente_igual.
Qed.

Lemma vive_al_corriente r sal S S' :
  escribible (disco sal) r = true → vive S S' → vivos S → archivos_aparte r S' →
  al_corriente r sal S → al_corriente r sal S'.
Proof.
  intros He Hv. induction Hv as [S|S1 S2 S3 Ht Hv IH]; [done|]. intros Hs Ha Hc.
  assert (vivos S2) as Hs2 by (eapply vive_vivos; [by apply rtc_once|done]).
  assert (archivos_aparte r S2) as Ha2.
  { clear -Hv Hs2 Ha. induction Hv as [S|S1 S2 S3 Ht Hv IH]; [done|].
    eapply archivos_aparte_antes; [done..|]. apply IH; [done|]. eapply vive_vivos; [by apply rtc_once|done]. }
  apply IH; [done..|]. by eapply transicion_al_corriente.
Qed.

(** ** Properties *)

(** C2: Whatever the configuration and the persistence file, in every
    state a server that starts can reach, with any clients sending anything while the
    log and persistence threads work: the table is well formed, the persistence
    thread still observes it, there is one thread per client (a
    dead one where it could not be created), and the clients have the tokens 0, 1, 2, ... in order of arrival, so no two are equal. *)
Theorem vida_del_servidor config t ts sem cs d r S
    (Hr : new config t ts sem cs d = Some r) (Hv : vive (arrancado r (MkSalida d [])) S) :
  tabla_ok (mundo_de S) ∧ observadores (dato (base (mundo_de S))) = [MkPersistidor] ∧
  length (hilos_clientes S) = length (clientes S) ∧
  obtener_token <$> clientes S = Z.of_nat <$> seq 0 (length (clientes S)) ∧
  siguiente_id (red S) = Z.of_nat (length (clientes S)).
Proof.
  destruct (new_ok _ _ _ _ _ _ _ Hr) as (Ht & Ho & _ & Hi & _). split_and!.
  - by eapply (vive_mundo tabla_ok); [apply tabla_ok_ambiente|done|apply arrancado_vivos|].
  - eapply (vive_mundo (λ w, observadores (dato (base w)) = [MkPersistidor]));
      [|done|apply arrancado_vivos|done]. by intros w w' [-> _ _ _ _].
  - by apply (vive_numerados _ _ Hv).
  - by apply (vive_numerados _ _ Hv).
  - by apply (vive_numerados _ _ Hv).
Qed.

(** C8: In every state a server can reach, if its log file can be
    written, the messages its log thread received did not move it to another file and
    the persistence thread does not write to that file, then the log file holds what
    it held at the start and, after it, one line per message received, in order. *)
Theorem registro_del_servidor config t ts sem cs d r S
    (Hr : new config t ts sem cs d = Some r) (Hv : vive (arrancado r (MkSalida d [])) S)
    (He : escribible d (logfile config) = true) (Hd : dbfilename config ≠ logfile config)
    (Ha : archivos_aparte (logfile config) S) :
  default "" (archivos (disco (salida S)) !! logfile config) =
    default "" (archivos d !! logfile config) +:+
    texto (lineas_log (take (log_recibidos S) (cola_log (mundo_de S)))).
Proof.
  destruct (new_ok _ _ _ _ _ _ _ Hr) as (_ & _ & Hq & _ & Hl & Hp).
  assert (al_corriente (logfile config) (MkSalida d []) S) as (_ & _ & _ & _ & _ & Hg); [|done].
  eapply vive_al_corriente; [done|exact Hv|apply arrancado_vivos|done|].
  split_and!; [done|done|by cbn; rewrite Hp|cbn; lia|].
  cbn. apply registrado_nada.
Qed.
End vida.

(** ** Witnesses: two clients, the log and the persistence threads *)

Definition abierta_prueba : Conexion := MkConexion true (Some 100%nat) (Some 9%nat) None [].
Definition conexiones_prueba : gmap TcpStream Conexion :=
  {[1 := abierta_prueba; 2 := abierta_prueba]}.
Definition disco_prueba : Disco := MkDisco {["dump.rb" := "STRING:k:v"]} (λ _, true).
Definition redis_prueba : option Redis := new new_config 3 0 0 conexiones_prueba disco_prueba.

Definition guion_prueba : list Orden :=
  [Inicia true; Acepta 1; Crea None true; Avanza 0; Avanza 0; Reanuda 0 None; Avanza 0;
   Acepta 2; Crea None true; Registra; Avanza 1; Avanza 1;
   Reanuda 0 (Some (Parser.peticion ["SET"; "a"; "b"])); Reanuda 1 None; Avanza 1;
   Reanuda 1 (Some (Parser.peticion ["GET"; "k"]))]
  ++ concat (replicate 7 [Avanza 0; Avanza 1]) ++ [Registra; Registra; Persiste; Persiste].

Definition servidor_prueba : option Servidor :=
  r ← redis_prueba; @guion entorno_prueba guion_prueba (arrancado r (MkSalida disco_prueba [])).

Lemma servidor_prueba_vive :
  ∃ r S, redis_prueba = Some r ∧ servidor_prueba = Some S ∧
    rtc (@transicion entorno_prueba) (arrancado r (MkSalida disco_prueba [])) S.
Proof.
  destruct redis_prueba as [r|] eqn:Hr; [|by vm_compute in Hr].
  destruct servidor_prueba as [S|] eqn:Hs; [|by vm_compute in Hs].
  exists r, S. split_and!; [done..|]. unfold servidor_prueba in Hs. rewrite Hr in Hs.
  by eapply guion_vive.
Qed.

Lemma servidor_prueba_clientes S : servidor_prueba = Some S → length (clientes S) = 2%nat.
Proof.
  intros HS. apply (f_equal (fmap (λ S, length (clientes S)))) in HS. vm_compute in HS.
  injection HS as HS. exact (eq_sym HS).
Qed.

Lemma vida_del_servidor_witness :
  ∃ S, servidor_prueba = Some S ∧ obtener_token <$> clientes S = [0; 1].
Proof.
  destruct servidor_prueba_vive as (r & S & Hr & HS & Hv). exists S. split; [exact HS|].
  destruct (@vida_del_servidor entorno_prueba new_config 3 0 0 conexiones_prueba disco_prueba r S Hr Hv)
    as (_ & _ & _ & Ht & _).
  rewrite Ht, (servidor_prueba_clientes S HS). reflexivity.
Defined.

Lemma servidor_prueba_archivos S : servidor_prueba = Some S →
  archivos_aparte "redis.log" S ∧
  lineas_log (take (log_recibidos S) (cola_log (mundo_de S))) =
    ["Token: 0 Se conecto usario"; "Token: 1 Se conecto usario"; "Token: 0 SET a b"].
Proof.
  intros HS. split; [split|].
  - apply (f_equal (fmap (λ S, forallb (sin_cierre "redis.log")
      (take (log_recibidos S) (cola_log (mundo_de S)))))) in HS. vm_compute in HS. injection HS as HS. exact (eq_sym HS).
  - intros a Ha.
    assert (forallb (λ m, match m with ArchivoAPersistir a => negb (bool_decide (a = "redis.log")) | _ => true end)
      (take (pers_recibidos S) (cola_pers (mundo_de S))) = true) as Hf.
    { apply (f_equal (fmap (λ S, forallb
        (λ m, match m with ArchivoAPersistir a => negb (bool_decide (a = "redis.log")) | _ => true end)
        (take (pers_recibidos S) (cola_pers (mundo_de S)))))) in HS. vm_compute in HS. injection HS as HS. exact (eq_sym HS). }
    apply list_elem_of_In in Ha. rewrite forallb_forall in Hf. specialize (Hf _ Ha). cbn in Hf.
    by apply negb_true_iff, bool_decide_eq_false in Hf.
  - apply (f_equal (fmap (λ S, lineas_log (take (log_recibidos S) (cola_log (mundo_de S)))))) in HS.
    vm_compute in HS. injection HS as HS. exact (eq_sym HS).
Qed.

Lemma registro_del_servidor_witness :
  ∃ S, servidor_prueba = Some S ∧ default "" (archivos (disco (salida S)) !! "redis.log") =
    texto ["Token: 0 Se conecto usario"; "Token: 1 Se conecto usario"; "Token: 0 SET a b"].
Proof.
  destruct servidor_prueba_vive as (r & S & Hr & HS & Hv). exists S. split; [exact HS|].
  destruct (servidor_prueba_archivos S HS) as [Ha Hl].
  rewrite <-Hl.
  exact (@registro_del_servidor entorno_prueba new_config 3 0 0 conexiones_prueba disco_prueba r S Hr Hv
    eq_refl ltac:(vm_compute; discriminate) Ha).
Defined.
