(* ===== verification/Apagado.v ===== *)
(** * Shut-down (redis.rs)

    Once the main thread has left [iniciar], [drop] joins the clients, the log thread
    and the persistence thread.  A client thread only ends when its connection does, so
    the shut-down waits for the peers; when they hang up the server stops. *)
From S2P Require Import Prelude Rust Datos Efectos Valor Cliente BaseDeDatos.
From S2P Require Parser.
From S2P Require Import Configuracion Persistencia Log Comando Redis Vida.

#[local] Open Scope Z_scope.

(** ** The loop of a client whose peer has hung up *)

(** [peek] finds nothing on any connection, or fails. *)
Definition colgado (w : Mundo) : Prop :=
  map_Forall (λ _ c, asomado c = Some 0%nat ∨ asomado c = None) (conexiones w).
#[export] Instance colgado_dec w : Decision (colgado w).
Proof. unfold colgado. apply _. Defined.

(** A Redis client can go on for ever; an HTTP client is served once. *)
Definition servido (c : Cliente) : bool := match c with CRedis _ => true | CHttp h => ch_mando h end.

(** How many points of the loop are ahead, at most, once the peer has hung up. *)
Definition rango_punto (q : Punto) : nat :=
  match q with
  | Fin _ _ => 0
  | Comprueba c => if servido c then 1 else 5
  | Asoma c => if servido c then 2 else 4
  | Lee _ => 3
  end.

Lemma colgado_asomar w s : colgado w → asomar w s = Some 0%nat ∨ asomar w s = None.
Proof.
  intros Hw. unfold asomar. destruct (conexiones w !! s) as [c|] eqn:Hc; [|by right].
  by apply Hw in Hc.
Qed.

Lemma colgado_envio w c : colgado w → envio_informacion w (CRedis c) = false.
Proof.
  intros Hw. cbn. unfold envio_informacion_redis. destruct (cr_socket c) as [s|]; [|done].
  cbn [mbind option_bind]. by destruct (colgado_asomar w s Hw) as [-> | ->].
Qed.

Lemma colgado_conectado w c : colgado w → esta_conectado w (CRedis c) = false.
Proof.
  intros Hw. cbn. unfold esta_conectado_redis. destruct (cr_socket c) as [s|]; [|done].
  by destruct (colgado_asomar w s Hw) as [-> | ->].
Qed.

Section bucle.
Context `{Entorno}.

(** A client whose request was read, and one that was answered, is served. *)
Lemma obtener_comando_servido c e w r c' :
  fst (obtener_comando c e w) = Some (r, c') → (∃ x, r = inl x) ∨ servido c' = true.
Proof.
  destruct c as [c|c]; cbn [obtener_comando].
  - rewrite m_bind_eq. destruct (obtener_comando_redis c e w) as [[x|] w1]; [|done].
    intros [= <- <-]. by right.
  - rewrite m_bind_eq, consultar_eq, m_bind_eq. unfold obtener_comando_http.
    rewrite m_bind_eq, consultar_eq. destruct (s ← ch_socket c; try_clone w s).
    + match goal with |- context [match ?x with (_, _) => _ end] => destruct x as [[x'|] w1] end; [|done].
      intros [= <- <-]. by right.
    + intros [= <- <-]. left. by eexists.
Qed.

Lemma enviar_resultado_servido c res w r c' :
  fst (enviar_resultado c res w) = Some (r, c') → servido c' = true.
Proof.
  destruct c as [c|c]; unfold enviar_resultado, enviar_mensaje; rewrite m_bind_eq.
  - destruct (enviar_mensaje_redis c _ w) as [[[x y]|] w1]; [|done]. by intros [= <- <-].
  - destruct (enviar_bytes (con_mando c) _ w) as [[x|] w1]; [|done]. by intros [= <- <-].
Qed.

Lemma despedida_da I (p : Punto) : da I (.= p) (despedida p).
Proof.
  destruct p as [c|c|c|c r]; [done..|]. cbn [despedida]. do 3 (apply da_sigue; intros ?). done.
Qed.

(** Every stretch of the loop of a client that has hung up brings its end nearer. *)
Lemma tramo_baja q e :
  en_bucle q = true → da colgado (λ q', (rango_punto q' < rango_punto q)%nat) (tramo q e).
Proof.
  destruct q as [c|c|c|c r]; [intros _..|done]; cbn [tramo].
  - apply (da_bind _ (λ b : bool, b = negb (servido c))).
    + apply da_atomico. intros w Hw. cbn [consultar fst]. destruct c as [c|c].
      * by rewrite colgado_envio.
      * done.
    + intros b ->. destruct (servido c) eqn:Hc; cbn; rewrite ?Hc; lia.
  - apply (da_bind _ (λ x, (∃ y, x.1 = inl y) ∨ servido x.2 = true)).
    + apply da_atomico. intros w _. destruct (fst (obtener_comando c e w)) as [[r c']|] eqn:Ho; [|done].
      by eapply obtener_comando_servido.
    + intros [r c'] Hr. cbn [fst snd] in Hr. destruct r as [y|[cm|]]; [cbn; lia| |].
      * destruct Hr as [[y Hy]|_]; [done|].
        apply (da_bind _ (λ x, match x with inl _ => True | inr c'' => servido c'' = true end)).
        -- unfold atender. do 4 (apply da_sigue; intros ?).
           apply da_sigue. intros [?|]; [|done]. apply (da_bind _ (λ x, servido x.2 = true)).
           ++ apply da_atomico. intros w _. destruct (fst _) as [[r c'']|] eqn:Hen; [|done].
              by eapply enviar_resultado_servido.
           ++ intros [[|] c''] Hs; done.
        -- intros [|c''] Hs; cbn; [lia|rewrite Hs; lia].
      * destruct Hr as [[y Hy]|Hs]; [done|]. cbn. rewrite Hs. lia.
  - apply (da_bind _ (λ b : bool, b = negb (servido c))).
    + apply da_atomico. intros w Hw. cbn [consultar fst]. destruct c as [c|c].
      * by rewrite colgado_conectado.
      * done.
    + intros b ->. destruct (servido c) eqn:Hc; cbn; rewrite ?Hc; lia.
Qed.

Lemma tramo_hilo_baja q e :
  en_bucle q = true → da colgado (λ q', (rango_punto q' < rango_punto q)%nat) (tramo_hilo q e).
Proof.
  intros Hq. eapply da_bind; [by apply tramo_baja|]. intros q' Hlt.
  eapply da_mono; [apply despedida_da|]. by intros q'' ->.
Qed.

(** ** Threads end

    An action of a thread, or its return from the call it waits at, while nothing is
    to be read from any connection. *)
Definition avance_hilo (h h' : Hilo Punto) : Prop :=
  (∃ p w w', colgado w ∧ h = Vivo p ∧ avanzar p w = Some (h', w')) ∨
  (∃ q e, h = Vivo (Ret q) ∧ en_bucle q = true ∧ h' = Vivo (tramo_hilo q e)).

Definition avance (hs hs' : list (Hilo Punto)) : Prop :=
  ∃ i h h', hs !! i = Some h ∧ avance_hilo h h' ∧ hs' = <[i := h']> hs.

Lemma muerto_termina : Acc (flip avance_hilo) Muerto.
Proof. constructor. by intros h' [(p & w & w' & _ & Hp & _)|(q & e & Hq & _)]. Qed.

Lemma programa_termina n p :
  da colgado (λ q, (rango_punto q < n)%nat) p → Acc (flip avance_hilo) (Vivo p).
Proof.
  revert p. induction (lt_wf n) as [n _ IHn]. intros p. induction p as [q|T op k IH]; intros Hp.
  - constructor. intros h' [(p & w & w' & _ & [= <-] & Hav)|(q' & e & [= <-] & Hq & ->)]; [done|].
    eapply IHn; [exact Hp|]. by apply tramo_hilo_baja.
  - constructor. intros h' [(p & w & w' & Hw & [= <-] & Hav)|(q' & e & [=] & _)].
    specialize (Hp w Hw). cbn in Hav. destruct (op w) as [[r|] w1]; simplify_eq;
      [by apply IH|apply muerto_termina].
Qed.

Lemma hilo_termina h : Acc (flip avance_hilo) h.
Proof.
  destruct h as [p|]; [|apply muerto_termina]. apply (programa_termina 6), da_todo.
  intros [c|c|c|c r]; cbn; try destruct (servido c); lia.
Qed.

Lemma hilos_terminan hs : Acc (flip avance) hs.
Proof.
  induction hs as [|h hs IH].
  { constructor. intros hs' (i & h & h' & Hi & _). by rewrite lookup_nil in Hi. }
  revert h. pose proof hilo_termina as Hh. induction IH as [hs _ IHs].
  intros h. induction (Hh h) as [h _ IHh]. constructor.
  intros hs' ([|i] & h1 & h2 & Hi & Hav & ->); cbn in *; simplify_eq; [by apply IHh|].
  apply IHs. by exists i, h1, h2.
Qed.
End bucle.

(** ** The steps of the shut-down *)

Definition rango (f : Fase) : nat :=
  match f with
  | EsperandoClientes => 3 | EsperandoLog => 2 | EsperandoPersistencia => 1 | Terminado => 0
  | _ => 4
  end%nat.

(** The main thread has left [iniciar]. *)
Definition apagando (f : Fase) : bool := bool_decide (rango f <= 3)%nat.

(** The messages the two threads have not received, and what the main thread has yet
    to do: it may send one message at each phase. *)
Definition pendientes (S : Servidor) : nat :=
  (2 * rango (fase S) + (length (cola_log (mundo_de S)) - log_recibidos S)
   + (length (cola_pers (mundo_de S)) - pers_recibidos S))%nat.

Section apagado.
Context `{Entorno}.

(** A step of the server while it shuts down and the peers have hung up, after any
    moves of the environment: an action, or the return of a call that waited. *)
Definition responde (S S' : Servidor) : Prop := ∃ i e, paso_reanudar i e S = Some S'.

Definition acto (S S' : Servidor) : Prop :=
  apagando (fase S) = true ∧
  ∃ S1, rtc azar S S1 ∧ colgado (mundo_de S1) ∧ (accion S1 S' ∨ responde S1 S').

Lemma azar_igual S S1 : rtc azar S S1 →
  fase S1 = fase S ∧ hilos_clientes S1 = hilos_clientes S ∧ pendientes S1 = pendientes S ∧
  log_activo S1 = log_activo S ∧ pers_activo S1 = pers_activo S.
Proof.
  induction 1 as [|S S1 S2 [w [_ _ _ Hp Hl] ->] _ IH]; [done|]. destruct IH as (-> & -> & -> & -> & ->).
  split_and!; [done..| |done|done]. unfold pendientes, en_fase, mundo_de in *. cbn in *. by rewrite Hp, Hl.
Qed.

Lemma reanudar_avanza i e S S' :
  paso_reanudar i e S = Some S' → avance (hilos_clientes S) (hilos_clientes S') ∧ fase S' = fase S.
Proof.
  intros (q & Hi & Hq & ->)%paso_reanudar_datos. split; [|done].
  exists i, (Vivo (Ret q)), (Vivo (tramo_hilo q e)). split_and!; [done| |done]. right. by exists q, e.
Qed.

Lemma accion_avanza S S' :
  apagando (fase S) = true → colgado (mundo_de S) → accion S S' →
  apagando (fase S') = true ∧
  (avance (hilos_clientes S) (hilos_clientes S') ∨
   hilos_clientes S' = hilos_clientes S ∧ (pendientes S' < pendientes S)%nat).
Proof.
  intros Hf Hw [b Hc|i Hc|i Hc|Hc|Hc|Hc].
  - apply paso_iniciar_datos in Hc as (f & ls & Hfi & _). by rewrite Hfi in Hf.
  - apply paso_cliente_datos in Hc as (p & h & w & Hi & Hav & ->). split; [done|]. left.
    exists i, (Vivo p), h. split_and!; [done| |done]. left. by exists p, (mundo_de S), w.
  - apply paso_seguir_datos in Hc as (q & Hi & Hq & _ & ->). split; [done|]. left.
    exists i, (Vivo (Ret q)), (Vivo (tramo_hilo q None)). split_and!; [done| |done]. right. by exists q, None.
  - destruct (paso_log_recibe S S' Hc) as (m & h & sal & sg & w & _ & Hm & _ & [Hw' _] & _ & ->).
    split; [done|]. right. split; [done|]. apply lookup_lt_Some in Hm. unfold pendientes, mundo_de in *. cbn.
    assert (cola_log w = cola_log (compartido (red S)) ∧ cola_pers w = cola_pers (compartido (red S)))
      as [-> ->] by by rewrite Hw'. lia.
  - apply paso_persistencia_recibe in Hc as (m & h & d & b & _ & Hm & _ & ->). split; [done|].
    right. split; [done|]. apply lookup_lt_Some in Hm. unfold pendientes, mundo_de in *. cbn. lia.
  - apply paso_principal_datos in Hc as [(Hfs & _ & ->)|[(Hfs & _ & ->)|(Hfs & _ & ->)]]; (split; [done|]);
      right; (split; [done|]); unfold pendientes, mundo_de in *; cbn; rewrite ?length_app, Hfs; cbn; lia.
Qed.

Lemma acto_avanza S S' :
  acto S S' → apagando (fase S') = true ∧
  (avance (hilos_clientes S) (hilos_clientes S') ∨
   hilos_clientes S' = hilos_clientes S ∧ (pendientes S' < pendientes S)%nat).
Proof.
  intros (Hf & S1 & Hz & Hw & Ha). destruct (azar_igual S S1 Hz) as (Hf1 & Hh1 & Hn1 & _).
  rewrite <-Hf1 in Hf. rewrite <-Hh1, <-Hn1. destruct Ha as [Ha|(i & e & Ha)].
  - by apply accion_avanza.
  - apply reanudar_avanza in Ha as [Ha ->]. auto.
Qed.

Lemma acto_termina S : Acc (flip acto) S.
Proof.
  remember (hilos_clientes S) as hs eqn:Hhs. revert S Hhs.
  induction (hilos_terminan hs) as [hs _ IHh]. intros S Hhs.
  remember (pendientes S) as n eqn:Hn. revert S Hhs Hn.
  induction (lt_wf n) as [n _ IHn]. intros S -> ->. constructor. intros S' Ha.
  apply acto_avanza in Ha as [_ [Hav|[Hh Hlt]]].
  - by apply (IHh (hilos_clientes S')).
  - by apply (IHn (pendientes S')).
Qed.

(** ** What holds while the server shuts down *)

(** The closing message is still to be received. *)
Definition por_cerrar {A} (n : nat) (l : list A) (m : A) : Prop := ∃ j, (n <= j)%nat ∧ l !! j = Some m.

Lemma por_cerrar_prefijo {A} n (l l' : list A) m :
  l `prefix_of` l' → por_cerrar n l m → por_cerrar n l' m.
Proof. intros Hl (j & Hn & Hj). exists j. split; [done|]. by eapply prefix_lookup_Some. Qed.

Lemma por_cerrar_recibido {A} n (l : list A) m x :
  por_cerrar n l m → l !! n = Some x → x ≠ m → por_cerrar (n + 1) l m.
Proof.
  intros (j & Hn & Hj) Hx Hne. exists j. split; [|done].
  destruct (decide (j = n)) as [->|]; [by simplify_eq|lia].
Qed.

Lemma por_cerrar_final {A} n (l : list A) m : (n <= length l)%nat → por_cerrar n (l ++ [m]) m.
Proof. intros Hn. exists (length l). split; [done|]. by rewrite list_lookup_middle. Qed.

(** What has been closed at each phase. *)
Record cierre_ok (S : Servidor) : Prop := {
  ci_vivos : vivos S;
  ci_log_recibidos : (log_recibidos S <= length (cola_log (mundo_de S)))%nat;
  ci_pers_recibidos : (pers_recibidos S <= length (cola_pers (mundo_de S)))%nat;
  ci_clientes : (rango (fase S) <= 2)%nat → forallb terminado (hilos_clientes S) = true;
  ci_log : fase S = EsperandoLog → log_activo S = true →
    por_cerrar (log_recibidos S) (cola_log (mundo_de S)) CerrarLog;
  ci_log_cerrado : (rango (fase S) <= 1)%nat → log_activo S = false;
  ci_pers : fase S = EsperandoPersistencia → pers_activo S = true →
    por_cerrar (pers_recibidos S) (cola_pers (mundo_de S)) CerrarPersistencia;
  ci_pers_cerrado : fase S = Terminado → pers_activo S = false;
}.

Lemma arrancado_cierre r sal : cierre_ok (arrancado r sal).
Proof. split; cbn; try done; [apply arrancado_vivos|lia..]. Qed.

(** Before [drop], and when only the world and the client threads move. *)
Lemma cierre_antes S :
  vivos S → (log_recibidos S <= length (cola_log (mundo_de S)))%nat →
  (pers_recibidos S <= length (cola_pers (mundo_de S)))%nat → (3 <= rango (fase S))%nat → cierre_ok S.
Proof. intros. split; try done; destruct (fase S); cbn in *; done || lia. Qed.

Lemma cierre_mundo S S' :
  cierre_ok S → vivos S' → crece (mundo_de S) (mundo_de S') → fase S' = fase S →
  ((rango (fase S) <= 2)%nat → forallb terminado (hilos_clientes S') = true) →
  log_recibidos S' = log_recibidos S → log_activo S' = log_activo S →
  pers_recibidos S' = pers_recibidos S → pers_activo S' = pers_activo S → cierre_ok S'.
Proof.
  intros [Hv Hlr Hpr Hcl Hl Hlc Hp Hpc] Hv' [Hgl Hgp] Hf Hhs E1 E2 E3 E4.
  split; rewrite ?Hf, ?E1, ?E2, ?E3, ?E4; try done.
  - apply prefix_length in Hgl. lia.
  - apply prefix_length in Hgp. lia.
  - intros Hx Ha. by eapply por_cerrar_prefijo, Hl.
  - intros Hx Ha. by eapply por_cerrar_prefijo, Hp.
Qed.

(** A thread that has ended does nothing else. *)
Lemma terminado_quieto hs i h h' :
  forallb terminado hs = true → hs !! i = Some h → ¬ avance_hilo h h' ∧ ∀ p w, h = Vivo p → avanzar p w = None.
Proof.
  intros Ht Hi. rewrite forallb_forall in Ht. apply list_elem_of_lookup_2, list_elem_of_In in Hi.
  specialize (Ht _ Hi). split.
  - intros [(p & w & w' & _ & -> & Hav)|(q & e & -> & Hq & _)]; [by destruct p as [[]|]|by destruct q].
  - intros p w ->. by destruct p.
Qed.

Lemma reanudar_cierre i e S q :
  cierre_ok S → hilos_clientes S !! i = Some (Vivo (Ret q)) → en_bucle q = true →
  let S' := con_hilos (<[i := Vivo (tramo_hilo q e)]> (hilos_clientes S)) S in
  vivos S' → cierre_ok S'.
Proof.
  intros HS Hi Hq S' Hv'. eapply (cierre_mundo S); try done. intros Hf.
  destruct (terminado_quieto _ i _ (Vivo (tramo_hilo q e)) (ci_clientes S HS Hf) Hi) as [Hn _].
  destruct Hn. right. by exists q, e.
Qed.

Lemma log_cierre S S' : paso_log S = Some S' → vivos S' → cierre_ok S → cierre_ok S'.
Proof.
  intros Hc Hv' [_ Hlr Hpr Hcl Hl Hlc Hp Hpc].
  destruct (paso_log_recibe S S' Hc) as (m & h & sal & sg & w & Ha & Hm & _ & [Hw _] & Hcie & ->).
  assert (cola_log w = cola_log (mundo_de S) ∧ cola_pers w = cola_pers (mundo_de S)) as [Hql Hqp]
    by by rewrite Hw.
  split; unfold mundo_de in *; cbn; rewrite ?Hql, ?Hqp; try done.
  - apply lookup_lt_Some in Hm. lia.
  - intros Hf ->. eapply por_cerrar_recibido; [by apply Hl|exact Hm|]. intros ->. by specialize (Hcie eq_refl).
  - intros Hf. specialize (Hlc Hf). congruence.
Qed.

Lemma persistencia_cierre S S' : paso_persistencia S = Some S' → vivos S' → cierre_ok S → cierre_ok S'.
Proof.
  intros Hc Hv' [_ Hlr Hpr Hcl Hl Hlc Hp Hpc].
  destruct (paso_persistencia_recibe S S' Hc) as (m & h & d & b & Ha & Hm & Hpro & ->).
  pose proof (lookup_lt_Some _ _ _ Hm) as Hlt.
  split; unfold mundo_de in *; cbn; try done; try lia.
  - intros Hf ->. eapply por_cerrar_recibido; [by apply Hp|exact Hm|]. intros ->. by cbn in Hpro; destruct_and!.
  - intros Hf. specialize (Hpc Hf). congruence.
Qed.

Lemma transicion_cierre S S' : transicion S S' → cierre_ok S → cierre_ok S'.
Proof.
  intros Ht HS. pose proof (transicion_vivos S S' Ht (ci_vivos S HS)) as Hv'.
  pose proof (vive_crece S S' (rtc_once _ _ Ht) (ci_vivos S HS)) as Hg.
  assert ((log_recibidos S <= length (cola_log (mundo_de S)))%nat ∧
    (pers_recibidos S <= length (cola_pers (mundo_de S)))%nat) as [Hlr Hpr] by by destruct HS.
  destruct Ht as [[b Hc|i Hc|i Hc|Hc|Hc|Hc]|[[st Hc|p i a creado Hc|i e Hc]|[w Hamb ->]]].
  - apply paso_iniciar_datos in Hc as (f & ls & _ & Hf & ->). apply cierre_antes; [done..|].
    destruct Hf as [-> | ->]; cbn; lia.
  - apply paso_cliente_datos in Hc as (p & h & w & Hi & Hav & ->). eapply (cierre_mundo S); try done. intros Hf.
    destruct (terminado_quieto _ i _ h (ci_clientes S HS Hf) Hi) as [_ Hn]. by rewrite (Hn p) in Hav.
  - apply paso_seguir_datos in Hc as (q & Hi & Hq & _ & ->). by apply reanudar_cierre.
  - by eapply log_cierre.
  - by eapply persistencia_cierre.
  - destruct HS as [_ _ _ Hcl Hl Hlc Hp Hpc].
    apply paso_principal_datos in Hc as [(Hf & Hte & ->)|[(Hf & Hlo & ->)|(Hf & Hpe & ->)]]; rewrite Hf in *;
      (split; unfold mundo_de in *; cbn; rewrite ?length_app; cbn; try done; try lia).
    + intros _ _. by apply por_cerrar_final.
    + intros _. apply Hcl; cbn; lia.
    + intros _ _. by apply por_cerrar_final.
    + intros _. apply Hcl; cbn; lia.
    + intros _. apply Hlc; cbn; lia.
  - apply paso_aceptar_datos in Hc as [->|(t & Hf & ->)]; [done|]. apply cierre_antes; [done..|]. cbn. lia.
  - apply paso_crear_datos in Hc as (t & st & _ & ->). apply cierre_antes; [done..|]. cbn. destruct creado; cbn; lia.
  - apply paso_reanudar_datos in Hc as (q & Hi & Hq & ->). by apply reanudar_cierre.
  - eapply (cierre_mundo S); try done. apply HS.
Qed.

Lemma vive_cierre S S' : vive S S' → cierre_ok S → cierre_ok S'.
Proof. intros Hv. induction Hv; eauto using transicion_cierre. Qed.

Lemma alcanzable_cierre config t ts sem cs d r S :
  new config t ts sem cs d = Some r → vive (arrancado r (MkSalida d [])) S → cierre_ok S.
Proof. intros _ Hv. eapply vive_cierre; [done|apply arrancado_cierre]. Qed.

Lemma azar_vive S S' : rtc azar S S' → vive S S'.
Proof. induction 1 as [|? ? ? Hz _ IH]; [done|]. eapply rtc_l; [by right; right|done]. Qed.

Lemma acto_vive S S' : rtc acto S S' → vive S S'.
Proof.
  induction 1 as [|S S1 S2 (_ & S0 & Hz & _ & Ha) _ IH]; [done|].
  etrans; [by apply azar_vive|]. eapply rtc_l; [|exact IH].
  destruct Ha as [Ha|(i & e & Ha)]; [by left|right; left; by eapply ev_reanudar].
Qed.

Lemma acto_fase S S' : apagando (fase S) = true → rtc acto S S' → apagando (fase S') = true.
Proof. intros Hf Hr. induction Hr as [|S S1 S2 Ha _ IH]; [done|]. apply IH. by apply acto_avanza in Ha as [? _]. Qed.

(** ** When nothing is possible *)

(** A thread that has ended or waits for its peer. *)
Definition espera_hilo (w : Mundo) (h : Hilo Punto) : Prop := ∃ q, h = Vivo (Ret q) ∧ espera w q = true.

Lemma hilo_quieto S i h :
  (∀ S', ¬ accion S S') → hilos_clientes S !! i = Some h → terminado h = true ∨ espera_hilo (mundo_de S) h.
Proof.
  intros Hno Hi. destruct h as [[q|R op k]|]; [|exfalso|by left].
  - destruct (en_bucle q) eqn:Hq; [|left; by destruct q]. right. exists q. split; [done|].
    destruct (espera (mundo_de S) q) eqn:He; [done|]. exfalso. eapply Hno, (acc_seguir _ _ i).
    unfold paso_seguir, paso_reanudar. by rewrite Hi, He, Hq.
  - destruct (op (mundo_de S)) as [[x|] w] eqn:Hop; eapply Hno, (acc_cliente _ _ i);
      unfold paso_cliente; rewrite Hi; cbn; by rewrite Hop.
Qed.

Lemma log_quieto S :
  (∀ S', ¬ accion S S') → log_activo S = true → cola_log (mundo_de S) !! log_recibidos S = None.
Proof.
  intros Hno Ha. destruct (cola_log (mundo_de S) !! log_recibidos S) as [m|] eqn:Hm; [|done].
  exfalso. eapply Hno, acc_log. unfold paso_log. by rewrite Ha, Hm.
Qed.

Lemma pers_quieto S :
  (∀ S', ¬ accion S S') → pers_activo S = true → cola_pers (mundo_de S) !! pers_recibidos S = None.
Proof.
  intros Hno Ha. destruct (cola_pers (mundo_de S) !! pers_recibidos S) as [m|] eqn:Hm; [|done].
  exfalso. eapply Hno, acc_persistencia. unfold paso_persistencia. by rewrite Ha, Hm.
Qed.

Lemma por_cerrar_queda {A} n (l : list A) m : por_cerrar n l m → l !! n ≠ None.
Proof. intros (j & Hn & Hj). rewrite lookup_ge_None. apply lookup_lt_Some in Hj. lia. Qed.

(** The server has stopped. *)
Definition detenido (S : Servidor) : Prop :=
  fase S = Terminado ∧ forallb terminado (hilos_clientes S) = true ∧
  log_activo S = false ∧ pers_activo S = false.

(** [drop] waits for a client thread that waits for its peer, and everything the other
    threads were sent has been received. *)
Definition pendiente_de_pares (S : Servidor) : Prop :=
  fase S = EsperandoClientes ∧ Exists (espera_hilo (mundo_de S)) (hilos_clientes S) ∧
  Forall (λ h, terminado h = true ∨ espera_hilo (mundo_de S) h) (hilos_clientes S) ∧
  (log_activo S = true → log_recibidos S = length (cola_log (mundo_de S))) ∧
  (pers_activo S = true → pers_recibidos S = length (cola_pers (mundo_de S))).

Lemma quieto S :
  cierre_ok S → apagando (fase S) = true → (∀ S', ¬ accion S S') → detenido S ∨ pendiente_de_pares S.
Proof.
  intros HS Hf Hno. pose proof (log_quieto S Hno) as Hlq. pose proof (pers_quieto S Hno) as Hpq.
  destruct HS as [_ Hlr Hpr Hcl Hl Hlc Hp Hpc]. destruct (fase S) eqn:Hfs; try done.
  - right. destruct (forallb terminado (hilos_clientes S)) eqn:Hte.
    { exfalso. eapply Hno, acc_principal. unfold paso_principal. by rewrite Hfs, Hte. }
    assert (Forall (λ h, terminado h = true ∨ espera_hilo (mundo_de S) h) (hilos_clientes S)) as Hall.
    { apply Forall_lookup. intros i h Hi. by eapply hilo_quieto. }
    split_and!; [done| |done|..].
    + clear -Hall Hte. induction Hall as [|h hs [Hh|Hh] _ IH]; [done| |by left].
      cbn in Hte. rewrite Hh in Hte. right. by apply IH.
    + intros Ha. specialize (Hlq Ha). apply lookup_ge_None in Hlq. lia.
    + intros Ha. specialize (Hpq Ha). apply lookup_ge_None in Hpq. lia.
  - exfalso. destruct (log_activo S) eqn:Ha; [by eapply por_cerrar_queda; [apply Hl|apply Hlq]|].
    eapply Hno, acc_principal. unfold paso_principal. by rewrite Hfs, Ha.
  - exfalso. destruct (pers_activo S) eqn:Ha; [by eapply por_cerrar_queda; [apply Hp|apply Hpq]|].
    eapply Hno, acc_principal. unfold paso_principal. by rewrite Hfs, Ha.
  - left. split_and!; [done|apply Hcl; cbn; lia|apply Hlc; cbn; lia|by apply Hpc].
Qed.

(** The peers hang up. *)
Definition colgar_todo (w : Mundo) : Mundo :=
  con_conexiones ((λ c, MkConexion (clonable c) (acepta c) (Some 0%nat) (direccion_local c) (enviado c))
                    <$> conexiones w) w.

Lemma colgar_colgado w : colgado (colgar_todo w).
Proof. intros s c Hc. cbn in Hc. apply lookup_fmap_Some in Hc as (c0 & <- & _). by left. Qed.

Lemma colgar_azar S : azar S (en_fase (fase S) (colgar_todo (mundo_de S)) S).
Proof. eapply azar_mundo; [|done]. by split. Qed.

(** Once they have, something is possible until the server has stopped. *)
Lemma acto_posible S :
  cierre_ok S → apagando (fase S) = true → (∀ S', ¬ acto S S') → detenido S.
Proof.
  intros HS Hf Hno. set (S1 := en_fase (fase S) (colgar_todo (mundo_de S)) S).
  assert (cierre_ok S1) as HS1 by (eapply transicion_cierre; [right; right; apply colgar_azar|done]).
  assert (∀ S', accion S1 S' ∨ responde S1 S' → acto S S') as Hac.
  { intros S' Ha. split; [done|]. exists S1. split_and!; [apply rtc_once, colgar_azar|apply colgar_colgado|done]. }
  destruct (quieto S1) as [Hd|(_ & Hex & _)]; [done..| |exact Hd|].
  { intros S' Ha. by apply (Hno S'), Hac; left. }
  apply list.Exists_exists in Hex as (h & [i Hi]%list_elem_of_lookup & q & -> & Hq). exfalso.
  eapply Hno, Hac. right. exists i, None. unfold paso_reanudar. rewrite Hi.
  assert (en_bucle q = true) as -> by by destruct q. done.
Qed.

(** A stopped server does nothing more. *)
Lemma detenido_acto S S' : detenido S → ¬ acto S S'.
Proof.
  intros (Hf & Ht & Hl & Hp) (_ & S1 & Hz & _ & Ha). destruct (azar_igual S S1 Hz) as (Hf1 & Hh1 & _ & Hl1 & Hp1).
  rewrite <-Hf1 in Hf. rewrite <-Hh1 in Ht. rewrite <-Hl1 in Hl. rewrite <-Hp1 in Hp.
  assert (∀ i q (e : option string), hilos_clientes S1 !! i = Some (Vivo (Ret q)) → en_bucle q = true → False) as Hq.
  { intros i q e Hi Hq. destruct (terminado_quieto _ i _ (Vivo (tramo_hilo q e)) Ht Hi) as [Hn _].
    apply Hn. right. by exists q, e. }
  destruct Ha as [[b Hc|i Hc|i Hc|Hc|Hc|Hc]|(i & e & Hc)].
  - apply paso_iniciar_datos in Hc as (f & ls & Hfi & _). congruence.
  - apply paso_cliente_datos in Hc as (p & h & w & Hi & Hav & _).
    destruct (terminado_quieto _ i _ h Ht Hi) as [_ Hn]. by rewrite (Hn p) in Hav.
  - apply paso_seguir_datos in Hc as (q & Hi & Hb & _). by eapply (Hq i q None).
  - unfold paso_log in Hc. by rewrite Hl in Hc.
  - unfold paso_persistencia in Hc. by rewrite Hp in Hc.
  - unfold paso_principal in Hc. by rewrite Hf in Hc.
  - apply paso_reanudar_datos in Hc as (q & Hi & Hb & _). by eapply (Hq i q e).
Qed.



(** A schedule of the shut-down with the connections as they are. *)
Fixpoint guion_actos (os : list Orden) (S : Servidor) : option Servidor :=
  match os with
  | [] => Some S
  | o :: os' =>
      if apagando (fase S) && bool_decide (colgado (mundo_de S)) then S' ← obedecer o S; guion_actos os' S' else None
  end.

Lemma guion_actos_acto os S S' : guion_actos os S = Some S' → rtc acto S S'.
Proof.
  revert S. induction os as [|o os IH]; intros S Hg; cbn [guion_actos] in Hg; [by simplify_eq|].
  destruct (apagando (fase S)) eqn:Hf; [|done]. cbn [andb] in Hg. case_bool_decide as Hw; [|done].
  apply bind_Some in Hg as (S1 & Ho & Hg). eapply rtc_l; [|by apply IH]. split; [done|]. exists S.
  split_and!; [done..|]. destruct (obedecer_transicion o S S1 Ho) as [Ha|Ha]; [by left|]. destruct Ha as [st Hc|p i a creado Hc|i e Hc]; [| |by right; exists i, e].
  - unfold paso_aceptar in Hc. case_bool_decide as Hx; [|done]. by rewrite Hx in Hf.
  - apply paso_crear_datos in Hc as (t & st & Hx & _). by rewrite Hx in Hf.
Qed.

(** ** Properties *)


(** C7: When the server has left [iniciar] and its peers have hung up,
    the shut-down terminates: however its threads are scheduled, whatever the readers
    still find and whatever else the environment does, the loops of the client threads
    go round finitely many more times, no execution goes on for ever, and each ends
    with the server stopped. *)
Theorem apagado_termina config t ts sem cs d r S
    (Hr : new config t ts sem cs d = Some r) (Hv : vive (arrancado r (MkSalida d [])) S)
    (Hf : apagando (fase S) = true) :
  Acc (flip acto) S ∧ ∀ S', rtc acto S S' → (∀ S'', ¬ acto S' S'') → detenido S'.
Proof.
  split; [apply acto_termina|]. intros S' Hs Hno. apply acto_posible; [|by eapply acto_fase|done].
  eapply vive_cierre; [by apply acto_vive|by eapply alcanzable_cierre].
Qed.
End apagado.

(** ** Witnesses: the thread of a second client cannot be created

    The first client is connected and silent; then it hangs up. *)

Definition silencio_guion : list Orden :=
  [Inicia true; Acepta 1; Crea None true; Avanza 0; Acepta 2; Crea None false; Avanza 0; Registra].

Definition servidor_de (conexiones : gmap TcpStream Conexion) (os : list Orden) : option Servidor :=
  r ← new new_config 3 0 0 conexiones disco_prueba;
  @guion entorno_prueba os (arrancado r (MkSalida disco_prueba [])).


Definition colgadas_prueba : gmap TcpStream Conexion :=
  let c := MkConexion true (Some 100%nat) (Some 0%nat) None [] in {[1 := c; 2 := c]}.
Definition colgado_prueba : option Servidor := servidor_de colgadas_prueba silencio_guion.

(** How that one may end. *)
Definition final_guion : list Orden :=
  [Reanuda 0 None; Avanza 0; Reanuda 0 None; Avanza 0; Avanza 0; Avanza 0; Prosigue; Registra; Registra;
   Prosigue; Persiste; Prosigue].
Definition final_prueba : option Servidor :=
  S ← colgado_prueba; @guion_actos entorno_prueba final_guion S.

Lemma servidor_de_vive cs os S : servidor_de cs os = Some S →
  ∃ r, new new_config 3 0 0 cs disco_prueba = Some r ∧
    rtc (@transicion entorno_prueba) (arrancado r (MkSalida disco_prueba [])) S.
Proof.
  unfold servidor_de. intros (r & Hr & Hg)%bind_Some. exists r. split; [done|]. by eapply guion_vive.
Qed.



Lemma colgado_prueba_apagando S : colgado_prueba = Some S → apagando (fase S) = true.
Proof.
  intros HS. apply (f_equal (fmap (λ S, apagando (fase S)))) in HS. vm_compute in HS. by injection HS.
Qed.

Lemma final_prueba_detenido S : final_prueba = Some S → detenido S.
Proof.
  intros HS. apply (f_equal (fmap (λ S, (fase S, forallb terminado (hilos_clientes S), log_activo S, pers_activo S)))) in HS.
  vm_compute in HS. injection HS as Hf Ht Hl Hp. split_and!; by symmetry.
Qed.

Lemma apagado_termina_witness :
  ∃ S S', colgado_prueba = Some S ∧ final_prueba = Some S' ∧ rtc (@acto entorno_prueba) S S' ∧
    Acc (flip (@acto entorno_prueba)) S ∧ detenido S'.
Proof.
  assert ((if colgado_prueba is Some _ then true else false) = true) as Hc by (vm_compute; reflexivity).
  assert ((if final_prueba is Some _ then true else false) = true) as Hc' by (vm_compute; reflexivity).
  destruct final_prueba as [S'|] eqn:HS'; [clear Hc'|discriminate Hc'].
  pose proof (final_prueba_detenido S' HS') as Hd. unfold final_prueba in HS'.
  destruct colgado_prueba as [S|] eqn:HS; [clear Hc|discriminate Hc].
  destruct (servidor_de_vive _ _ _ HS) as (r & Hr & Hv).
  pose proof (guion_actos_acto final_guion S S' HS') as Hs.
  destruct (@apagado_termina entorno_prueba new_config 3 0 0 colgadas_prueba disco_prueba r S Hr Hv
    (colgado_prueba_apagando S HS)) as [Hacc Hfin].
  exists S, S'. split; [reflexivity|]. split; [reflexivity|]. split; [exact Hs|]. split; [exact Hacc|].
  exact (Hfin S' Hs (λ S'', detenido_acto S' S'' Hd)).
Defined.
