(* ===== verification/Reinicio.v ===== *)
(** * Durability (redis.rs, base_de_datos.rs, persistencia.rs)

    What survives a restart: a write, the message it sends to the persistence thread,
    the file that thread writes, the table a new server reads from it, and what a client
    of that server observes. *)
From S2P Require Import Prelude Rust Datos Efectos Valor ComandoInfo Cliente BaseDeDatos.
From S2P Require ComandoString ComandoList.
From S2P Require Import Configuracion Persistencia Comando Redis.

#[local] Open Scope Z_scope.

(** ** What a client observes of a restored table *)

(** Values the file can give back: not a channel. *)
Definition es_dato (v : TipoRedis) : bool := match v with TCanal _ => false | _ => true end.
Definition sin_canales (m : gmap string TipoRedis) : gmap string TipoRedis :=
  base.filter (λ kv, es_dato kv.2 = true) m.

(** Lists and sets without a lifetime: with one they come back with two elements
    more. *)
Definition coleccion_eterna (v : Valor) : Prop :=
  match valor v with Lista _ | Conjunto _ => vida_util v = None | _ => True end.

Lemma sobrevive_sin_canal t v :
  sobrevive t v = true ↔ ∃ x, Valor.get t v = Some x ∧ es_dato x = true.
Proof.
  unfold sobrevive, Valor.get. destruct (expiro t v); cbn [negb andb].
  - split; [done|]. by intros (x & Hx & _).
  - split; [intros Hs; exists (valor v); split; [done|]|intros (x & Hx & Hs); simplify_eq];
      by destruct (valor v).
Qed.

Lemma get_restaurar t t' v :
  valor_ok t v → coleccion_eterna v → sobrevive t v = true → Valor.get t' (restaurar t' v) = Valor.get t v.
Proof.
  intros (_ & _ & Hv) Hc Hs. apply sobrevive_get in Hs as Hg. rewrite Hg.
  unfold restaurar, valor_restaurado. unfold coleccion_eterna in Hc.
  destruct (vida_util v) as [d|] eqn:Hd; [|done]. destruct Hv as (s & -> & Hs0).
  unfold Valor.get, expiro in Hg. rewrite Hd in Hg.
  destruct (from_secs s <=? _) eqn:He; [done|]. apply Z.leb_gt in He.
  unfold Valor.get. rewrite expiro_expirable by lia. rewrite as_secs_from_secs.
  assert (0 < s) as Hpos.
  { destruct (decide (s = 0)) as [->|]; [|lia]. unfold elapsed, from_secs in *. lia. }
  replace (from_secs s <=? t' - t') with false
    by (symmetry; apply Z.leb_gt; unfold from_secs, nanos; lia).
  cbn [negb]. unfold expirable. cbn [valor]. by destruct (valor v).
Qed.

Lemma vista_restaurada t t' m :
  map_Forall (λ _ v, valor_ok t v ∧ coleccion_eterna v) m →
  omap (Valor.get t') (tabla_restaurada t t' m) = sin_canales (omap (Valor.get t) m).
Proof.
  intros Hm. apply map_eq. intros k. unfold tabla_restaurada, sin_canales.
  rewrite lookup_omap, lookup_fmap, !map_lookup_filter, lookup_omap.
  destruct (m !! k) as [v|] eqn:Hk; [|done]. cbn. destruct (Hm k v Hk) as [Hv Hc].
  destruct (sobrevive t v) eqn:Hs.
  - rewrite option_guard_True by done. cbn. rewrite (get_restaurar t) by done.
    apply (sobrevive_sin_canal t v) in Hs as (x & -> & Hx). cbn. by rewrite option_guard_True.
  - rewrite option_guard_False by done. cbn. destruct (Valor.get t v) as [x|] eqn:Hg; [|done]. cbn.
    destruct (es_dato x) eqn:Hx; [|by rewrite option_guard_False].
    assert (sobrevive t v = true) by (apply (sobrevive_sin_canal t v); by exists x). congruence.
Qed.

(** ** The file *)

Lemma descartar_todo n s : (String.length s <= n)%nat → descartar n s = "".
Proof.
  revert s. induction n as [|n IH]; intros [|a s] Hs; cbn in *; [done|lia|done|]. apply IH. lia.
Qed.

(** A text at least as long as the file replaces all of it. *)
Lemma sobrescribir_todo nuevo viejo :
  (String.length viejo <= String.length nuevo)%nat → sobrescribir nuevo viejo = nuevo.
Proof. intros Hl. unfold sobrescribir. by rewrite descartar_todo, string_app_nil_r. Qed.

Section reinicio.
Context `{Entorno}.

(** Whether saving the table [m] with these hashers replaces the whole file. *)
Definition cabe (sem t : Z) (m : gmap string Valor) (a : string) (d : Disco) : Prop :=
  escribible d a = true ∧
  (String.length (default "" (archivos d !! a)) <= String.length (texto (instrucciones sem t m)))%nat.

Lemma guardar_y_levantar sem t t' m a d :
  cabe sem t m a d → map_Forall (entrada_segura t) m →
  ∃ d', guardar_en_archivo a (instrucciones sem t m) d = Some d' ∧
    levantar_tabla t' a d' = Some (tabla_restaurada t t' m).
Proof.
  intros [Ha Hl] Hm. unfold guardar_en_archivo. rewrite Ha. eexists. split; [done|].
  unfold levantar_tabla. cbn [archivos]. rewrite lookup_insert_eq, sobrescribir_todo by done.
  by apply (levantar_instrucciones sem t).
Qed.

Lemma entrada_segura_despues t t' k v : t ≤ t' → entrada_segura t k v → entrada_segura t' k v.
Proof.
  intros Ht Hs Hv. apply Hs. unfold sobrevive in *. apply andb_true_iff in Hv as [He Hc].
  rewrite Hc, andb_true_r. destruct (expiro t v) eqn:Hx; [|done].
  by rewrite (expiro_monotono t t') in He.
Qed.

(** A table whose entries the file can hold. *)
Definition guardable (w : Mundo) : Prop :=
  map_Forall (λ k v, valor_ok (ahora w) v ∧ coleccion_eterna v ∧ entrada_segura (ahora w) k v) (tabla w).

(** Every entry but one is such. *)
Definition resto_guardable (k : string) (w : Mundo) : Prop :=
  map_Forall (λ k' v, k' ≠ k → entrada_segura (ahora w) k' v) (tabla w).

Lemma set_eq n k v i w :
  envenenado (base w) = false → k ∉ ["EX"; "PX"] → v ∉ ["EX"; "PX"] →
  correr (ComandoString.set (MkComandoInfo n [k; v] i)) w =
    (Some (StrSimple "OK"), guardado k (no_expirable (ahora w) (Str v)) w).
Proof.
  intros Hw Hk Hv. unfold ComandoString.set. leer_comando.
  rewrite bool_decide_eq_false_2 by done. ejecutar. unfold ComandoString.set_seccion, ComandoString.contiene_param.
  rewrite !bool_decide_eq_false_2 by set_solver. ejecutar. done.
Qed.

Lemma guardable_guardado k v w :
  guardable w → campo_seguro k = true → campo_seguro v = true →
  guardable (guardado k (no_expirable (ahora w) (Str v)) w).
Proof.
  intros Hw Hk Hv. unfold guardable, guardado.
  change (tabla (notificado ?x)) with (tabla x). rewrite tabla_con_tabla.
  apply map_Forall_insert_2; [|done]. split_and!; [apply no_expirable_ok|done|]. by intros _.
Qed.

(** Saving the table of [w] at [t] and starting a server on that file. *)
Lemma reiniciar config t' ts' sem' cs' sem t w d :
  guardable w → ahora w ≤ t → cabe sem t (tabla w) (dbfilename config) d →
  ∃ d' r, guardar_en_archivo (dbfilename config) (instrucciones sem t (tabla w)) d = Some d' ∧
    new config t' ts' sem' cs' d' = Some r ∧
    vista (compartido r) = sin_canales (omap (Valor.get t) (tabla w)).
Proof.
  intros Hw Ht Hc.
  destruct (guardar_y_levantar sem t t' (tabla w) (dbfilename config) d Hc) as (d' & Hg & Hl).
  { eapply map_Forall_impl; [exact Hw|]. intros k v (_ & _ & Hs). by eapply entrada_segura_despues. }
  eexists d', _. split; [exact Hg|]. unfold new. rewrite Hl. split; [reflexivity|].
  unfold vista, tabla. cbn [compartido base dato hashmap ahora agregar_observador].
  apply vista_restaurada. eapply map_Forall_impl; [exact Hw|]. intros k v (Hv & Hco & _).
  split; [by eapply valor_ok_monotono|done].
Qed.

(** ** Properties *)

(** C5: A SET that was answered survives a restart: it sends one
    message to the persistence thread; when the interval has passed, that thread saves
    the whole table, with the new value; and the server that starts on that file shows
    its clients the same keys and values as the old one at the moment of the save,
    save the channels. It is assumed that the file can be written, that it is not
    longer than what is saved, and that the table can be held by the file, whose lists
    and sets have no lifetime. *)
Theorem reinicio_conserva config k v cr w t sem h d t' ts' sem' cs'
    (Hw : envenenado (base w) = false) (Ho : observadores (dato (base w)) = [MkPersistidor])
    (Hg : guardable w) (Hk : campo_seguro k = true ∧ k ≠ "PX") (Hv : campo_seguro v = true ∧ v ≠ "PX")
    (Ht : ahora w ≤ t) (Hh : archivo h = dbfilename config) (Hi : intervalo h ≤ elapsed t (instante h)) :
  let '(respuesta, w1) := correr (manejar_comando (MkComandoInfo "SET" [k; v] 0) (CRedis cr)) w in
  cabe sem t (tabla w1) (dbfilename config) d →
  respuesta = Some (StrSimple "OK") ∧
  ∃ mensajes h1 d1 r, cola_pers w1 = cola_pers w ++ mensajes ∧
    persistir ((λ m, (sem, t, m)) <$> mensajes) h d = (h1, d1) ∧
    new config t' ts' sem' cs' d1 = Some r ∧
    vista (compartido r) = <[k := Str v]> (sin_canales (omap (Valor.get t) (tabla w))).
Proof.
  destruct Hk as [Hk Hkp], Hv as [Hv Hvp].
  assert (∀ x, campo_seguro x = true → x ≠ "PX" → x ∉ ["EX"; "PX"]) as Hx.
  { intros x Hx Hp. pose proof (campo_seguro_palabra x Hx). set_solver. }
  change (manejar_comando (MkComandoInfo "SET" [k; v] 0) (CRedis cr)) with
    (ComandoString.set (MkComandoInfo "SET" [k; v] 0)).
  rewrite set_eq by auto. set (w1 := guardado k (no_expirable (ahora w) (Str v)) w).
  intros Hc. split; [done|].
  destruct (reiniciar config t' ts' sem' cs' sem t w1 d) as (d' & r & Hs & Hn & Hvi);
    [by apply guardable_guardado|done|done|].
  exists [Info (tabla w1)], (MkPersistidorHandler (archivo h) (intervalo h) t), d', r. split_and!.
  - unfold w1, guardado. cbn. by rewrite Ho.
  - cbn [fmap list_fmap persistir procesar]. rewrite (proj2 (Z.leb_le _ _)) by done.
    rewrite Hh, Hs. done.
  - done.
  - rewrite Hvi. unfold w1, guardado. change (tabla (notificado ?x)) with (tabla x).
    rewrite tabla_con_tabla, omap_insert_Some with (y := Str v) by done.
    unfold sin_canales. by rewrite map_filter_insert_True.
Qed.

(** C36: FLUSHDB does not last.  When the file can be written and holds a
    saved table, of entries the format can hold and lists and sets without lifetime, a
    FLUSHDB that is answered and whose message the persistence thread handles
    once its interval has passed leaves no key for the clients, and the server that
    starts on that file shows its clients the keys and values of the saved table again,
    save the channels, because saving a table without keys writes nothing over it. *)
Theorem vaciado_perdido config cr w sem0 t0 m t sem h d t' ts' sem' cs'
    (Hw : envenenado (base w) = false) (Ho : observadores (dato (base w)) = [MkPersistidor])
    (Hm : map_Forall (λ k v, valor_ok t0 v ∧ coleccion_eterna v ∧ entrada_segura t0 k v) m)
    (Hd : archivos d !! dbfilename config = Some (texto (instrucciones sem0 t0 m)))
    (He : escribible d (dbfilename config) = true)
    (Hh : archivo h = dbfilename config) (Hi : intervalo h ≤ elapsed t (instante h)) :
  let '(respuesta, w1) := correr (manejar_comando (MkComandoInfo "FLUSHDB" [] 0) (CRedis cr)) w in
  respuesta = Some (StrSimple "OK") ∧ vista w1 = ∅ ∧
  ∃ mensajes h1 d1 r, cola_pers w1 = cola_pers w ++ mensajes ∧
    persistir ((λ m, (sem, t, m)) <$> mensajes) h d = (h1, d1) ∧ instante h1 = t ∧
    new config t' ts' sem' cs' d1 = Some r ∧
    vista (compartido r) = sin_canales (omap (Valor.get t0) m).
Proof.
  change (manejar_comando (MkComandoInfo "FLUSHDB" [] 0) (CRedis cr)) with Configuracion.flushdb.
  assert (correr Configuracion.flushdb w = (Some (StrSimple "OK"), notificado (con_tabla ∅ w))) as ->.
  { unfold Configuracion.flushdb. ejecutar.
    change (borrar_claves w) with (Some (), notificado (con_tabla ∅ w)). by ejecutar. }
  split; [done|]. split.
  { unfold vista. change (tabla (notificado ?x)) with (tabla x). rewrite tabla_con_tabla. apply omap_empty. }
  destruct (guardar_vacio sem t (dbfilename config) d _ He Hd) as (d1 & Hg & Hd1).
  eexists [Info ∅], (MkPersistidorHandler (archivo h) (intervalo h) t), d1, _. split_and!.
  - cbn. by rewrite Ho.
  - cbn [fmap list_fmap persistir procesar]. rewrite (proj2 (Z.leb_le _ _)) by done. rewrite Hh, Hg. done.
  - done.
  - unfold new, levantar_tabla. rewrite Hd1, (levantar_instrucciones sem0 t0 t'); [reflexivity|].
    eapply map_Forall_impl; [exact Hm|]. by intros k v (_ & _ & Hs).
  - unfold vista, tabla. cbn [compartido base dato hashmap ahora agregar_observador].
    apply vista_restaurada. eapply map_Forall_impl; [exact Hm|]. by intros k v (Hv & Hco & _).
Qed.

(** C38: A server that is told to push [EX] to a list does not start
    again.  When RPUSH appends [EX] to a list with elements the format can hold, or to no
    key, under such a key, and so is the rest of the table, the push is answered and saved to a new
    file once the interval has passed; then reading that file panics, so the server
    that starts on it fails, at any time. *)
Theorem elemento_ex config k l cr w t sem h d t' ts' sem' cs'
    (Hw : envenenado (base w) = false) (Ho : observadores (dato (base w)) = [MkPersistidor])
    (Hv : vista w !! k = (if bool_decide (l = []) then None else Some (Lista l)))
    (Hk : campo_seguro k = true) (Hl : tipo_seguro (Lista l) = true)
    (Hs : resto_guardable k w)
    (Hd : archivos d !! dbfilename config = None) (He : escribible d (dbfilename config) = true)
    (Ht : ahora w ≤ t) (Hh : archivo h = dbfilename config) (Hi : intervalo h ≤ elapsed t (instante h)) :
  let '(respuesta, w1) := correr (manejar_comando (MkComandoInfo "RPUSH" [k; EX] 0) (CRedis cr)) w in
  respuesta = Some (Int (ComandoList.largo_isize (l ++ [EX]))) ∧
  ∃ mensajes h1 d1, cola_pers w1 = cola_pers w ++ mensajes ∧
    persistir ((λ m, (sem, t, m)) <$> mensajes) h d = (h1, d1) ∧
    levantar_tabla t' (dbfilename config) d1 = None ∧ new config t' ts' sem' cs' d1 = None.
Proof.
  change (manejar_comando (MkComandoInfo "RPUSH" [k; EX] 0) (CRedis cr)) with
    (ComandoList.rpush (MkComandoInfo "RPUSH" [k; EX] 0)).
  rewrite (correr_avanzar _ _ _ _ (ComandoList.rpush_lee "RPUSH" k EX 0 w l Hw Hv)).
  rewrite (correr_avanzar _ _ _ _ (ComandoList.rpush_escribe "RPUSH" k EX l w Hw)), correr_ret.
  split; [done|]. set (v := no_expirable (ahora w) (Lista (l ++ [EX]))).
  assert (tabla (guardado k v w) = <[k := v]> (tabla w)) as Htb.
  { unfold guardado. change (tabla (notificado ?x)) with (tabla x). by rewrite tabla_con_tabla. }
  assert (levantar_lineas t' (lineas (texto (instrucciones sem t (tabla (guardado k v w))))) ∅ = None) as Hlev.
  { apply (levantar_tabla_ex sem t t' _ k l v); [done|done|by rewrite Htb, lookup_insert_eq|done|].
    rewrite Htb. apply map_Forall_insert_2; [done|].
    eapply map_Forall_impl; [exact Hs|]. intros k' v' Hs' Hne. by eapply entrada_segura_despues, Hs'. }
  exists [Info (tabla (guardado k v w))], (MkPersistidorHandler (archivo h) (intervalo h) t). eexists.
  split_and!.
  - unfold guardado. cbn. by rewrite Ho.
  - cbn [fmap list_fmap persistir procesar]. rewrite (proj2 (Z.leb_le _ _)) by done.
    rewrite Hh. unfold guardar_en_archivo. rewrite He, Hd. reflexivity.
  - unfold levantar_tabla. cbn [archivos]. rewrite lookup_insert_eq, sobrescribir_todo by (cbn; lia). exact Hlev.
  - unfold new, levantar_tabla. cbn [archivos]. rewrite lookup_insert_eq, sobrescribir_todo by (cbn; lia).
    by rewrite Hlev.
Qed.
End reinicio.

(** ** Witness: a table with a string, a list and an expired key *)

Definition mundo_reinicio : Mundo :=
  con_tabla {["a" := expirable 0 (Str "x") 9; "l" := no_expirable 0 (Lista ["1"; "2"]);
              "z" := expirable (-5000000000) (Str "y") 1]} mundo_vacio.

Lemma mundo_reinicio_guardable : guardable mundo_reinicio.
Proof.
  unfold guardable, mundo_reinicio. rewrite tabla_con_tabla.
  repeat apply map_Forall_insert_2; [..|apply map_Forall_empty]; (split; [|split; [done|]]).
  1, 3, 5: split; [done|]; split; [done|]; first [exact Logic.I | by eexists].
  all: intros Hs; first [done | split; [done|]; split; [done|]; vm_compute; split; discriminate].
Qed.

Lemma mundo_reinicio_cabe :
  @cabe entorno_prueba 0 2000000000
    (tabla (snd (correr (@manejar_comando entorno_prueba (MkComandoInfo "SET" ["k"; "v"] 0)
      cliente_prueba) mundo_reinicio)))
    (dbfilename new_config) (MkDisco {["dump.rb" := "viejo"]} (λ _, true)).
Proof. split; [reflexivity|]. apply Nat.leb_le. vm_compute. reflexivity. Qed.

Lemma reinicio_conserva_witness :
  ∃ mensajes h1 d1 r,
    cola_pers (snd (correr (@manejar_comando entorno_prueba (MkComandoInfo "SET" ["k"; "v"] 0)
      cliente_prueba) mundo_reinicio)) = mensajes ∧
    @persistir entorno_prueba ((λ m, (0, 2000000000, m)) <$> mensajes)
      (new_persistidor_handler "dump.rb" 1 0) (MkDisco {["dump.rb" := "viejo"]} (λ _, true)) = (h1, d1) ∧
    new new_config 7 0 0 ∅ d1 = Some r ∧
    vista (compartido r) = {["k" := Str "v"; "a" := Str "x"; "l" := Lista ["1"; "2"]]}.
Proof.
  pose proof (@reinicio_conserva entorno_prueba new_config "k" "v" (MkClienteRedis 0 0 None 0 (Some 1))
    mundo_reinicio 2000000000 0 (new_persistidor_handler "dump.rb" 1 0)
    (MkDisco {["dump.rb" := "viejo"]} (λ _, true)) 7 0 0 ∅ ltac:(vm_compute; reflexivity)
    ltac:(vm_compute; reflexivity)
    mundo_reinicio_guardable ltac:(split; [vm_compute; reflexivity|discriminate])
    ltac:(split; [vm_compute; reflexivity|discriminate])
    ltac:(vm_compute; discriminate) ltac:(vm_compute; reflexivity) ltac:(vm_compute; discriminate)) as Hw.
  destruct (Hw mundo_reinicio_cabe) as (_ & ms & h1 & d1 & r & Hq & Hp & Hn & Hv).
  exists ms, h1, d1, r. split; [exact Hq|]. split; [exact Hp|]. split; [exact Hn|].
  rewrite Hv. vm_compute. reflexivity.
Defined.

(** ** Witnesses: a FLUSHDB and a RPUSH before a restart *)

Definition disco_guardado : Disco :=
  MkDisco {["dump.rb" := texto (@instrucciones entorno_prueba 0 0 (tabla mundo_reinicio))]} (λ _, true).

Lemma vaciado_perdido_witness :
  ∃ ms h1 d1 r,
    cola_pers (snd (correr (@manejar_comando entorno_prueba (MkComandoInfo "FLUSHDB" [] 0) cliente_prueba)
      mundo_reinicio)) = ms ∧
    @persistir entorno_prueba ((λ m, (0, 2000000000, m)) <$> ms)
      (new_persistidor_handler "dump.rb" 1 0) disco_guardado = (h1, d1) ∧
    new new_config 7 0 0 ∅ d1 = Some r ∧
    vista (compartido r) = {["a" := Str "x"; "l" := Lista ["1"; "2"]]}.
Proof.
  pose proof (@vaciado_perdido entorno_prueba new_config (MkClienteRedis 0 0 None 0 (Some 1))
    mundo_reinicio 0 0 (tabla mundo_reinicio) 2000000000 0 (new_persistidor_handler "dump.rb" 1 0)
    disco_guardado 7 0 0 ∅ ltac:(vm_compute; reflexivity) ltac:(vm_compute; reflexivity)
    mundo_reinicio_guardable ltac:(vm_compute; reflexivity) eq_refl eq_refl
    ltac:(vm_compute; discriminate)) as (_ & _ & ms & h1 & d1 & r & Hq & Hp & _ & Hn & Hv).
  exists ms, h1, d1, r. split; [exact Hq|]. split; [exact Hp|]. split; [exact Hn|].
  rewrite Hv. vm_compute. reflexivity.
Defined.

Lemma mundo_reinicio_seguro k : resto_guardable k mundo_reinicio.
Proof. eapply map_Forall_impl; [apply mundo_reinicio_guardable|]. by intros k' v (_ & _ & Hs) _. Qed.

Lemma elemento_ex_witness :
  ∃ ms h1 d1,
    cola_pers (snd (correr (@manejar_comando entorno_prueba (MkComandoInfo "RPUSH" ["l"; "EX"] 0) cliente_prueba)
      mundo_reinicio)) = ms ∧
    @persistir entorno_prueba ((λ m, (0, 2000000000, m)) <$> ms)
      (new_persistidor_handler "dump.rb" 1 0) (MkDisco ∅ (λ _, true)) = (h1, d1) ∧
    new new_config 7 0 0 ∅ d1 = None.
Proof.
  pose proof (@elemento_ex entorno_prueba new_config "l" ["1"; "2"] (MkClienteRedis 0 0 None 0 (Some 1))
    mundo_reinicio 2000000000 0 (new_persistidor_handler "dump.rb" 1 0) (MkDisco ∅ (λ _, true)) 7 0 0 ∅
    ltac:(vm_compute; reflexivity) ltac:(vm_compute; reflexivity) ltac:(vm_compute; reflexivity)
    ltac:(vm_compute; reflexivity) ltac:(vm_compute; reflexivity) (mundo_reinicio_seguro "l")
    eq_refl eq_refl ltac:(vm_compute; discriminate) eq_refl
    ltac:(vm_compute; discriminate)) as (_ & ms & h1 & d1 & Hq & Hp & _ & Hn).
  exists ms, h1, d1. split; [exact Hq|]. split; [exact Hp|exact Hn].
Defined.
