(* ===== verification/Pruebas.v ===== *)
(** * Running the unit tests of the repository

    A test is a thread that panics when an assertion fails. A database of its own is
    the one of the shared world, which [Arc::new(Mutex::new(..))] and [Arc::clone] only
    pass around. The handlers take their command by reference and move its cursor: the
    tests that use a command twice call handlers that start with [get_clave], which
    puts the cursor back. The tests themselves are in the files that follow, one per
    group of source files. *)
From S2P Require Import Prelude Rust Datos Efectos Valor ComandoInfo BaseDeDatos.
From S2P Require Parser HttpParser.

#[local] Open Scope Z_scope.

(** [#[derive(PartialEq)]], and [PartialEq] of clients, which compares tokens. *)
Class Igual (A : Type) := igual : A → A → bool.
#[export] Hint Mode Igual ! : typeclass_instances.

Definition iguales {A} (eq : A → A → bool) : list A → list A → bool :=
  fix go l1 l2 :=
    match l1, l2 with
    | [], [] => true
    | x :: l1', y :: l2' => eq x y && go l1' l2'
    | _, _ => false
    end.

#[export] Instance igual_string : Igual string := λ s1 s2, bool_decide (s1 = s2).
#[local] Existing Instance Parser.parser_error_eq_dec.
#[export] Instance igual_error : Igual Parser.ParserError := λ e1 e2, bool_decide (e1 = e2).
#[export] Instance igual_lista `{Igual A} : Igual (list A) := iguales igual.
#[export] Instance igual_option `{Igual A} : Igual (option A) := λ o1 o2,
  match o1, o2 with Some x, Some y => igual x y | None, None => true | _, _ => false end.

Definition resultado_eq : ResultadoRedis → ResultadoRedis → bool :=
  fix go r1 r2 :=
    match r1, r2 with
    | StrSimple s1, StrSimple s2 | BulkStr s1, BulkStr s2 | Error s1, Error s2 => igual s1 s2
    | Int i1, Int i2 => i1 =? i2
    | Vector v1, Vector v2 => iguales go v1 v2
    | Nil, Nil | Vacio, Vacio => true
    | _, _ => false
    end.
#[export] Instance igual_resultado : Igual ResultadoRedis := resultado_eq.

Definition canal_eq (c1 c2 : Canal) : bool :=
  igual (nombre_canal c1) (nombre_canal c2) &&
  iguales cliente_eq (suscriptores c1) (suscriptores c2).

Definition tipo_eq (v1 v2 : TipoRedis) : bool :=
  match v1, v2 with
  | Str s1, Str s2 => igual s1 s2
  | Lista l1, Lista l2 => igual l1 l2
  | Conjunto s1, Conjunto s2 => bool_decide (s1 = s2)
  | TCanal c1, TCanal c2 => canal_eq c1 c2
  | _, _ => false
  end.
#[export] Instance igual_tipo : Igual TipoRedis := tipo_eq.

(** ** The tests as programs *)

Definition Prueba : Type := Prog ().

Definition asegurar (b : bool) : Prueba := if b then mret () else atomico panico.
Definition assert_eq `{Igual A} (x y : A) : Prueba := asegurar (igual x y).

(** [v.contains(&x)]. *)
Definition contiene_igual `{Igual A} (x : A) (v : list A) : bool := existsb (igual x) v.

(** [BaseDeDatos::new()], without observers. *)
Definition base_nueva : Prueba :=
  atomico (modificar (con_base (MkMutex (MkBaseDeDatos ∅ []) false))).

Definition instante : Prog Z := atomico (consultar ahora).

(** [thread::sleep]: time passes. *)
Definition dormir (s : Z) : Prueba := atomico (modificar (λ w,
  MkMundo (base w) (conf w) (ahora w + from_secs s) (sistema w + from_secs s) (semilla w)
    (cola_pers w) (cola_log w) (conexiones w))).

(** [parser.parsear_stream().unwrap()], and [unwrap_err]. *)
Definition analizar {A B} (r : option (A + B)) : Prog B :=
  x ← o_panico_hilo r; o_panico_hilo (match x with inr y => Some y | inl _ => None end).
Definition analizar_error {A B} (r : option (A + B)) : Prog A :=
  x ← o_panico_hilo r; o_panico_hilo (match x with inl y => Some y | inr _ => None end).

Definition aprueba (p : Prueba) : bool :=
  match fst (correr p mundo_vacio) with Some _ => true | None => false end.

(** ** An environment for the tests

    The patterns they use have letters, classes of letters and letters repeated with
    [*]; an expression matches when it occurs in the text. *)
Inductive Patron := Letra (a : ascii) | Clase (s : string) | Repetida (a : ascii).

Fixpoint leer_patron (clase : option string) (re : string) : list Patron :=
  match re with
  | EmptyString => []
  | String a re' =>
      match clase with
      | Some s => if bool_decide (a = "]"%char) then Clase s :: leer_patron None re'
                  else leer_patron (Some (String a s)) re'
      | None =>
          if bool_decide (a = "["%char) then leer_patron (Some "") re'
          else match re' with
               | String b re'' => if bool_decide (b = "*"%char) then Repetida a :: leer_patron None re''
                                  else Letra a :: leer_patron None re'
               | EmptyString => [Letra a]
               end
      end
  end.

Fixpoint ocurre_al_inicio (p : list Patron) : string → bool :=
  match p with
  | [] => λ _, true
  | Letra a :: p' => λ s,
      match s with String b s' => bool_decide (a = b) && ocurre_al_inicio p' s' | EmptyString => false end
  | Clase c :: p' => λ s,
      match s with String b s' => negb (sin b c) && ocurre_al_inicio p' s' | EmptyString => false end
  | Repetida a :: p' =>
      fix go s := ocurre_al_inicio p' s ||
        match s with String b s' => bool_decide (a = b) && go s' | EmptyString => false end
  end.

Fixpoint ocurre (p : list Patron) (s : string) : bool :=
  ocurre_al_inicio p s || match s with EmptyString => false | String _ s' => ocurre p s' end.

Definition entorno_pruebas : Entorno := {|
  regex_new := λ re, Some (ocurre (leer_patron None re));
  mayusculas_unicode := λ s, s;
  comprobar_desborde := true;
  orden_iteracion := λ _ _ l, l;
  orden_perm := λ _ A l, Permutation_refl l;
  capacidad_hashmap := Z.of_nat;
|}.

Example patron_con_clase :
  (λ is_match, is_match <$> ["hello"; "hallo"; "hillo"]) <$> @regex_new entorno_pruebas "h[ae]llo" =
    Some [true; true; false].
Proof. vm_compute. reflexivity. Qed.
