(* ===== verification/PruebasString.v ===== *)
(** * Unit tests (comando_string_handler.rs)

    The tests of the source as programs of [Pruebas], in the order of the files. *)
From S2P Require Import Prelude Rust Datos Efectos Valor ComandoInfo Cliente BaseDeDatos Pruebas.
From S2P Require ComandoString.

#[local] Open Scope Z_scope.

Section pruebas.
Context `{Entorno}.

Definition get_devuelve_el_valor_almacenado_en_el_hash : Prueba :=
  base_nueva;;
  atomico (guardar_valor "miClave" (Str "miValor"));;
  comando ← o_panico_hilo (ComandoInfo.new ["get"; "miClave"]);
  r2 ← ComandoString.get comando;
  assert_eq (BulkStr "miValor") r2.

Definition get_devuelve_error_al_ser_llamado_con_una_clave_que_correspondia_a_una_lista : Prueba :=
  base_nueva;;
  atomico (guardar_valor "miClave" (Lista []));;
  comando ← o_panico_hilo (ComandoInfo.new ["get"; "miClave"]);
  r2 ← ComandoString.get comando;
  assert_eq (Error "WRONGTYPE Operation against a key holding the wrong kind of value") r2.

Definition set_almacena_un_valor_en_el_hash : Prueba :=
  base_nueva;;
  comando ← o_panico_hilo (ComandoInfo.new ["get"; "miClave"; "miValor"]);
  r2 ← ComandoString.set comando;
  assert_eq (StrSimple "OK") r2.

Definition append_agrega_el_string_enviado_al_final_del_string_guardado_con_la_misma_clave : Prueba :=
  base_nueva;;
  atomico (guardar_valor "miClave" (Str "miValor"));;
  comando ← o_panico_hilo (ComandoInfo.new ["APPEND"; "miClave"; "conAlgoAppendeado"]);
  r2 ← ComandoString.append comando;
  assert_eq (Int 24) r2;;
  r3 ← ComandoString.get comando;
  assert_eq (BulkStr "miValorconAlgoAppendeado") r3.

Definition append_agrega_un_string_al_hash_porque_no_hay_un_elemento_guarado_con_esa_clave : Prueba :=
  base_nueva;;
  comando ← o_panico_hilo (ComandoInfo.new ["APPEND"; "miClave"; "conAlgoAppendeado"]);
  r2 ← ComandoString.append comando;
  assert_eq (Int 17) r2;;
  r3 ← ComandoString.get comando;
  assert_eq (BulkStr "conAlgoAppendeado") r3.

Definition append_devuelve_error_al_ser_llamado_con_una_clave_que_correspondia_a_una_lista : Prueba :=
  base_nueva;;
  atomico (guardar_valor "miClave" (Lista []));;
  comando ← o_panico_hilo (ComandoInfo.new (["APPEND"; "miClave"; " palabra"]));
  r2 ← ComandoString.append comando;
  assert_eq (Error "WRONGTYPE Operation against a key holding the wrong kind of value") r2.

Definition getdel_devuelve_el_valor_almacenado_en_el_hash : Prueba :=
  base_nueva;;
  atomico (guardar_valor "miClave" (Str "miValor"));;
  comando ← o_panico_hilo (ComandoInfo.new ["get"; "miClave"]);
  r2 ← ComandoString.getdel comando;
  assert_eq (BulkStr "miValor") r2;;
  r3 ← ComandoString.getdel comando;
  assert_eq Nil r3.

Definition getdel_devuelve_error_al_ser_llamado_con_una_clave_que_correspondia_a_una_lista : Prueba :=
  base_nueva;;
  atomico (guardar_valor "miClave" (Lista []));;
  comando ← o_panico_hilo (ComandoInfo.new ["get"; "miClave"]);
  r2 ← ComandoString.get comando;
  assert_eq (Error "WRONGTYPE Operation against a key holding the wrong kind of value") r2.

Definition strlen_devuelve_el_valor_almacenado_en_el_hash : Prueba :=
  base_nueva;;
  atomico (guardar_valor "miClave" (Str "miValor"));;
  comando ← o_panico_hilo (ComandoInfo.new ["get"; "miClave"]);
  r2 ← ComandoString.strlen comando;
  assert_eq (Int 7) r2.

Definition strlen_devuelve_error_al_ser_llamado_con_una_clave_que_correspondia_a_una_lista : Prueba :=
  base_nueva;;
  atomico (guardar_valor "miClave" (Lista []));;
  comando ← o_panico_hilo (ComandoInfo.new ["get"; "miClave"]);
  r2 ← ComandoString.strlen comando;
  assert_eq (Error "WRONGTYPE Operation against a key holding the wrong kind of value") r2.

Definition decrby_resta_correcatemente_un_valor_entero_a_una_clave_parseable : Prueba :=
  base_nueva;;
  atomico (guardar_valor "miClave" (Str "1"));;
  comando ← o_panico_hilo (ComandoInfo.new ["decrby"; "miClave"; "1"]);
  r2 ← ComandoString.decrby comando;
  assert_eq (BulkStr "0") r2.

Definition decrby_resta_correcatemente_un_valor_entero_a_una_clave_negativa_parseable : Prueba :=
  base_nueva;;
  atomico (guardar_valor "miClave" (Str "-10"));;
  comando ← o_panico_hilo (ComandoInfo.new ["decrby"; "miClave"; "1"]);
  r2 ← ComandoString.decrby comando;
  assert_eq (BulkStr "-11") r2.

Definition decrby_resta_correcatemente_un_valor_negativo_a_una_clave_parseable : Prueba :=
  base_nueva;;
  atomico (guardar_valor "miClave" (Str "10"));;
  comando ← o_panico_hilo (ComandoInfo.new ["decrby"; "miClave"; "-1"]);
  r2 ← ComandoString.decrby comando;
  assert_eq (BulkStr "11") r2.

Definition decrby_setea_correcatemente_un_valor_entero_a_una_clave_inexistente : Prueba :=
  base_nueva;;
  comando ← o_panico_hilo (ComandoInfo.new ["decrby"; "miClave"; "-1"]);
  r2 ← ComandoString.decrby comando;
  assert_eq (BulkStr "1") r2.

Definition decrby_devuelve_error_un_valor_entero_a_una_clave_inparseable : Prueba :=
  base_nueva;;
  atomico (guardar_valor "miClave" (Lista []));;
  comando ← o_panico_hilo (ComandoInfo.new ["decrby"; "miClave"; "-1"]);
  r2 ← ComandoString.decrby comando;
  assert_eq (Error "WRONGTYPE Operation against a key holding the wrong kind of value") r2.

Definition decrby_devuelve_error_un_valor_erroneo_a_una_clave_parseable : Prueba :=
  base_nueva;;
  atomico (guardar_valor "miClave" (Str "1"));;
  comando ← o_panico_hilo (ComandoInfo.new ["decrby"; "miClave"; "a"]);
  r2 ← ComandoString.decrby comando;
  assert_eq (Error "ERR value is not an integer or out of range") r2.

Definition incrby_resta_correcatemente_un_valor_entero_a_una_clave_parseable : Prueba :=
  base_nueva;;
  atomico (guardar_valor "miClave" (Str "1"));;
  comando ← o_panico_hilo (ComandoInfo.new ["incrby"; "miClave"; "1"]);
  r2 ← ComandoString.incrby comando;
  assert_eq (BulkStr "2") r2.

Definition incrby_resta_correcatemente_un_valor_entero_a_una_clave_negativa_parseable : Prueba :=
  base_nueva;;
  atomico (guardar_valor "miClave" (Str "-10"));;
  comando ← o_panico_hilo (ComandoInfo.new ["incrby"; "miClave"; "1"]);
  r2 ← ComandoString.incrby comando;
  assert_eq (BulkStr "-9") r2.

Definition incrby_resta_correcatemente_un_valor_negativo_a_una_clave_parseable : Prueba :=
  base_nueva;;
  atomico (guardar_valor "miClave" (Str "10"));;
  comando ← o_panico_hilo (ComandoInfo.new ["incrby"; "miClave"; "-1"]);
  r2 ← ComandoString.incrby comando;
  assert_eq (BulkStr "9") r2.

Definition incrby_setea_correcatemente_un_valor_entero_a_una_clave_inexistente : Prueba :=
  base_nueva;;
  comando ← o_panico_hilo (ComandoInfo.new ["incrby"; "miClave"; "1"]);
  r2 ← ComandoString.incrby comando;
  assert_eq (BulkStr "1") r2.

Definition incrby_devuelve_error_un_valor_entero_a_una_clave_inparseable : Prueba :=
  base_nueva;;
  atomico (guardar_valor "miClave" (Lista []));;
  comando ← o_panico_hilo (ComandoInfo.new ["incrby"; "miClave"; "5"]);
  r2 ← ComandoString.incrby comando;
  assert_eq (Error "WRONGTYPE Operation against a key holding the wrong kind of value") r2.

Definition incrby_devuelve_error_un_valor_erroneo_a_una_clave_parseable : Prueba :=
  base_nueva;;
  atomico (guardar_valor "miClave" (Str "1"));;
  comando ← o_panico_hilo (ComandoInfo.new ["incrby"; "miClave"; "a"]);
  r2 ← ComandoString.incrby comando;
  assert_eq (Error "ERR value is not an integer or out of range") r2.

Definition mget_devuelve_una_lista_con_todos_los_valores_de_las_claves : Prueba :=
  base_nueva;;
  atomico (guardar_valor "clave1" (Str "1"));;
  atomico (guardar_valor "clave2" (Str "2"));;
  atomico (guardar_valor "clave3" (Str "3"));;
  atomico (guardar_valor "clave4" (Str "4"));;
  comando ← o_panico_hilo (ComandoInfo.new ["mget"; "clave1"; "clave2"; "clave3"; "clave4"]);
  r2 ← ComandoString.mget comando;
  assert_eq (Vector [BulkStr "1"; BulkStr "2"; BulkStr "3"; BulkStr "4"]) r2.

Definition mget_devuelve_una_lista_con_todos_los_valores_de_las_claves_y_si_la_clave_no_existe_devuelve_nil : Prueba :=
  base_nueva;;
  atomico (guardar_valor "clave1" (Str "1"));;
  atomico (guardar_valor "clave2" (Str "2"));;
  atomico (guardar_valor "clave3" (Str "3"));;
  atomico (guardar_valor "clave4" (Str "4"));;
  comando ← o_panico_hilo (ComandoInfo.new ["mget"; "clave1"; "clave2"; "clave3"; "clave1000"]);
  r2 ← ComandoString.mget comando;
  assert_eq (Vector [BulkStr "1"; BulkStr "2"; BulkStr "3"; Nil]) r2.

Definition mget_devuelve_una_lista_con_todos_nil_si_la_clave_no_existen : Prueba :=
  base_nueva;;
  atomico (guardar_valor "clave1" (Str "1"));;
  atomico (guardar_valor "clave2" (Str "2"));;
  atomico (guardar_valor "clave3" (Str "3"));;
  atomico (guardar_valor "clave4" (Str "4"));;
  comando ← o_panico_hilo (ComandoInfo.new ["mget"; "clave1000"; "clave2000"; "clave3000";
      "clave4000"]);
  r2 ← ComandoString.mget comando;
  assert_eq (Vector [Nil; Nil; Nil; Nil]) r2.

Definition mget_devuelve_una_lista_con_todos_nil_si_la_clave_no_es_de_tipo_str : Prueba :=
  base_nueva;;
  atomico (guardar_valor "clave1" (Str "1"));;
  atomico (guardar_valor "clave2" (Lista []));;
  atomico (guardar_valor "clave3" (Conjunto (∅)));;
  atomico (guardar_valor "clave4" (Str "4"));;
  comando ← o_panico_hilo (ComandoInfo.new ["mget"; "clave1"; "clave2"; "clave3"; "clave4"]);
  r2 ← ComandoString.mget comando;
  assert_eq (Vector [BulkStr "1"; Nil; Nil; BulkStr "4"]) r2.

Definition mget_devuelve_una_error_con_si_no_hay_parametro : Prueba :=
  base_nueva;;
  atomico (guardar_valor "clave1" (Str "1"));;
  atomico (guardar_valor "clave2" (Lista []));;
  atomico (guardar_valor "clave3" (Conjunto (∅)));;
  atomico (guardar_valor "clave4" (Str "4"));;
  comando ← o_panico_hilo (ComandoInfo.new ["mget"]);
  r2 ← ComandoString.mget comando;
  assert_eq (Error "ERR wrong number of arguments for mget command") r2.

Definition mset_guarda_todos_los_valores : Prueba :=
  base_nueva;;
  comando ← o_panico_hilo (ComandoInfo.new ["MSET"; "clave1"; "1"; "clave2"; "2"; "clave3"; "3"]);
  r2 ← ComandoString.mset comando;
  assert_eq (StrSimple "OK") r2;;
  r3 ← lock_base (obtener_valor "clave1");
  r4 ← o_panico_hilo r3;
  assert_eq (Some (Str "1")) r4;;
  r5 ← lock_base (obtener_valor "clave2");
  r6 ← o_panico_hilo r5;
  assert_eq (Some (Str "2")) r6;;
  r7 ← lock_base (obtener_valor "clave3");
  r8 ← o_panico_hilo r7;
  assert_eq (Some (Str "3")) r8.

Definition mset_devuelve_un_error_tener_una_cantidad_de_argumentos_impares : Prueba :=
  base_nueva;;
  comando ← o_panico_hilo (ComandoInfo.new ["MSET"; "clave1"; "1"; "clave2"; "2"; "clave3"]);
  r2 ← ComandoString.mset comando;
  assert_eq (Error "ERR wrong number of arguments for mset command") r2;;
  r3 ← lock_base (obtener_valor "clave1");
  r4 ← o_panico_hilo r3;
  assert_eq None r4;;
  r5 ← lock_base (obtener_valor "clave2");
  r6 ← o_panico_hilo r5;
  assert_eq None r6;;
  r7 ← lock_base (obtener_valor "clave3");
  r8 ← o_panico_hilo r7;
  assert_eq None r8.

Definition getset_devuelve_el_antiguo_valor_almacenado : Prueba :=
  base_nueva;;
  atomico (guardar_valor "clave" (Str "clave"));;
  comando ← o_panico_hilo (ComandoInfo.new ["GETSET"; "clave"; "nueva_clave"]);
  r2 ← ComandoString.getset comando;
  assert_eq (StrSimple "clave") r2;;
  r3 ← lock_base (obtener_valor "clave");
  r4 ← o_panico_hilo r3;
  assert_eq (Some (Str "nueva_clave")) r4.

Definition getset_devuelve_el_nil_si_no_existia_esa_clave : Prueba :=
  base_nueva;;
  comando ← o_panico_hilo (ComandoInfo.new ["GETSET"; "clave"; "nueva_clave"]);
  r2 ← ComandoString.getset comando;
  assert_eq Nil r2;;
  r3 ← lock_base (obtener_valor "clave");
  r4 ← o_panico_hilo r3;
  assert_eq (Some (Str "nueva_clave")) r4.

Definition getset_devuelve_error_porque_la_clave_no_corresponde_a_un_string : Prueba :=
  base_nueva;;
  atomico (guardar_valor "clave" (Lista []));;
  comando ← o_panico_hilo (ComandoInfo.new ["GETSET"; "clave"; "nueva_clave"]);
  r2 ← ComandoString.getset comando;
  assert_eq (Error "WRONGTYPE Operation against a key holding the wrong kind of value") r2;;
  r3 ← lock_base (obtener_valor "clave");
  r4 ← o_panico_hilo r3;
  assert_eq (Some (Lista [])) r4.

Definition pruebas : list Prueba :=
  [get_devuelve_el_valor_almacenado_en_el_hash;
   get_devuelve_error_al_ser_llamado_con_una_clave_que_correspondia_a_una_lista;
   set_almacena_un_valor_en_el_hash;
   append_agrega_el_string_enviado_al_final_del_string_guardado_con_la_misma_clave;
   append_agrega_un_string_al_hash_porque_no_hay_un_elemento_guarado_con_esa_clave;
   append_devuelve_error_al_ser_llamado_con_una_clave_que_correspondia_a_una_lista;
   getdel_devuelve_el_valor_almacenado_en_el_hash;
   getdel_devuelve_error_al_ser_llamado_con_una_clave_que_correspondia_a_una_lista;
   strlen_devuelve_el_valor_almacenado_en_el_hash;
   strlen_devuelve_error_al_ser_llamado_con_una_clave_que_correspondia_a_una_lista;
   decrby_resta_correcatemente_un_valor_entero_a_una_clave_parseable;
   decrby_resta_correcatemente_un_valor_entero_a_una_clave_negativa_parseable;
   decrby_resta_correcatemente_un_valor_negativo_a_una_clave_parseable;
   decrby_setea_correcatemente_un_valor_entero_a_una_clave_inexistente;
   decrby_devuelve_error_un_valor_entero_a_una_clave_inparseable;
   decrby_devuelve_error_un_valor_erroneo_a_una_clave_parseable;
   incrby_resta_correcatemente_un_valor_entero_a_una_clave_parseable;
   incrby_resta_correcatemente_un_valor_entero_a_una_clave_negativa_parseable;
   incrby_resta_correcatemente_un_valor_negativo_a_una_clave_parseable;
   incrby_setea_correcatemente_un_valor_entero_a_una_clave_inexistente;
   incrby_devuelve_error_un_valor_entero_a_una_clave_inparseable;
   incrby_devuelve_error_un_valor_erroneo_a_una_clave_parseable;
   mget_devuelve_una_lista_con_todos_los_valores_de_las_claves;
   mget_devuelve_una_lista_con_todos_los_valores_de_las_claves_y_si_la_clave_no_existe_devuelve_nil;
   mget_devuelve_una_lista_con_todos_nil_si_la_clave_no_existen;
   mget_devuelve_una_lista_con_todos_nil_si_la_clave_no_es_de_tipo_str;
   mget_devuelve_una_error_con_si_no_hay_parametro;
   mset_guarda_todos_los_valores;
   mset_devuelve_un_error_tener_una_cantidad_de_argumentos_impares;
   getset_devuelve_el_antiguo_valor_almacenado;
   getset_devuelve_el_nil_si_no_existia_esa_clave;
   getset_devuelve_error_porque_la_clave_no_corresponde_a_un_string].
End pruebas.

Lemma pruebas_string_aprobadas : forallb aprueba (@pruebas entorno_pruebas) = true.
Proof. vm_compute. reflexivity. Qed.
