(* ===== verification/PruebasList.v ===== *)
(** * Unit tests (comando_list_handler.rs)

    The tests of the source as programs of [Pruebas], in the order of the files. *)
From S2P Require Import Prelude Rust Datos Efectos Valor ComandoInfo Cliente BaseDeDatos Pruebas.
From S2P Require ComandoList.

#[local] Open Scope Z_scope.

Section pruebas.
Context `{Entorno}.

Definition lindex_busca_un_indice_positivo_en_una_clave_valor_de_la_base_de_datos : Prueba :=
  base_nueva;;
  atomico (guardar_valor "clave" (Lista ["1"; "2"; "3"]));;
  comando ← o_panico_hilo (ComandoInfo.new ["lindex"; "clave"; "1"]);
  r2 ← ComandoList.lindex comando;
  assert_eq (BulkStr "2") r2.

Definition lindex_busca_un_indice_negativo_en_una_clave_valor_de_la_base_de_datos : Prueba :=
  base_nueva;;
  atomico (guardar_valor "clave" (Lista ["1"; "2"; "3"]));;
  comando ← o_panico_hilo (ComandoInfo.new ["lindex"; "clave"; "-2"]);
  r2 ← ComandoList.lindex comando;
  assert_eq (BulkStr "2") r2.

Definition lindex_busca_un_indice_fuera_de_rango_en_una_clave_valor_de_la_base_de_datos : Prueba :=
  base_nueva;;
  atomico (guardar_valor "clave" (Lista ["1"; "2"; "3"]));;
  comando ← o_panico_hilo (ComandoInfo.new ["lindex"; "clave"; "65"]);
  r2 ← ComandoList.lindex comando;
  assert_eq (BulkStr "nil") r2.

Definition llen_la_longitud_de_una_lista_inexistente_es_cero : Prueba :=
  base_nueva;;
  comando ← o_panico_hilo (ComandoInfo.new ["llen"; "milista"]);
  r2 ← ComandoList.llen comando;
  assert_eq (Int 0) r2.

Definition llen_si_se_llama_llen_a_un_string_se_devuelve_un_error_de_tipo : Prueba :=
  base_nueva;;
  atomico (guardar_valor "milista" (Str "hola"));;
  comando ← o_panico_hilo (ComandoInfo.new ["llen"; "milista"]);
  r2 ← ComandoList.llen comando;
  assert_eq (Error "WRONGTYPE Operation against a key holding the wrong kind of value") r2.

Definition llen_si_se_llama_llen_a_una_lista_devuelve_la_longitud_correctamente : Prueba :=
  base_nueva;;
  atomico (guardar_valor "milista" (Lista ["1"; "2"; "3"; "4"]));;
  comando ← o_panico_hilo (ComandoInfo.new ["llen"; "milista"]);
  r2 ← ComandoList.llen comando;
  assert_eq (Int 4) r2.

Definition lpop_si_no_existe_la_lista_devuelve_nil : Prueba :=
  base_nueva;;
  comando ← o_panico_hilo (ComandoInfo.new ["lpop"; "milista"]);
  r2 ← ComandoList.lpop comando;
  assert_eq Nil r2.

Definition lpop_si_existia_una_lista_y_luego_se_la_elimina_y_se_vuelve_a_hacer_pop_devuelve_nil : Prueba :=
  base_nueva;;
  atomico (guardar_valor "milista" (Lista ["unvalor"]));;
  comando ← o_panico_hilo (ComandoInfo.new ["lpop"; "milista"]);
  r2 ← ComandoList.lpop comando;
  assert_eq (BulkStr "unvalor") r2;;
  r3 ← ComandoList.lpop comando;
  assert_eq Nil r3.

Definition lpop_si_se_llama_sobre_un_tipo_distinto_a_una_lista_devuelve_wrong_type : Prueba :=
  base_nueva;;
  atomico (guardar_valor "clave" (Str ""));;
  comando ← o_panico_hilo (ComandoInfo.new ["lpop"; "clave"]);
  r2 ← ComandoList.lpop comando;
  assert_eq (Error "WRONGTYPE Operation against a key holding the wrong kind of value") r2.

Definition lpop_si_se_llama_a_lpop_sin_el_parametro_count_se_devuelve_el_resultado_correcto : Prueba :=
  base_nueva;;
  atomico (guardar_valor "milista" (Lista ["1"; "2"]));;
  comando ← o_panico_hilo (ComandoInfo.new ["lpop"; "milista"]);
  r2 ← ComandoList.lpop comando;
  assert_eq (BulkStr "1") r2.

Definition lpop_si_se_llama_a_lpop_con_el_parametro_count_se_devuelve_el_resultado_correcto : Prueba :=
  base_nueva;;
  atomico (guardar_valor "milista" (Lista ["1"; "2"]));;
  comando ← o_panico_hilo (ComandoInfo.new ["lpop"; "milista"; "2"]);
  r2 ← ComandoList.lpop comando;
  assert_eq (Vector [BulkStr "1"; BulkStr "2"]) r2.

Definition lpush_si_se_pushea_a_alguna_clave_existente_que_no_es_una_lista_devuelve_wrong_type : Prueba :=
  base_nueva;;
  atomico (guardar_valor "clave" (Str ""));;
  comando ← o_panico_hilo (ComandoInfo.new ["lpush"; "clave"; "valor"]);
  r2 ← ComandoList.lpush comando;
  assert_eq (Error "WRONGTYPE Operation against a key holding the wrong kind of value") r2.

Definition lpush_si_no_existe_la_lista_se_crea_con_los_parametros_devolviendo_la_longitud_adecuada : Prueba :=
  base_nueva;;
  comando ← o_panico_hilo (ComandoInfo.new ["lpush"; "milista"; "a"; "b"; "c"]);
  r2 ← ComandoList.lpush comando;
  assert_eq (Int 3) r2.

Definition lpush_si_no_existe_la_lista_se_crea_con_los_parametros_en_el_orden_adecuado : Prueba :=
  base_nueva;;
  comando ← o_panico_hilo (ComandoInfo.new ["lpush"; "milista"; "a"; "b"; "c"]);
  _ ← ComandoList.lpush comando;
  r2 ← lock_base (obtener_valor "milista");
  r3 ← o_panico_hilo r2;
  lista ← o_panico_hilo r3;
  assert_eq (Lista ["c"; "b"; "a"]) lista.

Definition lpush_cuando_se_pushea_a_una_lista_se_ordena_adecuadamente : Prueba :=
  base_nueva;;
  atomico (guardar_valor "milista" (Lista ["d"]));;
  comando ← o_panico_hilo (ComandoInfo.new ["lpush"; "milista"; "a"; "b"; "c"]);
  _ ← ComandoList.lpush comando;
  r2 ← lock_base (obtener_valor "milista");
  r3 ← o_panico_hilo r2;
  lista ← o_panico_hilo r3;
  assert_eq (Lista ["c"; "b"; "a"; "d"]) lista.

Definition lpushx_si_se_pushea_a_alguna_clave_existente_que_no_es_una_lista_devuelve_wrong_type : Prueba :=
  base_nueva;;
  atomico (guardar_valor "clave" (Str ""));;
  comando ← o_panico_hilo (ComandoInfo.new ["lpushx"; "clave"; "valor"]);
  r2 ← ComandoList.lpushx comando;
  assert_eq (Error "WRONGTYPE Operation against a key holding the wrong kind of value") r2.

Definition lpushx_si_no_existe_la_lista_no_se_crea : Prueba :=
  base_nueva;;
  comando ← o_panico_hilo (ComandoInfo.new ["lpushx"; "milista"; "a"; "b"; "c"]);
  r2 ← ComandoList.lpushx comando;
  assert_eq (Int 0) r2.

Definition lpushx_cuando_se_pushea_a_una_lista_se_ordena_adecuadamente : Prueba :=
  base_nueva;;
  atomico (guardar_valor "milista" (Lista ["d"]));;
  comando ← o_panico_hilo (ComandoInfo.new ["lpushx"; "milista"; "a"; "b"; "c"]);
  r2 ← ComandoList.lpushx comando;
  assert_eq (Int 4) r2;;
  r3 ← lock_base (obtener_valor "milista");
  r4 ← o_panico_hilo r3;
  lista ← o_panico_hilo r4;
  assert_eq (Lista ["c"; "b"; "a"; "d"]) lista.

Definition lrange_si_se_lo_llama_sobre_algo_que_no_es_una_lista_devuelve_wrong_type : Prueba :=
  base_nueva;;
  atomico (guardar_valor "clave" (Str ""));;
  comando ← o_panico_hilo (ComandoInfo.new ["lrange"; "clave"; "1"; "50"]);
  r2 ← ComandoList.lrange comando;
  assert_eq (Error "WRONGTYPE Operation against a key holding the wrong kind of value") r2.

Definition lrange_si_se_pide_el_rango_de_una_lista_inexistente_devuelve_vector_vacio : Prueba :=
  base_nueva;;
  comando ← o_panico_hilo (ComandoInfo.new ["lrange"; "clave"; "1"; "50"]);
  r2 ← ComandoList.lrange comando;
  assert_eq (Vector []) r2.

Definition lrange_rangos_positivos_devuelven_los_elementos_correctamente_hasta_el_indice_final_inclusive : Prueba :=
  base_nueva;;
  atomico (guardar_valor "clave" (Lista ["0"; "1"; "2"]));;
  comando ← o_panico_hilo (ComandoInfo.new ["lrange"; "clave"; "1"; "2"]);
  r2 ← ComandoList.lrange comando;
  assert_eq (Vector [BulkStr "1"; BulkStr "2"]) r2.

Definition lrange_maximo_rango : Prueba :=
  base_nueva;;
  atomico (guardar_valor "clave" (Lista ["0"; "1"; "2"]));;
  comando ← o_panico_hilo (ComandoInfo.new ["lrange"; "clave"; "0"; "-1"]);
  r2 ← ComandoList.lrange comando;
  assert_eq (Vector [BulkStr "0"; BulkStr "1"; BulkStr "2"]) r2.

Definition lrange_rangos_enteros_devuelven_los_elementos_correctamente_hasta_el_indice_final_inclusive : Prueba :=
  base_nueva;;
  atomico (guardar_valor "clave" (Lista ["0"; "1"; "2"]));;
  comando ← o_panico_hilo (ComandoInfo.new ["lrange"; "clave"; "-35"; "0"]);
  r2 ← ComandoList.lrange comando;
  assert_eq (Vector [BulkStr "0"]) r2.

Definition lrange_rangos_enteros_con_interseccion_nula_devuelve_vector_vacio : Prueba :=
  base_nueva;;
  atomico (guardar_valor "clave" (Lista ["0"; "1"; "2"]));;
  comando ← o_panico_hilo (ComandoInfo.new ["lrange"; "clave"; "-2"; "0"]);
  r2 ← ComandoList.lrange comando;
  assert_eq (Vector []) r2.

Definition lrem_si_se_pide_eliminar_de_una_clave_que_no_es_una_lista_devuelve_wrong_type : Prueba :=
  base_nueva;;
  atomico (guardar_valor "clave" (Str ""));;
  comando ← o_panico_hilo (ComandoInfo.new ["lrem"; "clave"; "-2"; "valor"]);
  r2 ← ComandoList.lrem comando;
  assert_eq (Error "WRONGTYPE Operation against a key holding the wrong kind of value") r2.

Definition lrem_si_se_pide_eliminar_un_valor_que_no_esta_en_la_lista_no_se_devuelve_un_cero : Prueba :=
  base_nueva;;
  comando ← o_panico_hilo (ComandoInfo.new ["lrem"; "clave"; "-2"; "valor"]);
  r2 ← ComandoList.lrem comando;
  assert_eq (Int 0) r2.

Definition lrem_si_se_pide_eliminar_dos_claves_de_izquierda_a_derecha_se_eliminan_correctamente : Prueba :=
  base_nueva;;
  atomico (guardar_valor "clave" (Lista ["hola"; "que"; "hola"; "dame"; "hola"]));;
  comando ← o_panico_hilo (ComandoInfo.new ["lrem"; "clave"; "2"; "hola"]);
  r2 ← ComandoList.lrem comando;
  assert_eq (Int 2) r2;;
  r3 ← lock_base (obtener_valor "clave");
  r4 ← o_panico_hilo r3;
  r5 ← o_panico_hilo r4;
  assert_eq (Lista ["que"; "dame"; "hola"]) r5.

Definition lrem_si_se_pide_eliminar_dos_claves_de_derecha_a_izquierda_se_eliminan_correctamente : Prueba :=
  base_nueva;;
  atomico (guardar_valor "clave" (Lista ["hola"; "que"; "hola"; "dame"; "hola"; "pepe"]));;
  comando ← o_panico_hilo (ComandoInfo.new ["lrem"; "clave"; "-2"; "hola"]);
  r2 ← ComandoList.lrem comando;
  assert_eq (Int 2) r2;;
  r3 ← lock_base (obtener_valor "clave");
  r4 ← o_panico_hilo r3;
  r5 ← o_panico_hilo r4;
  assert_eq (Lista ["hola"; "que"; "dame"; "pepe"]) r5.

Definition lset_si_se_lo_llama_sobre_algo_que_no_es_una_lista_devuelve_wrong_type : Prueba :=
  base_nueva;;
  atomico (guardar_valor "clave" (Str ""));;
  comando ← o_panico_hilo (ComandoInfo.new ["lset"; "clave"; "1"; "valor"]);
  r2 ← ComandoList.lset comando;
  assert_eq (Error "WRONGTYPE Operation against a key holding the wrong kind of value") r2.

Definition lset_inserta_en_la_lista_adecuadamente : Prueba :=
  base_nueva;;
  atomico (guardar_valor "clave" (Lista ["a"]));;
  comando ← o_panico_hilo (ComandoInfo.new ["lset"; "clave"; "0"; "b"]);
  r2 ← ComandoList.lset comando;
  assert_eq (StrSimple "OK") r2;;
  r3 ← lock_base (obtener_valor "clave");
  r4 ← o_panico_hilo r3;
  lista ← o_panico_hilo r4;
  assert_eq (Lista ["b"; "a"]) lista.

Definition rpop_si_no_existe_la_lista_devuelve_nil : Prueba :=
  base_nueva;;
  comando ← o_panico_hilo (ComandoInfo.new ["rpop"; "milista"]);
  r2 ← ComandoList.rpop comando;
  assert_eq Nil r2.

Definition rpop_si_existia_una_lista_y_luego_se_la_elimina_y_se_vuelve_a_hacer_pop_devuelve_nil : Prueba :=
  base_nueva;;
  atomico (guardar_valor "milista" (Lista ["unvalor"]));;
  comando ← o_panico_hilo (ComandoInfo.new ["rpop"; "milista"]);
  r2 ← ComandoList.rpop comando;
  assert_eq (BulkStr "unvalor") r2;;
  r3 ← ComandoList.rpop comando;
  assert_eq Nil r3.

Definition rpop_si_se_llama_sobre_un_tipo_distinto_a_una_lista_devuelve_wrong_type : Prueba :=
  base_nueva;;
  atomico (guardar_valor "clave" (Str ""));;
  comando ← o_panico_hilo (ComandoInfo.new ["rpop"; "clave"]);
  r2 ← ComandoList.rpop comando;
  assert_eq (Error "WRONGTYPE Operation against a key holding the wrong kind of value") r2.

Definition rpop_si_se_llama_a_rpop_sin_el_parametro_count_se_devuelve_el_resultado_correcto : Prueba :=
  base_nueva;;
  atomico (guardar_valor "milista" (Lista ["1"; "2"]));;
  comando ← o_panico_hilo (ComandoInfo.new ["rpop"; "milista"]);
  r2 ← ComandoList.rpop comando;
  assert_eq (BulkStr "2") r2.

Definition rpop_si_se_llama_a_rpop_con_el_parametro_count_se_devuelve_el_resultado_correcto : Prueba :=
  base_nueva;;
  atomico (guardar_valor "milista" (Lista ["1"; "2"; "3"]));;
  comando ← o_panico_hilo (ComandoInfo.new ["rpop"; "milista"; "2"]);
  r2 ← ComandoList.rpop comando;
  assert_eq (Vector [BulkStr "2"; BulkStr "3"]) r2.

Definition rpush_si_se_pushea_a_alguna_clave_existente_que_no_es_una_lista_devuelve_wrong_type : Prueba :=
  base_nueva;;
  atomico (guardar_valor "clave" (Str ""));;
  comando ← o_panico_hilo (ComandoInfo.new ["rpush"; "clave"; "valor"]);
  r2 ← ComandoList.rpush comando;
  assert_eq (Error "WRONGTYPE Operation against a key holding the wrong kind of value") r2.

Definition rpush_si_no_existe_la_lista_se_crea_con_los_parametros_devolviendo_la_longitud_adecuada : Prueba :=
  base_nueva;;
  comando ← o_panico_hilo (ComandoInfo.new ["rpush"; "milista"; "a"; "b"; "c"]);
  r2 ← ComandoList.rpush comando;
  assert_eq (Int 3) r2.

Definition rpush_si_no_existe_la_lista_se_crea_con_los_parametros_en_el_orden_adecuado : Prueba :=
  base_nueva;;
  comando ← o_panico_hilo (ComandoInfo.new ["rpush"; "milista"; "a"; "b"; "c"]);
  _ ← ComandoList.rpush comando;
  r2 ← lock_base (obtener_valor "milista");
  r3 ← o_panico_hilo r2;
  lista ← o_panico_hilo r3;
  assert_eq (Lista ["a"; "b"; "c"]) lista.

Definition rpush_cuando_se_pushea_a_una_lista_se_ordena_adecuadamente : Prueba :=
  base_nueva;;
  atomico (guardar_valor "milista" (Lista ["d"]));;
  comando ← o_panico_hilo (ComandoInfo.new ["lpush"; "milista"; "a"; "b"; "c"]);
  _ ← ComandoList.rpush comando;
  r2 ← lock_base (obtener_valor "milista");
  r3 ← o_panico_hilo r2;
  lista ← o_panico_hilo r3;
  assert_eq (Lista ["d"; "a"; "b"; "c"]) lista.

Definition rpushx_si_se_pushea_a_alguna_clave_existente_que_no_es_una_lista_devuelve_wrong_type : Prueba :=
  base_nueva;;
  atomico (guardar_valor "clave" (Str ""));;
  comando ← o_panico_hilo (ComandoInfo.new ["rpushx"; "clave"; "valor"]);
  r2 ← ComandoList.rpushx comando;
  assert_eq (Error "WRONGTYPE Operation against a key holding the wrong kind of value") r2.

Definition rpushx_si_no_existe_la_lista_no_se_crea : Prueba :=
  base_nueva;;
  comando ← o_panico_hilo (ComandoInfo.new ["lpushx"; "milista"; "a"; "b"; "c"]);
  r2 ← ComandoList.rpushx comando;
  assert_eq (Int 0) r2.

Definition rpushx_cuando_se_pushea_a_una_lista_se_ordena_adecuadamente : Prueba :=
  base_nueva;;
  atomico (guardar_valor "milista" (Lista ["d"]));;
  comando ← o_panico_hilo (ComandoInfo.new ["rpushx"; "milista"; "a"; "b"; "c"]);
  r2 ← ComandoList.rpushx comando;
  assert_eq (Int 4) r2;;
  r3 ← lock_base (obtener_valor "milista");
  r4 ← o_panico_hilo r3;
  lista ← o_panico_hilo r4;
  assert_eq (Lista ["d"; "a"; "b"; "c"]) lista.

Definition pruebas : list Prueba :=
  [lindex_busca_un_indice_positivo_en_una_clave_valor_de_la_base_de_datos;
   lindex_busca_un_indice_negativo_en_una_clave_valor_de_la_base_de_datos;
   lindex_busca_un_indice_fuera_de_rango_en_una_clave_valor_de_la_base_de_datos;
   llen_la_longitud_de_una_lista_inexistente_es_cero;
   llen_si_se_llama_llen_a_un_string_se_devuelve_un_error_de_tipo;
   llen_si_se_llama_llen_a_una_lista_devuelve_la_longitud_correctamente;
   lpop_si_no_existe_la_lista_devuelve_nil;
   lpop_si_existia_una_lista_y_luego_se_la_elimina_y_se_vuelve_a_hacer_pop_devuelve_nil;
   lpop_si_se_llama_sobre_un_tipo_distinto_a_una_lista_devuelve_wrong_type;
   lpop_si_se_llama_a_lpop_sin_el_parametro_count_se_devuelve_el_resultado_correcto;
   lpop_si_se_llama_a_lpop_con_el_parametro_count_se_devuelve_el_resultado_correcto;
   lpush_si_se_pushea_a_alguna_clave_existente_que_no_es_una_lista_devuelve_wrong_type;
   lpush_si_no_existe_la_lista_se_crea_con_los_parametros_devolviendo_la_longitud_adecuada;
   lpush_si_no_existe_la_lista_se_crea_con_los_parametros_en_el_orden_adecuado;
   lpush_cuando_se_pushea_a_una_lista_se_ordena_adecuadamente;
   lpushx_si_se_pushea_a_alguna_clave_existente_que_no_es_una_lista_devuelve_wrong_type;
   lpushx_si_no_existe_la_lista_no_se_crea;
   lpushx_cuando_se_pushea_a_una_lista_se_ordena_adecuadamente;
   lrange_si_se_lo_llama_sobre_algo_que_no_es_una_lista_devuelve_wrong_type;
   lrange_si_se_pide_el_rango_de_una_lista_inexistente_devuelve_vector_vacio;
   lrange_rangos_positivos_devuelven_los_elementos_correctamente_hasta_el_indice_final_inclusive;
   lrange_maximo_rango;
   lrange_rangos_enteros_devuelven_los_elementos_correctamente_hasta_el_indice_final_inclusive;
   lrange_rangos_enteros_con_interseccion_nula_devuelve_vector_vacio;
   lrem_si_se_pide_eliminar_de_una_clave_que_no_es_una_lista_devuelve_wrong_type;
   lrem_si_se_pide_eliminar_un_valor_que_no_esta_en_la_lista_no_se_devuelve_un_cero;
   lrem_si_se_pide_eliminar_dos_claves_de_izquierda_a_derecha_se_eliminan_correctamente;
   lrem_si_se_pide_eliminar_dos_claves_de_derecha_a_izquierda_se_eliminan_correctamente;
   lset_si_se_lo_llama_sobre_algo_que_no_es_una_lista_devuelve_wrong_type;
   lset_inserta_en_la_lista_adecuadamente;
   rpop_si_no_existe_la_lista_devuelve_nil;
   rpop_si_existia_una_lista_y_luego_se_la_elimina_y_se_vuelve_a_hacer_pop_devuelve_nil;
   rpop_si_se_llama_sobre_un_tipo_distinto_a_una_lista_devuelve_wrong_type;
   rpop_si_se_llama_a_rpop_sin_el_parametro_count_se_devuelve_el_resultado_correcto;
   rpop_si_se_llama_a_rpop_con_el_parametro_count_se_devuelve_el_resultado_correcto;
   rpush_si_se_pushea_a_alguna_clave_existente_que_no_es_una_lista_devuelve_wrong_type;
   rpush_si_no_existe_la_lista_se_crea_con_los_parametros_devolviendo_la_longitud_adecuada;
   rpush_si_no_existe_la_lista_se_crea_con_los_parametros_en_el_orden_adecuado;
   rpush_cuando_se_pushea_a_una_lista_se_ordena_adecuadamente;
   rpushx_si_se_pushea_a_alguna_clave_existente_que_no_es_una_lista_devuelve_wrong_type;
   rpushx_si_no_existe_la_lista_no_se_crea;
   rpushx_cuando_se_pushea_a_una_lista_se_ordena_adecuadamente].
End pruebas.

Lemma pruebas_list_aprobadas : forallb aprueba (@pruebas entorno_pruebas) = true.
Proof. vm_compute. reflexivity. Qed.
