(* ===== verification/PruebasSet.v ===== *)
(** * Unit tests (comando_set_handler.rs)

    The tests of the source as programs of [Pruebas], in the order of the files. *)
From S2P Require Import Prelude Rust Datos Efectos Valor ComandoInfo Cliente BaseDeDatos Pruebas.
From S2P Require ComandoSet.

#[local] Open Scope Z_scope.

Section pruebas.
Context `{Entorno}.

Definition sadd_cuando_se_envia_una_clave_que_no_esta_esta_se_crea_y_se_almacena_correctamente : Prueba :=
  base_nueva;;
  let vector := ["SADD"; "miClave"; "miValor"] in
  comando ← o_panico_hilo (ComandoInfo.new vector);
  resultado ← ComandoSet.sadd comando;
  assert_eq (Int 1) resultado;;
  let set : gset string := ∅ in
  let set := {[ "miValor" ]} ∪ set in
  r3 ← lock_base (obtener_valor "miClave");
  r4 ← o_panico_hilo r3;
  r5 ← o_panico_hilo r4;
  assert_eq r5 (Conjunto set).

Definition sadd_cuando_se_envia_un_valor_que_esta_repetido_esta_no_se_almacena : Prueba :=
  base_nueva;;
  let vector := ["SADD"; "miClave"; "miValor"] in
  comando ← o_panico_hilo (ComandoInfo.new vector);
  _ ← ComandoSet.sadd comando;
  resultado ← ComandoSet.sadd comando;
  assert_eq (Int 0) resultado.

Definition sadd_cuando_se_envia_una_clave_invalida_se_envia_el_error_adecuado : Prueba :=
  base_nueva;;
  atomico (guardar_valor "miClave" (Str "unString"));;
  let vector := ["SADD"; "miClave"; "miValor"] in
  comando ← o_panico_hilo (ComandoInfo.new vector);
  resultado ← ComandoSet.sadd comando;
  assert_eq (Error "WRONGTYPE Operation against a key holding the wrong kind of value") resultado.

Definition scard_cuando_se_envia_una_clave_que_no_esta_se_devuelve_0_cardinalidad : Prueba :=
  base_nueva;;
  let vector := ["SCARD"; "miClave"] in
  comando ← o_panico_hilo (ComandoInfo.new vector);
  resultado ← ComandoSet.scard comando;
  assert_eq (Int 0) resultado.

Definition scard_cuando_se_envia_una_clave_que_posee_dos_elementos_se_devuelve_2_de_cardinalidad : Prueba :=
  base_nueva;;
  let set : gset string := ∅ in
  let set := {[ "miValor" ]} ∪ set in
  let set := {[ "otroValor" ]} ∪ set in
  atomico (guardar_valor "miClave" (Conjunto set));;
  let vector := ["SCARD"; "miClave"] in
  comando ← o_panico_hilo (ComandoInfo.new vector);
  resultado ← ComandoSet.scard comando;
  assert_eq (Int 2) resultado.

Definition scard_cuando_se_envia_una_clave_invalida_se_envia_el_error_adecuado : Prueba :=
  base_nueva;;
  atomico (guardar_valor "miClave" (Str "unString"));;
  let vector := ["SCARD"; "miClave"] in
  comando ← o_panico_hilo (ComandoInfo.new vector);
  resultado ← ComandoSet.scard comando;
  assert_eq (Error "WRONGTYPE Operation against a key holding the wrong kind of value") resultado.

Definition sismember_cuando_se_envia_una_clave_que_no_esta_devuelve_0_ya_que_no_pertenece : Prueba :=
  base_nueva;;
  let vector := ["SISMEMBER"; "miClave"; "miValor"] in
  comando ← o_panico_hilo (ComandoInfo.new vector);
  resultado ← ComandoSet.sismember comando;
  assert_eq (Int 0) resultado.

Definition sismember_cuando_se_envia_una_clave_que_posee_dos_elementos_y_se_pregunta_si_uno_de_ellos_pertenece_se_devuelve_1_de_true : Prueba :=
  base_nueva;;
  let set : gset string := ∅ in
  let set := {[ "miValor" ]} ∪ set in
  let set := {[ "otroValor" ]} ∪ set in
  atomico (guardar_valor "miClave" (Conjunto set));;
  let vector := ["SISMEMBER"; "miClave"; "miValor"] in
  comando ← o_panico_hilo (ComandoInfo.new vector);
  resultado ← ComandoSet.sismember comando;
  assert_eq (Int 1) resultado.

Definition sismember_cuando_se_envia_una_clave_invalida_se_envia_el_error_adecuado : Prueba :=
  base_nueva;;
  atomico (guardar_valor "miClave" (Str "unString"));;
  let vector := ["SISMEMBER"; "miClave"; "miValor"] in
  comando ← o_panico_hilo (ComandoInfo.new vector);
  resultado ← ComandoSet.sismember comando;
  assert_eq (Error "WRONGTYPE Operation against a key holding the wrong kind of value") resultado.

Definition smembers_cuando_se_envia_una_clave_que_no_esta_devuelve_un_vector_vacio : Prueba :=
  base_nueva;;
  let vector := ["SMEMBERS"; "miClave"] in
  comando ← o_panico_hilo (ComandoInfo.new vector);
  resultado ← ComandoSet.smembers comando;
  assert_eq (Vector []) resultado.

Definition smembers_cuando_se_envia_una_clave_invalida_se_envia_el_error_adecuado : Prueba :=
  base_nueva;;
  atomico (guardar_valor "miClave" (Str "unString"));;
  let vector := ["SMEMBERS"; "miClave"] in
  comando ← o_panico_hilo (ComandoInfo.new vector);
  resultado ← ComandoSet.smembers comando;
  assert_eq (Error "WRONGTYPE Operation against a key holding the wrong kind of value") resultado.

Definition srem_cuando_se_envia_una_clave_que_no_esta_no_se_elimina_ningun_valor : Prueba :=
  base_nueva;;
  let vector := ["SREM"; "miClave"; "miValor"] in
  comando ← o_panico_hilo (ComandoInfo.new vector);
  resultado ← ComandoSet.srem comando;
  assert_eq (Int 0) resultado.

Definition srem_cuando_se_envia_una_clave_que_posee_dos_elementos_y_se_elimina_uno_este_no_se_encuentra : Prueba :=
  base_nueva;;
  let set : gset string := ∅ in
  let set := {[ "miValor" ]} ∪ set in
  let set := {[ "otroValor" ]} ∪ set in
  atomico (guardar_valor "miClave" (Conjunto set));;
  let vector := ["SREM"; "miClave"; "miValor"] in
  comando ← o_panico_hilo (ComandoInfo.new vector);
  resultado ← ComandoSet.srem comando;
  assert_eq (Int 1) resultado;;
  let set : gset string := ∅ in
  let set := {[ "otroValor" ]} ∪ set in
  r3 ← lock_base (obtener_valor "miClave");
  r4 ← o_panico_hilo r3;
  r5 ← o_panico_hilo r4;
  assert_eq r5 (Conjunto set).

Definition srem_cuando_se_envia_una_clave_que_posee_dos_elementos_y_se_eliminan_solo_uno_dos_veces_no_se_encuentra_el_restante : Prueba :=
  base_nueva;;
  let set : gset string := ∅ in
  let set := {[ "miValor" ]} ∪ set in
  let set := {[ "otroValor" ]} ∪ set in
  atomico (guardar_valor "miClave" (Conjunto set));;
  let vector := ["SREM"; "miClave"; "miValor"; "miValor"] in
  comando ← o_panico_hilo (ComandoInfo.new vector);
  resultado ← ComandoSet.srem comando;
  assert_eq (Int 1) resultado;;
  let set : gset string := ∅ in
  let set := {[ "otroValor" ]} ∪ set in
  r3 ← lock_base (obtener_valor "miClave");
  r4 ← o_panico_hilo r3;
  r5 ← o_panico_hilo r4;
  assert_eq r5 (Conjunto set).

Definition srem_cuando_se_envia_una_clave_invalida_se_envia_el_error_adecuado : Prueba :=
  base_nueva;;
  atomico (guardar_valor "miClave" (Str "unString"));;
  let vector := ["SREM"; "miClave"; "miValor"] in
  comando ← o_panico_hilo (ComandoInfo.new vector);
  resultado ← ComandoSet.srem comando;
  assert_eq (Error "WRONGTYPE Operation against a key holding the wrong kind of value") resultado.

Definition pruebas : list Prueba :=
  [sadd_cuando_se_envia_una_clave_que_no_esta_esta_se_crea_y_se_almacena_correctamente;
   sadd_cuando_se_envia_un_valor_que_esta_repetido_esta_no_se_almacena;
   sadd_cuando_se_envia_una_clave_invalida_se_envia_el_error_adecuado;
   scard_cuando_se_envia_una_clave_que_no_esta_se_devuelve_0_cardinalidad;
   scard_cuando_se_envia_una_clave_que_posee_dos_elementos_se_devuelve_2_de_cardinalidad;
   scard_cuando_se_envia_una_clave_invalida_se_envia_el_error_adecuado;
   sismember_cuando_se_envia_una_clave_que_no_esta_devuelve_0_ya_que_no_pertenece;
   sismember_cuando_se_envia_una_clave_que_posee_dos_elementos_y_se_pregunta_si_uno_de_ellos_pertenece_se_devuelve_1_de_true;
   sismember_cuando_se_envia_una_clave_invalida_se_envia_el_error_adecuado;
   smembers_cuando_se_envia_una_clave_que_no_esta_devuelve_un_vector_vacio;
   smembers_cuando_se_envia_una_clave_invalida_se_envia_el_error_adecuado;
   srem_cuando_se_envia_una_clave_que_no_esta_no_se_elimina_ningun_valor;
   srem_cuando_se_envia_una_clave_que_posee_dos_elementos_y_se_elimina_uno_este_no_se_encuentra;
   srem_cuando_se_envia_una_clave_que_posee_dos_elementos_y_se_eliminan_solo_uno_dos_veces_no_se_encuentra_el_restante;
   srem_cuando_se_envia_una_clave_invalida_se_envia_el_error_adecuado].
End pruebas.

Lemma pruebas_set_aprobadas : forallb aprueba (@pruebas entorno_pruebas) = true.
Proof. vm_compute. reflexivity. Qed.
