(* ===== verification/PruebasKey.v ===== *)
(** * Unit tests (comando_key_handler.rs)

    The tests of the source as programs of [Pruebas], in the order of the files. *)
From S2P Require Import Prelude Rust Datos Efectos Valor ComandoInfo Cliente BaseDeDatos Pruebas.
From S2P Require ComandoKey.

#[local] Open Scope Z_scope.

Section pruebas.
Context `{Entorno}.

Definition copy_copia_el_valor_de_una_clave_en_otra : Prueba :=
  base_nueva;;
  atomico (guardar_valor "clave" (Str "valor"));;
  let comando := ["copy"; "clave"; "otra_clave"] in
  comando ← o_panico_hilo (ComandoInfo.new comando);
  _ ← ComandoKey.copy comando;
  r2 ← lock_base (obtener_valor "otra_clave");
  r3 ← o_panico_hilo r2;
  r4 ← o_panico_hilo r3;
  assert_eq r4 (Str "valor").

Definition copy_copiar_una_clave_que_no_existe_devuelve_un_error : Prueba :=
  base_nueva;;
  let comando := ["copy"; "clave"; "otra_clave"] in
  comando_info ← o_panico_hilo (ComandoInfo.new comando);
  r2 ← ComandoKey.copy comando_info;
  assert_eq r2 (Int 0).

Definition del_elimina_las_claves_guardadas_en_la_base_de_datos : Prueba :=
  base_nueva;;
  atomico (guardar_valor "1" (Str "valor"));;
  atomico (guardar_valor "2" (Str "valor"));;
  atomico (guardar_valor "3" (Lista []));;
  atomico (guardar_valor "4" (Str "valor"));;
  atomico (guardar_valor "5" (Str "valor"));;
  let comando := ["del"; "1"; "2"; "3"; "8"] in
  comando_info ← o_panico_hilo (ComandoInfo.new comando);
  r2 ← ComandoKey.del comando_info;
  assert_eq (Int 3) r2.

Definition del_trata_de_elimina_las_claves_que_no_estan_guardadas_en_la_base_de_datos : Prueba :=
  base_nueva;;
  atomico (guardar_valor "1" (Str "valor"));;
  atomico (guardar_valor "2" (Str "valor"));;
  atomico (guardar_valor "3" (Lista []));;
  atomico (guardar_valor "4" (Str "valor"));;
  atomico (guardar_valor "5" (Str "valor"));;
  let comando := ["del"; "6"; "7"; "8"; "8"] in
  comando_info ← o_panico_hilo (ComandoInfo.new comando);
  r2 ← ComandoKey.del comando_info;
  assert_eq (Int 0) r2.

Definition del_elimina_las_claves_repetidas_que_de_la_base_de_datos : Prueba :=
  base_nueva;;
  atomico (guardar_valor "1" (Str "valor"));;
  atomico (guardar_valor "2" (Str "valor"));;
  atomico (guardar_valor "3" (Lista []));;
  atomico (guardar_valor "4" (Str "valor"));;
  atomico (guardar_valor "5" (Str "valor"));;
  let comando := ["del"; "1"; "1"; "3"; "4"] in
  comando_info ← o_panico_hilo (ComandoInfo.new comando);
  r2 ← ComandoKey.del comando_info;
  assert_eq (Int 3) r2.

Definition existis_chequea_las_claves_guardadas_en_la_base_de_datos : Prueba :=
  base_nueva;;
  atomico (guardar_valor "1" (Str "valor"));;
  atomico (guardar_valor "2" (Str "valor"));;
  atomico (guardar_valor "3" (Lista []));;
  atomico (guardar_valor "4" (Str "valor"));;
  atomico (guardar_valor "5" (Str "valor"));;
  let comando := ["del"; "1"; "2"; "3"; "8"] in
  comando_info ← o_panico_hilo (ComandoInfo.new comando);
  r2 ← ComandoKey.exists_ comando_info;
  assert_eq (Int 3) r2.

Definition existis_chequea_las_claves_repetidas_que_de_la_base_de_datos : Prueba :=
  base_nueva;;
  atomico (guardar_valor "1" (Str "valor"));;
  atomico (guardar_valor "2" (Str "valor"));;
  atomico (guardar_valor "3" (Lista []));;
  atomico (guardar_valor "4" (Str "valor"));;
  atomico (guardar_valor "5" (Str "valor"));;
  let comando := ["del"; "1"; "1"; "3"; "4"] in
  comando_info ← o_panico_hilo (ComandoInfo.new comando);
  r2 ← ComandoKey.del comando_info;
  assert_eq (Int 3) r2.

Definition rename_cambia_modifica_la_clave_pedida : Prueba :=
  base_nueva;;
  atomico (guardar_valor "clave" (Str "valor"));;
  let comando := ["rename"; "clave"; "otra_clave"] in
  comando_info ← o_panico_hilo (ComandoInfo.new comando);
  _ ← ComandoKey.rename comando_info;
  r2 ← lock_base (existe_clave "otra_clave");
  r3 ← o_panico_hilo r2;
  asegurar (r3);;
  r4 ← lock_base (obtener_valor "otra_clave");
  r5 ← o_panico_hilo r4;
  r6 ← o_panico_hilo r5;
  assert_eq r6 (Str "valor");;
  r7 ← lock_base (existe_clave "clave");
  r8 ← o_panico_hilo r7;
  asegurar (negb r8).

Definition tipo_devuelve_el_tipo_del_valor_almacenado_con_esa_clave : Prueba :=
  base_nueva;;
  atomico (guardar_valor "string" (Str "valor"));;
  atomico (guardar_valor "lista" (Lista []));;
  atomico (guardar_valor "set" (Conjunto (∅)));;
  let vec1 := ["type"; "string"] in
  let vec2 := ["type"; "lista"] in
  let vec3 := ["type"; "set"] in
  let vec4 := ["type"; "clave"] in
  comando_info1 ← o_panico_hilo (ComandoInfo.new vec1);
  comando_info2 ← o_panico_hilo (ComandoInfo.new vec2);
  comando_info3 ← o_panico_hilo (ComandoInfo.new vec3);
  comando_info4 ← o_panico_hilo (ComandoInfo.new vec4);
  r5 ← ComandoKey.tipo comando_info1;
  assert_eq r5 (BulkStr "string");;
  r6 ← ComandoKey.tipo comando_info2;
  assert_eq r6 (BulkStr "lista");;
  r7 ← ComandoKey.tipo comando_info3;
  assert_eq r7 (BulkStr "set");;
  r8 ← ComandoKey.tipo comando_info4;
  assert_eq r8 (BulkStr "none").

Definition expire_cuando_se_crea_una_clave_no_expirable_y_se_la_pasa_a_volatil_esta_expira_correctamente : Prueba :=
  base_nueva;;
  atomico (guardar_valor "clave" (Str "valor"));;
  comando ← o_panico_hilo (ComandoInfo.new ["expire"; "clave"; "1"]);
  r2 ← ComandoKey.expire comando;
  assert_eq (Int 1) r2;;
  dormir 2;;
  r3 ← lock_base (existe_clave "clave");
  r4 ← o_panico_hilo r3;
  asegurar (negb r4).

Definition keys_si_se_ingresa_la_siguiente_re_el_resultado_es_el_correcto : Prueba :=
  base_nueva;;
  atomico (guardar_valor "hello" (Str "valor"));;
  atomico (guardar_valor "hallo" (Str "valor"));;
  atomico (guardar_valor "hillo" (Str "valor"));;
  comando ← o_panico_hilo (ComandoInfo.new ["keys"; "h[ae]llo"]);
  valor ← ComandoKey.keys comando;
  let valor := match valor with Vector v => v | _ => [] end in
  asegurar (contiene_igual (BulkStr "hallo") valor);;
  asegurar (contiene_igual (BulkStr "hello") valor).

Definition sort_ordena_los_elementos_numericos_en_una_lista : Prueba :=
  base_nueva;;
  atomico (guardar_valor "mylist" (Lista ["5"; "3"; "4"; "2"]));;
  comando ← o_panico_hilo (ComandoInfo.new ["sort"; "mylist"]);
  valor ← ComandoKey.sort comando;
  assert_eq valor (Vector [StrSimple "2"; StrSimple "3"; StrSimple "4"; StrSimple "5"]).

Definition sort_ordena_los_elementos_alphanumerico_en_una_lista : Prueba :=
  base_nueva;;
  atomico (guardar_valor "mylist" (Lista ["5"; "3"; "a"; "4"; "2"]));;
  comando ← o_panico_hilo (ComandoInfo.new ["sort"; "mylist"; "ALPHA"]);
  valor ← ComandoKey.sort comando;
  assert_eq valor (Vector [StrSimple "2"; StrSimple "3"; StrSimple "4"; StrSimple "5"; StrSimple
      "a"]).

Definition sort_devuelve_un_error_si_no_esta_el_parametro_alpha_en_una_lista_de_palabras : Prueba :=
  base_nueva;;
  atomico (guardar_valor "mylist" (Lista ["a"; "c"; "d"; "z"; "b"]));;
  comando ← o_panico_hilo (ComandoInfo.new ["sort"; "mylist"]);
  valor ← ComandoKey.sort comando;
  assert_eq valor (Error "ERR One or more scores can't be converted into double").

Definition sort_ordena_los_elementos_si_esta_el_parametro_alpha_en_una_lista_de_palabras : Prueba :=
  base_nueva;;
  atomico (guardar_valor "mylist" (Lista ["a"; "c"; "d"; "z"; "b"]));;
  comando ← o_panico_hilo (ComandoInfo.new ["sort"; "mylist"; "ALPHA"]);
  valor ← ComandoKey.sort comando;
  assert_eq valor (Vector [StrSimple "a"; StrSimple "b"; StrSimple "c"; StrSimple "d"; StrSimple
      "z"]).

Definition sort_ordena_los_elementos_en_orden_descendiente_en_una_lista_de_numeros_si_esta_la_clave_desc : Prueba :=
  base_nueva;;
  atomico (guardar_valor "mylist" (Lista ["5"; "3"; "4"; "2"]));;
  comando ← o_panico_hilo (ComandoInfo.new ["sort"; "mylist"; "DESC"]);
  valor ← ComandoKey.sort comando;
  assert_eq valor (Vector [StrSimple "5"; StrSimple "4"; StrSimple "3"; StrSimple "2"]).

Definition sort_ordena_los_elementos_en_una_lista_de_numeros_con_el_rango_pedido : Prueba :=
  base_nueva;;
  atomico (guardar_valor "mylist" (Lista ["5"; "3"; "4"; "2"]));;
  comando ← o_panico_hilo (ComandoInfo.new ["sort"; "mylist"; "LIMIT"; "0"; "2"]);
  valor ← ComandoKey.sort comando;
  assert_eq valor (Vector [StrSimple "2"; StrSimple "3"]).

Definition sort_ordena_los_elementos_en_una_lista_de_numeros_con_otro_rango : Prueba :=
  base_nueva;;
  atomico (guardar_valor "mylist" (Lista ["5"; "3"; "4"; "2"; "6"]));;
  comando ← o_panico_hilo (ComandoInfo.new ["sort"; "mylist"; "LIMIT"; "-2"; "8"]);
  valor ← ComandoKey.sort comando;
  assert_eq valor (Vector [StrSimple "2"; StrSimple "3"; StrSimple "4"; StrSimple "5"; StrSimple
      "6"]).

Definition sort_ordena_los_elementos_en_una_lista_de_numeros_con_rango_uno : Prueba :=
  base_nueva;;
  atomico (guardar_valor "mylist" (Lista ["5"; "3"; "4"; "2"; "6"]));;
  comando ← o_panico_hilo (ComandoInfo.new ["sort"; "mylist"; "LIMIT"; "2"; "2"]);
  valor ← ComandoKey.sort comando;
  assert_eq valor (Vector [StrSimple "4"; StrSimple "5"]).

Definition sort_ordena_los_elementos_en_una_lista_de_numeros_con_rango_menos_uno_menos_diez : Prueba :=
  base_nueva;;
  atomico (guardar_valor "mylist" (Lista ["5"; "3"; "4"; "2"; "6"]));;
  comando ← o_panico_hilo (ComandoInfo.new ["sort"; "mylist"; "LIMIT"; "-1"; "-10"]);
  valor ← ComandoKey.sort comando;
  assert_eq valor (Vector [StrSimple "2"; StrSimple "3"; StrSimple "4"; StrSimple "5"; StrSimple
      "6"]).

Definition sort_devuelve_una_lista_vacia_si_el_valor_no_existes : Prueba :=
  base_nueva;;
  comando ← o_panico_hilo (ComandoInfo.new ["sort"; "mylist"; "LIMIT"; "0"; "2"]);
  valor ← ComandoKey.sort comando;
  assert_eq valor (Vector []).

Definition sort_ordena_los_elementos_en_una_lista_con_pesos_externos : Prueba :=
  base_nueva;;
  atomico (guardar_valor "peso_2" (Str "2"));;
  atomico (guardar_valor "peso_3" (Str "3"));;
  atomico (guardar_valor "peso_4" (Str "4"));;
  atomico (guardar_valor "peso_5" (Str "5"));;
  atomico (guardar_valor "peso_6" (Str "6"));;
  atomico (guardar_valor "mylist" (Lista ["objeto_5"; "objeto_3"; "objeto_4"; "objeto_2";
      "objeto_6"]));;
  comando ← o_panico_hilo (ComandoInfo.new ["sort"; "mylist"; "BY"; "peso_*"]);
  valor ← ComandoKey.sort comando;
  assert_eq valor (Vector [StrSimple "objeto_2"; StrSimple "objeto_3"; StrSimple "objeto_4";
      StrSimple "objeto_5"; StrSimple "objeto_6"]).

Definition sort_ordena_los_elementos_en_una_lista_con_pesos_externos_faltantes : Prueba :=
  base_nueva;;
  atomico (guardar_valor "peso_3" (Str "3"));;
  atomico (guardar_valor "peso_4" (Str "4"));;
  atomico (guardar_valor "peso_5" (Str "5"));;
  atomico (guardar_valor "peso_6" (Str "6"));;
  atomico (guardar_valor "mylist" (Lista ["objeto_5"; "objeto_3"; "objeto_4"; "objeto_2";
      "objeto_6"]));;
  comando ← o_panico_hilo (ComandoInfo.new ["sort"; "mylist"; "BY"; "peso_*"]);
  valor ← ComandoKey.sort comando;
  assert_eq valor (Vector [StrSimple "objeto_5"; StrSimple "objeto_3"; StrSimple "objeto_4";
      StrSimple "objeto_2"; StrSimple "objeto_6"]).

Definition sort_ordena_los_elementos_en_una_lista_con_todos_pesos_externos_faltantes : Prueba :=
  base_nueva;;
  atomico (guardar_valor "mylist" (Lista ["objeto_5"; "objeto_3"; "objeto_4"; "objeto_2";
      "objeto_6"]));;
  comando ← o_panico_hilo (ComandoInfo.new ["sort"; "mylist"; "BY"; "peso_*"]);
  valor ← ComandoKey.sort comando;
  assert_eq valor (Vector [StrSimple "objeto_5"; StrSimple "objeto_3"; StrSimple "objeto_4";
      StrSimple "objeto_2"; StrSimple "objeto_6"]).

Definition sort_ordena_los_elementos_y_devuelve_los_objetos_que_representan_las_ids : Prueba :=
  base_nueva;;
  atomico (guardar_valor "peso_1" (Str "1"));;
  atomico (guardar_valor "peso_2" (Str "2"));;
  atomico (guardar_valor "peso_3" (Str "3"));;
  atomico (guardar_valor "peso_4" (Str "4"));;
  atomico (guardar_valor "peso_5" (Str "5"));;
  atomico (guardar_valor "objeto_1" (Str "primero"));;
  atomico (guardar_valor "objeto_2" (Str "segundo"));;
  atomico (guardar_valor "objeto_3" (Str "tercero"));;
  atomico (guardar_valor "objeto_4" (Str "cuarto"));;
  atomico (guardar_valor "objeto_5" (Str "quinto"));;
  atomico (guardar_valor "mylist" (Lista ["objeto_2"; "objeto_5"; "objeto_4"; "objeto_3";
      "objeto_1"]));;
  comando ← o_panico_hilo (ComandoInfo.new ["sort"; "mylist"; "BY"; "peso_*"; "GET"; "objeto_*"]);
  valor ← ComandoKey.sort comando;
  assert_eq valor (Vector [StrSimple "primero"; StrSimple "segundo"; StrSimple "tercero";
      StrSimple "cuarto"; StrSimple "quinto"]).

Definition sort_ordena_por_pesos_externos_los_elementos_los_guarda_con_la_clave_dada : Prueba :=
  base_nueva;;
  atomico (guardar_valor "peso_1" (Str "1"));;
  atomico (guardar_valor "peso_2" (Str "2"));;
  atomico (guardar_valor "peso_3" (Str "3"));;
  atomico (guardar_valor "peso_4" (Str "4"));;
  atomico (guardar_valor "peso_5" (Str "5"));;
  atomico (guardar_valor "mylist" (Lista ["objeto_2"; "objeto_5"; "objeto_4"; "objeto_3";
      "objeto_1"]));;
  comando ← o_panico_hilo (ComandoInfo.new ["sort"; "mylist"; "BY"; "peso_*"; "STORE";
      "ordenados"]);
  r2 ← ComandoKey.sort comando;
  assert_eq (StrSimple "5") r2;;
  r3 ← lock_base (obtener_valor "ordenados");
  r4 ← o_panico_hilo r3;
  assert_eq (Some (Lista ["objeto_1"; "objeto_2"; "objeto_3"; "objeto_4"; "objeto_5"])) r4.

Definition pruebas : list Prueba :=
  [copy_copia_el_valor_de_una_clave_en_otra;
   copy_copiar_una_clave_que_no_existe_devuelve_un_error;
   del_elimina_las_claves_guardadas_en_la_base_de_datos;
   del_trata_de_elimina_las_claves_que_no_estan_guardadas_en_la_base_de_datos;
   del_elimina_las_claves_repetidas_que_de_la_base_de_datos;
   existis_chequea_las_claves_guardadas_en_la_base_de_datos;
   existis_chequea_las_claves_repetidas_que_de_la_base_de_datos;
   rename_cambia_modifica_la_clave_pedida;
   tipo_devuelve_el_tipo_del_valor_almacenado_con_esa_clave;
   expire_cuando_se_crea_una_clave_no_expirable_y_se_la_pasa_a_volatil_esta_expira_correctamente;
   keys_si_se_ingresa_la_siguiente_re_el_resultado_es_el_correcto;
   sort_ordena_los_elementos_numericos_en_una_lista;
   sort_ordena_los_elementos_alphanumerico_en_una_lista;
   sort_devuelve_un_error_si_no_esta_el_parametro_alpha_en_una_lista_de_palabras;
   sort_ordena_los_elementos_si_esta_el_parametro_alpha_en_una_lista_de_palabras;
   sort_ordena_los_elementos_en_orden_descendiente_en_una_lista_de_numeros_si_esta_la_clave_desc;
   sort_ordena_los_elementos_en_una_lista_de_numeros_con_el_rango_pedido;
   sort_ordena_los_elementos_en_una_lista_de_numeros_con_otro_rango;
   sort_ordena_los_elementos_en_una_lista_de_numeros_con_rango_uno;
   sort_ordena_los_elementos_en_una_lista_de_numeros_con_rango_menos_uno_menos_diez;
   sort_devuelve_una_lista_vacia_si_el_valor_no_existes;
   sort_ordena_los_elementos_en_una_lista_con_pesos_externos;
   sort_ordena_los_elementos_en_una_lista_con_pesos_externos_faltantes;
   sort_ordena_los_elementos_en_una_lista_con_todos_pesos_externos_faltantes;
   sort_ordena_los_elementos_y_devuelve_los_objetos_que_representan_las_ids;
   sort_ordena_por_pesos_externos_los_elementos_los_guarda_con_la_clave_dada].
End pruebas.

Lemma pruebas_key_aprobadas : forallb aprueba (@pruebas entorno_pruebas) = true.
Proof. vm_compute. reflexivity. Qed.
