(* ===== verification/PruebasBase.v ===== *)
(** * Unit tests (base_de_datos.rs, valor.rs, persistencia.rs)

    The tests of the source as programs of [Pruebas], in the order of the files. *)
From S2P Require Import Prelude Rust Datos Efectos Valor ComandoInfo Cliente BaseDeDatos Pruebas.
From S2P Require Persistencia.

#[local] Open Scope Z_scope.

Section pruebas.
Context `{Entorno}.

(** ** base_de_datos.rs *)

Definition base_de_datos_devuelve_una_copia_de_un_elemento_almacenado : Prueba :=
  base_nueva;;
  atomico (guardar_valor "clave" (Str "valor"));;
  valor ← atomico (obtener_valor "clave");
  r2 ← o_panico_hilo valor;
  assert_eq (Str "valor") r2.

Definition base_de_datos_elimina_valor_almacenado : Prueba :=
  base_nueva;;
  atomico (guardar_valor "clave" (Str "valor"));;
  r1 ← atomico (existe_clave "clave");
  asegurar (r1);;
  atomico (eliminar_clave "clave");;
  r2 ← atomico (existe_clave "clave");
  asegurar (negb r2).

Definition si_se_guarda_una_clave_que_expira_en_1_segundo_cuando_se_la_quiere_recuperar_no_se_encuentra : Prueba :=
  base_nueva;;
  atomico (guardar_valor_con_expiracion "clave" 1 (Str "valor"));;
  dormir 2;;
  r1 ← atomico (obtener_valor "clave");
  assert_eq None r1.

(** ** valor.rs *)

Definition cuando_se_crea_una_valor_no_expirable_este_no_expira_nunca : Prueba :=
  r1 ← instante;
  let valor := no_expirable r1 (Str "miClave") in
  r2 ← instante;
  asegurar (negb (expiro r2 valor)).

Definition cuando_se_espera_mas_tiempo_del_que_se_dijo_que_una_clave_expiraba_la_clave_efectivamente_esta_espirada : Prueba :=
  r1 ← instante;
  let valor := expirable r1 (Str "miClave") 1 in
  dormir 2;;
  r2 ← instante;
  asegurar (expiro r2 valor).

(** ** persistencia.rs *)

Definition inserto_varios_strings_en_hash_map_y_guardar_clave_valor_devuelve_el_mensaje_para_volver_a_cargarlos : Prueba :=
  let map : gmap string Valor := ∅ in
  r1 ← instante;
  let map := <["UnaClave1" := no_expirable r1 (Str "UnValor")]> map in
  r2 ← instante;
  let map := <["UnaClave2" := no_expirable r2 (Str "UnValor")]> map in
  r3 ← instante;
  let map := <["UnaClave3" := no_expirable r3 (Str "UnValor")]> map in
  t ← instante;
  let vector := (λ '(key, val), Persistencia.guardar_clave_valor 0 key (Valor.get t val)
      (get_tiempo val)) <$> orden_iteracion 0 (map_to_list map) in
  asegurar (contiene_igual "STRING:UnaClave1:UnValor" vector);;
  asegurar (contiene_igual "STRING:UnaClave2:UnValor" vector);;
  asegurar (contiene_igual "STRING:UnaClave3:UnValor" vector).

Definition inserto_varios_tipo_redis_en_hash_map_y_guardar_clave_valor_devuelve_el_mensaje_para_volver_a_cargarlos : Prueba :=
  let map : gmap string Valor := ∅ in
  r1 ← instante;
  let map := <["UnaClave1" := no_expirable r1 (Str "UnValor")]> map in
  r2 ← instante;
  let map := <["UnaClave2" := no_expirable r2 (Str "UnValor")]> map in
  let lista := Lista [] in
  let lista := match lista with Lista l => Lista (l ++ ["PRIMER_VALOR"; "SEGUNDO_VALOR";
      "TERCER_VALOR"]) | x => x end in
  r3 ← instante;
  let map := <["milista" := no_expirable r3 lista]> map in
  t ← instante;
  let vector := (λ '(key, val), Persistencia.guardar_clave_valor 0 key (Valor.get t val)
      (get_tiempo val)) <$> orden_iteracion 0 (map_to_list map) in
  asegurar (contiene_igual "STRING:UnaClave1:UnValor" vector);;
  asegurar (contiene_igual "STRING:UnaClave2:UnValor" vector);;
  asegurar (contiene_igual "LIST:milista:PRIMER_VALOR:SEGUNDO_VALOR:TERCER_VALOR" vector).

Definition inserto_varios_strings_con_persistencia_en_hash_map_y_guardar_clave_valor_devuelve_el_mensaje_para_volver_a_cargarlos : Prueba :=
  let map : gmap string Valor := ∅ in
  r1 ← instante;
  let map := <["UnaClave1" := expirable r1 (Str "UnValor") 3000]> map in
  r2 ← instante;
  let map := <["UnaClave2" := expirable r2 (Str "UnValor") 3000]> map in
  r3 ← instante;
  let map := <["UnaClave3" := expirable r3 (Str "UnValor") 3000]> map in
  let lista := Lista [] in
  let lista := match lista with Lista l => Lista (l ++ ["PRIMER_VALOR"; "SEGUNDO_VALOR";
      "TERCER_VALOR"]) | x => x end in
  r4 ← instante;
  let map := <["milista" := expirable r4 lista 4500]> map in
  t ← instante;
  let vector := (λ '(key, val), Persistencia.guardar_clave_valor 0 key (Valor.get t val)
      (get_tiempo val)) <$> orden_iteracion 0 (map_to_list map) in
  asegurar (contiene_igual "STRING:UnaClave1:UnValor:EX:3000" vector);;
  asegurar (contiene_igual "STRING:UnaClave2:UnValor:EX:3000" vector);;
  asegurar (contiene_igual "STRING:UnaClave3:UnValor:EX:3000" vector);;
  asegurar (contiene_igual "LIST:milista:PRIMER_VALOR:SEGUNDO_VALOR:TERCER_VALOR:EX:4500" vector).

Definition pruebas : list Prueba :=
  [base_de_datos_devuelve_una_copia_de_un_elemento_almacenado;
   base_de_datos_elimina_valor_almacenado;
   si_se_guarda_una_clave_que_expira_en_1_segundo_cuando_se_la_quiere_recuperar_no_se_encuentra;
   cuando_se_crea_una_valor_no_expirable_este_no_expira_nunca;
   cuando_se_espera_mas_tiempo_del_que_se_dijo_que_una_clave_expiraba_la_clave_efectivamente_esta_espirada;
   inserto_varios_strings_en_hash_map_y_guardar_clave_valor_devuelve_el_mensaje_para_volver_a_cargarlos;
   inserto_varios_tipo_redis_en_hash_map_y_guardar_clave_valor_devuelve_el_mensaje_para_volver_a_cargarlos;
   inserto_varios_strings_con_persistencia_en_hash_map_y_guardar_clave_valor_devuelve_el_mensaje_para_volver_a_cargarlos].
End pruebas.

Lemma pruebas_base_aprobadas : forallb aprueba (@pruebas entorno_pruebas) = true.
Proof. vm_compute. reflexivity. Qed.
