(* ===== verification/PruebasProtocolo.v ===== *)
(** * Unit tests (comando_info.rs, parser.rs, http_parser.rs, comando_http.rs)

    The tests of the source as programs of [Pruebas], in the order of the files. *)
From S2P Require Import Prelude Rust Datos Efectos Valor ComandoInfo Cliente BaseDeDatos Pruebas.
From S2P Require Parser HttpParser.

#[local] Open Scope Z_scope.

Section pruebas.
Context `{Entorno}.

(** ** comando_info.rs *)

Definition comando_info_devuelve_correctamente_todos_los_parametros : Prueba :=
  let parametros := ["GET"; "clave"; "arg1"; "arg2"; "arg3"; "arg4"] in
  comando_info ← o_panico_hilo (ComandoInfo.new parametros);
  let '(r2, comando_info) := get_clave comando_info in
  assert_eq (Some "clave") r2;;
  let '(r3, comando_info) := get_parametro comando_info in
  assert_eq (Some "arg1") r3;;
  let '(r4, comando_info) := get_parametro comando_info in
  assert_eq (Some "arg2") r4;;
  let '(r5, comando_info) := get_parametro comando_info in
  assert_eq (Some "arg3") r5;;
  let '(r6, comando_info) := get_parametro comando_info in
  assert_eq (Some "arg4") r6;;
  let '(r7, comando_info) := get_parametro comando_info in
  assert_eq None r7.

Definition comando_info_devuelve_una_descripcion_en_forma_de_string_sobre_el_comando : Prueba :=
  let parametros := ["GET"; "clave"; "arg1"; "arg2"; "arg3"; "arg4"] in
  comando_info ← o_panico_hilo (ComandoInfo.new parametros);
  assert_eq "GET clave arg1 arg2 arg3 arg4" (descripcion comando_info).

Definition comando_info_devuelve_una_lista_con_todos_los_parametros : Prueba :=
  let parametros := ["MGET"; "clave1"; "clave2"; "clave3"; "clave4"; "clave5"] in
  comando_info ← o_panico_hilo (ComandoInfo.new parametros);
  assert_eq (Some ["clave1"; "clave2"; "clave3"; "clave4"; "clave5"]) (get_parametros comando_info).

(** ** parser.rs *)

Definition cuando_se_recibe_un_mensaje_de_ping_este_se_parsea_y_se_devuelve_el_comando_correcto : Prueba :=
  let stream := ("*1" +:+ CRLF +:+ "$4" +:+ CRLF +:+ "PING" +:+ CRLF) in
  resultado ← analizar (Parser.parsear_stream stream);
  assert_eq (get_nombre resultado) "PING";;
  let '(r2, resultado) := get_clave resultado in
  assert_eq r2 None;;
  let '(r3, resultado) := get_parametro resultado in
  assert_eq r3 None.

Definition cuando_se_recibe_un_mensaje_de_llen_este_se_parsea_y_se_devuelve_el_comando_correcto : Prueba :=
  let stream := ("*2" +:+ CRLF +:+ "$4" +:+ CRLF +:+ "LLEN" +:+ CRLF +:+ "$6" +:+ CRLF +:+
      "mylist" +:+ CRLF) in
  resultado ← analizar (Parser.parsear_stream stream);
  assert_eq (get_nombre resultado) "LLEN";;
  let '(r2, resultado) := get_clave resultado in
  assert_eq r2 (Some "mylist");;
  let '(r3, resultado) := get_parametro resultado in
  assert_eq r3 None.

Definition cuando_se_recibe_un_mensaje_de_sort_este_se_parsea_y_se_devuelve_el_comando_correcto : Prueba :=
  let stream := ("*7" +:+ CRLF +:+ "$4" +:+ CRLF +:+ "SORT" +:+ CRLF +:+ "$6" +:+ CRLF +:+
      "mylist" +:+ CRLF +:+ "$5" +:+ CRLF +:+ "LIMIT" +:+ CRLF +:+ "$1" +:+ CRLF +:+ "0" +:+ CRLF
      +:+ "$1" +:+ CRLF +:+ "5" +:+ CRLF +:+ "$5" +:+ CRLF +:+ "ALPHA" +:+ CRLF +:+ "$4" +:+ CRLF
      +:+ "DESC" +:+ CRLF) in
  resultado ← analizar (Parser.parsear_stream stream);
  assert_eq (get_nombre resultado) "SORT";;
  let '(r2, resultado) := get_clave resultado in
  assert_eq r2 (Some "mylist");;
  let '(r3, resultado) := get_parametro resultado in
  assert_eq r3 (Some "LIMIT");;
  let '(r4, resultado) := get_parametro resultado in
  assert_eq r4 (Some "0");;
  let '(r5, resultado) := get_parametro resultado in
  assert_eq r5 (Some "5");;
  let '(r6, resultado) := get_parametro resultado in
  assert_eq r6 (Some "ALPHA");;
  let '(r7, resultado) := get_parametro resultado in
  assert_eq r7 (Some "DESC").

Definition cuando_se_manda_un_mensaje_vacio_se_lanza_un_parser_error_de_tipo_mensaje_vacio : Prueba :=
  let stream := "" in
  error ← analizar_error (Parser.parsear_stream stream);
  assert_eq error Parser.MensajeVacioError.

Definition cuando_se_manda_un_mensaje_con_un_error_de_sintaxis_se_lanza_un_redis_syntax_error : Prueba :=
  let stream := ("++" +:+ CRLF +:+ "$4" +:+ CRLF) in
  error ← analizar_error (Parser.parsear_stream stream);
  assert_eq error Parser.RedisSyntaxError.

Definition cuando_se_envia_un_resultado_redis_simple_string_envia_un_string_correcto : Prueba :=
  let resultado := StrSimple "Ok" in
  assert_eq (Parser.parsear_respuesta resultado) (("+Ok" +:+ CRLF)).

Definition cuando_se_envia_un_resultado_redis_bulk_strings_se_parsea_correctamente : Prueba :=
  let resultado := BulkStr "foo" in
  assert_eq (Parser.parsear_respuesta resultado) (("$3" +:+ CRLF +:+ "foo" +:+ CRLF)).

Definition cuando_se_envia_un_resultado_redis_int_se_parsea_correctamente : Prueba :=
  let resultado := Int 55 in
  assert_eq (Parser.parsear_respuesta resultado) ((":55" +:+ CRLF)).

Definition cuando_se_envia_un_resultado_redis_vector_de_ints_se_parsea_correctamente : Prueba :=
  let resultado := Vector [Int 1; Int 2] in
  assert_eq (Parser.parsear_respuesta resultado) (("*2" +:+ CRLF +:+ ":1" +:+ CRLF +:+ ":2" +:+
      CRLF)).

Definition cuando_se_envia_un_resultado_redis_vector_de_resultados_se_parsea_correctamente : Prueba :=
  let resultado := Vector [Int 1; Int 2; Int 3; Int 4; BulkStr "foobar"] in
  assert_eq (Parser.parsear_respuesta resultado) (("*5" +:+ CRLF +:+ ":1" +:+ CRLF +:+ ":2" +:+
      CRLF +:+ ":3" +:+ CRLF +:+ ":4" +:+ CRLF +:+ "$6" +:+ CRLF +:+ "foobar" +:+ CRLF)).

Definition a : Prueba :=
  let stream := ("*3" +:+ CRLF +:+ "$3" +:+ CRLF +:+ "SET" +:+ CRLF +:+ "$7" +:+ CRLF +:+
      "catedra" +:+ CRLF +:+ "$18" +:+ CRLF +:+ "TallerProgramacion" +:+ CRLF) in
  resultado ← analizar (Parser.parsear_stream stream);
  assert_eq (get_nombre resultado) "SET";;
  let '(r2, resultado) := get_clave resultado in
  assert_eq r2 (Some "catedra");;
  let '(r3, resultado) := get_parametro resultado in
  assert_eq r3 (Some "TallerProgramacion").

(** ** http_parser.rs *)

Definition comando_http_parsea_bien_el_metodo_get : Prueba :=
  let stream := ("GET /hello.htm HTTP/1.1" +:+ CRLF +:+
      "User-Agent: Mozilla/4.0 (compatible; MSIE5.01; Windows NT)" +:+ CRLF +:+
      "Host: www.tutorialspoint.com" +:+ CRLF +:+ "Accept-Language: en-us" +:+ CRLF +:+
      "Accept-Encoding: gzip, deflate" +:+ CRLF +:+ "Connection: Keep-Alive" +:+ CRLF +:+ CRLF) in
  comando ← analizar (HttpParser.parsear_stream (Some stream));
  assert_eq "GET" (HttpParser.get_metodo comando);;
  asegurar (bool_decide (HttpParser.get_comando comando = None)).

Definition comando_http_parsea_bien_el_metodo_post_obteniendo_el_comando_set_key_1 : Prueba :=
  let stream := ("POST / HTTP/1.1" +:+ CRLF +:+ "Host: foo.com" +:+ CRLF +:+
      "Content-Type: application/x-www-form-urlencoded" +:+ CRLF +:+ "Content-Length: 13" +:+ CRLF
      +:+ CRLF +:+ "comando=set+key+1") in
  comando ← analizar (HttpParser.parsear_stream (Some stream));
  assert_eq "POST" (HttpParser.get_metodo comando);;
  r2 ← o_panico_hilo (HttpParser.get_comando comando);
  assert_eq "SET" (get_nombre r2).

Definition comando_http_parsea_bien_el_metodo_get_con_mas_headers : Prueba :=
  let stream := ("GET / HTTP/1.1" +:+ CRLF +:+ "Host: 127.0.0.1:8080" +:+ CRLF +:+
      "Connection: keep-alive" +:+ CRLF +:+ "Cache-Control: max-age=0" +:+ CRLF +:+
      "sec-ch-ua: ' Not A;Brand';v='99', 'Chromium';v='92'" +:+ CRLF +:+ "sec-ch-ua-mobile: ?0"
      +:+ CRLF +:+ "Upgrade-Insecure-Requests: 1" +:+ CRLF +:+
      "User-Agent: Mozilla/5.0 (X11; Linux x86_64) AppleWebKit/537.36 (KHTML, like Gecko) Chrome/92.0.4515.107 Safari/537.36"
      +:+ CRLF +:+
      "Accept: text/html,application/xhtml+xml,application/xml;q=0.9,image/avif,image/webp,image/apng,*/*;q=0.8,application/signed-exchange;v=b3;q=0.9"
      +:+ CRLF +:+ "Sec-Fetch-Site: none" +:+ CRLF +:+ "Sec-Fetch-Mode: navigate" +:+ CRLF +:+
      "Sec-Fetch-User: ?1" +:+ CRLF +:+ "Sec-Fetch-Dest: document" +:+ CRLF +:+
      "Accept-Encoding: gzip, deflate, br" +:+ CRLF +:+
      "Accept-Language: es-419,es;q=0.9,en;q=0.8" +:+ CRLF +:+
      "Cookie: _xsrf=2|e2fa887a|143bb4d760e3f93ddf62f00d31f52215|1626138365; username-127-0-0-1-8888='2|1:0|10:1627770495|23:username-127-0-0-1-8888|44:ZmViN2NkZDcxM2YyNGQ3NzkzOTVjZjkxZDA0ZjBmNjM=|155cba90c7e7bc1b8f94b9505143b6d57153add6b773957f373328a688fd5cef"
      +:+ CRLF +:+ CRLF +:+ CRLF) in
  comando ← analizar (HttpParser.parsear_stream (Some stream));
  assert_eq "GET" (HttpParser.get_metodo comando);;
  asegurar (bool_decide (HttpParser.get_comando comando = None)).

(** ** comando_http.rs *)

Definition comando_http_devuelve_correctamente_todos_los_parametros : Prueba :=
  let metodo := ["GET"; "/"; "HTTP/1.1"] in
  let comando_redis := ["GET"; "clave"; "arg1"; "arg2"; "arg3"; "arg4"] in
  comando_http ← o_panico_hilo (HttpParser.new_http metodo [] comando_redis);
  assert_eq "GET" (HttpParser.get_metodo comando_http);;
  r2 ← o_panico_hilo (HttpParser.get_comando comando_http);
  let '(r3, r2) := get_clave r2 in
  assert_eq (Some "clave") r3.

Definition comando_http_devuelve_el_argumento_correctamente : Prueba :=
  let metodo := ["GET"; "/favicon.ico"; "HTTP/1.1"] in
  let comando_redis := ["GET"; "clave"; "arg1"; "arg2"; "arg3"; "arg4"] in
  comando_http ← o_panico_hilo (HttpParser.new_http metodo [] comando_redis);
  assert_eq (Some "/favicon.ico") (HttpParser.get_argumento comando_http).

Definition pruebas : list Prueba :=
  [comando_info_devuelve_correctamente_todos_los_parametros;
   comando_info_devuelve_una_descripcion_en_forma_de_string_sobre_el_comando;
   comando_info_devuelve_una_lista_con_todos_los_parametros;
   cuando_se_recibe_un_mensaje_de_ping_este_se_parsea_y_se_devuelve_el_comando_correcto;
   cuando_se_recibe_un_mensaje_de_llen_este_se_parsea_y_se_devuelve_el_comando_correcto;
   cuando_se_recibe_un_mensaje_de_sort_este_se_parsea_y_se_devuelve_el_comando_correcto;
   cuando_se_manda_un_mensaje_vacio_se_lanza_un_parser_error_de_tipo_mensaje_vacio;
   cuando_se_manda_un_mensaje_con_un_error_de_sintaxis_se_lanza_un_redis_syntax_error;
   cuando_se_envia_un_resultado_redis_simple_string_envia_un_string_correcto;
   cuando_se_envia_un_resultado_redis_bulk_strings_se_parsea_correctamente;
   cuando_se_envia_un_resultado_redis_int_se_parsea_correctamente;
   cuando_se_envia_un_resultado_redis_vector_de_ints_se_parsea_correctamente;
   cuando_se_envia_un_resultado_redis_vector_de_resultados_se_parsea_correctamente;
   a;
   comando_http_parsea_bien_el_metodo_get;
   comando_http_parsea_bien_el_metodo_post_obteniendo_el_comando_set_key_1;
   comando_http_parsea_bien_el_metodo_get_con_mas_headers;
   comando_http_devuelve_correctamente_todos_los_parametros;
   comando_http_devuelve_el_argumento_correctamente].
End pruebas.

Lemma pruebas_protocolo_aprobadas : forallb aprueba (@pruebas entorno_pruebas) = true.
Proof. vm_compute. reflexivity. Qed.
